(* ===== verification/_CoqProject ===== *)
-Q . S2P
Prelude.v
Time.v
Errors.v
Replay.v
Crypto.v
ToyCrypto.v
Packet.v
Session.v
Handshake.v
HandshakeFacts.v
RateLimiter.v
Timers.v
Tunn.v
TunnFacts.v
TunnProps.v
Channel.v
Rekey.v
Stats.v
Text.v
Redact.v
Ip.v
Json.v
Proto.v
Token.v
Config.v
Tls.v
Wg.v
Holepunch.v
Ws.v
Target.v
Sm.v
Router.v
Icmp.v
Netstack.v
Bridge.v
DataPlane.v
Plane.v
EndToEnd.v
Connector.v
Userspace.v
Tun.v
Netlink.v
OlmProto.v
Olm.v
OlmFacts.v
KeyBytes.v
Main.v
