(* ===== verification/Prelude.v ===== *)
(** * A verification library for the tunnel program

    ** The program

    The repository is a connector ("newt", the site role) and a client ("olm")
    for a self-hosted tunnel service, in one executable. Its parts:

    - [crates/boringtun]: the WireGuard protocol without I/O. A tunnel ([Tunn])
      turns IP packets into datagrams and back; it owns the Noise handshake, a
      ring of eight sessions with their replay windows, a rate limiter with
      cookies, and the protocol's timers.
    - [crates/newt-core]: the messages of the control channel, the state machine
      that a site goes through to register, and the notation of targets.
    - [crates/newt]: everything with I/O around them. A role reads the
      configuration, gets a token over HTTP, opens a WebSocket to the server and
      runs a loop over messages, ticks and packets. The site role decrypts what
      arrives from its exit node, feeds it to a userspace network stack and
      bridges the TCP connections found there to local targets. The client role
      routes packets of the host to one of many peers by longest prefix, with a
      userspace or a kernel backend for the host's side.

    ** Files and what they model

    Paths are relative to [crates/]. Each definition carries the name of the
    function it models, prefixed by its type where Rust's namespaces allowed a
    name twice ([Tunn_new], [Router_tick]).

    - [Prelude]: bytes as lists of [Z], wrapping integers, [outcome] (value,
      panic, exhausted loop), [while] with fuel, slices and indices that panic
      out of range, the width of [usize], tactics and hints.
    - [Time] ([boringtun/src/sleepyinstant]): the monad [M] over a [World] that
      supplies clock readings and random bytes, and [safe], total correctness
      in it. [Errors] ([noise/errors.rs]).
    - [Replay], [Session] ([noise/session.rs]): the replay window with its three
      clearing loops, and the sealing and opening of data packets.
    - [Crypto], [ToyCrypto]: the primitives as a type class with laws, and an
      instance that satisfies them, for the witnesses.
    - [Packet] ([noise/mod.rs]): parsing of datagrams. [Handshake],
      [HandshakeFacts] ([noise/handshake.rs]): the handshake and its theorems.
    - [RateLimiter] ([noise/rate_limiter.rs]), [Timers] ([noise/timers.rs]),
      [Tunn], [TunnFacts], [TunnProps] ([noise/mod.rs], [noise/timers.rs]): the
      whole tunnel, its invariant, and what two tunnels do together. [Channel]:
      two tunnels and a network that loses, repeats, reorders and forges
      datagrams, with the specification such a channel refines. [Rekey]: the same two tunnels
      changing keys with packets in flight. [Stats] ([estimate_loss] and
      [stats] of [noise/mod.rs]).
    - [Text], [Ip]: the string and address functions of the standard library.
      [Redact]: the debug output of keys, handshakes and sessions.
    - [Json], [Proto]: JSON values with the conversions that derived
      deserialisers make, and the messages of [newt-core/src/proto.rs].
    - [Sm] ([newt-core/src/sm.rs]), [Target] ([newt-core/src/target.rs]).
    - [Token], [Ws], [Tls] ([newt/src/transport]): the token request, the
      WebSocket, and which servers are trusted.
    - [Config] ([newt/src/config.rs], [log.rs]), [Main] ([main.rs]): the settings,
      and the whole program with both roles, signals and exit status.
    - [Wg] ([newt/src/wg.rs]): the pump around a tunnel and the drain loop.
    - [Holepunch] ([newt/src/holepunch.rs], [olm/holepunch.rs]).
    - [Netstack], [Bridge], [DataPlane], [Icmp], [Plane], [Connector]
      ([newt/src/netstack.rs], [proxy.rs], [tunnel.rs]): the site role from the
      virtual device up to the reconnecting outer loop.
    - [Router], [Userspace], [Tun], [Netlink], [OlmProto], [Olm], [OlmFacts]
      ([newt/src/olm]): the client role. [EndToEnd]: each role together with the
      tunnel at the other end of its link. [KeyBytes]
      ([boringtun/src/serialization.rs]).

    State is passed explicitly: an operation on [&mut self] takes the record and
    returns it with the result. What other programs decide (arriving datagrams,
    answers of sockets and of the kernel, resolved names) is an argument, so the
    theorems quantify over it. A [select!] loop is a list of turns, each the
    branch that was taken with its input; this is every order in which the
    branches can win. A spawned task takes steps of its own between the turns of
    the loop: that of a bridged connection dials, takes a chunk, writes it piece
    by piece, reads a chunk and waits for room to hand it on ([Bridge.Task]).

    ** What the theorems show

    - WireGuard: both ends of a handshake agree on keys and on each other;
      a first packet is delivered through handshake and queue; data round trips;
      whatever the network loses, repeats, reorders or forges, each packet comes
      out unchanged and at most once, and it does come out if its datagram
      arrives within the window; a change of keys loses nothing that is in flight;
      replays of packets and of initiations are refused; nonces do not repeat;
      a message that fails changes nothing; the replay bitmap refines a set of
      counters; timers rekey, retransmit, expire and wipe; the limiter bounds
      the rate of admitted handshakes and its cookie admits an honest sender;
      the statistics stay in their ranges.
    - No panics: every sequence of operations of a tunnel, of the router, of the
      data plane, of the userspace backend, and whole sessions of both roles
      return, given datagrams that fit their buffers; so does the whole program
      once its runtime and its signal handlers are there, and it ends only on a
      bad configuration or on a signal. Datagrams may be hostile. One condition
      on their content remains: a data packet that authenticates under the
      session it names carries a counter below 2^64 - 1024 ([counter_fits]). A
      forged packet may carry any counter. The condition is checked along the
      run, in the state in which the packet arrives ([along] of [Time]); what
      happens beyond it is shown in [Replay].
    - Site role: a tunnel is up exactly when the state machine is connected;
      the heartbeat keeps its pace and its ping is valid; the listener table follows the targets; a
      bridge passes bytes in order without loss in both directions; what one
      turn sends and receives is what the exit node's tunnel receives and sends.
    - Client role: the longest prefix is chosen; inbound datagrams reach the
      peer they name; the effect of every control message on peers and ranges
      is that of a table (which shows that a sync removes no site); a packet for
      a site reaches that site's tunnel and its answer comes back; requests to
      the kernel read back as intended; what a datagram brings is written to the
      interface packet by packet, whole, once and in order.
    - Transport and configuration: what is written for a message is a masked
      frame of the WebSocket protocol, byte for byte; a message survives framing,
      fragmentation and interleaved control frames; receiving ends, and no length
      a server writes makes it panic; settings obey their precedence; endpoint,
      target and range notations are exact; servers are checked unless the user
      says otherwise; private keys do not appear in debug output.

    Where the code does something it should not, the theorem says what it does
    ([Replay.replay_after_counter_wrap], [Replay.clearing_stalls_near_wrap],
    [Ws.long_frame_cut], [Wg.oversized_datagram_panics],
    [Wg.waiting_drain_rotates], [Router.high_index_unreachable],
    [Ws.dropped_recv_loses_message], [KeyBytes.bad_base64_key_is_zero],
    [Bridge.half_close_not_forwarded], [Redact.preshared_key_shows]).

    ** Interfaces and assumptions

    Code outside the repository is a type class with the laws the program relies
    on, and an instance shows that the laws can hold: [Crypto] (BLAKE2s, X25519,
    the AEADs), [Base64], [JsonText], [Float], [Smoltcp] (sockets and interface
    of the network stack), [HashOrder] (iteration order of hash maps), [F32]
    (single precision), [Rustls] (certificate and signature checks). The
    cryptographic laws say that opening inverts sealing, that Diffie-Hellman
    commutes and that lengths are right; that a forgery fails to open is a
    hypothesis of the theorem that needs it, about that message only. The width
    of [usize] is the class [Platform], 32 or 64 bits, since the releases include
    32-bit targets. Overflow wraps (release profile), panics abort, and the
    default access mode is that of Linux. Memory is not limited; the allocation
    of a buffer panics when its size exceeds what a vector can have
    ([vec_zeroed]). Clock readings do not go backwards.

    ** Fuel

    Loops that are not structural have fuel, and exhausted fuel is a result of
    its own ([Diverged]), so no theorem can hold by running out of it. The
    clearing loops of the window have one more step than the window has bits;
    the drain loop 258, above the queue's 256; the inner loop of a bridge 17,
    above its channel's 16; the carries of a checksum three; reading a message
    one more than the bytes that are there; reading a response head 8193, above
    its limit; padding three.

    ** Not modelled

    The runtime and the delivery of signals are those of libraries. The stream
    under a WebSocket ([Inner] of [ws.rs]) passes every call on to TCP or to TLS,
    and what it reads and writes is an input and an output of [Ws]. Bodies of
    system calls are the kernel's; their answers are inputs. The texts of log
    messages are left out; whether a level is written is modelled. Test modules
    are not part of the program. The exit node and the server are other programs:
    each role is proved against the tunnel at the other end of its link and
    against every message a server can send, and there is no theorem about a
    client, an exit node and a site at once.

    ** State of the plan

    Every component that the sources name is modelled, each operation that
    changes state is a definition, and the components are composed up to the
    whole program. *)

(** ** Prelude: bytes, machine-width integers, outcomes, bounded loops and the
    tactics the components share. *)

From Stdlib Require Export ZArith Lia.
From stdpp Require Export base list gmap.

#[global] Open Scope Z_scope.

Declare Scope rust_scope.
Delimit Scope rust_scope with rust.
#[global] Open Scope rust_scope.

(** ** Results, panics and exhausted loops *)

(** Rust's [Result<A, E>]. *)
Inductive Result (E A : Type) : Type :=
| Ok (a : A)
| Err (e : E).
Arguments Ok {E A} a.
Arguments Err {E A} e.

(** What running a piece of code comes to: a value, a panic (the release
    profile aborts on it), or a loop that used up its fuel. *)
Inductive outcome (A : Type) : Type :=
| Ret (a : A)
| Panicked
| Diverged.
Arguments Ret {A} a.
Arguments Panicked {A}.
Arguments Diverged {A}.

Definition obind {A B} (m : outcome A) (k : A -> outcome B) : outcome B :=
  match m with
  | Ret a => k a
  | Panicked => Panicked
  | Diverged => Diverged
  end.

Notation "'let!' x ':=' m 'in' k" := (obind m (fun x => k))
  (at level 10, x pattern, m at level 100, k at level 200)
  : rust_scope.

Definition is_ok {E A} (r : Result E A) : bool :=
  match r with Ok _ => true | Err _ => false end.

(** ** Loops with fuel *)

(** [while fuel cond body s] runs [body] as long as [cond] holds. *)
Fixpoint while {S : Type} (fuel : nat) (cond : S -> bool) (body : S -> S) (s : S)
  : outcome S :=
  match fuel with
  | O => Diverged
  | Datatypes.S fuel' =>
      if cond s then while fuel' cond body (body s) else Ret s
  end.

(** ** Bytes and machine-width integers *)

(** A byte is a [Z] in [0, 256); a buffer is a list of them. *)
Definition bytes : Type := list Z.

Definition byte_ok (b : Z) : Prop := 0 <= b < 256.

Definition bytes_ok (bs : bytes) : Prop := Forall byte_ok bs.

(** Wrap-around of a [w]-bit unsigned integer (the release profile leaves
    overflow checks off). *)
Definition wrap (w z : Z) : Z := z mod 2 ^ w.
Definition wadd (w a b : Z) : Z := wrap w (a + b).
Definition wsub (w a b : Z) : Z := wrap w (a - b).

(** Bitwise complement of a [w]-bit word. *)
Definition wnot (w a : Z) : Z := Z.lxor a (Z.ones w).

Fixpoint to_le_bytes (n : nat) (z : Z) : bytes :=
  match n with
  | O => []
  | S n' => z mod 256 :: to_le_bytes n' (z / 256)
  end.

Fixpoint from_le_bytes (bs : bytes) : Z :=
  match bs with
  | [] => 0
  | b :: bs' => b + 256 * from_le_bytes bs'
  end.

Definition to_be_bytes (n : nat) (z : Z) : bytes := rev (to_le_bytes n z).
Definition from_be_bytes (bs : bytes) : Z := from_le_bytes (rev bs).

(** The width of [usize] on the target. The releases cover 64-bit targets and
    32-bit ones (386, armv6, armv7, mips), so the code that depends on it takes
    the width as a parameter. *)
Class Platform := {
  usize_bits : Z;
  usize_width : usize_bits = 32 \/ usize_bits = 64
}.

Definition USIZE_MAX {P : Platform} : Z := 2 ^ usize_bits - 1.
Definition ISIZE_MAX {P : Platform} : Z := 2 ^ (usize_bits - 1) - 1.

Definition target64 : Platform := {| usize_bits := 64; usize_width := or_intror eq_refl |}.
Definition target32 : Platform := {| usize_bits := 32; usize_width := or_introl eq_refl |}.

(** [vec![0u8; len]]: a length beyond [isize::MAX] panics. *)
Definition vec_zeroed {P : Platform} (len : Z) : outcome unit := if ISIZE_MAX <? len then Panicked else Ret tt.

(** [slice lo hi l] is Rust's [l[lo..hi]] for an in-range pair. *)
Definition slice {A} (lo hi : nat) (l : list A) : list A := take (hi - lo) (drop lo l).

(** [l[..n]] and [l[i]]: both panic out of range. *)
Definition prefix_to {A} (l : list A) (n : nat) : outcome (list A) :=
  if (length l <? n)%nat then Panicked else Ret (take n l).
Definition index_at {A} (l : list A) (i : nat) : outcome A :=
  match l !! i with Some x => Ret x | None => Panicked end.

(** Structural equality of buffers, the value [subtle::ct_eq] computes. *)
Definition bytes_eqb (a b : bytes) : bool := bool_decide (a = b).

(** ** Tactics *)

(** Case analysis on the scrutinee of a [match] or [if] in the goal. *)
Ltac case_goal :=
  match goal with
  | |- context [match ?x with _ => _ end] =>
      lazymatch x with
      | context [match _ with _ => _ end] => fail
      | _ => destruct x eqn:?
      end
  end.

(** Case analysis on the scrutinee of a [match] or [if] in [H]. *)
Ltac case_hyp H :=
  match type of H with
  | context [match ?x with _ => _ end] =>
      lazymatch x with
      | context [match _ with _ => _ end] => fail
      | _ => destruct x eqn:?
      end
  end.

(** Turn boolean comparisons of [Z] in the context into propositions. *)
Ltac zbool :=
  repeat match goal with
  | H : (_ <? _) = true |- _ => apply Z.ltb_lt in H
  | H : (_ <? _) = false |- _ => apply Z.ltb_ge in H
  | H : (_ <=? _) = true |- _ => apply Z.leb_le in H
  | H : (_ <=? _) = false |- _ => apply Z.leb_gt in H
  | H : (_ =? _) = true |- _ => apply Z.eqb_eq in H
  | H : (_ =? _) = false |- _ => apply Z.eqb_neq in H
  | H : (_ && _)%bool = true |- _ => apply andb_true_iff in H; destruct H
  | H : negb _ = true |- _ => apply negb_true_iff in H
  | H : negb _ = false |- _ => apply negb_false_iff in H
  end.

(** [lia] with divisions and remainders by constants. *)
Ltac dlia := Z.div_mod_to_equations; lia.

(** Peel an [outcome] computation that is known to return. *)
Ltac ret_inv H :=
  lazymatch type of H with
  | obind ?m _ = Ret _ =>
      let E := fresh "E" in destruct m eqn:E; cbn [obind] in H; try discriminate H
  end.

(** ** Shared lemmas *)

Create HintDb rust.
Create Rewrite HintDb len.

Lemma obind_ret_inv {A B} (m : outcome A) (k : A -> outcome B) b :
  obind m k = Ret b -> exists a, m = Ret a /\ k a = Ret b.
Proof. destruct m; cbn; intros; try discriminate; eauto. Qed.

(** Total correctness of [while]: an invariant and a measure that the body
    decreases give a result, with enough fuel. *)
Lemma while_total {S : Type} (I Q : S -> Prop) (m : S -> nat) cond (body : S -> S) fuel s :
  I s ->
  (forall s, I s -> cond s = true -> I (body s) /\ (m (body s) < m s)%nat) ->
  (m s < fuel)%nat ->
  (forall s, I s -> cond s = false -> Q s) ->
  exists s', while fuel cond body s = Ret s' /\ Q s'.
Proof.
  intros Hi Hstep Hm Hq. revert s Hi Hm.
  induction fuel as [|fuel IH]; intros s Hi Hm; [lia|]; cbn.
  destruct (cond s) eqn:Hc; [|eauto].
  destruct (Hstep s Hi Hc) as [Hi' Hlt]. apply IH; [done|lia].
Qed.

Lemma length_to_le_bytes n z : length (to_le_bytes n z) = n.
Proof. revert z; induction n; intros; cbn; auto. Qed.

Lemma length_to_be_bytes n z : length (to_be_bytes n z) = n.
Proof. unfold to_be_bytes. by rewrite length_rev, length_to_le_bytes. Qed.

Lemma pow256_S n : 2 ^ (8 * Z.of_nat (S n)) = 256 * 2 ^ (8 * Z.of_nat n).
Proof.
  replace (8 * Z.of_nat (S n)) with (8 + 8 * Z.of_nat n) by lia.
  rewrite Z.pow_add_r by lia. reflexivity.
Qed.

Lemma from_to_le_bytes n z :
  from_le_bytes (to_le_bytes n z) = z mod 2 ^ (8 * Z.of_nat n).
Proof.
  revert z; induction n as [|n IH]; intros z.
  - cbn. by rewrite Z.mod_1_r.
  - rewrite pow256_S. cbn [to_le_bytes from_le_bytes]. rewrite IH.
    rewrite Z.rem_mul_r by lia. reflexivity.
Qed.

Lemma from_to_le_id n z :
  0 <= z < 2 ^ (8 * Z.of_nat n) -> from_le_bytes (to_le_bytes n z) = z.
Proof. intros. rewrite from_to_le_bytes. by apply Z.mod_small. Qed.

Lemma from_to_be_id n z :
  0 <= z < 2 ^ (8 * Z.of_nat n) -> from_be_bytes (to_be_bytes n z) = z.
Proof.
  intros. unfold from_be_bytes, to_be_bytes. rewrite rev_involutive. by apply from_to_le_id.
Qed.

Lemma to_from_le_bytes bs :
  bytes_ok bs -> to_le_bytes (length bs) (from_le_bytes bs) = bs.
Proof.
  induction 1 as [|b bs Hb _ IH]; [done|]; cbn [length to_le_bytes from_le_bytes].
  unfold byte_ok in Hb. f_equal; [dlia|].
  etransitivity; [|exact IH]. f_equal. dlia.
Qed.

Lemma to_le_bytes_ok n z : bytes_ok (to_le_bytes n z).
Proof.
  revert z; induction n; intros; cbn; constructor; [|apply IHn].
  unfold byte_ok. dlia.
Qed.

Lemma to_be_bytes_ok n z : bytes_ok (to_be_bytes n z).
Proof. apply Forall_rev, to_le_bytes_ok. Qed.

Lemma from_le_bytes_bound bs :
  bytes_ok bs -> 0 <= from_le_bytes bs < 2 ^ (8 * Z.of_nat (length bs)).
Proof.
  induction 1 as [|b bs Hb _ IH]; [cbn; lia|].
  cbn [length]. rewrite pow256_S. cbn [from_le_bytes]. unfold byte_ok in Hb. lia.
Qed.

Lemma length_slice {A} lo hi (l : list A) :
  (lo <= hi <= length l)%nat -> length (slice lo hi l) = (hi - lo)%nat.
Proof. intros. unfold slice. rewrite length_take, length_drop. lia. Qed.

(** Reading back a field of a buffer laid out as [a ++ b ++ c]. *)
Lemma slice_mid {A} lo hi (a b c : list A) :
  length a = lo -> length b = (hi - lo)%nat -> slice lo hi (a ++ b ++ c) = b.
Proof.
  intros <- Hb. unfold slice. rewrite drop_app_length, <- Hb. apply take_app_length.
Qed.

Lemma slice_head {A} hi (b c : list A) : length b = hi -> slice 0 hi (b ++ c) = b.
Proof. intros <-. unfold slice. rewrite drop_0, Nat.sub_0_r. apply take_app_length. Qed.

Lemma bytes_eqb_refl a : bytes_eqb a a = true.
Proof. unfold bytes_eqb. by apply bool_decide_eq_true. Qed.

Lemma bytes_eqb_true a b : bytes_eqb a b = true <-> a = b.
Proof. unfold bytes_eqb. apply bool_decide_eq_true. Qed.

Lemma bytes_eqb_false a b : bytes_eqb a b = false <-> a <> b.
Proof. unfold bytes_eqb. apply bool_decide_eq_false. Qed.

Lemma wrap_small w z : 0 <= z < 2 ^ w -> wrap w z = z.
Proof. apply Z.mod_small. Qed.

Lemma wrap_bound w z : 0 <= w -> 0 <= wrap w z < 2 ^ w.
Proof. intros. apply Z.mod_pos_bound. lia. Qed.

#[export] Hint Rewrite @length_app @length_take @length_drop length_to_le_bytes
  length_to_be_bytes @length_replicate : len.
#[export] Hint Resolve to_le_bytes_ok bytes_eqb_refl : rust.

(** Solve a goal on the lengths of concatenated buffers. *)
Ltac len := autorewrite with len; cbn; lia.
