(* ===== verification/Time.v ===== *)
(** The clock: [boringtun/src/sleepyinstant] (an instant is a [TimeSpec] of the
    boot-time clock), the part of [std::time::Duration] the code uses, and the
    world a call reads its clock and its random bytes from. *)

From S2P Require Import Prelude.

(** ** Durations *)

(** A [Duration] is a non-negative number of nanoseconds. *)
Definition Duration : Type := Z.

Definition NANOSECOND : Z := 1000000000.

Definition from_secs (s : Z) : Duration := s * NANOSECOND.
Definition Duration_new (secs nanos : Z) : Duration := secs * NANOSECOND + nanos.
Definition as_secs (d : Duration) : Z := d / NANOSECOND.
Definition subsec_nanos (d : Duration) : Z := d mod NANOSECOND.
Definition as_millis (d : Duration) : Z := d / 1000000.

(** [Duration - Duration] panics on underflow. *)
Definition dur_sub (a b : Duration) : outcome Duration :=
  if a <? b then Panicked else Ret (a - b).

(** ** Instants *)

Record Instant := mkInstant { tv_sec : Z; tv_nsec : Z }.

Definition checked_duration_since (self earlier : Instant) : option Duration :=
  let '(sec, nsec) :=
    if tv_nsec self <? tv_nsec earlier
    then (tv_sec self - tv_sec earlier - 1, tv_nsec self - tv_nsec earlier + NANOSECOND)
    else (tv_sec self - tv_sec earlier, tv_nsec self - tv_nsec earlier) in
  if sec <? 0 then None else Some (Duration_new sec nsec).

Definition duration_since (self earlier : Instant) : Duration :=
  match checked_duration_since self earlier with
  | Some d => d
  | None => 0
  end.

(** ** The world *)

(** Clock readings and random draws in the order the code asks for them:
    the [i]-th [Instant::now()] reads [w_clock i], the [i]-th system-time query
    reads [w_system i], the [i]-th [OsRng] draw takes its bytes from
    [w_rng i]. *)
Record World := mkWorld {
  w_clock : nat -> Instant;
  w_system : nat -> Duration;
  w_rng : nat -> nat -> Z;
  w_ticks : nat;
  w_queries : nat;
  w_draws : nat
}.

(** Code that reads the world: state passing over [World], with panics. *)
Definition M (A : Type) : Type := World -> outcome (World * A).

Definition mret {A} (a : A) : M A := fun w => Ret (w, a).

Definition mbind {A B} (m : M A) (k : A -> M B) : M B :=
  fun w => let! (w', a) := m w in k a w'.

Definition mlift {A} (o : outcome A) : M A := fun w => let! a := o in Ret (w, a).

Notation "'let*' x ':=' m 'in' k" := (mbind m (fun x => k))
  (at level 10, x pattern, m at level 100, k at level 200)
  : rust_scope.

(** [Instant::now()]. *)
Definition Instant_now : M Instant :=
  fun w => Ret (mkWorld (w_clock w) (w_system w) (w_rng w) (S (w_ticks w)) (w_queries w) (w_draws w),
                w_clock w (w_ticks w)).

(** [SystemTime::now().duration_since(UNIX_EPOCH).unwrap()]. *)
Definition system_time : M Duration :=
  fun w => Ret (mkWorld (w_clock w) (w_system w) (w_rng w) (w_ticks w) (S (w_queries w)) (w_draws w),
                w_system w (w_queries w)).

(** [n] bytes drawn from [OsRng]. *)
Definition rand_bytes (n : nat) : M bytes :=
  fun w => Ret (mkWorld (w_clock w) (w_system w) (w_rng w) (w_ticks w) (w_queries w) (S (w_draws w)),
                map (fun i => w_rng w (w_draws w) i mod 256) (seq 0 n)).

Definition elapsed (i : Instant) : M Duration :=
  let* n := Instant_now in mret (duration_since n i).

(** ** Time on a line *)

(** Nanoseconds of an instant since the clock's origin. *)
Definition ns (i : Instant) : Z := tv_sec i * NANOSECOND + tv_nsec i.

Definition instant_ok (i : Instant) : Prop := 0 <= tv_nsec i < NANOSECOND.

(** The boot-time clock: well-formed readings that never go backwards. *)
Record clock_ok (clk : nat -> Instant) : Prop := {
  clock_wf : forall i, instant_ok (clk i);
  clock_mono : forall i j, (i <= j)%nat -> ns (clk i) <= ns (clk j)
}.

(** Later worlds read the same clock, no earlier. *)
Definition world_le (w w' : World) : Prop :=
  w_clock w' = w_clock w /\ (w_ticks w <= w_ticks w')%nat.

(** [duration_since] is subtraction cut off at zero, on well-formed instants. *)
Lemma duration_since_ns a b :
  instant_ok a -> instant_ok b -> duration_since a b = Z.max 0 (ns a - ns b).
Proof.
  unfold instant_ok, duration_since, checked_duration_since, Duration_new, ns, NANOSECOND.
  intros. repeat case_goal; zbool; try lia; discriminate || simplify_eq; lia.
Qed.

Lemma duration_since_nonneg a b :
  instant_ok a -> instant_ok b -> 0 <= duration_since a b.
Proof. intros. rewrite duration_since_ns by done. lia. Qed.

Lemma dur_sub_ret a b : b <= a -> dur_sub a b = Ret (a - b).
Proof. intros. unfold dur_sub. case_goal; zbool; [lia|done]. Qed.

Lemma mbind_ret_inv {A B} (m : M A) (k : A -> M B) w r :
  mbind m k w = Ret r -> exists w' a, m w = Ret (w', a) /\ k a w' = Ret r.
Proof. unfold mbind. destruct (m w) as [[w' a]| |]; cbn; intros; try discriminate; eauto. Qed.

Lemma length_rand_bytes n w w' bs : rand_bytes n w = Ret (w', bs) -> length bs = n.
Proof. unfold rand_bytes. intros; simplify_eq. by rewrite length_map, length_seq. Qed.

Lemma world_le_refl w : world_le w w.
Proof. by split. Qed.

Lemma world_le_trans w1 w2 w3 : world_le w1 w2 -> world_le w2 w3 -> world_le w1 w3.
Proof. intros [? ?] [? ?]. split; [congruence|lia]. Qed.

#[export] Hint Resolve world_le_refl : rust.

(** ** Total correctness in the monad *)

(** [m] returns from [w], no clock reading is taken back, and [Q] holds of the
    world and the value it leaves. *)
Definition safe {A} (m : M A) (w : World) (Q : World -> A -> Prop) : Prop :=
  exists w' a, m w = Ret (w', a) /\ world_le w w' /\ Q w' a.

Lemma safe_ret {A} (a : A) w (Q : World -> A -> Prop) : Q w a -> safe (mret a) w Q.
Proof. intros. exists w, a. auto with rust. Qed.

Lemma safe_bind {A B} (m : M A) (k : A -> M B) w Q :
  safe m w (fun w' a => safe (k a) w' Q) -> safe (mbind m k) w Q.
Proof.
  intros (w' & a & E & Hle & w'' & b & E' & Hle' & HQ). exists w'', b.
  unfold mbind. rewrite E. cbn [obind]. eauto using world_le_trans.
Qed.

Lemma safe_weaken {A} (m : M A) w (P Q : World -> A -> Prop) :
  safe m w P -> (forall w' a, world_le w w' -> P w' a -> Q w' a) -> safe m w Q.
Proof. intros (w' & a & E & Hle & HP) HQ. exists w', a. auto. Qed.

(** A run that is known satisfies what is promised. *)
Lemma safe_run {A} (m : M A) w (Q : World -> A -> Prop) w' a :
  safe m w Q -> m w = Ret (w', a) -> world_le w w' /\ Q w' a.
Proof. intros (w1 & a1 & E1 & Hle & HQ) E. rewrite E in E1. by simplify_eq. Qed.

Lemma safe_lift {A} (o : outcome A) a w (Q : World -> A -> Prop) :
  o = Ret a -> Q w a -> safe (mlift o) w Q.
Proof. intros -> ?. exists w, a. auto with rust. Qed.

Lemma safe_now w (Q : World -> Instant -> Prop) :
  (forall w', world_le w w' -> w_ticks w' = S (w_ticks w) -> Q w' (w_clock w (w_ticks w))) ->
  safe Instant_now w Q.
Proof. intros HQ. do 2 eexists. split; [done|]. split; [split; cbn; [done|lia]|]. apply HQ; [split; cbn; [done|lia]|done]. Qed.

Lemma world_clock w w' : world_le w w' -> clock_ok (w_clock w) -> clock_ok (w_clock w').
Proof. by intros [-> _]. Qed.

(** What a computation promises, together with the equation of its run. *)
Lemma safe_eqn {A} (m : M A) w (Q : World -> A -> Prop) :
  safe m w Q -> safe m w (fun w' a => m w = Ret (w', a) /\ Q w' a).
Proof. intros (w' & a & E & Hle & HQ). exists w', a. auto. Qed.

(** ** Conditions along a run *)

Section along.
Context {St Op R : Type} (step : St -> Op -> M (St * R)) (fits : St -> Op -> Prop).

(** Each operation of a run fits the state it finds. *)
Fixpoint along (s : St) (ops : list Op) (w : World) : Prop :=
  match ops with
  | [] => True
  | o :: ops' => fits s o /\ forall w' s' r, step s o w = Ret (w', (s', r)) -> along s' ops' w'
  end.

(** Operations that fit every state fit along every run. *)
Lemma along_always ops : Forall (fun o => forall s, fits s o) ops -> forall s w, along s ops w.
Proof. induction 1 as [|o ops Ho _ IH]; intros s w; cbn; auto. Qed.
End along.

(** Time since a fixed instant only grows. *)
Lemma since_mono w w' start :
  clock_ok (w_clock w) -> instant_ok start -> world_le w w' ->
  duration_since (w_clock w (w_ticks w)) start <= duration_since (w_clock w' (w_ticks w')) start.
Proof.
  intros Hc Hs [-> Hle]. rewrite !duration_since_ns by (done || apply Hc).
  pose proof (clock_mono _ Hc _ _ Hle). lia.
Qed.
