(* ===== verification/Replay.v ===== *)
(** The anti-replay window, [ReceivingKeyCounterValidator] of
    [boringtun/src/noise/session.rs]: a bitmap of the last [N_BITS] counters
    and the next expected one. It is refined to the set of counters received
    so far. *)

From S2P Require Import Prelude Errors.

(** ** The validator *)

Definition WORD_SIZE : Z := 64.
Definition N_WORDS : Z := 16.
Definition N_BITS : Z := WORD_SIZE * N_WORDS.

Record ReceivingKeyCounterValidator := mkValidator {
  next : Z;
  receive_cnt : Z;
  bitmap : list Z
}.

Definition validator_default : ReceivingKeyCounterValidator :=
  mkValidator 0 0 (replicate (Z.to_nat N_WORDS) 0).

Definition with_bitmap (v : ReceivingKeyCounterValidator) (bm : list Z) :=
  mkValidator (next v) (receive_cnt v) bm.
Definition with_next (v : ReceivingKeyCounterValidator) (n : Z) :=
  mkValidator n (receive_cnt v) (bitmap v).

Definition word_of (idx : Z) : nat := Z.to_nat (idx mod N_BITS / WORD_SIZE).
Definition bit_of (idx : Z) : Z := idx mod N_BITS mod WORD_SIZE.

Definition set_bit (v : ReceivingKeyCounterValidator) (idx : Z) :=
  with_bitmap v (alter (fun w => Z.lor w (Z.shiftl 1 (bit_of idx))) (word_of idx) (bitmap v)).

Definition clear_bit (v : ReceivingKeyCounterValidator) (idx : Z) :=
  with_bitmap v
    (alter (fun w => Z.land w (wnot 64 (Z.shiftl 1 (bit_of idx)))) (word_of idx) (bitmap v)).

(** Clear the word that contains [idx]. *)
Definition clear_word (v : ReceivingKeyCounterValidator) (idx : Z) :=
  with_bitmap v (<[word_of idx := 0]> (bitmap v)).

Definition check_bit (v : ReceivingKeyCounterValidator) (idx : Z) : bool :=
  Z.land (Z.shiftr (bitmap v !!! word_of idx) (bit_of idx)) 1 =? 1.

Definition will_accept (v : ReceivingKeyCounterValidator) (counter : Z)
  : Result WireGuardError unit :=
  if next v <=? counter then Ok tt
  else if wadd 64 counter N_BITS <? next v then Err InvalidCounter
  else if negb (check_bit v counter) then Ok tt
  else Err DuplicateCounter.

(** The three clearing loops: up to a word boundary, word by word, then the
    remaining bits. Each state is the loop index and the validator. *)
Definition loop_fuel : nat := Z.to_nat (N_BITS + 1).

Definition clear_to_boundary (counter : Z) (s : Z * ReceivingKeyCounterValidator)
  : outcome (Z * ReceivingKeyCounterValidator) :=
  while loop_fuel
    (fun '(i, _) => negb (i mod WORD_SIZE =? 0) && (i <? counter))
    (fun '(i, v) => (wadd 64 i 1, clear_bit v i)) s.

Definition words_left (counter : Z) (s : Z * ReceivingKeyCounterValidator) : bool :=
  let '(i, _) := s in wadd 64 i WORD_SIZE <? counter.

Definition clear_next_word (s : Z * ReceivingKeyCounterValidator)
  : Z * ReceivingKeyCounterValidator :=
  let '(i, v) := s in
  (Z.land (wadd 64 i WORD_SIZE) (wsub 64 0 WORD_SIZE), clear_word v i).

Definition clear_words (counter : Z) (s : Z * ReceivingKeyCounterValidator)
  : outcome (Z * ReceivingKeyCounterValidator) :=
  while loop_fuel (words_left counter) clear_next_word s.

Definition clear_rest (counter : Z) (s : Z * ReceivingKeyCounterValidator)
  : outcome (Z * ReceivingKeyCounterValidator) :=
  while loop_fuel
    (fun '(i, _) => i <? counter)
    (fun '(i, v) => (wadd 64 i 1, clear_bit v i)) s.

Definition clear_skipped (v : ReceivingKeyCounterValidator) (counter : Z)
  : outcome ReceivingKeyCounterValidator :=
  if N_BITS <=? counter - next v
  then Ret (with_bitmap v (map (fun _ => 0) (bitmap v)))
  else
    let! s1 := clear_to_boundary counter (next v, v) in
    let! s2 := clear_words counter s1 in
    let! s3 := clear_rest counter s2 in
    Ret (snd s3).

Definition mark_did_receive (v : ReceivingKeyCounterValidator) (counter : Z)
  : outcome (ReceivingKeyCounterValidator * Result WireGuardError unit) :=
  if wadd 64 counter N_BITS <? next v then Ret (v, Err InvalidCounter)
  else if counter =? next v then
    let v := set_bit v counter in
    Ret (with_next v (wadd 64 (next v) 1), Ok tt)
  else if counter <? next v then
    if check_bit v counter then Ret (v, Err InvalidCounter)
    else Ret (set_bit v counter, Ok tt)
  else
    let! v := clear_skipped v counter in
    let v := set_bit v counter in
    Ret (with_next v (wadd 64 counter 1), Ok tt).

(** ** The specification *)

(** What the window promises: the next expected counter and every counter
    accepted so far. *)
Record window := mkWindow { w_next : Z; w_seen : gset Z }.

Definition window_init : window := mkWindow 0 ∅.

(** A counter is good when it is ahead, or among the last [N_BITS] and new. *)
Definition window_accepts (s : window) (c : Z) : bool :=
  (w_next s <=? c) || ((w_next s <=? c + N_BITS) && bool_decide (c ∉ w_seen s)).

Definition window_mark (s : window) (c : Z) : window :=
  mkWindow (Z.max (w_next s) (c + 1)) ({[c]} ∪ w_seen s).

(** The largest counter for which no addition of the code wraps. *)
Definition COUNTER_LIMIT : Z := 2 ^ 64 - N_BITS.

Definition counter_ok (c : Z) : Prop := 0 <= c < COUNTER_LIMIT.

(** Well-formed validators: sixteen 64-bit words, a counter below the limit. *)
Record validator_ok (v : ReceivingKeyCounterValidator) : Prop := {
  vo_words : length (bitmap v) = 16%nat;
  vo_next : 0 <= next v <= COUNTER_LIMIT
}.

(** The validator represents the window: the bit of every counter in reach of
    the window says whether it was received. *)
Record represents (v : ReceivingKeyCounterValidator) (s : window) : Prop := {
  rep_ok : validator_ok v;
  rep_next : next v = w_next s;
  rep_seen : forall c, c ∈ w_seen s -> 0 <= c < w_next s;
  rep_bits : forall c, 0 <= c < w_next s -> w_next s <= c + N_BITS ->
    check_bit v c = bool_decide (c ∈ w_seen s)
}.

(** A run of the validator over arriving counters, with each verdict. *)
Fixpoint run_marks (v : ReceivingKeyCounterValidator) (cs : list Z)
  : outcome (ReceivingKeyCounterValidator * list bool) :=
  match cs with
  | [] => Ret (v, [])
  | c :: cs' =>
      let! (v1, r) := mark_did_receive v c in
      let! (v2, rs) := run_marks v1 cs' in
      Ret (v2, is_ok r :: rs)
  end.

(** The same run of the specification. *)
Fixpoint window_run (s : window) (cs : list Z) : window * list bool :=
  match cs with
  | [] => (s, [])
  | c :: cs' =>
      let ok := window_accepts s c in
      let '(s', oks) := window_run (if ok then window_mark s c else s) cs' in
      (s', ok :: oks)
  end.

(** The counters a run accepted, in order. *)
Definition accepted (cs : list Z) (rs : list bool) : list Z :=
  omap (fun '(c, r) => if (r : bool) then Some c else None) (zip cs rs).

(** ** Bit arithmetic *)

Lemma land_shiftr_1 x n : 0 <= n -> (Z.land (Z.shiftr x n) 1 =? 1) = Z.testbit x n.
Proof.
  intros. rewrite (Z.land_ones _ 1) by lia. change (2 ^ 1) with 2.
  rewrite <- Z.bit0_mod, Z.shiftr_spec, Z.add_0_l by lia.
  by destruct (Z.testbit x n).
Qed.

Lemma bit_of_bound i : 0 <= bit_of i < 64.
Proof. unfold bit_of, WORD_SIZE. apply Z.mod_pos_bound. lia. Qed.

Lemma word_of_bound i : (word_of i < 16)%nat.
Proof. unfold word_of, N_BITS, WORD_SIZE, N_WORDS. dlia. Qed.

Lemma check_bit_testbit v i :
  check_bit v i = Z.testbit (bitmap v !!! word_of i) (bit_of i).
Proof. apply land_shiftr_1. apply bit_of_bound. Qed.

(** Two counters share a bit exactly when they agree modulo [N_BITS]. *)
Lemma same_bit i j :
  word_of i = word_of j /\ bit_of i = bit_of j <-> i mod N_BITS = j mod N_BITS.
Proof.
  unfold word_of, bit_of, N_BITS, WORD_SIZE, N_WORDS.
  split; [intros [? ?]|intros ->; done]. dlia.
Qed.

Lemma lookup_alter_total (l : list Z) f i j :
  (i < length l)%nat ->
  alter f i l !!! j = if decide (i = j) then f (l !!! j) else l !!! j.
Proof.
  intros. rewrite !list_lookup_total_alt, list_lookup_alter.
  case_decide; subst; [|done].
  destruct (lookup_lt_is_Some_2 l j) as [x ->]; done.
Qed.

Lemma testbit_clear x n k : 0 <= n < 64 -> 0 <= k < 64 ->
  Z.testbit (Z.land x (wnot 64 (Z.shiftl 1 n))) k = negb (n =? k) && Z.testbit x k.
Proof.
  intros. unfold wnot.
  rewrite Z.land_spec, Z.lxor_spec, Z.ones_spec_low, Z.shiftl_1_l by lia.
  rewrite Z.pow2_bits_eqb by lia.
  by destruct (n =? k), (Z.testbit x k).
Qed.

Lemma testbit_set x n k : 0 <= n -> 0 <= k ->
  Z.testbit (Z.lor x (Z.shiftl 1 n)) k = (n =? k) || Z.testbit x k.
Proof.
  intros. rewrite Z.lor_spec, Z.shiftl_1_l, Z.pow2_bits_eqb by lia. apply orb_comm.
Qed.

(** ** The bitmap operations, as the bits they leave *)

Section bits.
Context (v : ReceivingKeyCounterValidator) (Hv : length (bitmap v) = 16%nat).

Lemma check_set_bit i j :
  check_bit (set_bit v i) j = (i mod N_BITS =? j mod N_BITS) || check_bit v j.
Proof.
  pose proof (word_of_bound i). pose proof (bit_of_bound i). pose proof (bit_of_bound j).
  rewrite !check_bit_testbit. unfold set_bit, with_bitmap; cbn [bitmap].
  rewrite lookup_alter_total by lia. case_decide as E.
  - rewrite testbit_set by lia. f_equal.
    apply eq_true_iff_eq. rewrite !Z.eqb_eq, <- same_bit. tauto.
  - destruct (Z.eqb_spec (i mod N_BITS) (j mod N_BITS)) as [E'|]; [|done].
    apply same_bit in E'. tauto.
Qed.

Lemma check_clear_bit i j :
  check_bit (clear_bit v i) j = negb (i mod N_BITS =? j mod N_BITS) && check_bit v j.
Proof.
  pose proof (word_of_bound i). pose proof (bit_of_bound i). pose proof (bit_of_bound j).
  rewrite !check_bit_testbit. unfold clear_bit, with_bitmap; cbn [bitmap].
  rewrite lookup_alter_total by lia. case_decide as E.
  - rewrite testbit_clear by lia. do 2 f_equal.
    apply eq_true_iff_eq. rewrite !Z.eqb_eq, <- same_bit. tauto.
  - destruct (Z.eqb_spec (i mod N_BITS) (j mod N_BITS)) as [E'|]; [|done].
    apply same_bit in E'. tauto.
Qed.

Lemma check_clear_word i j :
  check_bit (clear_word v i) j =
    negb (i mod N_BITS / 64 =? j mod N_BITS / 64) && check_bit v j.
Proof.
  pose proof (word_of_bound i).
  rewrite !check_bit_testbit. unfold clear_word, with_bitmap; cbn [bitmap].
  assert (word_of i = word_of j <-> i mod N_BITS / 64 = j mod N_BITS / 64) as Hw.
  { unfold word_of, N_BITS, WORD_SIZE, N_WORDS. split; [|congruence]. dlia. }
  destruct (Z.eqb_spec (i mod N_BITS / 64) (j mod N_BITS / 64)) as [E|E]; rewrite <- Hw in E.
  - rewrite E, list_lookup_total_insert_eq by lia. by rewrite Z.testbit_0_l.
  - by rewrite list_lookup_total_insert_ne.
Qed.

Lemma check_cleared i : check_bit (with_bitmap v (map (fun _ => 0) (bitmap v))) i = false.
Proof.
  rewrite check_bit_testbit. unfold with_bitmap; cbn [bitmap].
  destruct (lookup_lt_is_Some_2 (bitmap v) (word_of i)) as [x Hx].
  { rewrite Hv. apply word_of_bound. }
  rewrite list_lookup_total_alt, list_lookup_fmap, Hx. cbn. apply Z.testbit_0_l.
Qed.
End bits.

Lemma length_set_bit v i : length (bitmap (set_bit v i)) = length (bitmap v).
Proof. apply length_alter. Qed.

Lemma length_clear_bit v i : length (bitmap (clear_bit v i)) = length (bitmap v).
Proof. apply length_alter. Qed.

Lemma length_clear_word v i : length (bitmap (clear_word v i)) = length (bitmap v).
Proof. apply length_insert. Qed.

(** ** The clearing loops *)

Lemma in_span_next lo i j :
  lo <= i < lo + N_BITS ->
  negb ((j - lo) mod N_BITS <? i + 1 - lo)
  = negb (i mod N_BITS =? j mod N_BITS) && negb ((j - lo) mod N_BITS <? i - lo).
Proof.
  unfold N_BITS, WORD_SIZE, N_WORDS. change (64 * 16) with 1024. intros.
  apply eq_true_iff_eq. rewrite andb_true_iff, !negb_true_iff, !Z.ltb_ge, Z.eqb_neq. dlia.
Qed.

Lemma in_span_word lo i j :
  lo <= i -> i mod WORD_SIZE = 0 -> i + WORD_SIZE <= lo + N_BITS ->
  negb ((j - lo) mod N_BITS <? i + WORD_SIZE - lo)
  = negb (i mod N_BITS / 64 =? j mod N_BITS / 64) && negb ((j - lo) mod N_BITS <? i - lo).
Proof.
  unfold N_BITS, WORD_SIZE, N_WORDS. change (64 * 16) with 1024. intros.
  apply eq_true_iff_eq. rewrite andb_true_iff, !negb_true_iff, !Z.ltb_ge, Z.eqb_neq. dlia.
Qed.

Lemma land_word_mask i :
  0 <= i -> i + WORD_SIZE < 2 ^ 64 -> i mod WORD_SIZE = 0 ->
  Z.land (wadd 64 i WORD_SIZE) (wsub 64 0 WORD_SIZE) = i + WORD_SIZE.
Proof.
  intros Hi Hb Ha. unfold wadd. rewrite wrap_small by (unfold WORD_SIZE in *; lia).
  change (wsub 64 0 WORD_SIZE) with (Z.shiftl (Z.ones 58) 6).
  unfold WORD_SIZE in *.
  assert (i + 64 = Z.shiftl (i / 64 + 1) 6) as ->.
  { rewrite Z.shiftl_mul_pow2 by lia. change (2 ^ 6) with 64. dlia. }
  rewrite <- Z.shiftl_land, Z.land_ones by lia. f_equal. apply Z.mod_small.
  change (2 ^ 58) with (2 ^ 64 / 64). change (2 ^ 64) with 18446744073709551616 in *. dlia.
Qed.

Section clearing.
Context (v0 : ReceivingKeyCounterValidator) (counter : Z).
Context (Hv0 : validator_ok v0) (Hc : counter_ok counter).
Context (Hahead : next v0 < counter) (Hnear : counter - next v0 < N_BITS).

(** Everything from [next v0] up to [i] is cleared, the rest is as before. *)
Record cleared_upto (s : Z * ReceivingKeyCounterValidator) : Prop := {
  cu_range : next v0 <= fst s <= counter;
  cu_words : length (bitmap (snd s)) = 16%nat;
  cu_next : next (snd s) = next v0;
  cu_cnt : receive_cnt (snd s) = receive_cnt v0;
  cu_bits : forall j, check_bit (snd s) j =
    negb ((j - next v0) mod N_BITS <? fst s - next v0) && check_bit v0 j
}.

Definition togo (s : Z * ReceivingKeyCounterValidator) : nat := Z.to_nat (counter - fst s).

Lemma no_wrap i k : 0 <= i <= counter -> 0 <= k <= N_BITS -> wadd 64 i k = i + k.
Proof.
  intros. unfold counter_ok, COUNTER_LIMIT in Hc. apply wrap_small. lia.
Qed.

Lemma cleared_init : cleared_upto (next v0, v0).
Proof.
  destruct Hv0. constructor; cbn; try done; [lia|]. intros j.
  rewrite Z.sub_diag. destruct (Z.ltb_spec ((j - next v0) mod N_BITS) 0) as [Hneg|]; [|done].
  unfold N_BITS, WORD_SIZE, N_WORDS in Hneg. dlia.
Qed.

Lemma cleared_bit_step i v :
  cleared_upto (i, v) -> i < counter ->
  cleared_upto (wadd 64 i 1, clear_bit v i) /\
  (togo (wadd 64 i 1, clear_bit v i) < togo (i, v))%nat.
Proof.
  intros [Hr Hw Hn Hcnt Hb] Hi; cbn [fst snd] in *.
  destruct Hv0 as [_ [Hlo _]].
  rewrite no_wrap by (unfold N_BITS, WORD_SIZE, N_WORDS; lia).
  split; [|unfold togo; cbn; lia].
  constructor; cbn [fst snd]; try done; [lia|by rewrite length_clear_bit|].
  intros j. rewrite check_clear_bit by done. rewrite Hb, in_span_next by lia.
  by rewrite andb_assoc.
Qed.

Lemma cleared_word_step i v :
  cleared_upto (i, v) -> i mod WORD_SIZE = 0 -> i + WORD_SIZE < counter ->
  let s' := (Z.land (wadd 64 i WORD_SIZE) (wsub 64 0 WORD_SIZE), clear_word v i) in
  cleared_upto s' /\ fst s' mod WORD_SIZE = 0 /\ (togo s' < togo (i, v))%nat.
Proof.
  intros [Hr Hw Hn Hcnt Hb] Ha Hi; cbn [fst snd] in *.
  destruct Hv0 as [_ [Hlo _]]. unfold counter_ok, COUNTER_LIMIT in Hc.
  rewrite land_word_mask; [|lia|unfold N_BITS, WORD_SIZE, N_WORDS in *; lia|done].
  split; [|split; [cbn; unfold WORD_SIZE in *; dlia|unfold togo, WORD_SIZE in *; cbn; lia]].
  constructor; cbn [fst snd]; try done; [unfold WORD_SIZE in *; lia|by rewrite length_clear_word|].
  intros j. rewrite check_clear_word by done. rewrite Hb, in_span_word by lia.
  by rewrite andb_assoc.
Qed.

Lemma togo_fuel s : cleared_upto s -> (togo s < loop_fuel)%nat.
Proof. intros [? _ _ _ _]. unfold togo, loop_fuel, N_BITS, WORD_SIZE, N_WORDS in *. lia. Qed.

Lemma clear_to_boundary_ok s :
  cleared_upto s ->
  exists s', clear_to_boundary counter s = Ret s' /\ cleared_upto s' /\
    (fst s' mod WORD_SIZE = 0 \/ fst s' = counter).
Proof.
  intros Hs. apply (while_total cleared_upto _ togo); [done| |by apply togo_fuel|].
  - intros [i v] Hi Hcond. zbool. by apply cleared_bit_step.
  - intros [i v] Hi Hstop; cbn in *. split; [done|].
    apply andb_false_iff in Hstop as [Hstop|Hstop]; zbool; [auto|].
    right. destruct Hi; cbn in *; lia.
Qed.

Lemma clear_words_ok s :
  cleared_upto s -> fst s mod WORD_SIZE = 0 \/ fst s = counter ->
  exists s', clear_words counter s = Ret s' /\ cleared_upto s'.
Proof.
  intros Hs Ha.
  apply (while_total
    (fun s => cleared_upto s /\ (fst s mod WORD_SIZE = 0 \/ fst s = counter)) _ togo);
    [done| |by apply togo_fuel|tauto].
  intros [i v] [Hi Ha'] Hcond. cbn [words_left clear_next_word] in *. zbool.
  pose proof (cu_range _ Hi) as Hr; cbn in Hr, Ha'. destruct Hv0 as [_ [Hlo _]].
  rewrite no_wrap in Hcond by (unfold N_BITS, WORD_SIZE, N_WORDS in *; lia).
  destruct Ha' as [Ha'|Ha']; [|unfold WORD_SIZE in *; lia].
  destruct (cleared_word_step i v) as (? & ? & ?); [done..|]. auto.
Qed.

Lemma clear_rest_ok s :
  cleared_upto s ->
  exists s', clear_rest counter s = Ret s' /\ cleared_upto s' /\ fst s' = counter.
Proof.
  intros Hs. apply (while_total cleared_upto _ togo); [done| |by apply togo_fuel|].
  - intros [i v] Hi Hcond. zbool. by apply cleared_bit_step.
  - intros [i v] Hi Hstop; zbool. pose proof (cu_range _ Hi); cbn in *. split; [done|lia].
Qed.
End clearing.

(** Clearing always returns, and leaves exactly the bits outside
    [next, counter). *)
Lemma clear_skipped_ok v counter :
  validator_ok v -> counter_ok counter -> next v < counter ->
  exists v', clear_skipped v counter = Ret v' /\
    length (bitmap v') = 16%nat /\ next v' = next v /\ receive_cnt v' = receive_cnt v /\
    forall j, check_bit v' j =
      negb ((j - next v) mod N_BITS <? counter - next v) && check_bit v j.
Proof.
  intros Hv Hc Hlt. unfold clear_skipped. case_goal; zbool.
  - eexists; split; [done|]. destruct Hv as [Hw ?]. cbn. rewrite length_map.
    split_and!; [done..|]. intros j. rewrite check_cleared by done.
    destruct (Z.ltb_spec ((j - next v) mod N_BITS) (counter - next v)); [done|].
    pose proof (Z.mod_pos_bound (j - next v) N_BITS ltac:(done)). lia.
  - pose proof (cleared_init v counter Hv Hlt) as H0.
    edestruct (clear_to_boundary_ok v counter) as (s1 & -> & H1 & Ha); [eassumption || lia..|].
    edestruct (clear_words_ok v counter) as (s2 & E2 & H2); [eassumption || lia..|].
    edestruct (clear_rest_ok v counter) as ([i v3] & E3 & H3 & Hi); [eassumption || lia..|].
    cbn [obind]. rewrite E2. cbn [obind]. rewrite E3.
    cbn [obind snd]. exists v3. destruct H3; cbn in *; subst. done.
Qed.

(** ** Refinement *)

Lemma eqb_mod_near c j :
  - N_BITS < c - j < N_BITS -> (c mod N_BITS =? j mod N_BITS) = (j =? c).
Proof.
  unfold N_BITS, WORD_SIZE, N_WORDS. intros.
  apply eq_true_iff_eq. rewrite !Z.eqb_eq. dlia.
Qed.

Lemma represents_mark v v' s c :
  represents v s -> counter_ok c ->
  length (bitmap v') = 16%nat -> next v' = Z.max (w_next s) (c + 1) ->
  (forall j, 0 <= j < next v' -> next v' <= j + N_BITS ->
    check_bit v' j = (j =? c) || ((j <? w_next s) && check_bit v j)) ->
  represents v' (window_mark s c).
Proof.
  intros [[Hw Hn] Hnx Hseen Hbits] Hc Hw' Hn' Hb'. unfold counter_ok, COUNTER_LIMIT in *.
  constructor; cbn [w_next w_seen window_mark].
  - constructor; [done|]. unfold COUNTER_LIMIT. lia.
  - done.
  - intros x [->%elem_of_singleton|Hx]%elem_of_union; [lia|]. specialize (Hseen _ Hx). lia.
  - intros j Hj Hj'. rewrite <- Hn' in *. rewrite Hb' by done.
    destruct (Z.eqb_spec j c) as [->|Hne]; cbn [orb]; [symmetry; apply bool_decide_eq_true; set_solver|].
    destruct (Z.ltb_spec j (w_next s)) as [Hlt|Hge]; cbn [andb].
    + rewrite Hbits by lia. apply bool_decide_ext. set_solver.
    + symmetry. apply bool_decide_eq_false. intros [?%elem_of_singleton|Hx]%elem_of_union; [done|].
      specialize (Hseen _ Hx). lia.
Qed.

(** Additions up to the window's size do not wrap below the limit. *)
Lemma counter_add c k : 0 <= c <= COUNTER_LIMIT -> 0 <= k < N_BITS -> wadd 64 c k = c + k.
Proof. unfold COUNTER_LIMIT, N_BITS, WORD_SIZE, N_WORDS. intros. apply wrap_small. lia. Qed.

Lemma counter_add_window c : counter_ok c -> wadd 64 c N_BITS = c + N_BITS.
Proof.
  unfold counter_ok, COUNTER_LIMIT, N_BITS, WORD_SIZE, N_WORDS. intros. apply wrap_small. lia.
Qed.

Section mark.
Context (v : ReceivingKeyCounterValidator) (s : window) (c : Z).
Context (Hrep : represents v s) (Hc : counter_ok c).

(** The three ways a counter is accepted. *)
Definition marks_as_seen : Prop :=
  exists v', mark_did_receive v c = Ret (v', Ok tt) /\ represents v' (window_mark s c) /\
    receive_cnt v' = receive_cnt v.

Lemma mark_in_order : c = w_next s -> marks_as_seen.
Proof.
  intros Heq. pose proof Hrep as [[Hw Hn] Hnx _ _]. pose proof Hc as [Hc0 _].
  unfold marks_as_seen, mark_did_receive.
  rewrite counter_add_window, (proj2 (Z.ltb_ge _ _)), (proj2 (Z.eqb_eq _ _))
    by (done || lia || unfold N_BITS, WORD_SIZE, N_WORDS; lia).
  eexists; split; [done|]. split; [|done]. cbn [next set_bit with_bitmap].
  rewrite counter_add by (done || lia).
  eapply represents_mark; [done..|by rewrite <- Hw; apply length_set_bit|cbn; lia|].
  cbn [next with_next]. intros j Hj Hj'.
  change (check_bit (with_next _ _) j) with (check_bit (set_bit v c) j).
  rewrite check_set_bit, eqb_mod_near by (done || lia).
  destruct (Z.eqb_spec j c); [done|]. by rewrite (proj2 (Z.ltb_lt _ _)) by lia.
Qed.

Lemma mark_late : c < w_next s <= c + N_BITS ->
  if bool_decide (c ∈ w_seen s)
  then mark_did_receive v c = Ret (v, Err InvalidCounter)
  else marks_as_seen.
Proof.
  intros Hlt. pose proof Hrep as [[Hw Hn] Hnx _ Hbits]. pose proof Hc as [Hc0 _].
  unfold marks_as_seen, mark_did_receive.
  rewrite counter_add_window, (proj2 (Z.ltb_ge _ _)), (proj2 (Z.eqb_neq _ _)),
    (proj2 (Z.ltb_lt _ _)), Hbits by (done || lia).
  destruct (bool_decide (c ∈ w_seen s)); [done|].
  eexists; split; [done|]. split; [|done].
  eapply represents_mark; [done..|by rewrite <- Hw; apply length_set_bit|cbn; lia|].
  cbn [next set_bit with_bitmap]. intros j Hj Hj'.
  change (check_bit (with_bitmap v _) j) with (check_bit (set_bit v c) j).
  rewrite check_set_bit, eqb_mod_near by (done || lia).
  by rewrite (proj2 (Z.ltb_lt j _)) by lia.
Qed.

Lemma mark_ahead : w_next s < c -> marks_as_seen.
Proof.
  intros Hgt. pose proof Hrep as [[Hw Hn] Hnx _ _]. pose proof Hc as [Hc0 Hc1].
  unfold marks_as_seen, mark_did_receive.
  rewrite counter_add_window, (proj2 (Z.ltb_ge _ _)), (proj2 (Z.eqb_neq _ _)),
    (proj2 (Z.ltb_ge _ _))
    by (done || lia || unfold N_BITS, WORD_SIZE, N_WORDS; lia).
  edestruct (clear_skipped_ok v c) as (v1 & -> & Hw1 & Hn1 & Hcnt1 & Hb1); [done|done|lia|].
  cbn [obind]. eexists; split; [done|]. split; [|done].
  rewrite counter_add by (done || lia).
  eapply represents_mark; [done..|by rewrite <- Hw1; apply length_set_bit|cbn; lia|].
  cbn [next with_next]. intros j Hj Hj'.
  change (check_bit (with_next _ _) j) with (check_bit (set_bit v1 c) j).
  rewrite check_set_bit, eqb_mod_near, Hb1 by (done || lia).
  destruct (Z.eqb_spec j c); [done|]; cbn [orb]. f_equal. rewrite Hnx.
  apply eq_true_iff_eq. rewrite negb_true_iff, Z.ltb_ge, Z.ltb_lt.
  unfold N_BITS, WORD_SIZE, N_WORDS in *. dlia.
Qed.

Lemma mark_too_old : c + N_BITS < w_next s -> mark_did_receive v c = Ret (v, Err InvalidCounter).
Proof.
  intros. pose proof Hrep as [_ Hnx _ _]. unfold mark_did_receive.
  by rewrite counter_add_window, (proj2 (Z.ltb_lt _ _)) by (done || lia).
Qed.

(** Marking agrees with the specification: it accepts exactly the counters the
    window accepts, never loops forever, leaves a rejected state alone, and
    keeps representing the marked window. *)
Lemma mark_step :
  if window_accepts s c then marks_as_seen
  else mark_did_receive v c = Ret (v, Err InvalidCounter).
Proof.
  unfold window_accepts. rewrite bool_decide_not.
  destruct (Z.leb_spec (w_next s) c); cbn [orb].
  - destruct (Z.eq_dec c (w_next s)); [by apply mark_in_order|apply mark_ahead; lia].
  - destruct (Z.leb_spec (w_next s) (c + N_BITS)); cbn [andb]; [|by apply mark_too_old].
    pose proof mark_late as Hm. by destruct (bool_decide _); cbn [negb]; apply Hm.
Qed.

Lemma will_accept_step : is_ok (will_accept v c) = window_accepts s c.
Proof.
  pose proof Hrep as [[Hw Hn] Hnx _ Hbits]. pose proof Hc as [Hc0 Hc1].
  unfold will_accept, window_accepts. rewrite counter_add_window, Hnx, bool_decide_not by done.
  destruct (Z.leb_spec (w_next s) c); [done|]; cbn [orb].
  destruct (Z.ltb_spec (c + N_BITS) (w_next s)).
  - by rewrite (proj2 (Z.leb_gt _ _)) by lia.
  - rewrite (proj2 (Z.leb_le _ _)), Hbits by lia. by destruct (bool_decide _).
Qed.
End mark.

Lemma represents_init : represents validator_default window_init.
Proof.
  constructor; cbn; [|done|set_solver|intros; lia].
  constructor; [done|]. cbn. unfold COUNTER_LIMIT, N_BITS, WORD_SIZE, N_WORDS. lia.
Qed.

Lemma run_marks_window v s cs :
  represents v s -> Forall counter_ok cs ->
  exists v', run_marks v cs = Ret (v', snd (window_run s cs)) /\
    represents v' (fst (window_run s cs)).
Proof.
  intros Hrep Hcs. revert v s Hrep.
  induction Hcs as [|c cs Hc _ IH]; intros v s Hrep; cbn; [eauto|].
  pose proof (mark_step v s c Hrep Hc) as Hm.
  destruct (window_accepts s c).
  - destruct Hm as (v1 & -> & Hrep1 & _). cbn [obind].
    destruct (IH _ _ Hrep1) as (v2 & -> & Hrep2). cbn [obind].
    destruct (window_run (window_mark s c) cs). eauto.
  - rewrite Hm. cbn [obind]. destruct (IH _ _ Hrep) as (v2 & -> & Hrep2). cbn [obind].
    destruct (window_run s cs). eauto.
Qed.

(** The specification never accepts a counter it has seen. *)
Lemma window_run_fresh s cs x :
  (forall c, c ∈ w_seen s -> c < w_next s) ->
  x ∈ accepted cs (snd (window_run s cs)) -> x ∉ w_seen s.
Proof.
  revert s. induction cs as [|c cs IH]; intros s Hs; cbn; [set_solver|].
  destruct (window_accepts s c) eqn:Ha.
  - destruct (window_run (window_mark s c) cs) as [s' oks] eqn:E; cbn.
    intros [->|Hx]%elem_of_cons.
    + intros Hin. unfold window_accepts in Ha. apply orb_true_iff in Ha as [Ha|Ha]; zbool.
      * specialize (Hs _ Hin). lia.
      * apply bool_decide_eq_true in H0. done.
    + assert (x ∉ w_seen (window_mark s c)) as Hn; [|set_solver].
      apply IH; [|by rewrite E]. cbn. intros y [->%elem_of_singleton|Hy]%elem_of_union; [lia|].
      specialize (Hs _ Hy). lia.
  - destruct (window_run s cs) as [s' oks] eqn:E; cbn. intros Hx.
    apply IH; [done|by rewrite E].
Qed.

Lemma window_run_nodup s cs :
  (forall c, c ∈ w_seen s -> c < w_next s) ->
  NoDup (accepted cs (snd (window_run s cs))).
Proof.
  revert s. induction cs as [|c cs IH]; intros s Hs; cbn; [constructor|].
  destruct (window_accepts s c).
  - destruct (window_run (window_mark s c) cs) as [s' oks] eqn:E; cbn.
    assert (forall y, y ∈ w_seen (window_mark s c) -> y < w_next (window_mark s c)) as Hs1.
    { cbn. intros y [->%elem_of_singleton|Hy]%elem_of_union; [lia|]. specialize (Hs _ Hy). lia. }
    constructor; [|specialize (IH _ Hs1); by rewrite E in IH].
    intros Hin. eapply (window_run_fresh (window_mark s c) cs c); [done|by rewrite E|].
    cbn. set_solver.
  - destruct (window_run s cs) as [s' oks] eqn:E; cbn. specialize (IH s Hs). by rewrite E in IH.
Qed.

(** ** Properties *)

(** C2: the bitmap validator refines the set-based window. On every state that
    represents a window and every counter below the overflow limit,
    [will_accept] answers as the window does, and [mark_did_receive] returns
    (its clearing loops finish): it accepts and then represents the window
    with the counter added, or reports [InvalidCounter] and changes nothing. *)
Theorem validator_refines_window v s c :
  represents v s -> counter_ok c ->
  is_ok (will_accept v c) = window_accepts s c /\
  if window_accepts s c
  then exists v', mark_did_receive v c = Ret (v', Ok tt) /\ represents v' (window_mark s c)
  else mark_did_receive v c = Ret (v, Err InvalidCounter).
Proof.
  intros Hrep Hc. split; [by apply will_accept_step|].
  pose proof (mark_step v s c Hrep Hc) as Hm. destruct (window_accepts s c); [|done].
  destruct Hm as (v' & ? & ? & _). eauto.
Qed.

Lemma validator_refines_window_witness :
  is_ok (will_accept validator_default 70) = true /\
  exists v', mark_did_receive validator_default 70 = Ret (v', Ok tt) /\
    represents v' (window_mark window_init 70).
Proof.
  apply (validator_refines_window validator_default window_init 70).
  - apply represents_init.
  - unfold counter_ok, COUNTER_LIMIT, N_BITS, WORD_SIZE, N_WORDS. lia.
Defined.

(** No replay. Whatever counters arrive in whatever order, as long as none
    reaches the overflow limit, a run of the validator from its initial state
    finishes, gives the verdicts of the specification, and never accepts the
    same counter twice. *)
Theorem replay_rejected cs :
  Forall counter_ok cs ->
  exists v rs, run_marks validator_default cs = Ret (v, rs) /\
    rs = snd (window_run window_init cs) /\ NoDup (accepted cs rs).
Proof.
  intros Hcs. destruct (run_marks_window _ _ cs represents_init Hcs) as (v & E & _).
  do 2 eexists; split; [exact E|]. split; [done|]. apply window_run_nodup. set_solver.
Qed.

Lemma replay_rejected_witness :
  exists v rs, run_marks validator_default [0; 63; 63; 5; 2000; 5; 1900; 1900] = Ret (v, rs) /\
    rs = snd (window_run window_init [0; 63; 63; 5; 2000; 5; 1900; 1900]) /\
    NoDup (accepted [0; 63; 63; 5; 2000; 5; 1900; 1900] rs).
Proof.
  apply (replay_rejected [0; 63; 63; 5; 2000; 5; 1900; 1900]).
  unfold counter_ok, COUNTER_LIMIT, N_BITS, WORD_SIZE, N_WORDS.
  repeat constructor; lia.
Defined.

(** The limit matters. A single counter of [u64::MAX] early in a session
    wraps [next] back to zero, and the validator then accepts a counter it had
    already accepted. *)
Theorem replay_after_counter_wrap :
  exists v, run_marks validator_default [0; 2 ^ 64 - 1; 0] = Ret (v, [true; true; true]).
Proof. eexists. vm_compute. reflexivity. Qed.

(** From a word boundary far below the counter, the word loop needs an
    iteration per word. *)
Lemma word_loop_long n k v c :
  0 <= k -> c < 2 ^ 64 -> (k + Z.of_nat n) * WORD_SIZE + WORD_SIZE < c ->
  while n (words_left c) clear_next_word (k * WORD_SIZE, v) = Diverged.
Proof.
  revert k v. induction n as [|n IH]; intros k v Hk Hc Hn; [done|].
  rewrite Nat2Z.inj_succ in Hn. cbn [while words_left clear_next_word].
  assert (wadd 64 (k * WORD_SIZE) WORD_SIZE = k * WORD_SIZE + WORD_SIZE) as Hw
    by (apply wrap_small; unfold WORD_SIZE in *; lia).
  rewrite Hw, (proj2 (Z.ltb_lt _ _)) by (unfold WORD_SIZE in *; lia). rewrite <- Hw.
  rewrite land_word_mask by (unfold WORD_SIZE in *; try lia; by rewrite Z.mod_mul).
  replace (k * WORD_SIZE + WORD_SIZE) with ((k + 1) * WORD_SIZE) by lia.
  apply IH; unfold WORD_SIZE in *; lia.
Qed.

Definition near_max : Z := 2 ^ 64 - 40.
Definition nearer_max : Z := 2 ^ 64 - 10.

(** The limit also guards against a stall. After a packet with counter
    2^64-40, a packet with counter 2^64-10 sends the clearing loop past the end
    of the counter range: its index wraps to zero and the loop would run for
    more than 2^57 iterations before it ends. *)
Theorem clearing_stalls_near_wrap n :
  Z.of_nat n <= 2 ^ 57 ->
  exists v v1,
    mark_did_receive validator_default near_max = Ret (v, Ok tt) /\
    clear_to_boundary nearer_max (next v, v) = Ret (nearer_max, v1) /\
    while (S n) (words_left nearer_max) clear_next_word (nearer_max, v1) = Diverged.
Proof.
  intros Hn. do 2 eexists. split; [vm_compute; reflexivity|]. split; [vm_compute; reflexivity|].
  cbn [while words_left clear_next_word].
  change (wadd 64 nearer_max WORD_SIZE <? nearer_max) with true. cbv iota.
  change (Z.land (wadd 64 nearer_max WORD_SIZE) (wsub 64 0 WORD_SIZE)) with (0 * WORD_SIZE).
  apply word_loop_long; unfold nearer_max, WORD_SIZE; lia.
Qed.

Lemma clearing_stalls_near_wrap_witness :
  exists v v1,
    mark_did_receive validator_default near_max = Ret (v, Ok tt) /\
    clear_to_boundary nearer_max (next v, v) = Ret (nearer_max, v1) /\
    while 5 (words_left nearer_max) clear_next_word (nearer_max, v1) = Diverged.
Proof. apply (clearing_stalls_near_wrap 4). lia. Defined.
