(* ===== verification/Crypto.v ===== *)
(** The cryptographic interface of the engine. The primitives come from third
    party crates (blake2, hmac, chacha20poly1305, x25519-dalek), so they are a
    class of operations, [Crypto], with the documented behaviour the engine
    relies on as a second class, [CryptoLaws]. The wrappers below them are the
    helper functions at the top of [boringtun/src/noise/handshake.rs]. *)

From S2P Require Import Prelude Errors.

(** ** Interface *)

Class Crypto := {
  (** BLAKE2s with a 32-byte digest. *)
  blake2s256 : bytes -> bytes;
  (** HMAC over BLAKE2s: key, message. *)
  hmac_blake2s : bytes -> bytes -> bytes;
  (** Keyed BLAKE2s: output size, key, message. *)
  blake2s_mac : nat -> bytes -> bytes -> bytes;
  (** ChaCha20-Poly1305, detached tag: key, nonce, associated data, text. *)
  chacha_encrypt : bytes -> bytes -> bytes -> bytes -> bytes * bytes;
  chacha_decrypt : bytes -> bytes -> bytes -> bytes -> bytes -> option bytes;
  (** XChaCha20-Poly1305, the same with a 24-byte nonce. *)
  xchacha_encrypt : bytes -> bytes -> bytes -> bytes -> bytes * bytes;
  xchacha_decrypt : bytes -> bytes -> bytes -> bytes -> bytes -> option bytes;
  (** X25519: public key of a secret, shared secret. *)
  x25519_public : bytes -> bytes;
  x25519_dh : bytes -> bytes -> bytes
}.

(** What sealing and opening promise each other. *)
Record aead_laws (enc : bytes -> bytes -> bytes -> bytes -> bytes * bytes)
    (dec : bytes -> bytes -> bytes -> bytes -> bytes -> option bytes) : Prop := {
  aead_open : forall k n a p, dec k n a (fst (enc k n a p)) (snd (enc k n a p)) = Some p;
  aead_ct_len : forall k n a p, length (fst (enc k n a p)) = length p;
  aead_tag_len : forall k n a p, length (snd (enc k n a p)) = 16%nat;
  aead_pt_len : forall k n a c t p, dec k n a c t = Some p -> length p = length c;
  aead_bytes : forall k n a p, bytes_ok p -> bytes_ok (fst (enc k n a p) ++ snd (enc k n a p))
}.

Class CryptoLaws (C : Crypto) : Prop := {
  blake2s256_len : forall d, length (blake2s256 d) = 32%nat;
  hmac_len : forall k d, length (hmac_blake2s k d) = 32%nat;
  blake2s_mac_len : forall n k d, (n <= 32)%nat -> length (blake2s_mac n k d) = n;
  chacha_laws : aead_laws chacha_encrypt chacha_decrypt;
  xchacha_laws : aead_laws xchacha_encrypt xchacha_decrypt;
  x25519_public_len : forall s, length (x25519_public s) = 32%nat;
  x25519_dh_len : forall s p, length (x25519_dh s p) = 32%nat;
  x25519_comm : forall a b, x25519_dh a (x25519_public b) = x25519_dh b (x25519_public a)
}.

(** ** Hashing and sealing helpers *)

Section helpers.
Context {C : Crypto}.

Definition b2s_hash (data1 data2 : bytes) : bytes := blake2s256 (data1 ++ data2).

Definition b2s_hmac (key data1 : bytes) : bytes := hmac_blake2s key data1.

Definition b2s_hmac2 (key data1 data2 : bytes) : bytes := hmac_blake2s key (data1 ++ data2).

Definition b2s_keyed_mac_16 (key data1 : bytes) : bytes := blake2s_mac 16 key data1.

Definition b2s_keyed_mac_16_2 (key data1 data2 : bytes) : bytes :=
  blake2s_mac 16 key (data1 ++ data2).

Definition b2s_mac_24 (key data1 : bytes) : bytes := blake2s_mac 24 key data1.

(** The twelve-byte nonce of a counter: four zero bytes, then the counter. *)
Definition counter_nonce (counter : Z) : bytes := replicate 4 0 ++ to_le_bytes 8 counter.

Definition aead_chacha20_seal_inner (key nonce data aad : bytes) : bytes :=
  let '(ct, tag) := chacha_encrypt key nonce aad data in ct ++ tag.

(** The caller's buffer is sized [data.len() + 16], so the value written is
    the ciphertext followed by the tag. *)
Definition aead_chacha20_seal (key : bytes) (counter : Z) (data aad : bytes) : bytes :=
  aead_chacha20_seal_inner key (counter_nonce counter) data aad.

(** Opening into a buffer of [buffer_len] bytes: [data.len() - 16] underflows
    on a short input, and [copy_from_slice] panics on a length mismatch. *)
Definition aead_chacha20_open_inner (buffer_len : nat) (key nonce data aad : bytes)
  : outcome (Result unit bytes) :=
  if (length data <? 16)%nat then Panicked
  else
    let split := (length data - 16)%nat in
    match chacha_decrypt key nonce aad (take split data) (drop split data) with
    | None => Ret (Err tt)
    | Some inner =>
        if (length inner =? buffer_len)%nat then Ret (Ok inner) else Panicked
    end.

Definition aead_chacha20_open (buffer_len : nat) (key : bytes) (counter : Z) (data aad : bytes)
  : outcome (Result WireGuardError bytes) :=
  let! r := aead_chacha20_open_inner buffer_len key (counter_nonce counter) data aad in
  match r with
  | Err _ => Ret (Err InvalidAeadTag)
  | Ok b => Ret (Ok b)
  end.
End helpers.

(** ** Lemmas *)

Section lemmas.
Context {C : Crypto} {L : CryptoLaws C}.

Lemma b2s_hash_len a b : length (b2s_hash a b) = 32%nat.
Proof. apply blake2s256_len. Qed.

Lemma b2s_hmac_len a b : length (b2s_hmac a b) = 32%nat.
Proof. apply hmac_len. Qed.

Lemma b2s_hmac2_len a b c : length (b2s_hmac2 a b c) = 32%nat.
Proof. apply hmac_len. Qed.

Lemma b2s_keyed_mac_16_len k d : length (b2s_keyed_mac_16 k d) = 16%nat.
Proof. apply blake2s_mac_len. lia. Qed.

Lemma b2s_keyed_mac_16_2_len k d e : length (b2s_keyed_mac_16_2 k d e) = 16%nat.
Proof. apply blake2s_mac_len. lia. Qed.

Lemma b2s_mac_24_len k d : length (b2s_mac_24 k d) = 24%nat.
Proof. apply blake2s_mac_len. lia. Qed.

Lemma length_counter_nonce c : length (counter_nonce c) = 12%nat.
Proof. unfold counter_nonce. by rewrite length_app, length_replicate, length_to_le_bytes. Qed.

Lemma aead_chacha20_seal_len k c d a :
  length (aead_chacha20_seal k c d a) = (length d + 16)%nat.
Proof.
  unfold aead_chacha20_seal, aead_chacha20_seal_inner.
  pose proof (aead_ct_len _ _ chacha_laws k (counter_nonce c) a d) as Hc.
  pose proof (aead_tag_len _ _ chacha_laws k (counter_nonce c) a d) as Ht.
  destruct (chacha_encrypt k (counter_nonce c) a d). cbn in *. rewrite length_app. lia.
Qed.

(** Opening a sealed message under the same key, counter and associated data
    gives the message back. *)
Lemma aead_chacha20_open_seal k c d a n :
  length d = n -> aead_chacha20_open n k c (aead_chacha20_seal k c d a) a = Ret (Ok d).
Proof.
  intros <-. unfold aead_chacha20_open, aead_chacha20_open_inner.
  rewrite aead_chacha20_seal_len.
  unfold aead_chacha20_seal, aead_chacha20_seal_inner.
  pose proof (aead_open _ _ chacha_laws k (counter_nonce c) a d) as Ho.
  pose proof (aead_ct_len _ _ chacha_laws k (counter_nonce c) a d) as Hc.
  destruct (chacha_encrypt k (counter_nonce c) a d) as [ct tag]. cbn [fst snd] in *.
  destruct (Nat.ltb_spec (length d + 16) 16); [lia|].
  replace (length d + 16 - 16)%nat with (length ct) by lia.
  rewrite take_app_length, drop_app_length, Ho, Nat.eqb_refl. done.
Qed.

(** Opening never panics on an input of the buffer's size plus the tag. *)
Lemma aead_chacha20_open_total n k c d a :
  length d = (n + 16)%nat ->
  exists r, aead_chacha20_open n k c d a = Ret r.
Proof.
  intros Hd. unfold aead_chacha20_open, aead_chacha20_open_inner. rewrite Hd.
  destruct (Nat.ltb_spec (n + 16) 16); [lia|].
  replace (n + 16 - 16)%nat with n by lia.
  destruct (chacha_decrypt k (counter_nonce c) a (take n d) (drop n d)) as [p|] eqn:E;
    cbn; [|eauto].
  apply (aead_pt_len _ _ chacha_laws) in E. rewrite length_take_le in E by lia.
  rewrite E, Nat.eqb_refl. cbn. eauto.
Qed.
End lemmas.

#[export] Hint Rewrite @b2s_hash_len @b2s_hmac_len @b2s_hmac2_len @b2s_keyed_mac_16_len
  @b2s_keyed_mac_16_2_len @b2s_mac_24_len @aead_chacha20_seal_len length_counter_nonce
  @x25519_public_len @x25519_dh_len using typeclasses eauto : len.
