(* ===== verification/ToyCrypto.v ===== *)
(** A concrete instance of the cryptographic interface. It is not secure; it
    only shows that the laws of [CryptoLaws] can hold together and lets the
    examples of the development run by computation. *)

From S2P Require Import Prelude Crypto.

(** [n] bytes that depend on every byte of the input. *)
Definition toy_digest (n : nat) (salt : Z) (d : bytes) : bytes :=
  map (fun i => fold_left (fun acc b => (acc * 31 + b + 7) mod 65521) d (salt + Z.of_nat i) mod 256)
    (seq 0 n).

(** Cut or zero-pad to [n] bytes. *)
Definition fit (n : nat) (d : bytes) : bytes := take n (d ++ replicate n 0).

Definition toy_tag (key nonce aad text : bytes) : bytes :=
  toy_digest 16 3 (key ++ nonce ++ aad ++ text).

Definition toy_encrypt (key nonce aad text : bytes) : bytes * bytes :=
  (text, toy_tag key nonce aad text).

Definition toy_decrypt (key nonce aad text tag : bytes) : option bytes :=
  if bytes_eqb (toy_tag key nonce aad text) tag then Some text else None.

#[export] Instance ToyCrypto : Crypto := {
  blake2s256 := toy_digest 32 1;
  hmac_blake2s k d := toy_digest 32 2 (k ++ 255 :: d);
  blake2s_mac n k d := toy_digest n 4 (k ++ 254 :: d);
  chacha_encrypt := toy_encrypt;
  chacha_decrypt := toy_decrypt;
  xchacha_encrypt := toy_encrypt;
  xchacha_decrypt := toy_decrypt;
  x25519_public s := fit 32 s;
  x25519_dh a b := fit 32 (zip_with Z.lxor (fit 32 a) (fit 32 b))
}.

Lemma length_toy_digest n s d : length (toy_digest n s d) = n.
Proof. unfold toy_digest. by rewrite length_map, length_seq. Qed.

Lemma length_fit n d : length (fit n d) = n.
Proof. unfold fit. rewrite length_take, length_app, length_replicate. lia. Qed.

Lemma fit_idem n d : fit n (fit n d) = fit n d.
Proof.
  unfold fit at 1. rewrite take_app_le by (rewrite length_fit; lia).
  rewrite take_ge; [done|]. rewrite length_fit. lia.
Qed.

Lemma zip_with_lxor_comm a b : zip_with Z.lxor a b = zip_with Z.lxor b a.
Proof. revert b; induction a; intros [|]; cbn; [done..|]. f_equal; [apply Z.lxor_comm|auto]. Qed.

Lemma toy_digest_bytes n s d : bytes_ok (toy_digest n s d).
Proof. apply Forall_map, Forall_forall. intros i _. unfold byte_ok. dlia. Qed.

Lemma toy_aead : aead_laws toy_encrypt toy_decrypt.
Proof.
  constructor.
  - intros. unfold toy_decrypt, toy_encrypt; cbn. by rewrite bytes_eqb_refl.
  - done.
  - intros. apply length_toy_digest.
  - unfold toy_decrypt. intros. case_match; by simplify_eq.
  - intros k n a p Hp. apply Forall_app. split; [done|]. apply toy_digest_bytes.
Qed.

#[export] Instance ToyCryptoLaws : CryptoLaws ToyCrypto.
Proof.
  constructor; cbn -[fit toy_digest toy_encrypt toy_decrypt]; intros;
    try apply length_toy_digest; try apply length_fit; try apply toy_aead.
  rewrite !fit_idem. f_equal. apply zip_with_lxor_comm.
Qed.
