(* ===== verification/Packet.v ===== *)
(** The WireGuard wire format: the message constants, the packet types and
    [Tunn::parse_incoming_packet] / [Tunn::dst_address] of
    [boringtun/src/noise/mod.rs]. *)

From S2P Require Import Prelude Errors.

(** ** Constants *)

Definition IPV4_MIN_HEADER_SIZE : nat := 20.
Definition IPV4_LEN_OFF : nat := 2.
Definition IPV4_SRC_IP_OFF : nat := 12.
Definition IPV4_DST_IP_OFF : nat := 16.
Definition IPV4_IP_SZ : nat := 4.
Definition IPV6_MIN_HEADER_SIZE : nat := 40.
Definition IPV6_LEN_OFF : nat := 4.
Definition IPV6_SRC_IP_OFF : nat := 8.
Definition IPV6_DST_IP_OFF : nat := 24.
Definition IPV6_IP_SZ : nat := 16.
Definition IP_LEN_SZ : nat := 2.

Definition HANDSHAKE_INIT : Z := 1.
Definition HANDSHAKE_RESP : Z := 2.
Definition COOKIE_REPLY : Z := 3.
Definition DATA : Z := 4.

Definition HANDSHAKE_INIT_SZ : nat := 148.
Definition HANDSHAKE_RESP_SZ : nat := 92.
Definition COOKIE_REPLY_SZ : nat := 64.
Definition DATA_OVERHEAD_SZ : nat := 32.

(** ** Data *)

Inductive IpAddr : Type :=
| V4 (octets : bytes)
| V6 (octets : bytes).

#[export] Instance IpAddr_eq_dec : EqDecision IpAddr.
Proof. solve_decision. Defined.

(** An address with a port. *)
Definition SocketAddr : Type := IpAddr * Z.

Record HandshakeInit := mkHandshakeInit {
  hi_sender_idx : Z;
  hi_unencrypted_ephemeral : bytes;
  hi_encrypted_static : bytes;
  hi_encrypted_timestamp : bytes
}.

Record HandshakeResponse := mkHandshakeResponse {
  hr_sender_idx : Z;
  hr_receiver_idx : Z;
  hr_unencrypted_ephemeral : bytes;
  hr_encrypted_nothing : bytes
}.

Record PacketCookieReply := mkPacketCookieReply {
  pc_receiver_idx : Z;
  pc_nonce : bytes;
  pc_encrypted_cookie : bytes
}.

Record PacketData := mkPacketData {
  pd_receiver_idx : Z;
  pd_counter : Z;
  pd_encrypted_encapsulated_packet : bytes
}.

Inductive Packet : Type :=
| PHandshakeInit (p : HandshakeInit)
| PHandshakeResponse (p : HandshakeResponse)
| PPacketCookieReply (p : PacketCookieReply)
| PPacketData (p : PacketData).

(** What a call on the tunnel asks its caller to do. The slices point into the
    caller's buffer; here they are the bytes written there. *)
Inductive TunnResult : Type :=
| Done
| TErr (e : WireGuardError)
| WriteToNetwork (b : bytes)
| WriteToTunnelV4 (b : bytes) (src : bytes)
| WriteToTunnelV6 (b : bytes) (src : bytes).

(** ** Parsing *)

Definition parse_incoming_packet (src : bytes) : Result WireGuardError Packet :=
  if (length src <? 4)%nat then Err InvalidPacket
  else
    let packet_type := from_le_bytes (slice 0 4 src) in
    if (packet_type =? HANDSHAKE_INIT) && (length src =? HANDSHAKE_INIT_SZ)%nat then
      Ok (PHandshakeInit (mkHandshakeInit
        (from_le_bytes (slice 4 8 src))
        (slice 8 40 src) (slice 40 88 src) (slice 88 116 src)))
    else if (packet_type =? HANDSHAKE_RESP) && (length src =? HANDSHAKE_RESP_SZ)%nat then
      Ok (PHandshakeResponse (mkHandshakeResponse
        (from_le_bytes (slice 4 8 src))
        (from_le_bytes (slice 8 12 src))
        (slice 12 44 src) (slice 44 60 src)))
    else if (packet_type =? COOKIE_REPLY) && (length src =? COOKIE_REPLY_SZ)%nat then
      Ok (PPacketCookieReply (mkPacketCookieReply
        (from_le_bytes (slice 4 8 src))
        (slice 8 32 src) (slice 32 64 src)))
    else if (packet_type =? DATA) && (DATA_OVERHEAD_SZ <=? length src)%nat then
      Ok (PPacketData (mkPacketData
        (from_le_bytes (slice 4 8 src))
        (from_le_bytes (slice 8 16 src))
        (drop 16 src)))
    else Err InvalidPacket.

(** Version nibble of an IP packet's first byte. *)
Definition ip_version (packet : bytes) : Z := Z.shiftr (packet !!! 0%nat) 4.

Definition dst_address (packet : bytes) : option IpAddr :=
  match packet with
  | [] => None
  | _ :: _ =>
      if (ip_version packet =? 4) && (IPV4_MIN_HEADER_SIZE <=? length packet)%nat then
        Some (V4 (slice IPV4_DST_IP_OFF (IPV4_DST_IP_OFF + IPV4_IP_SZ) packet))
      else if (ip_version packet =? 6) && (IPV6_MIN_HEADER_SIZE <=? length packet)%nat then
        Some (V6 (slice IPV6_DST_IP_OFF (IPV6_DST_IP_OFF + IPV6_IP_SZ) packet))
      else None
  end.

(** ** The wire format as a specification *)

(** Everything before the two MACs of a message. *)
Definition packet_prefix (p : Packet) : bytes :=
  match p with
  | PHandshakeInit h =>
      to_le_bytes 4 HANDSHAKE_INIT ++ to_le_bytes 4 (hi_sender_idx h) ++
      hi_unencrypted_ephemeral h ++ hi_encrypted_static h ++ hi_encrypted_timestamp h
  | PHandshakeResponse h =>
      to_le_bytes 4 HANDSHAKE_RESP ++ to_le_bytes 4 (hr_sender_idx h) ++
      to_le_bytes 4 (hr_receiver_idx h) ++ hr_unencrypted_ephemeral h ++ hr_encrypted_nothing h
  | PPacketCookieReply c =>
      to_le_bytes 4 COOKIE_REPLY ++ to_le_bytes 4 (pc_receiver_idx c) ++
      pc_nonce c ++ pc_encrypted_cookie c
  | PPacketData d =>
      to_le_bytes 4 DATA ++ to_le_bytes 4 (pd_receiver_idx d) ++
      to_le_bytes 8 (pd_counter d) ++ pd_encrypted_encapsulated_packet d
  end.

(** Bytes of MACs that follow: only the handshake messages carry them. *)
Definition macs_len (p : Packet) : nat :=
  match p with
  | PHandshakeInit _ | PHandshakeResponse _ => 32
  | _ => 0
  end.

Definition u32 (z : Z) : Prop := 0 <= z < 2 ^ 32.
Definition u64 (z : Z) : Prop := 0 <= z < 2 ^ 64.

(** The sizes and ranges the types of the source impose. *)
Definition packet_ok (p : Packet) : Prop :=
  match p with
  | PHandshakeInit h =>
      u32 (hi_sender_idx h) /\ length (hi_unencrypted_ephemeral h) = 32%nat /\
      length (hi_encrypted_static h) = 48%nat /\ length (hi_encrypted_timestamp h) = 28%nat
  | PHandshakeResponse h =>
      u32 (hr_sender_idx h) /\ u32 (hr_receiver_idx h) /\
      length (hr_unencrypted_ephemeral h) = 32%nat /\ length (hr_encrypted_nothing h) = 16%nat
  | PPacketCookieReply c =>
      u32 (pc_receiver_idx c) /\ length (pc_nonce c) = 24%nat /\
      length (pc_encrypted_cookie c) = 32%nat
  | PPacketData d =>
      u32 (pd_receiver_idx d) /\ u64 (pd_counter d) /\
      (16 <= length (pd_encrypted_encapsulated_packet d))%nat
  end.

(** ** Lemmas *)

(** Cutting a buffer at consecutive offsets and gluing it back. *)
Lemma take_slice_app {A} lo hi (l : list A) :
  (lo <= hi)%nat -> slice lo hi l ++ drop hi l = drop lo l.
Proof.
  intros. unfold slice. replace (drop hi l) with (drop (hi - lo) (drop lo l)).
  - apply take_drop.
  - rewrite drop_drop. f_equal. lia.
Qed.

Lemma bytes_ok_slice lo hi bs : bytes_ok bs -> bytes_ok (slice lo hi bs).
Proof. intros. by apply Forall_take, Forall_drop. Qed.

(** A little-endian field read from well-formed bytes is in range and writes
    back the same bytes. *)
Lemma le_field lo hi n bs :
  bytes_ok bs -> (hi - lo = n)%nat -> (lo <= hi <= length bs)%nat ->
  to_le_bytes n (from_le_bytes (slice lo hi bs)) = slice lo hi bs /\
  0 <= from_le_bytes (slice lo hi bs) < 2 ^ (8 * Z.of_nat n).
Proof.
  intros Hbs Hn Hl. pose proof (bytes_ok_slice lo hi bs Hbs) as Hs.
  pose proof (length_slice lo hi bs Hl) as Hlen. rewrite Hn in Hlen. rewrite <- Hlen.
  split; [by apply to_from_le_bytes|by apply from_le_bytes_bound].
Qed.

(** The fields of a buffer laid out as consecutive parts. *)
Lemma slice_skip {A} lo hi (a b : list A) n :
  length a = n -> (n <= lo)%nat -> slice lo hi (a ++ b) = slice (lo - n) (hi - n) b.
Proof.
  intros <- ?. unfold slice. rewrite drop_app_ge by lia. f_equal. lia.
Qed.

Lemma drop_skip {A} lo (a b : list A) n :
  length a = n -> (n <= lo)%nat -> drop lo (a ++ b) = drop (lo - n) b.
Proof. intros <- ?. by rewrite drop_app_ge. Qed.

(** Walk to the field a [slice] or [drop] selects, using the lengths in the
    context. *)
Ltac field_len := first [apply length_to_le_bytes | eassumption].
Ltac fields :=
  repeat first
    [ rewrite slice_head by field_len
    | erewrite slice_skip by first [field_len | lia]; cbn [Nat.sub]
    | erewrite drop_skip by first [field_len | lia]; cbn [Nat.sub] ].

Lemma length_packet p macs :
  packet_ok p -> length macs = macs_len p ->
  length (packet_prefix p ++ macs) =
    match p with
    | PHandshakeInit _ => HANDSHAKE_INIT_SZ
    | PHandshakeResponse _ => HANDSHAKE_RESP_SZ
    | PPacketCookieReply _ => COOKIE_REPLY_SZ
    | PPacketData d => (16 + length (pd_encrypted_encapsulated_packet d))%nat
    end.
Proof.
  destruct p; cbn [packet_ok packet_prefix macs_len]; intros Hp Hm; destruct_and?;
    autorewrite with len; rewrite ?Hm;
    repeat match goal with H : length _ = _ |- _ => rewrite H end; reflexivity || lia.
Qed.

(** A field in range reads back as written. *)
Ltac le_id := rewrite ?from_to_le_id by (unfold u32, u64 in *; cbn; lia).

Lemma parse_serialize_data d :
  packet_ok (PPacketData d) ->
  parse_incoming_packet (packet_prefix (PPacketData d)) = Ok (PPacketData d).
Proof.
  intros Hp. unfold parse_incoming_packet.
  pose proof (length_packet (PPacketData d) [] Hp eq_refl) as Hlen. rewrite app_nil_r in Hlen.
  rewrite Hlen. destruct d as [idx ctr body]; cbn in Hp; destruct Hp as (Hi & Hc & Hb).
  unfold packet_prefix. cbn [pd_receiver_idx pd_counter pd_encrypted_encapsulated_packet].
  rewrite slice_head by field_len. change (from_le_bytes (to_le_bytes 4 DATA)) with 4.
  rewrite (proj2 (Nat.ltb_ge _ _)), (proj2 (Nat.leb_le DATA_OVERHEAD_SZ _))
    by (unfold DATA_OVERHEAD_SZ; lia).
  cbn -[slice drop to_le_bytes from_le_bytes app]. fields. le_id. by rewrite drop_0.
Qed.

Lemma parse_serialize p macs :
  packet_ok p -> length macs = macs_len p ->
  parse_incoming_packet (packet_prefix p ++ macs) = Ok p.
Proof.
  intros Hp Hm.
  destruct p as [h|h|h|h]; [..|by destruct macs; [rewrite app_nil_r; apply parse_serialize_data|]];
    unfold parse_incoming_packet; rewrite length_packet by done;
    destruct h; cbn in Hp, Hm; destruct_and?;
    cbn [packet_prefix]; rewrite <- ?app_assoc, slice_head by field_len;
    rewrite (from_to_le_id 4) by (cbv; repeat constructor; discriminate);
    cbn -[slice drop to_le_bytes from_le_bytes app];
    fields; le_id; done.
Qed.

Lemma slice_0_take {A} n (l : list A) : slice 0 n l = take n l.
Proof. unfold slice. by rewrite drop_0, Nat.sub_0_r. Qed.

(** A type field equal to [t] was written as [t]. *)
Lemma type_field src t :
  bytes_ok src -> (4 <= length src)%nat -> from_le_bytes (slice 0 4 src) = t ->
  to_le_bytes 4 t = slice 0 4 src.
Proof. intros Hb Hl <-. apply (le_field 0 4 4 src Hb eq_refl). lia. Qed.

Lemma serialize_parse src p :
  bytes_ok src -> parse_incoming_packet src = Ok p ->
  packet_ok p /\ exists macs, src = packet_prefix p ++ macs /\ length macs = macs_len p.
Proof.
  intros Hb Hp. unfold parse_incoming_packet in Hp.
  destruct (Nat.ltb_spec (length src) 4) as [|Hl]; [discriminate|].
  pose proof (fun t => type_field src t Hb Hl) as Ht.
  assert (forall lo hi, (lo <= hi)%nat -> slice lo hi src ++ drop hi src = drop lo src) as Hcut.
  { intros. by apply take_slice_app. }
  pose proof (fun lo hi n => le_field lo hi n src Hb) as Hle.
  repeat case_hyp Hp; simplify_eq; zbool;
    repeat match goal with H : (_ =? _)%nat = true |- _ => apply Nat.eqb_eq in H end;
    repeat match goal with H : (_ <=? _)%nat = true |- _ => apply Nat.leb_le in H end;
    unfold HANDSHAKE_INIT_SZ, HANDSHAKE_RESP_SZ, COOKIE_REPLY_SZ, DATA_OVERHEAD_SZ in *;
    cbn [packet_ok packet_prefix macs_len hi_sender_idx hi_unencrypted_ephemeral
      hi_encrypted_static hi_encrypted_timestamp hr_sender_idx hr_receiver_idx
      hr_unencrypted_ephemeral hr_encrypted_nothing pc_receiver_idx pc_nonce
      pc_encrypted_cookie pd_receiver_idx pd_counter pd_encrypted_encapsulated_packet];
    rewrite ?length_slice, ?length_drop by lia;
    repeat match goal with
    | |- context [to_le_bytes ?n (from_le_bytes (slice ?lo ?hi src))] =>
        rewrite (proj1 (Hle lo hi n eq_refl ltac:(lia)))
    end;
    (split; [split_and?; first [apply (Hle _ _ 4%nat); (reflexivity || lia)
      | apply (Hle _ _ 8%nat); (reflexivity || lia) | reflexivity | lia]|]);
    [exists (drop 116 src)|exists (drop 60 src)|exists (drop 64 src)|exists []];
    rewrite ?length_drop; (split; [|cbn [length]; lia]);
    erewrite Ht by eassumption; rewrite <- ?app_assoc, ?app_nil_r, ?Hcut by lia;
    by rewrite ?drop_0.
Qed.

(** ** Properties *)

(** C30: the parser inverts the wire format. A datagram parses to a packet
    exactly when the packet is well formed and the datagram is its serialisation
    (type word, indices, counter and fields in their places), followed, in a
    handshake message, by the 32 bytes of its two MACs: so no two packets share
    a datagram, and every byte but those 32 is determined by the packet. The
    parser does not look at the MACs: datagrams that differ only there parse to
    the same packet, and are told apart by the rate limiter. *)
Theorem parse_wire_format src p :
  bytes_ok src ->
  parse_incoming_packet src = Ok p <->
  packet_ok p /\ exists macs, src = packet_prefix p ++ macs /\ length macs = macs_len p.
Proof.
  intros Hb. split; [by apply serialize_parse|].
  intros (Hp & macs & -> & Hm). by apply parse_serialize.
Qed.

Lemma parse_wire_format_witness :
  parse_incoming_packet (to_le_bytes 4 4 ++ to_le_bytes 4 769 ++ to_le_bytes 8 5 ++ replicate 16 9)
    = Ok (PPacketData (mkPacketData 769 5 (replicate 16 9))).
Proof.
  apply (parse_wire_format _ (PPacketData (mkPacketData 769 5 (replicate 16 9)))).
  - vm_compute. repeat constructor; discriminate.
  - split; [vm_compute; repeat constructor; discriminate|]. exists []. split; reflexivity.
Defined.
