(* ===== verification/Session.v ===== *)
(** Transport sessions, [Session] of [boringtun/src/noise/session.rs]: sealing
    outgoing packets under a fresh counter, and checking, opening and marking
    incoming ones. *)

From S2P Require Import Prelude Errors Replay Crypto ToyCrypto Packet.

Definition DATA_OFFSET : nat := 16.
Definition AEAD_SIZE : nat := 16.

(** The two ciphers are their keys. [sending_key_counter] is an [AtomicU64] and
    the validator sits behind a mutex, so the methods take [&self]; here each
    returns the session it leaves. *)
Record Session := mkSession {
  receiving_index : Z;
  sending_index : Z;
  receiver : bytes;
  sender : bytes;
  sending_key_counter : Z;
  receiving_key_counter : ReceivingKeyCounterValidator
}.

Definition Session_new (local_index peer_index : Z) (receiving_key sending_key : bytes) : Session :=
  mkSession local_index peer_index receiving_key sending_key 0 validator_default.

Definition with_sending_counter (s : Session) (c : Z) : Session :=
  mkSession (receiving_index s) (sending_index s) (receiver s) (sender s) c
    (receiving_key_counter s).
Definition with_validator (s : Session) (v : ReceivingKeyCounterValidator) : Session :=
  mkSession (receiving_index s) (sending_index s) (receiver s) (sender s)
    (sending_key_counter s) v.

Definition local_index (s : Session) : Z := receiving_index s.

Definition receiving_counter_quick_check (s : Session) (counter : Z)
  : Result WireGuardError unit :=
  will_accept (receiving_key_counter s) counter.

Definition receiving_counter_mark (s : Session) (counter : Z)
  : outcome (Session * Result WireGuardError unit) :=
  let! (v, ret) := mark_did_receive (receiving_key_counter s) counter in
  let v := if is_ok ret
           then mkValidator (next v) (wadd 64 (receive_cnt v) 1) (bitmap v) else v in
  Ret (with_validator s v, ret).

Section session.
Context {C : Crypto}.

(** Seal [src] into a buffer of [dst_len] bytes. *)
Definition format_packet_data (s : Session) (src : bytes) (dst_len : nat)
  : outcome (Session * bytes) :=
  if (dst_len <? length src + DATA_OVERHEAD_SZ)%nat then Panicked
  else
    let counter := sending_key_counter s in
    let s := with_sending_counter s (wadd 64 counter 1) in
    let nonce := replicate 4 0 ++ to_le_bytes 8 counter in
    let '(ct, tag) := chacha_encrypt (sender s) nonce [] src in
    Ret (s, to_le_bytes 4 DATA ++ to_le_bytes 4 (sending_index s) ++
            to_le_bytes 8 counter ++ ct ++ tag).

(** Open a data packet into a buffer of [dst_len] bytes. *)
Definition receive_packet_data (s : Session) (packet : PacketData) (dst_len : nat)
  : outcome (Session * Result WireGuardError bytes) :=
  let body := pd_encrypted_encapsulated_packet packet in
  let ct_len := length body in
  if (dst_len <? ct_len)%nat then Panicked
  else if negb (pd_receiver_idx packet =? receiving_index s) then Ret (s, Err WrongIndex)
  else
    match receiving_counter_quick_check s (pd_counter packet) with
    | Err e => Ret (s, Err e)
    | Ok _ =>
        if (ct_len <? AEAD_SIZE)%nat then Panicked
        else
          let nonce := replicate 4 0 ++ to_le_bytes 8 (pd_counter packet) in
          let split := (ct_len - AEAD_SIZE)%nat in
          match chacha_decrypt (receiver s) nonce [] (take split body) (drop split body) with
          | None => Ret (s, Err InvalidAeadTag)
          | Some pt =>
              let! (s, r) := receiving_counter_mark s (pd_counter packet) in
              match r with
              | Err e => Ret (s, Err e)
              | Ok _ => Ret (s, Ok pt)
              end
          end
    end.

End session.

Definition current_packet_cnt (s : Session) : Z * Z :=
  (next (receiving_key_counter s), receive_cnt (receiving_key_counter s)).

(** ** Specification *)

(** Seal a sequence of packets one after the other. *)
Fixpoint format_run {C : Crypto} (s : Session) (srcs : list bytes) (dst_len : nat)
  : outcome (Session * list bytes) :=
  match srcs with
  | [] => Ret (s, [])
  | src :: srcs' =>
      let! (s1, wire) := format_packet_data s src dst_len in
      let! (s2, wires) := format_run s1 srcs' dst_len in
      Ret (s2, wire :: wires)
  end.

(** The counter a datagram carries. *)
Definition wire_counter (wire : bytes) : option Z :=
  match parse_incoming_packet wire with
  | Ok (PPacketData p) => Some (pd_counter p)
  | _ => None
  end.

(** The receiving half of a session represents a window and counts what it
    accepted. *)
Record session_window (s : Session) (w : window) : Prop := {
  sw_represents :> represents (receiving_key_counter s) w;
  sw_count : receive_cnt (receiving_key_counter s) = Z.of_nat (size (w_seen w))
}.

Lemma session_window_init s : receiving_key_counter s = validator_default -> session_window s window_init.
Proof. intros E. constructor; rewrite E; [apply represents_init|done]. Qed.

(** A window has accepted no more counters than it is past. *)
Lemma seen_count v w : represents v w -> Z.of_nat (size (w_seen w)) <= w_next w.
Proof.
  intros Hr. assert (w_seen w ⊆ list_to_set (seqZ 0 (w_next w))) as Hs%subseteq_size.
  { intros c Hc%(rep_seen _ _ Hr). rewrite elem_of_list_to_set, elem_of_seqZ. lia. }
  rewrite size_list_to_set, length_seqZ in Hs by apply NoDup_seqZ.
  destruct Hr as [[_ Hn] Hnx _ _]. lia.
Qed.

Lemma accepted_new w c : (forall x, x ∈ w_seen w -> x < w_next w) -> window_accepts w c = true -> c ∉ w_seen w.
Proof.
  intros Hs Ha Hin. specialize (Hs _ Hin). unfold window_accepts in Ha. rewrite bool_decide_false in Ha by auto.
  rewrite andb_false_r, orb_false_r in Ha. zbool. lia.
Qed.

(** What a session's key opens a data packet to, if anything. *)
Definition opened {C : Crypto} (s : Session) (p : PacketData) : option bytes :=
  let body := pd_encrypted_encapsulated_packet p in
  chacha_decrypt (receiver s) (counter_nonce (pd_counter p)) []
    (take (length body - 16) body) (drop (length body - 16) body).

(** Two ends of a session: each end's sending key and index are the other's
    receiving key and index. *)
Record paired (a b : Session) : Prop := {
  pair_key : sender a = receiver b;
  pair_index : sending_index a = receiving_index b;
  pair_index_u32 : u32 (sending_index a)
}.

(** ** Lemmas *)

Section facts.
Context {C : Crypto} {L : CryptoLaws C}.

Lemma format_packet_data_ok s src dst_len :
  (length src + 32 <= dst_len)%nat ->
  format_packet_data s src dst_len =
    let c := sending_key_counter s in
    let e := chacha_encrypt (sender s) (counter_nonce c) [] src in
    Ret (with_sending_counter s (wadd 64 c 1),
         packet_prefix (PPacketData (mkPacketData (sending_index s) c (fst e ++ snd e)))).
Proof.
  intros. unfold format_packet_data, DATA_OVERHEAD_SZ.
  destruct (Nat.ltb_spec dst_len (length src + 32)); [lia|]. cbn.
  unfold counter_nonce. by destruct (chacha_encrypt _ _ _ _).
Qed.

Lemma represents_receive_cnt v n w :
  represents v w -> represents (mkValidator (next v) n (bitmap v)) w.
Proof. intros [[? ?] ? ? ?]. by constructor; [constructor|..]. Qed.

Lemma receiving_counter_mark_step s w c :
  session_window s w -> counter_ok c ->
  if window_accepts w c
  then exists s', receiving_counter_mark s c = Ret (s', Ok tt) /\
         session_window s' (window_mark w c) /\
         receiver s' = receiver s /\ sender s' = sender s /\
         receiving_index s' = receiving_index s /\ sending_index s' = sending_index s /\
         sending_key_counter s' = sending_key_counter s
  else receiving_counter_mark s c = Ret (s, Err InvalidCounter).
Proof.
  intros Hw Hc. pose proof (mark_step _ _ _ (sw_represents _ _ Hw) Hc) as Hm. unfold receiving_counter_mark.
  destruct (window_accepts w c) eqn:Ha.
  - destruct Hm as (v & -> & Hv & Hcnt). cbn. eexists. split; [done|]. split; [|done].
    constructor; [by apply represents_receive_cnt|]. cbn [receive_cnt receiving_key_counter with_validator w_seen window_mark].
    rewrite Hcnt, (sw_count _ _ Hw), size_union, size_singleton.
    + pose proof (seen_count _ _ (sw_represents _ _ Hw)). unfold wadd. rewrite wrap_small; [lia|].
      destruct Hw as [[[_ Hn] Hnx _ _] _]. unfold COUNTER_LIMIT, N_BITS, WORD_SIZE, N_WORDS in Hn. lia.
    + apply disjoint_singleton_l. eapply accepted_new; [|done]. intros x Hx. by apply (rep_seen _ _ Hw).
  - rewrite Hm. cbn. by destruct s.
Qed.

(** What receiving comes to, from the specification's point of view. *)
Lemma receive_packet_data_spec s w p dst_len :
  session_window s w -> counter_ok (pd_counter p) ->
  (16 <= length (pd_encrypted_encapsulated_packet p) <= dst_len)%nat ->
  pd_receiver_idx p = receiving_index s ->
  let body := pd_encrypted_encapsulated_packet p in
  let split := (length body - 16)%nat in
  let opened := chacha_decrypt (receiver s) (counter_nonce (pd_counter p)) []
                  (take split body) (drop split body) in
  if window_accepts w (pd_counter p) then
    match opened with
    | None => receive_packet_data s p dst_len = Ret (s, Err InvalidAeadTag)
    | Some pt => exists s', receive_packet_data s p dst_len = Ret (s', Ok pt) /\
        session_window s' (window_mark w (pd_counter p)) /\
        receiver s' = receiver s /\ sender s' = sender s /\
        receiving_index s' = receiving_index s /\ sending_index s' = sending_index s /\
        sending_key_counter s' = sending_key_counter s
    end
  else exists e, receive_packet_data s p dst_len = Ret (s, Err e) /\
         (e = InvalidCounter \/ e = DuplicateCounter).
Proof.
  intros Hw Hc Hl Hi; cbn zeta. unfold receive_packet_data, receiving_counter_quick_check.
  pose proof (will_accept_step _ _ _ Hw Hc) as Ha.
  pose proof (receiving_counter_mark_step _ _ _ Hw Hc) as Hm.
  destruct (Nat.ltb_spec dst_len (length (pd_encrypted_encapsulated_packet p))); [lia|].
  rewrite Hi, Z.eqb_refl. cbn [negb].
  destruct (window_accepts w (pd_counter p)).
  - destruct (will_accept _ _); [|discriminate].
    destruct (Nat.ltb_spec (length (pd_encrypted_encapsulated_packet p)) AEAD_SIZE);
      [unfold AEAD_SIZE in *; lia|].
    change AEAD_SIZE with 16%nat. unfold counter_nonce.
    destruct (chacha_decrypt _ _ _ _ _); [|done].
    destruct Hm as (s' & -> & ?). cbn. eauto.
  - unfold will_accept in *. repeat case_goal; cbn in Ha; try discriminate; eauto.
Qed.
End facts.

(** ** Properties *)

Section properties.
Context {C : Crypto} {L : CryptoLaws C}.

(** Sealing a list of packets that fit always returns, one datagram each. *)
Lemma format_run_returns srcs dst_len s :
  Forall (fun src => (length src + 32 <= dst_len)%nat) srcs ->
  exists s' wires, format_run s srcs dst_len = Ret (s', wires) /\ length wires = length srcs.
Proof.
  intros H. revert s. induction H as [|src srcs Hs _ IH]; intros s; [cbn; eauto|].
  cbn [format_run]. rewrite format_packet_data_ok by done. cbn zeta. cbn [obind].
  match goal with |- context [format_run ?s1 srcs dst_len] => destruct (IH s1) as (s' & ws & -> & Hl) end.
  do 2 eexists. split; [done|]. cbn. by rewrite Hl.
Qed.

(** Sealing at one end and opening at the other. *)
Lemma seal_open a b w src dst_len dst_len' :
  paired a b -> session_window b w ->
  counter_ok (sending_key_counter a) -> window_accepts w (sending_key_counter a) = true ->
  (length src + 32 <= dst_len)%nat -> (length src + 16 <= dst_len')%nat ->
  exists wire p b',
    format_packet_data a src dst_len
      = Ret (with_sending_counter a (sending_key_counter a + 1), wire) /\
    length wire = (length src + 32)%nat /\
    parse_incoming_packet wire = Ok (PPacketData p) /\
    receive_packet_data b p dst_len' = Ret (b', Ok src) /\
    session_window b' (window_mark w (sending_key_counter a)) /\
    paired a b'.
Proof.
  intros [Hk Hi Hu] Hw Hc Ha Hl Hl'. rewrite format_packet_data_ok by done. cbn zeta.
  set (c := sending_key_counter a) in *. set (e := chacha_encrypt _ _ _ _).
  assert (length (fst e ++ snd e) = (length src + 16)%nat) as He.
  { rewrite length_app. unfold e.
    by rewrite (aead_ct_len _ _ chacha_laws), (aead_tag_len _ _ chacha_laws). }
  set (p := mkPacketData (sending_index a) c (fst e ++ snd e)).
  assert (packet_ok (PPacketData p)) as Hp.
  { unfold counter_ok, COUNTER_LIMIT, N_BITS, WORD_SIZE, N_WORDS in Hc.
    split_and!; [done|unfold u64; cbn; lia|cbn; lia]. }
  pose proof (receive_packet_data_spec b w p dst_len' Hw Hc ltac:(cbn; lia) Hi) as Hr.
  cbn zeta in Hr. change (pd_counter p) with c in Hr. rewrite Ha in Hr.
  replace (length (pd_encrypted_encapsulated_packet p) - 16)%nat with (length (fst e)) in Hr
    by (cbn; rewrite He; unfold e; rewrite (aead_ct_len _ _ chacha_laws); lia).
  cbn [pd_encrypted_encapsulated_packet p] in Hr.
  rewrite take_app_length, drop_app_length, <- Hk in Hr. unfold e in Hr at 1 2.
  rewrite (aead_open _ _ chacha_laws) in Hr. destruct Hr as (b' & Hr & Hw' & Hkeys).
  eexists _, p, b'. split_and!; try done.
  - do 3 f_equal. by apply counter_add; unfold counter_ok in Hc; [lia|].
  - pose proof (length_packet (PPacketData p) [] Hp eq_refl) as Hlen.
    rewrite app_nil_r in Hlen. rewrite Hlen. cbn. lia.
  - by apply parse_serialize_data.
  - destruct Hkeys as (? & _ & ? & _). constructor; congruence.
Qed.

(** Data round trip. A packet sealed by one end of a session parses as a
    data packet and the paired end opens it to the same bytes, records its
    counter, and leaves keys and indices alone; the sender moves to the next
    counter. *)
Theorem data_round_trip a b w src dst_len dst_len' :
  paired a b -> session_window b w ->
  counter_ok (sending_key_counter a) -> window_accepts w (sending_key_counter a) = true ->
  (length src + 32 <= dst_len)%nat -> (length src + 16 <= dst_len')%nat ->
  exists wire p b',
    format_packet_data a src dst_len
      = Ret (with_sending_counter a (sending_key_counter a + 1), wire) /\
    length wire = (length src + 32)%nat /\
    parse_incoming_packet wire = Ok (PPacketData p) /\
    receive_packet_data b p dst_len' = Ret (b', Ok src) /\
    session_window b' (window_mark w (sending_key_counter a)) /\
    paired a b'.
Proof. apply seal_open. Qed.

(** A captured data packet is useless. Once an end has accepted a packet,
    offering it again is refused whatever the buffer, and the session does not
    change. *)
Theorem replayed_packet_refused s w p dst_len s' pt dst_len' :
  session_window s w -> counter_ok (pd_counter p) ->
  receive_packet_data s p dst_len = Ret (s', Ok pt) ->
  (length (pd_encrypted_encapsulated_packet p) <= dst_len')%nat ->
  exists e, receive_packet_data s' p dst_len' = Ret (s', Err e) /\
    (e = InvalidCounter \/ e = DuplicateCounter).
Proof.
  intros Hw Hc Hr Hl.
  assert (Hpre : (16 <= length (pd_encrypted_encapsulated_packet p) <= dst_len)%nat /\
                 pd_receiver_idx p = receiving_index s).
  { unfold receive_packet_data in Hr. repeat case_hyp Hr; try discriminate; simplify_eq.
    zbool. repeat match goal with H : (_ <? _)%nat = false |- _ => apply Nat.ltb_ge in H end.
    unfold AEAD_SIZE in *. lia. }
  destruct Hpre as [Hlen Hi].
  pose proof (receive_packet_data_spec s w p dst_len Hw Hc Hlen Hi) as Hs. cbn zeta in Hs.
  destruct (window_accepts w (pd_counter p)); [|destruct Hs as (e & He & _); congruence].
  destruct (chacha_decrypt _ _ _ _ _) as [pt'|]; [|congruence].
  destruct Hs as (s1 & Hs1 & Hw1 & _ & _ & Hi1 & _). assert (s1 = s') as -> by congruence.
  pose proof (receive_packet_data_spec s' _ p dst_len' Hw1 Hc ltac:(lia) ltac:(congruence)) as Hs2.
  cbn zeta in Hs2. unfold window_accepts at 1 in Hs2. cbn [w_next w_seen window_mark] in Hs2.
  rewrite bool_decide_false, andb_false_r, orb_false_r, (proj2 (Z.leb_gt _ _)) in Hs2
    by (lia || set_solver).
  exact Hs2.
Qed.

(** A forged packet does no harm. A packet whose tag does not open, or
    whose receiver index is not ours, is reported as an error and leaves the
    session as it was, so it cannot push the replay window past packets still
    to come. *)
Theorem forged_packet_harmless s p dst_len :
  (16 <= length (pd_encrypted_encapsulated_packet p) <= dst_len)%nat ->
  pd_receiver_idx p <> receiving_index s \/ opened s p = None ->
  exists e, receive_packet_data s p dst_len = Ret (s, Err e).
Proof.
  intros Hl Hbad. unfold receive_packet_data, AEAD_SIZE.
  destruct (Nat.ltb_spec dst_len (length (pd_encrypted_encapsulated_packet p))); [lia|].
  destruct (Z.eqb_spec (pd_receiver_idx p) (receiving_index s)); cbn [negb]; [|eauto].
  destruct Hbad as [|Hd]; [done|].
  destruct (receiving_counter_quick_check s (pd_counter p)); [|eauto].
  destruct (Nat.ltb_spec (length (pd_encrypted_encapsulated_packet p)) 16); [lia|].
  unfold opened, counter_nonce in Hd. rewrite Hd. eauto.
Qed.

(** The datagram of a packet sealed under a key and a nonce: the type, the
    peer's index and the counter in the clear, then ciphertext and tag. *)
Definition data_datagram (key : bytes) (index counter : Z) (nonce src : bytes) : bytes :=
  [4; 0; 0; 0] ++ to_le_bytes 4 index ++ to_le_bytes 8 counter ++
  fst (chacha_encrypt key nonce [] src) ++ snd (chacha_encrypt key nonce [] src).

(** What a run of sealing writes. *)
Lemma format_run_datagrams srcs dst_len s :
  0 <= sending_key_counter s -> sending_key_counter s + Z.of_nat (length srcs) <= 2 ^ 64 ->
  Forall (fun src => (length src + 32 <= dst_len)%nat) srcs ->
  exists s', format_run s srcs dst_len =
    Ret (s', zip_with (fun c src => data_datagram (sender s) (sending_index s) c (counter_nonce c) src)
               (seqZ (sending_key_counter s) (Z.of_nat (length srcs))) srcs).
Proof.
  intros H0 Hmax Hl. revert s H0 Hmax.
  induction Hl as [|src srcs Hsrc _ IH]; intros s H0 Hmax; [cbn; eauto|].
  cbn [length format_run] in *. rewrite Nat2Z.inj_succ in *.
  rewrite format_packet_data_ok by done. cbn zeta. cbn [obind]. set (s1 := with_sending_counter _ _).
  rewrite seqZ_cons, Z.pred_succ by lia. cbn [zip_with].
  destruct srcs as [|x srcs]; [by eexists|].
  assert (sending_key_counter s1 = Z.succ (sending_key_counter s)) as Hs1.
  { cbn [sending_key_counter s1 with_sending_counter]. unfold wadd. cbn [length] in Hmax. rewrite wrap_small; lia. }
  destruct (IH s1) as (s' & E); [lia..|]. rewrite E, Hs1. by eexists.
Qed.

(** Distinct counters give distinct nonces. *)
Lemma counter_nonce_nodup c n :
  0 <= c -> c + n <= 2 ^ 64 -> NoDup (map counter_nonce (seqZ c n)).
Proof.
  intros H0 Hn. apply NoDup_fmap_2_strong; [|apply NoDup_seqZ]. intros x y Hx Hy E.
  apply elem_of_seqZ in Hx, Hy. unfold counter_nonce in E. apply app_inv_head in E.
  apply (f_equal from_le_bytes) in E. rewrite !from_to_le_id in E; [done|..];
    change (2 ^ (8 * Z.of_nat 8)) with (2 ^ 64); lia.
Qed.

(** C8: nonces are never reused. Sealing packets one after the other never
    fails in a large enough buffer, and as long as the 64-bit counter does not
    run out the datagrams are, byte for byte, the encryptions of the packets
    under the session's key and the nonces built from consecutive counters
    (four zero bytes, then the counter), each behind a header that carries the
    same counter; these nonces are pairwise distinct, and so are the counters
    the receiver reads from the datagrams. *)
Theorem nonces_never_reused s srcs dst_len :
  u32 (sending_index s) -> 0 <= sending_key_counter s ->
  sending_key_counter s + Z.of_nat (length srcs) <= 2 ^ 64 ->
  Forall (fun src => (length src + 32 <= dst_len)%nat) srcs ->
  let counters := seqZ (sending_key_counter s) (Z.of_nat (length srcs)) in
  let nonces := map (fun c => [0; 0; 0; 0] ++ to_le_bytes 8 c) counters in
  NoDup nonces /\
  exists s' wires, format_run s srcs dst_len = Ret (s', wires) /\
    wires = zip_with (fun '(c, n) src => data_datagram (sender s) (sending_index s) c n src)
              (zip counters nonces) srcs /\
    map wire_counter wires = map Some counters.
Proof.
  intros Hu H0 Hmax Hl counters nonces. split; [by apply counter_nonce_nodup|].
  destruct (format_run_datagrams srcs dst_len s H0 Hmax Hl) as (s' & E).
  assert (length counters = length srcs) as Hlen by (unfold counters; rewrite length_seqZ; lia).
  do 2 eexists. split; [exact E|]. fold counters. unfold nonces. clear E nonces. split.
  - revert Hlen. generalize counters. clear.
    induction srcs as [|x srcs IH]; intros [|c cs] Hlen; try done. cbn. f_equal. apply IH. by injection Hlen.
  - assert (Forall (fun c => u64 c) counters) as Hc.
    { apply Forall_forall. intros c Hc%elem_of_seqZ. unfold u64. lia. }
    revert Hlen Hc. generalize counters. clear - Hu L.
    induction srcs as [|x srcs IH]; intros [|c cs] Hlen Hc; try done.
    apply Forall_cons_1 in Hc as [Hc Hcs]. cbn [zip_with map]. f_equal; [|apply IH; [by injection Hlen|done]].
    unfold wire_counter, data_datagram. set (e := chacha_encrypt _ _ _ _).
    change ([4; 0; 0; 0] ++ to_le_bytes 4 (sending_index s) ++ to_le_bytes 8 c ++ fst e ++ snd e)
      with (packet_prefix (PPacketData (mkPacketData (sending_index s) c (fst e ++ snd e)))).
    rewrite parse_serialize_data; [done|]. split_and!; [done|done|cbn; rewrite length_app; unfold e].
    rewrite (aead_tag_len _ _ chacha_laws). lia.
Qed.
End properties.

(** ** Witnesses *)

Definition key_ab : bytes := replicate 32 17.
Definition key_ba : bytes := replicate 32 34.
Definition end_a : Session := Session_new 256 512 key_ba key_ab.
Definition end_b : Session := Session_new 512 256 key_ab key_ba.
Definition hello : bytes := [104; 101; 108; 108; 111].
Definition hello_packet : PacketData :=
  mkPacketData 512 0 (hello ++ toy_tag key_ab (counter_nonce 0) [] hello).
Definition end_b_after : Session :=
  match receive_packet_data end_b hello_packet 64 with Ret (s, _) => s | _ => end_b end.

Lemma ends_paired : paired end_a end_b.
Proof. split; [reflexivity..|]. unfold u32; cbn; lia. Qed.

Lemma data_round_trip_witness :
  exists wire p b',
    format_packet_data end_a hello 64 = Ret (with_sending_counter end_a 1, wire) /\
    length wire = 37%nat /\
    parse_incoming_packet wire = Ok (PPacketData p) /\
    receive_packet_data end_b p 64 = Ret (b', Ok hello) /\
    session_window b' (window_mark window_init 0) /\ paired end_a b'.
Proof.
  apply (data_round_trip end_a end_b window_init hello 64 64).
  - apply ends_paired.
  - apply session_window_init; reflexivity.
  - unfold counter_ok, COUNTER_LIMIT, N_BITS, WORD_SIZE, N_WORDS; cbn; lia.
  - reflexivity.
  - cbn; lia.
  - cbn; lia.
Defined.

Lemma replayed_packet_refused_witness :
  exists e, receive_packet_data end_b_after hello_packet 64 = Ret (end_b_after, Err e) /\
    (e = InvalidCounter \/ e = DuplicateCounter).
Proof.
  apply (replayed_packet_refused end_b window_init hello_packet 64 end_b_after hello 64).
  - apply session_window_init; reflexivity.
  - unfold counter_ok, COUNTER_LIMIT, N_BITS, WORD_SIZE, N_WORDS; cbn; lia.
  - vm_compute. reflexivity.
  - cbn; lia.
Defined.

Lemma forged_packet_harmless_witness :
  exists e, receive_packet_data end_b (mkPacketData 512 7 (replicate 20 0)) 64 = Ret (end_b, Err e).
Proof.
  apply (forged_packet_harmless end_b (mkPacketData 512 7 (replicate 20 0)) 64).
  - cbn; lia.
  - right. vm_compute. reflexivity.
Defined.

Lemma nonces_never_reused_witness :
  let nonces := map (fun c => [0; 0; 0; 0] ++ to_le_bytes 8 c) (seqZ 0 3) in
  NoDup nonces /\
  exists s' wires, format_run end_a [hello; []; hello] 64 = Ret (s', wires) /\
    wires = zip_with (fun '(c, n) src => data_datagram key_ab 512 c n src)
              (zip (seqZ 0 3) nonces) [hello; []; hello] /\
    map wire_counter wires = map Some (seqZ 0 3).
Proof.
  apply (nonces_never_reused end_a [hello; []; hello] 64).
  - unfold u32; cbn; lia.
  - cbn; lia.
  - cbn; lia.
  - repeat constructor; cbn; lia.
Defined.
