(* ===== verification/Handshake.v ===== *)
(** The Noise handshake, [boringtun/src/noise/handshake.rs]: timestamps, key
    material, the handshake state machine, and the three message flows
    (initiation, response, cookie reply). *)

From S2P Require Import Prelude Time Errors Crypto Packet Session.

Definition LABEL_MAC1 : bytes := [109; 97; 99; 49; 45; 45; 45; 45].
Definition LABEL_COOKIE : bytes := [99; 111; 111; 107; 105; 101; 45; 45].
Definition KEY_LEN : nat := 32.
Definition TIMESTAMP_LEN : nat := 12.

Definition INITIAL_CHAIN_KEY : bytes :=
  [96; 226; 109; 174; 243; 39; 239; 192; 46; 195; 53; 226; 160; 37; 210; 208; 22; 235; 66; 6;
   248; 114; 119; 245; 45; 56; 209; 152; 139; 120; 205; 54].

Definition INITIAL_CHAIN_HASH : bytes :=
  [34; 17; 179; 97; 8; 26; 197; 102; 105; 18; 67; 219; 69; 138; 213; 50; 45; 156; 108; 102; 34;
   147; 232; 183; 14; 225; 156; 101; 186; 7; 158; 243].

(** ** Timestamps *)

Record Tai64N := mkTai64N { secs : Z; nano : Z }.

Record TimeStamper := mkTimeStamper {
  duration_at_start : Duration;
  instant_at_start : Instant
}.

Definition TimeStamper_new : M TimeStamper :=
  let* d := system_time in
  let* i := Instant_now in
  mret (mkTimeStamper d i).

Definition TAI64_BASE : Z := 2 ^ 62 + 37.

Definition stamp (t : TimeStamper) : M bytes :=
  let* now := Instant_now in
  let stamp := duration_since now (instant_at_start t) + duration_at_start t in
  mret (to_be_bytes 8 (wadd 64 (as_secs stamp) TAI64_BASE) ++ to_be_bytes 4 (subsec_nanos stamp)).

Definition Tai64N_zero : Tai64N := mkTai64N 0 0.

Definition Tai64N_parse (buf : bytes) : Result WireGuardError Tai64N :=
  if (length buf <? 12)%nat then Err InvalidTai64nTimestamp
  else Ok (mkTai64N (from_be_bytes (take 8 buf)) (from_be_bytes (drop 8 buf))).

Definition Tai64N_after (self other : Tai64N) : bool :=
  (secs other <? secs self) || ((secs self =? secs other) && (nano other <? nano self)).

(** ** State *)

Record NoiseParams := mkNoiseParams {
  static_public : bytes;
  static_private : bytes;
  peer_static_public : bytes;
  static_shared : bytes;
  sending_mac1_key : bytes;
  preshared_key : option bytes
}.

Record HandshakeInitSentState := mkInitSent {
  is_local_index : Z;
  is_hash : bytes;
  is_chaining_key : bytes;
  is_ephemeral_private : bytes;
  is_time_sent : Instant
}.

Inductive HandshakeState : Type :=
| HsNone
| InitSent (s : HandshakeInitSentState)
| InitReceived (hash chaining_key peer_ephemeral_public : bytes) (peer_index : Z)
| Expired.

Record Cookies := mkCookies {
  last_mac1 : option bytes;
  ck_index : Z;
  write_cookie : option bytes
}.

Record Handshake := mkHandshake {
  params : NoiseParams;
  next_index : Z;
  previous : HandshakeState;
  state : HandshakeState;
  cookies : Cookies;
  last_handshake_timestamp : Tai64N;
  stamper : TimeStamper;
  last_rtt : option Z
}.

Definition set_params (h : Handshake) p := mkHandshake p (next_index h) (previous h) (state h)
  (cookies h) (last_handshake_timestamp h) (stamper h) (last_rtt h).
Definition set_next_index (h : Handshake) i := mkHandshake (params h) i (previous h) (state h)
  (cookies h) (last_handshake_timestamp h) (stamper h) (last_rtt h).
Definition set_previous (h : Handshake) s := mkHandshake (params h) (next_index h) s (state h)
  (cookies h) (last_handshake_timestamp h) (stamper h) (last_rtt h).
Definition set_state (h : Handshake) s := mkHandshake (params h) (next_index h) (previous h) s
  (cookies h) (last_handshake_timestamp h) (stamper h) (last_rtt h).
Definition set_cookies (h : Handshake) c := mkHandshake (params h) (next_index h) (previous h)
  (state h) c (last_handshake_timestamp h) (stamper h) (last_rtt h).
Definition set_timestamp (h : Handshake) t := mkHandshake (params h) (next_index h) (previous h)
  (state h) (cookies h) t (stamper h) (last_rtt h).
Definition set_last_rtt (h : Handshake) r := mkHandshake (params h) (next_index h) (previous h)
  (state h) (cookies h) (last_handshake_timestamp h) (stamper h) r.

(** ** Operations without cryptography *)

Definition is_in_progress (h : Handshake) : bool :=
  match state h with HsNone | Expired => false | _ => true end.

Definition timer (h : Handshake) : option Instant :=
  match state h with InitSent s => Some (is_time_sent s) | _ => None end.

Definition set_expired (h : Handshake) : Handshake := set_state (set_previous h Expired) Expired.

Definition is_expired (h : Handshake) : bool :=
  match state h with Expired => true | _ => false end.

Definition has_cookie (h : Handshake) : bool :=
  match write_cookie (cookies h) with Some _ => true | None => false end.

Definition clear_cookie (h : Handshake) : Handshake :=
  set_cookies h (mkCookies (last_mac1 (cookies h)) (ck_index (cookies h)) None).

(** The peer's 24 bits are kept, the 8-bit session index is cyclic. *)
Definition inc_index (h : Handshake) : Handshake * Z :=
  let index := next_index h in
  let idx8 := wrap 8 index in
  let n := Z.lor (Z.land index (wnot 32 255)) (wadd 8 idx8 1) in
  (set_next_index h n, n).

Section handshake.
Context {C : Crypto}.

(** ** Parameters *)

Definition NoiseParams_new (static_private static_public peer_static_public : bytes)
    (preshared_key : option bytes) : NoiseParams :=
  mkNoiseParams static_public static_private peer_static_public
    (x25519_dh static_private peer_static_public)
    (b2s_hash LABEL_MAC1 peer_static_public) preshared_key.

(** [assert_eq!] on the key pair. *)
Definition NoiseParams_set_static_private (p : NoiseParams) (private public : bytes)
  : outcome NoiseParams :=
  if bytes_eqb (x25519_public private) public
  then Ret (mkNoiseParams public private (peer_static_public p)
              (x25519_dh private (peer_static_public p))
              (sending_mac1_key p) (preshared_key p))
  else Panicked.

Definition Handshake_new (static_private static_public peer_static_public : bytes)
    (global_idx : Z) (preshared_key : option bytes) : M Handshake :=
  let* st := TimeStamper_new in
  mret (mkHandshake (NoiseParams_new static_private static_public peer_static_public preshared_key)
          global_idx HsNone HsNone (mkCookies None 0 None) Tai64N_zero st None).

Definition set_static_private (h : Handshake) (private public : bytes) : outcome Handshake :=
  let! p := NoiseParams_set_static_private (params h) private public in
  Ret (set_params h p).

(** ** Finding the peer of an initiation *)

Record HalfHandshake := mkHalfHandshake { hh_peer_index : Z; hh_peer_static_public : bytes }.

Definition parse_handshake_anon (private public : bytes) (packet : HandshakeInit)
  : outcome (Result WireGuardError HalfHandshake) :=
  let peer_index := hi_sender_idx packet in
  let chaining_key := INITIAL_CHAIN_KEY in
  let hash := INITIAL_CHAIN_HASH in
  let hash := b2s_hash hash public in
  let peer_ephemeral_public := hi_unencrypted_ephemeral packet in
  let hash := b2s_hash hash peer_ephemeral_public in
  let chaining_key := b2s_hmac (b2s_hmac chaining_key peer_ephemeral_public) [1] in
  let ephemeral_shared := x25519_dh private peer_ephemeral_public in
  let temp := b2s_hmac chaining_key ephemeral_shared in
  let chaining_key := b2s_hmac temp [1] in
  let key := b2s_hmac2 temp chaining_key [2] in
  let! r := aead_chacha20_open KEY_LEN key 0 (hi_encrypted_static packet) hash in
  match r with
  | Err e => Ret (Err e)
  | Ok peer_static_public => Ret (Ok (mkHalfHandshake peer_index peer_static_public))
  end.

(** ** Message authentication codes *)

(** Fill in the last 32 bytes of a handshake message whose other bytes are
    [msg]. *)
Definition append_mac1_and_mac2 (h : Handshake) (local_index : Z) (msg : bytes)
  : Handshake * bytes :=
  let msg_mac1 := b2s_keyed_mac_16 (sending_mac1_key (params h)) msg in
  let msg_mac2 :=
    match write_cookie (cookies h) with
    | Some cookie => b2s_keyed_mac_16 cookie (msg ++ msg_mac1)
    | None => replicate 16 0
    end in
  (set_cookies h (mkCookies (Some msg_mac1) local_index (write_cookie (cookies h))),
   msg ++ msg_mac1 ++ msg_mac2).

(** ** Initiation *)

Definition format_handshake_initiation (h : Handshake) (dst_len : nat)
  : M (Handshake * Result WireGuardError bytes) :=
  if (dst_len <? HANDSHAKE_INIT_SZ)%nat then mret (h, Err DestinationBufferTooSmall)
  else
    let '(h, local_index) := inc_index h in
    let chaining_key := INITIAL_CHAIN_KEY in
    let hash := INITIAL_CHAIN_HASH in
    let hash := b2s_hash hash (peer_static_public (params h)) in
    let* ephemeral_private := rand_bytes 32 in
    let unencrypted_ephemeral := x25519_public ephemeral_private in
    let hash := b2s_hash hash unencrypted_ephemeral in
    let chaining_key := b2s_hmac (b2s_hmac chaining_key unencrypted_ephemeral) [1] in
    let ephemeral_shared := x25519_dh ephemeral_private (peer_static_public (params h)) in
    let temp := b2s_hmac chaining_key ephemeral_shared in
    let chaining_key := b2s_hmac temp [1] in
    let key := b2s_hmac2 temp chaining_key [2] in
    let encrypted_static := aead_chacha20_seal key 0 (static_public (params h)) hash in
    let hash := b2s_hash hash encrypted_static in
    let temp := b2s_hmac chaining_key (static_shared (params h)) in
    let chaining_key := b2s_hmac temp [1] in
    let key := b2s_hmac2 temp chaining_key [2] in
    let* timestamp := stamp (stamper h) in
    let encrypted_timestamp := aead_chacha20_seal key 0 timestamp hash in
    let hash := b2s_hash hash encrypted_timestamp in
    let* time_now := Instant_now in
    let h := set_previous h (state h) in
    let h := set_state h
      (InitSent (mkInitSent local_index hash chaining_key ephemeral_private time_now)) in
    let '(h, pkt) := append_mac1_and_mac2 h local_index
      (packet_prefix (PHandshakeInit
        (mkHandshakeInit local_index unencrypted_ephemeral encrypted_static encrypted_timestamp))) in
    mret (h, Ok pkt).

(** ** Response *)

Definition format_handshake_response (h : Handshake) (dst_len : nat)
  : M (Handshake * Result WireGuardError (bytes * Session)) :=
  if (dst_len <? HANDSHAKE_RESP_SZ)%nat then mret (h, Err DestinationBufferTooSmall)
  else
    let st := state h in
    let h := set_state h HsNone in
    match st with
    | InitReceived hash chaining_key peer_ephemeral_public peer_index =>
        let* ephemeral_private := rand_bytes 32 in
        let '(h, local_index) := inc_index h in
        let unencrypted_ephemeral := x25519_public ephemeral_private in
        let hash := b2s_hash hash unencrypted_ephemeral in
        let temp := b2s_hmac chaining_key unencrypted_ephemeral in
        let chaining_key := b2s_hmac temp [1] in
        let ephemeral_shared := x25519_dh ephemeral_private peer_ephemeral_public in
        let temp := b2s_hmac chaining_key ephemeral_shared in
        let chaining_key := b2s_hmac temp [1] in
        let temp := b2s_hmac chaining_key
          (x25519_dh ephemeral_private (peer_static_public (params h))) in
        let chaining_key := b2s_hmac temp [1] in
        let temp := b2s_hmac chaining_key (default (replicate 32 0) (preshared_key (params h))) in
        let chaining_key := b2s_hmac temp [1] in
        let temp2 := b2s_hmac2 temp chaining_key [2] in
        let key := b2s_hmac2 temp temp2 [3] in
        let hash := b2s_hash hash temp2 in
        let encrypted_nothing := aead_chacha20_seal key 0 [] hash in
        let temp1 := b2s_hmac chaining_key [] in
        let temp2 := b2s_hmac temp1 [1] in
        let temp3 := b2s_hmac2 temp1 temp2 [2] in
        let '(h, pkt) := append_mac1_and_mac2 h local_index
          (packet_prefix (PHandshakeResponse
            (mkHandshakeResponse local_index peer_index unencrypted_ephemeral encrypted_nothing))) in
        mret (h, Ok (pkt, Session_new local_index peer_index temp2 temp3))
    | _ => mlift Panicked
    end.

(** ** Receiving *)

Definition receive_handshake_initialization (h : Handshake) (packet : HandshakeInit) (dst_len : nat)
  : M (Handshake * Result WireGuardError (bytes * Session)) :=
  let chaining_key := INITIAL_CHAIN_KEY in
  let hash := INITIAL_CHAIN_HASH in
  let hash := b2s_hash hash (static_public (params h)) in
  let peer_index := hi_sender_idx packet in
  let peer_ephemeral_public := hi_unencrypted_ephemeral packet in
  let hash := b2s_hash hash peer_ephemeral_public in
  let chaining_key := b2s_hmac (b2s_hmac chaining_key peer_ephemeral_public) [1] in
  let ephemeral_shared := x25519_dh (static_private (params h)) peer_ephemeral_public in
  let temp := b2s_hmac chaining_key ephemeral_shared in
  let chaining_key := b2s_hmac temp [1] in
  let key := b2s_hmac2 temp chaining_key [2] in
  let* r := mlift (aead_chacha20_open KEY_LEN key 0 (hi_encrypted_static packet) hash) in
  match r with
  | Err e => mret (h, Err e)
  | Ok peer_static_public_decrypted =>
      if negb (bytes_eqb (peer_static_public (params h)) peer_static_public_decrypted)
      then mret (h, Err WrongKey)
      else
        let hash := b2s_hash hash (hi_encrypted_static packet) in
        let temp := b2s_hmac chaining_key (static_shared (params h)) in
        let chaining_key := b2s_hmac temp [1] in
        let key := b2s_hmac2 temp chaining_key [2] in
        let* r := mlift
          (aead_chacha20_open TIMESTAMP_LEN key 0 (hi_encrypted_timestamp packet) hash) in
        match r with
        | Err e => mret (h, Err e)
        | Ok timestamp =>
            match Tai64N_parse timestamp with
            | Err e => mret (h, Err e)
            | Ok timestamp =>
                if negb (Tai64N_after timestamp (last_handshake_timestamp h))
                then mret (h, Err WrongTai64nTimestamp)
                else
                  let h := set_timestamp h timestamp in
                  let hash := b2s_hash hash (hi_encrypted_timestamp packet) in
                  let h := set_previous h (state h) in
                  let h := set_state h
                    (InitReceived hash chaining_key peer_ephemeral_public peer_index) in
                  format_handshake_response h dst_len
            end
        end
  end.

(** The in-flight initiation a response answers, and whether it is the
    previous one. *)
Definition awaiting (h : Handshake) (receiver_idx : Z)
  : option (HandshakeInitSentState * bool) :=
  let prev :=
    match previous h with
    | InitSent s => if is_local_index s =? receiver_idx then Some (s, true) else None
    | _ => None
    end in
  match state h with
  | InitSent s => if is_local_index s =? receiver_idx then Some (s, false) else prev
  | _ => prev
  end.

Definition receive_handshake_response (h : Handshake) (packet : HandshakeResponse)
  : M (Handshake * Result WireGuardError Session) :=
  match awaiting h (hr_receiver_idx packet) with
  | None => mret (h, Err UnexpectedPacket)
  | Some (st, is_previous) =>
      let peer_index := hr_sender_idx packet in
      let local_index := is_local_index st in
      let unencrypted_ephemeral := hr_unencrypted_ephemeral packet in
      let hash := b2s_hash (is_hash st) unencrypted_ephemeral in
      let temp := b2s_hmac (is_chaining_key st) unencrypted_ephemeral in
      let chaining_key := b2s_hmac temp [1] in
      let ephemeral_shared := x25519_dh (is_ephemeral_private st) unencrypted_ephemeral in
      let temp := b2s_hmac chaining_key ephemeral_shared in
      let chaining_key := b2s_hmac temp [1] in
      let temp := b2s_hmac chaining_key
        (x25519_dh (static_private (params h)) unencrypted_ephemeral) in
      let chaining_key := b2s_hmac temp [1] in
      let temp := b2s_hmac chaining_key (default (replicate 32 0) (preshared_key (params h))) in
      let chaining_key := b2s_hmac temp [1] in
      let temp2 := b2s_hmac2 temp chaining_key [2] in
      let key := b2s_hmac2 temp temp2 [3] in
      let hash := b2s_hash hash temp2 in
      let* r := mlift (aead_chacha20_open 0 key 0 (hr_encrypted_nothing packet) hash) in
      match r with
      | Err e => mret (h, Err e)
      | Ok _ =>
          let temp1 := b2s_hmac chaining_key [] in
          let temp2 := b2s_hmac temp1 [1] in
          let temp3 := b2s_hmac2 temp1 temp2 [2] in
          let* now := Instant_now in
          let rtt_time := duration_since now (is_time_sent st) in
          let h := set_last_rtt h (Some (wrap 32 (as_millis rtt_time))) in
          let h := if is_previous then set_previous h HsNone else set_state h HsNone in
          mret (h, Ok (Session_new local_index peer_index temp3 temp2))
      end
  end.

Definition receive_cookie_reply (h : Handshake) (packet : PacketCookieReply)
  : Handshake * Result WireGuardError unit :=
  match last_mac1 (cookies h) with
  | None => (h, Err UnexpectedPacket)
  | Some mac1 =>
      let local_index := ck_index (cookies h) in
      if negb (pc_receiver_idx packet =? local_index) then (h, Err WrongIndex)
      else
        let key := b2s_hash LABEL_COOKIE (peer_static_public (params h)) in
        let msg := pc_encrypted_cookie packet in
        let split := (length msg - 16)%nat in
        match
          (if (length msg <? 16)%nat then None
           else xchacha_decrypt key (pc_nonce packet) (take 16 mac1) (take split msg) (drop split msg))
        with
        | None => (h, Err InvalidAeadTag)
        | Some plaintext =>
            if (length plaintext =? 16)%nat
            then (set_cookies h (mkCookies (last_mac1 (cookies h)) (ck_index (cookies h))
                                   (Some plaintext)), Ok tt)
            else (h, Err InvalidPacket)
        end
  end.
End handshake.
