(* ===== verification/HandshakeFacts.v ===== *)
(** What the handshake of [Handshake.v] achieves: the two ends of an
    initiation and its response derive the same keys, replays and unsolicited
    messages are refused, and session indices stay with their peer. *)

From S2P Require Import Prelude Time Errors Replay Crypto ToyCrypto Packet Session Handshake.

(** ** The key schedule as a specification *)

(** Invariant of the key material: public and shared keys belong to the
    private key, the MAC key to the peer. *)
Record params_ok {C : Crypto} (p : NoiseParams) : Prop := {
  po_public : static_public p = x25519_public (static_private p);
  po_shared : static_shared p = x25519_dh (static_private p) (peer_static_public p);
  po_mac1 : sending_mac1_key p = b2s_hash LABEL_MAC1 (peer_static_public p)
}.

(** Two ends configured for each other. *)
Record peers {C : Crypto} (a b : NoiseParams) : Prop := {
  peers_a : params_ok a;
  peers_b : params_ok b;
  peers_ab : peer_static_public a = static_public b;
  peers_ba : peer_static_public b = static_public a;
  peers_psk : preshared_key a = preshared_key b
}.

(** The timestamp a stamper writes at a given reading of the clock. *)
Definition stamp_tai (t : TimeStamper) (now : Instant) : Tai64N :=
  let d := duration_since now (instant_at_start t) + duration_at_start t in
  mkTai64N (wadd 64 (as_secs d) TAI64_BASE) (subsec_nanos d).

Definition stamp_bytes (t : TimeStamper) (now : Instant) : bytes :=
  to_be_bytes 8 (secs (stamp_tai t now)) ++ to_be_bytes 4 (nano (stamp_tai t now)).

(** The next random draw of a world. *)
Definition draw (w : World) (n : nat) : bytes :=
  map (fun i => w_rng w (w_draws w) i mod 256) (seq 0 n).

Section schedule.
Context {C : Crypto}.

(** Noise's key derivation with one, two and three outputs. *)
Definition kdf1 (ck x : bytes) : bytes := b2s_hmac (b2s_hmac ck x) [1].
Definition kdf2 (ck x : bytes) : bytes := b2s_hmac2 (b2s_hmac ck x) (kdf1 ck x) [2].
Definition kdf3 (ck x : bytes) : bytes := b2s_hmac2 (b2s_hmac ck x) (kdf2 ck x) [3].

(** Initiation: responder key, ephemeral key, ephemeral-static secret,
    initiator key, static-static secret, timestamp. *)
Definition ini_hash (rpub eph : bytes) : bytes := b2s_hash (b2s_hash INITIAL_CHAIN_HASH rpub) eph.
Definition ini_chain (eph es : bytes) : bytes := kdf1 (kdf1 INITIAL_CHAIN_KEY eph) es.
Definition ini_static_key (eph es : bytes) : bytes := kdf2 (kdf1 INITIAL_CHAIN_KEY eph) es.
Definition ini_static (rpub eph es spub : bytes) : bytes :=
  aead_chacha20_seal (ini_static_key eph es) 0 spub (ini_hash rpub eph).
Definition ini_time (rpub eph es spub ss ts : bytes) : bytes :=
  aead_chacha20_seal (kdf2 (ini_chain eph es) ss) 0 ts
    (b2s_hash (ini_hash rpub eph) (ini_static rpub eph es spub)).
Definition ini_final_hash (rpub eph es spub ss ts : bytes) : bytes :=
  b2s_hash (b2s_hash (ini_hash rpub eph) (ini_static rpub eph es spub))
    (ini_time rpub eph es spub ss ts).
Definition ini_final_chain (eph es ss : bytes) : bytes := kdf1 (ini_chain eph es) ss.

(** Response: hash and chain so far, ephemeral key, ephemeral-ephemeral and
    static-ephemeral secrets, preshared key. *)
Definition resp_chain3 (ck eph ee se : bytes) : bytes := kdf1 (kdf1 (kdf1 ck eph) ee) se.
Definition resp_hash (hash ck eph ee se psk : bytes) : bytes :=
  b2s_hash (b2s_hash hash eph) (kdf2 (resp_chain3 ck eph ee se) psk).
Definition resp_nothing (hash ck eph ee se psk : bytes) : bytes :=
  aead_chacha20_seal (kdf3 (resp_chain3 ck eph ee se) psk) 0 []
    (resp_hash hash ck eph ee se psk).
Definition resp_final_chain (ck eph ee se psk : bytes) : bytes :=
  kdf1 (resp_chain3 ck eph ee se) psk.

(** The transport keys: initiator to responder, responder to initiator. *)
Definition key_i2r (ck : bytes) : bytes := kdf1 ck [].
Definition key_r2i (ck : bytes) : bytes := kdf2 ck [].

Definition psk_of (p : NoiseParams) : bytes := default (replicate 32 0) (preshared_key p).
End schedule.

(** A world after some clock readings and draws. *)
Definition advance (w : World) (ticks draws : nat) : World :=
  mkWorld (w_clock w) (w_system w) (w_rng w) (w_ticks w + ticks) (w_queries w) (w_draws w + draws).

(** ** Indices *)

Lemma land_low a b : 0 <= b < 256 -> Z.land (a * 256) b = 0.
Proof.
  intros. apply Z.bits_inj'. intros k Hk. rewrite Z.land_spec, Z.bits_0.
  change 256 with (2 ^ 8) in *. destruct (Z.ltb_spec k 8).
  - by rewrite Z.mul_pow2_bits_low by lia.
  - rewrite <- (Z.mod_small b (2 ^ 8)) by lia.
    rewrite Z.mod_pow2_bits_high by lia. apply andb_false_r.
Qed.

Lemma lor_low a b : 0 <= b < 256 -> Z.lor (a * 256) b = a * 256 + b.
Proof.
  intros. rewrite Z.add_nocarry_lxor, Z.lxor_lor by (by apply land_low). done.
Qed.

Lemma inc_index_value h :
  u32 (next_index h) ->
  snd (inc_index h) = next_index h / 256 * 256 + (next_index h + 1) mod 256.
Proof.
  unfold u32, inc_index. cbn [snd]. intros Hu.
  assert (Z.land (next_index h) (wnot 32 255) = next_index h / 256 * 256) as ->.
  { change (wnot 32 255) with (Z.shiftl (Z.ones 24) 8).
    apply Z.bits_inj'. intros k Hk.
    replace (next_index h / 256 * 256) with (Z.shiftl (Z.shiftr (next_index h) 8) 8)
      by (rewrite Z.shiftl_mul_pow2, Z.shiftr_div_pow2 by lia; done).
    rewrite Z.land_spec, !Z.shiftl_spec by lia.
    destruct (Z.ltb_spec k 8).
    - rewrite !(Z.testbit_neg_r _ (k - 8)) by lia. apply andb_false_r.
    - rewrite Z.shiftr_spec by lia. replace (k - 8 + 8) with k by lia.
      destruct (Z.ltb_spec (k - 8) 24).
      + rewrite Z.ones_spec_low by lia. apply andb_true_r.
      + rewrite Z.ones_spec_high, andb_false_r by lia. symmetry.
        apply Z.bits_above_log2; [lia|].
        destruct (Z.eq_dec (next_index h) 0) as [->|]; [cbn; lia|].
        apply Z.log2_lt_pow2; [lia|]. eapply Z.lt_le_trans; [apply Hu|].
        apply Z.pow_le_mono_r; lia. }
  assert (wadd 8 (wrap 8 (next_index h)) 1 = (next_index h + 1) mod 256) as ->.
  { unfold wadd, wrap. change (2 ^ 8) with 256. dlia. }
  apply lor_low. apply Z.mod_pos_bound. lia.
Qed.

Lemma inc_index_u32 h : u32 (next_index h) -> u32 (snd (inc_index h)).
Proof.
  intros Hu. rewrite inc_index_value by done. unfold u32 in *.
  change (2 ^ 32) with 4294967296 in *. dlia.
Qed.

(** ** Timestamps *)

Lemma stamp_run t w :
  stamp t w = Ret (advance w 1 0, stamp_bytes t (w_clock w (w_ticks w))).
Proof. unfold advance. by rewrite Nat.add_1_r, Nat.add_0_r. Qed.

Lemma length_stamp_bytes t i : length (stamp_bytes t i) = 12%nat.
Proof. unfold stamp_bytes. by rewrite length_app, !length_to_be_bytes. Qed.

Lemma parse_stamp t i : Tai64N_parse (stamp_bytes t i) = Ok (stamp_tai t i).
Proof.
  unfold Tai64N_parse. rewrite length_stamp_bytes. cbn [Nat.ltb Nat.leb].
  unfold stamp_bytes at 1 2.
  rewrite take_app_length', drop_app_length' by (by rewrite length_to_be_bytes).
  rewrite !from_to_be_id; [by destruct (stamp_tai t i)|..].
  - cbn. unfold subsec_nanos, NANOSECOND. dlia.
  - apply wrap_bound. lia.
Qed.

(** ** The four message functions in terms of the key schedule *)

Section flows.
Context {C : Crypto}.

(** The packet an initiator sends and the state it keeps. *)
Definition initiation (h : Handshake) (w : World) : HandshakeInit :=
  let p := params h in
  let eph := draw w 32 in
  let epub := x25519_public eph in
  let es := x25519_dh eph (peer_static_public p) in
  let ts := stamp_bytes (stamper h) (w_clock w (w_ticks w)) in
  mkHandshakeInit (snd (inc_index h)) epub
    (ini_static (peer_static_public p) epub es (static_public p))
    (ini_time (peer_static_public p) epub es (static_public p) (static_shared p) ts).

Definition initiation_state (h : Handshake) (w : World) : HandshakeInitSentState :=
  let p := params h in
  let eph := draw w 32 in
  let epub := x25519_public eph in
  let es := x25519_dh eph (peer_static_public p) in
  let ts := stamp_bytes (stamper h) (w_clock w (w_ticks w)) in
  mkInitSent (snd (inc_index h))
    (ini_final_hash (peer_static_public p) epub es (static_public p) (static_shared p) ts)
    (ini_final_chain epub es (static_shared p)) eph (w_clock w (S (w_ticks w))).

(** The handshake after the state change, before the MACs are recorded. *)
Definition initiated (h : Handshake) (w : World) : Handshake :=
  set_state (set_previous (fst (inc_index h)) (state h)) (InitSent (initiation_state h w)).

Lemma format_initiation_eq h dst_len w :
  (148 <= dst_len)%nat ->
  format_handshake_initiation h dst_len w =
    let '(h', pkt) := append_mac1_and_mac2 (initiated h w) (snd (inc_index h))
      (packet_prefix (PHandshakeInit (initiation h w))) in
    Ret (advance w 2 1, (h', Ok pkt)).
Proof.
  intros. unfold format_handshake_initiation, HANDSHAKE_INIT_SZ.
  destruct (Nat.ltb_spec dst_len 148); [lia|].
  unfold advance. replace (w_ticks w + 2)%nat with (S (S (w_ticks w))) by lia.
  rewrite Nat.add_1_r. reflexivity.
Qed.

(** The answer of a responder whose state is [InitReceived]. *)
Definition response (h : Handshake) (hash ck peph : bytes) (pidx : Z) (w : World)
  : HandshakeResponse :=
  let p := params h in
  let eph := draw w 32 in
  mkHandshakeResponse (snd (inc_index h)) pidx (x25519_public eph)
    (resp_nothing hash ck (x25519_public eph) (x25519_dh eph peph)
       (x25519_dh eph (peer_static_public p)) (psk_of p)).

Definition response_session (h : Handshake) (ck peph : bytes) (pidx : Z) (w : World) : Session :=
  let p := params h in
  let eph := draw w 32 in
  let fin := resp_final_chain ck (x25519_public eph) (x25519_dh eph peph)
       (x25519_dh eph (peer_static_public p)) (psk_of p) in
  Session_new (snd (inc_index h)) pidx (key_i2r fin) (key_r2i fin).

Lemma format_response_eq h hash ck peph pidx dst_len w :
  (92 <= dst_len)%nat -> state h = InitReceived hash ck peph pidx ->
  format_handshake_response h dst_len w =
    let '(h', pkt) := append_mac1_and_mac2 (set_state (fst (inc_index h)) HsNone)
      (snd (inc_index h)) (packet_prefix (PHandshakeResponse (response h hash ck peph pidx w))) in
    Ret (advance w 0 1, (h', Ok (pkt, response_session h ck peph pidx w))).
Proof.
  intros ? Hst. unfold format_handshake_response, HANDSHAKE_RESP_SZ.
  destruct (Nat.ltb_spec dst_len 92); [lia|]. rewrite Hst.
  unfold advance. rewrite Nat.add_0_r, Nat.add_1_r. reflexivity.
Qed.

(** A responder that accepted an initiation, about to answer. *)
Definition received (h : Handshake) (ts : Tai64N) (hash ck eph : bytes) (idx : Z) : Handshake :=
  set_state (set_previous (set_timestamp h ts) (state h)) (InitReceived hash ck eph idx).

Lemma receive_initiation_eq h p dst_len w :
  receive_handshake_initialization h p dst_len w =
    (let eph := hi_unencrypted_ephemeral p in
     let es := x25519_dh (static_private (params h)) eph in
     let* r := mlift (aead_chacha20_open 32 (ini_static_key eph es) 0 (hi_encrypted_static p)
                        (ini_hash (static_public (params h)) eph)) in
     match r with
     | Err e => mret (h, Err e)
     | Ok pub =>
         if negb (bytes_eqb (peer_static_public (params h)) pub) then mret (h, Err WrongKey)
         else
           let hash := b2s_hash (ini_hash (static_public (params h)) eph) (hi_encrypted_static p) in
           let* r := mlift (aead_chacha20_open 12 (kdf2 (ini_chain eph es) (static_shared (params h)))
                              0 (hi_encrypted_timestamp p) hash) in
           match r with
           | Err e => mret (h, Err e)
           | Ok tsb =>
               match Tai64N_parse tsb with
               | Err e => mret (h, Err e)
               | Ok ts =>
                   if negb (Tai64N_after ts (last_handshake_timestamp h))
                   then mret (h, Err WrongTai64nTimestamp)
                   else format_handshake_response
                     (received h ts (b2s_hash hash (hi_encrypted_timestamp p))
                        (ini_final_chain eph es (static_shared (params h))) eph (hi_sender_idx p))
                     dst_len
               end
           end
     end) w.
Proof. reflexivity. Qed.

Lemma receive_response_eq h p w :
  receive_handshake_response h p w =
    match awaiting h (hr_receiver_idx p) with
    | None => Ret (w, (h, Err UnexpectedPacket))
    | Some (st, is_previous) =>
        (let eph := hr_unencrypted_ephemeral p in
         let ee := x25519_dh (is_ephemeral_private st) eph in
         let se := x25519_dh (static_private (params h)) eph in
         let psk := psk_of (params h) in
         let* r := mlift (aead_chacha20_open 0 (kdf3 (resp_chain3 (is_chaining_key st) eph ee se) psk)
                     0 (hr_encrypted_nothing p)
                     (resp_hash (is_hash st) (is_chaining_key st) eph ee se psk)) in
         match r with
         | Err e => mret (h, Err e)
         | Ok _ =>
             let* now := Instant_now in
             let h := set_last_rtt h
               (Some (wrap 32 (as_millis (duration_since now (is_time_sent st))))) in
             let fin := resp_final_chain (is_chaining_key st) eph ee se psk in
             mret (if is_previous then set_previous h HsNone else set_state h HsNone,
                   Ok (Session_new (is_local_index st) (hr_sender_idx p) (key_r2i fin) (key_i2r fin)))
         end) w
    end.
Proof.
  unfold receive_handshake_response. by destruct (awaiting h (hr_receiver_idx p)) as [[st []]|].
Qed.
End flows.

(** ** Agreement *)

Section agreement.
Context {C : Crypto} {L : CryptoLaws C}.

Lemma length_static_public p : params_ok p -> length (static_public p) = 32%nat.
Proof. intros [-> _ _]. apply x25519_public_len. Qed.

(** Both ends compute the same static-static secret. *)
Lemma peers_shared a b : peers a b -> static_shared a = static_shared b.
Proof.
  intros [[Ha1 Ha2 _] [Hb1 Hb2 _] Hab Hba _].
  rewrite Ha2, Hb2, Hab, Hba, Ha1, Hb1. apply x25519_comm.
Qed.

Lemma initiation_ok h w :
  params_ok (params h) -> u32 (next_index h) -> packet_ok (PHandshakeInit (initiation h w)).
Proof.
  intros Hp Hu. cbn [packet_ok initiation hi_sender_idx hi_unencrypted_ephemeral hi_encrypted_static
    hi_encrypted_timestamp]. split_and!; [by apply inc_index_u32|apply x25519_public_len|..].
  - unfold ini_static. by rewrite aead_chacha20_seal_len, length_static_public.
  - unfold ini_time. by rewrite aead_chacha20_seal_len, length_stamp_bytes.
Qed.

Lemma response_ok h hash ck peph pidx w :
  u32 (next_index h) -> u32 pidx -> packet_ok (PHandshakeResponse (response h hash ck peph pidx w)).
Proof.
  intros Hu Hp. cbn [packet_ok response hr_sender_idx hr_receiver_idx hr_unencrypted_ephemeral
    hr_encrypted_nothing]. split_and!; [by apply inc_index_u32|done|apply x25519_public_len|].
  unfold resp_nothing. by rewrite aead_chacha20_seal_len.
Qed.

Lemma mlift_ret {A B} (a : A) (k : A -> M B) w : mbind (mlift (Ret a)) k w = k a w.
Proof. reflexivity. Qed.

(** What the MACs add to a message, and what they leave of the handshake. *)
Record macs_added (h h' : Handshake) (i : Z) (msg pkt : bytes) : Prop := {
  ma_pkt : exists mac2, pkt = msg ++ b2s_keyed_mac_16 (sending_mac1_key (params h)) msg ++ mac2 /\
    length mac2 = 16%nat;
  ma_state : state h' = state h;
  ma_previous : previous h' = previous h;
  ma_params : params h' = params h;
  ma_index : ck_index (cookies h') = i
}.

Lemma append_macs_shape h i msg h' pkt :
  append_mac1_and_mac2 h i msg = (h', pkt) -> macs_added h h' i msg pkt.
Proof.
  unfold append_mac1_and_mac2. intros E. injection E as <- <-. constructor; try done.
  eexists. split; [done|]. case_match; [|done]. by rewrite b2s_keyed_mac_16_len.
Qed.

(** A handshake message as sent: the first MAC made with [key], some second. *)
Definition signed (key : bytes) (p : Packet) (pkt : bytes) : Prop :=
  packet_ok p /\ macs_len p = 32%nat /\ exists mac2, length mac2 = 16%nat /\
  pkt = packet_prefix p ++ b2s_keyed_mac_16 key (packet_prefix p) ++ mac2.

Lemma signed_parse key p pkt : signed key p pkt -> parse_incoming_packet pkt = Ok p.
Proof.
  intros (Hp & Hm & mac2 & H2 & ->). apply parse_serialize; [done|].
  by rewrite length_app, b2s_keyed_mac_16_len, H2.
Qed.

Lemma initiator_sends a w d :
  params_ok (params a) -> u32 (next_index a) -> (148 <= d)%nat ->
  exists a1 init,
    format_handshake_initiation a d w = Ret (advance w 2 1, (a1, Ok init)) /\
    signed (sending_mac1_key (params a)) (PHandshakeInit (initiation a w)) init /\
    state a1 = InitSent (initiation_state a w) /\ params a1 = params a.
Proof.
  intros Hp Hu Hd. rewrite format_initiation_eq by done.
  destruct (append_mac1_and_mac2 _ _ _) as [a1 init] eqn:E.
  apply append_macs_shape in E as [(mac2 & -> & Hm) Hst _ Hpa _].
  do 2 eexists. split; [done|]. split; [|by rewrite Hst, Hpa].
  split; [by apply initiation_ok|]. split; [done|]. by exists mac2.
Qed.

Lemma responder_answers b w d hash ck peph pidx :
  state b = InitReceived hash ck peph pidx ->
  u32 (next_index b) -> u32 pidx -> (92 <= d)%nat ->
  exists b1 resp,
    format_handshake_response b d w
      = Ret (advance w 0 1, (b1, Ok (resp, response_session b ck peph pidx w))) /\
    signed (sending_mac1_key (params b)) (PHandshakeResponse (response b hash ck peph pidx w)) resp /\
    state b1 = HsNone.
Proof.
  intros Hst Hu Hi Hd. erewrite format_response_eq by done.
  destruct (append_mac1_and_mac2 _ _ _) as [b1 resp] eqn:E.
  apply append_macs_shape in E as [(mac2 & -> & Hm) Hst1 _ _ _].
  do 2 eexists. split; [done|]. split; [|done].
  split; [by apply response_ok|]. split; [done|]. by exists mac2.
Qed.

(** The responder recognises the initiator's message and reaches the state to
    answer from, with the initiator's transcript. *)
Lemma responder_accepts a b wa wb dst_len :
  peers (params a) (params b) ->
  Tai64N_after (stamp_tai (stamper a) (w_clock wa (w_ticks wa))) (last_handshake_timestamp b) = true ->
  receive_handshake_initialization b (initiation a wa) dst_len wb =
    format_handshake_response
      (received b (stamp_tai (stamper a) (w_clock wa (w_ticks wa)))
        (is_hash (initiation_state a wa)) (is_chaining_key (initiation_state a wa))
        (x25519_public (draw wa 32)) (snd (inc_index a))) dst_len wb.
Proof.
  intros Hp Hts. pose proof (peers_shared _ _ Hp) as Hss.
  pose proof (length_static_public _ (peers_a _ _ Hp)) as Hlen.
  rewrite receive_initiation_eq. destruct Hp as [Ha Hb Hab Hba _].
  cbn [initiation hi_unencrypted_ephemeral hi_encrypted_static hi_encrypted_timestamp hi_sender_idx].
  set (eph := draw wa 32) in *.
  assert (x25519_dh (static_private (params b)) (x25519_public eph)
          = x25519_dh eph (peer_static_public (params a))) as ->.
  { rewrite Hab, (po_public _ Hb). apply x25519_comm. }
  rewrite <- Hab, <- Hss, Hba. cbn zeta.
  unfold ini_static at 1. rewrite aead_chacha20_open_seal, mlift_ret by done. cbn beta iota.
  rewrite bytes_eqb_refl. cbn [negb].
  unfold ini_time at 1. rewrite aead_chacha20_open_seal, mlift_ret by apply length_stamp_bytes.
  cbn beta iota. rewrite parse_stamp, Hts. reflexivity.
Qed.

(** The initiator opens the answer to its own initiation. *)
Lemma initiator_accepts a h st b wa wb p w :
  params h = params a -> st = initiation_state a wa ->
  peers (params a) (params b) ->
  awaiting h (is_local_index st) = Some (st, p) ->
  exists h', receive_handshake_response h
      (response b (is_hash st) (is_chaining_key st) (x25519_public (draw wa 32))
         (is_local_index st) wb) w
    = Ret (advance w 1 0, (h', Ok (Session_new (is_local_index st) (snd (inc_index b))
        (sender (response_session b (is_chaining_key st) (x25519_public (draw wa 32))
                   (is_local_index st) wb))
        (receiver (response_session b (is_chaining_key st) (x25519_public (draw wa 32))
                   (is_local_index st) wb))))).
Proof.
  intros Hph Hst Hp Haw. rewrite receive_response_eq.
  cbn [response hr_receiver_idx hr_unencrypted_ephemeral hr_encrypted_nothing hr_sender_idx].
  rewrite Haw, Hph. cbn zeta.
  assert (is_ephemeral_private st = draw wa 32) as -> by (by subst).
  set (ea := draw wa 32) in *. set (eb := draw wb 32) in *.
  assert (psk_of (params a) = psk_of (params b)) as ->.
  { unfold psk_of. by rewrite (peers_psk _ _ Hp). }
  rewrite (x25519_comm ea eb).
  assert (x25519_dh (static_private (params a)) (x25519_public eb)
          = x25519_dh eb (peer_static_public (params b))) as ->.
  { rewrite (peers_ba _ _ Hp), (po_public _ (peers_a _ _ Hp)). apply x25519_comm. }
  unfold resp_nothing. rewrite aead_chacha20_open_seal, mlift_ret by done. cbn beta iota.
  eexists. unfold advance. rewrite Nat.add_1_r, Nat.add_0_r. reflexivity.
Qed.
End agreement.

(** ** Every operation of a handshake *)

(** Order of timestamps: [x] is not after [y]. *)
Definition tai_le (x y : Tai64N) : Prop := Tai64N_after x y = false.

Lemma tai_le_refl x : tai_le x x.
Proof. unfold tai_le, Tai64N_after. by rewrite !Z.ltb_irrefl, andb_false_r. Qed.

Lemma tai_le_trans x y z : tai_le x y -> tai_le y z -> tai_le x z.
Proof.
  unfold tai_le, Tai64N_after. rewrite !orb_false_iff, !andb_false_iff.
  rewrite !Z.ltb_ge, !Z.eqb_neq. lia.
Qed.

Lemma tai_after_le x y : Tai64N_after x y = true -> tai_le y x.
Proof.
  unfold tai_le, Tai64N_after. rewrite orb_true_iff, andb_true_iff, orb_false_iff, andb_false_iff.
  rewrite !Z.ltb_lt, !Z.ltb_ge, Z.eqb_eq, Z.eqb_neq. lia.
Qed.

(** What every operation keeps: the key material, the peer's part of the
    index, and the order of accepted timestamps. *)
Record carries (h h' : Handshake) : Prop := {
  cy_params : params h' = params h;
  cy_peer : next_index h' / 256 = next_index h / 256;
  cy_u32 : u32 (next_index h) -> u32 (next_index h');
  cy_time : tai_le (last_handshake_timestamp h) (last_handshake_timestamp h')
}.

Lemma carries_refl h : carries h h.
Proof. constructor; auto using tai_le_refl. Qed.

Lemma carries_trans h1 h2 h3 : carries h1 h2 -> carries h2 h3 -> carries h1 h3.
Proof.
  intros [? ? ? ?] [? ? ? ?]. constructor; [congruence..|auto|eauto using tai_le_trans].
Qed.

(** Changing only the state, the cookies or the round-trip time. *)
Lemma carries_fields h h' :
  params h' = params h -> next_index h' = next_index h ->
  last_handshake_timestamp h' = last_handshake_timestamp h -> carries h h'.
Proof. intros ? Hn Ht. constructor; rewrite ?Hn, ?Ht; auto using tai_le_refl. Qed.

Section steps.
Context {C : Crypto}.

(** One call on a handshake, in any world and with any arguments. *)
Inductive hs_step : Handshake -> Handshake -> Prop :=
| step_initiate h d w w' h' r :
    format_handshake_initiation h d w = Ret (w', (h', r)) -> hs_step h h'
| step_initialization h p d w w' h' r :
    receive_handshake_initialization h p d w = Ret (w', (h', r)) -> hs_step h h'
| step_response h p w w' h' r :
    receive_handshake_response h p w = Ret (w', (h', r)) -> hs_step h h'
| step_cookie h p h' r : receive_cookie_reply h p = (h', r) -> hs_step h h'
| step_expired h : hs_step h (set_expired h)
| step_clear_cookie h : hs_step h (clear_cookie h).

Lemma append_macs_carries h i msg : carries h (fst (append_mac1_and_mac2 h i msg)).
Proof. by apply carries_fields. Qed.

Lemma inc_index_carries h h' :
  u32 (next_index h) -> params h' = params h -> next_index h' = snd (inc_index h) ->
  last_handshake_timestamp h' = last_handshake_timestamp h -> carries h h'.
Proof.
  intros Hu Hp Hn Ht. constructor; [done|..|rewrite Ht; apply tai_le_refl]; rewrite Hn.
  - rewrite inc_index_value by done. dlia.
  - apply inc_index_u32.
Qed.

Lemma format_initiation_carries h d w w' h' r :
  u32 (next_index h) -> format_handshake_initiation h d w = Ret (w', (h', r)) -> carries h h'.
Proof.
  intros Hu E. destruct (Nat.ltb_spec d 148) as [Hd|Hd].
  - unfold format_handshake_initiation, HANDSHAKE_INIT_SZ in E.
    rewrite (proj2 (Nat.ltb_lt _ _) Hd) in E. unfold mret in E. simplify_eq. apply carries_refl.
  - rewrite format_initiation_eq in E by done. cbn zeta in E.
    destruct (append_mac1_and_mac2 _ _ _) as [h1 pkt] eqn:Ea. simplify_eq.
    replace h' with (fst (h', pkt)) by done. rewrite <- Ea. by apply inc_index_carries.
Qed.

Lemma format_response_carries h d w w' h' r :
  u32 (next_index h) -> format_handshake_response h d w = Ret (w', (h', r)) -> carries h h'.
Proof.
  intros Hu E. destruct (Nat.ltb_spec d 92) as [Hd|Hd].
  - unfold format_handshake_response, HANDSHAKE_RESP_SZ in E.
    rewrite (proj2 (Nat.ltb_lt _ _) Hd) in E. unfold mret in E. simplify_eq. apply carries_refl.
  - destruct (state h) eqn:Hst.
    3: { erewrite format_response_eq in E by done. cbn zeta in E.
      destruct (append_mac1_and_mac2 _ _ _) as [h1 pkt] eqn:Ea. simplify_eq.
      replace h' with (fst (h', pkt)) by done. rewrite <- Ea. by apply inc_index_carries. }
    all: unfold format_handshake_response, HANDSHAKE_RESP_SZ in E;
      rewrite (proj2 (Nat.ltb_ge _ _) Hd), Hst in E; discriminate E.
Qed.

(** How an initiation can end: refused with nothing changed, or accepted as
    newer than every one before and answered. *)
Lemma receive_initiation_cases h p d w w' h' r :
  receive_handshake_initialization h p d w = Ret (w', (h', r)) ->
  (h' = h /\ w' = w /\ exists e, r = Err e) \/
  exists ts hash ck,
    Tai64N_after ts (last_handshake_timestamp h) = true /\
    (forall h2 d2 w2, params h2 = params h -> tai_le ts (last_handshake_timestamp h2) ->
       receive_handshake_initialization h2 p d2 w2 = Ret (w2, (h2, Err WrongTai64nTimestamp))) /\
    format_handshake_response
      (received h ts hash ck (hi_unencrypted_ephemeral p) (hi_sender_idx p)) d w
      = Ret (w', (h', r)).
Proof.
  rewrite receive_initiation_eq. cbn zeta. unfold mbind, mlift. intros E.
  ret_inv E. ret_inv E0. destruct a as [w1 [pub|e]]; cbn in E0; simplify_eq;
    [|unfold mret in E; cbn in E; simplify_eq; eauto 7].
  destruct (bytes_eqb _ pub) eqn:Epub; cbn [negb] in E;
    [|unfold mret in E; cbn in E; simplify_eq; eauto 7].
  ret_inv E. ret_inv E0. destruct a as [w3 [tsb|e]]; cbn in E0; simplify_eq;
    [|unfold mret in E; cbn in E; simplify_eq; eauto 7].
  destruct (Tai64N_parse tsb) as [ts|e] eqn:Ets; [|unfold mret in E; cbn in E; simplify_eq; eauto 7].
  destruct (Tai64N_after ts (last_handshake_timestamp h)) eqn:Eaft; cbn [negb] in E;
    [|unfold mret in E; cbn in E; simplify_eq; eauto 7].
  right. do 3 eexists. split; [done|]. split; [|exact E].
  intros h2 d2 w2 Hp Hts. rewrite receive_initiation_eq. cbn zeta. unfold mbind, mlift.
  rewrite Hp, E1. cbn [obind]. rewrite Epub. cbn [negb]. rewrite E2. cbn [obind].
  rewrite Ets, Hts. reflexivity.
Qed.

Lemma received_carries h ts hash ck eph idx :
  Tai64N_after ts (last_handshake_timestamp h) = true ->
  carries h (received h ts hash ck eph idx).
Proof. intros. constructor; cbn; auto. by apply tai_after_le. Qed.

Lemma receive_initiation_carries h p d w w' h' r :
  u32 (next_index h) ->
  receive_handshake_initialization h p d w = Ret (w', (h', r)) -> carries h h'.
Proof.
  intros Hu E. apply receive_initiation_cases in E as [[-> _]|(ts & hash & ck & Ha & _ & E)];
    [apply carries_refl|].
  eapply carries_trans; [by eapply received_carries|].
  by eapply format_response_carries; [|exact E].
Qed.

(** How a response can end: refused with nothing changed, or the initiation it
    answers is used up. *)
Lemma receive_response_cases h p w w' h' r :
  receive_handshake_response h p w = Ret (w', (h', r)) ->
  (h' = h /\ w' = w /\ exists e, r = Err e) \/
  exists st is_previous rtt s,
    w' = advance w 1 0 /\
    awaiting h (hr_receiver_idx p) = Some (st, is_previous) /\ r = Ok s /\
    receiving_index s = is_local_index st /\ sending_index s = hr_sender_idx p /\
    h' = (if is_previous then set_previous (set_last_rtt h rtt) HsNone
          else set_state (set_last_rtt h rtt) HsNone).
Proof.
  rewrite receive_response_eq. intros E.
  destruct (awaiting h (hr_receiver_idx p)) as [[st is_previous]|]; [|simplify_eq; eauto].
  unfold mbind, mlift in E. cbn zeta in E. ret_inv E. ret_inv E0.
  destruct a as [w1 [?|e]]; cbn in E0; simplify_eq; [|unfold mret in E; cbn in E; simplify_eq; eauto 7].
  unfold Instant_now, mret in E. cbn [obind] in E. simplify_eq. right. do 4 eexists.
  split; [unfold advance; by rewrite Nat.add_1_r, Nat.add_0_r|]. split; [done|]. done.
Qed.

(** A session from a response starts with a fresh replay window. *)
Lemma receive_response_session h p w w' h' s :
  receive_handshake_response h p w = Ret (w', (h', Ok s)) -> session_window s window_init.
Proof.
  rewrite receive_response_eq. intros E.
  destruct (awaiting h (hr_receiver_idx p)) as [[st is_previous]|]; [|discriminate].
  unfold mbind, mlift in E. cbn zeta in E. ret_inv E. ret_inv E0.
  destruct a as [w1 [?|e]]; cbn in E0; simplify_eq.
  unfold Instant_now, mret in E. cbn [obind] in E. simplify_eq. by apply session_window_init.
Qed.

Lemma receive_cookie_cases h p h' r :
  receive_cookie_reply h p = (h', r) ->
  (h' = h /\ exists e, r = Err e) \/
  (r = Ok tt /\ exists c, length c = 16%nat /\
     h' = set_cookies h (mkCookies (last_mac1 (cookies h)) (ck_index (cookies h)) (Some c))).
Proof.
  unfold receive_cookie_reply. intros E.
  repeat case_hyp E; simplify_eq; eauto;
    repeat match goal with H : (_ =? _)%nat = true |- _ => apply Nat.eqb_eq in H end; eauto.
Qed.

Lemma step_carries h h' : u32 (next_index h) -> hs_step h h' -> carries h h'.
Proof.
  intros Hu Hs. destruct Hs as [? ? ? ? ? ? E|? ? ? ? ? ? ? E|? ? ? ? ? ? E|? ? ? ? E|?|?].
  - by eapply format_initiation_carries.
  - by eapply receive_initiation_carries.
  - apply receive_response_cases in E as [[-> _]|(? & [] & ? & ? & _ & _ & _ & _ & _ & ->)];
      by apply carries_fields.
  - apply receive_cookie_cases in E as [[-> _]|(_ & ? & _ & ->)]; by apply carries_fields.
  - by apply carries_fields.
  - by apply carries_fields.
Qed.

Lemma steps_carries h h' : u32 (next_index h) -> rtc hs_step h h' -> carries h h'.
Proof.
  intros Hu Hs. induction Hs as [h|h1 h2 h3 Hstep _ IH]; [apply carries_refl|].
  pose proof (step_carries _ _ Hu Hstep) as Hc. eapply carries_trans; [done|].
  apply IH. by apply (cy_u32 _ _ Hc).
Qed.
End steps.

(** Indices of [n] handshakes in a row. *)
Fixpoint session_indices (h : Handshake) (n : nat) : list Z :=
  match n with
  | O => []
  | S n' => let '(h', i) := inc_index h in i :: session_indices h' n'
  end.

Lemma session_indices_eq h n :
  u32 (next_index h) ->
  session_indices h n
    = map (fun k => next_index h / 256 * 256 + (next_index h + 1 + k) mod 256) (seqZ 0 (Z.of_nat n)).
Proof.
  revert h. induction n as [|n IH]; intros h Hu; [done|].
  rewrite seqZ_cons by lia. cbn [session_indices map].
  pose proof (inc_index_value h Hu) as Hv. pose proof (inc_index_u32 h Hu) as Hu'.
  destruct (inc_index h) as [h' i] eqn:E. cbn [snd] in *.
  assert (next_index h' = i) as Hn by (unfold inc_index in E; by simplify_eq).
  rewrite IH by congruence. rewrite Hn, Hv, Nat2Z.inj_succ, Z.pred_succ. f_equal; [f_equal; f_equal; lia|].
  rewrite <- (Z.add_0_r (Z.succ 0)), <- fmap_add_seqZ, map_map. apply map_ext. intros k. dlia.
Qed.

(** Receiving a message of the right sizes always returns. *)
Section returns.
Context {C : Crypto} {L : CryptoLaws C}.

Lemma receive_initiation_returns h p d w :
  length (hi_encrypted_static p) = 48%nat -> length (hi_encrypted_timestamp p) = 28%nat ->
  ~ (receive_handshake_initialization h p d w = Panicked \/
     receive_handshake_initialization h p d w = Diverged).
Proof.
  intros H1 H2. rewrite receive_initiation_eq. cbn zeta. unfold mbind, mlift.
  destruct (aead_chacha20_open_total 32 (ini_static_key (hi_unencrypted_ephemeral p)
    (x25519_dh (static_private (params h)) (hi_unencrypted_ephemeral p))) 0 (hi_encrypted_static p)
    (ini_hash (static_public (params h)) (hi_unencrypted_ephemeral p)) H1) as [r1 ->].
  cbn [obind]. destruct r1 as [pub|]; [|by intros []].
  destruct (negb _); [by intros []|].
  match goal with |- context [aead_chacha20_open 12 ?k ?c ?x ?a] =>
    destruct (aead_chacha20_open_total 12 k c x a H2) as [r2 ->] end.
  cbn [obind]. destruct r2 as [tsb|]; [|by intros []].
  destruct (Tai64N_parse tsb); [|by intros []]. destruct (negb _); [by intros []|].
  destruct (Nat.ltb_spec d 92) as [Hd|Hd].
  - unfold format_handshake_response, HANDSHAKE_RESP_SZ.
    rewrite (proj2 (Nat.ltb_lt _ _) Hd). by intros [].
  - erewrite format_response_eq by done. cbn zeta.
    destruct (append_mac1_and_mac2 _ _ _). by intros [].
Qed.

Lemma receive_response_returns h p w :
  length (hr_encrypted_nothing p) = 16%nat ->
  ~ (receive_handshake_response h p w = Panicked \/
     receive_handshake_response h p w = Diverged).
Proof.
  intros H1. rewrite receive_response_eq. destruct (awaiting _ _) as [[st prev]|]; [|by intros []].
  cbn zeta. unfold mbind, mlift.
  match goal with |- context [aead_chacha20_open 0 ?k ?c ?x ?a] =>
    destruct (aead_chacha20_open_total 0 k c x a H1) as [r2 ->] end.
  cbn [obind]. destruct r2; by intros [].
Qed.
End returns.

(** ** Properties *)

Section properties.
Context {C : Crypto} {L : CryptoLaws C}.

(** Two sessions fresh out of one handshake. *)
Record fresh_pair (sa sb : Session) : Prop := {
  fp_ab : paired sa sb;
  fp_ba : paired sb sa;
  fp_a : sending_key_counter sa = 0 /\ session_window sa window_init;
  fp_b : sending_key_counter sb = 0 /\ session_window sb window_init
}.

(** The whole exchange, message by message. *)
Lemma handshake_exchange a b wa wb da db :
  peers (params a) (params b) ->
  u32 (next_index a) -> u32 (next_index b) ->
  Tai64N_after (stamp_tai (stamper a) (w_clock wa (w_ticks wa))) (last_handshake_timestamp b) = true ->
  (HANDSHAKE_INIT_SZ <= da)%nat -> (HANDSHAKE_RESP_SZ <= db)%nat ->
  exists a1 init p b1 resp q sb,
    format_handshake_initiation a da wa = Ret (advance wa 2 1, (a1, Ok init)) /\
    signed (sending_mac1_key (params a)) (PHandshakeInit p) init /\
    receive_handshake_initialization b p db wb = Ret (advance wb 0 1, (b1, Ok (resp, sb))) /\
    signed (sending_mac1_key (params b)) (PHandshakeResponse q) resp /\
    state b1 = HsNone /\ local_index sb = snd (inc_index b) /\
    forall wc, exists a2 sa,
      receive_handshake_response a1 q wc = Ret (advance wc 1 0, (a2, Ok sa)) /\
      fresh_pair sa sb /\ state a2 = HsNone /\ local_index sa = snd (inc_index a).
Proof.
  intros Hp Hua Hub Hts Hda Hdb. unfold HANDSHAKE_INIT_SZ, HANDSHAKE_RESP_SZ in *.
  destruct (initiator_sends a wa da (peers_a _ _ Hp) Hua Hda) as (a1 & init & Hf & Hi & Hst1 & Hpa1).
  set (st := initiation_state a wa) in *.
  set (b0 := received b (stamp_tai (stamper a) (w_clock wa (w_ticks wa)))
    (is_hash st) (is_chaining_key st) (x25519_public (draw wa 32)) (snd (inc_index a))).
  destruct (responder_answers b0 wb db _ _ _ _ eq_refl Hub (inc_index_u32 _ Hua) Hdb)
    as (b1 & resp & Hr & Hq & Hstb).
  exists a1, init; do 5 eexists. split; [done|]. split; [done|].
  split; [by rewrite responder_accepts|]. split; [exact Hq|]. split; [done|]. split; [done|].
  intros wc. destruct (initiator_accepts a a1 st b0 wa wb false wc Hpa1 eq_refl Hp) as [a2 Ha2].
  { unfold awaiting. by rewrite Hst1, Z.eqb_refl. }
  do 2 eexists. split; [exact Ha2|].
  apply receive_response_cases in Ha2 as [(_ & _ & ? & ?)|(? & prev & ? & ? & _ & Haw & _ & _ & _ & ->)];
    [discriminate|].
  unfold awaiting in Haw. rewrite Hst1 in Haw. cbn [response hr_receiver_idx] in Haw.
  rewrite Z.eqb_refl in Haw. simplify_eq.
  split; [|done]. constructor; [..|split; [done|by apply session_window_init]|split; [done|by apply session_window_init]];
    constructor; try done; by apply inc_index_u32.
Qed.

(** C1: handshake agreement. When two peers are configured for each other and
    the initiator's timestamp is newer than the last one the responder saw,
    the whole exchange goes through: the initiation the one writes parses and
    is accepted by the other, the answer parses and is accepted back, neither
    side is left in a handshake, and the two sessions are the two ends of one
    channel in both directions. *)
Theorem handshake_agreement a b wa wb wc da db :
  peers (params a) (params b) ->
  u32 (next_index a) -> u32 (next_index b) ->
  Tai64N_after (stamp_tai (stamper a) (w_clock wa (w_ticks wa))) (last_handshake_timestamp b) = true ->
  (HANDSHAKE_INIT_SZ <= da)%nat -> (HANDSHAKE_RESP_SZ <= db)%nat ->
  exists a1 init p b1 resp q a2 sa sb,
    format_handshake_initiation a da wa = Ret (advance wa 2 1, (a1, Ok init)) /\
    parse_incoming_packet init = Ok (PHandshakeInit p) /\
    receive_handshake_initialization b p db wb = Ret (advance wb 0 1, (b1, Ok (resp, sb))) /\
    parse_incoming_packet resp = Ok (PHandshakeResponse q) /\
    receive_handshake_response a1 q wc = Ret (advance wc 1 0, (a2, Ok sa)) /\
    paired sa sb /\ paired sb sa /\
    state a2 = HsNone /\ state b1 = HsNone /\
    local_index sa = snd (inc_index a) /\ local_index sb = snd (inc_index b).
Proof.
  intros Hp Hua Hub Hts Hda Hdb.
  destruct (handshake_exchange a b wa wb da db Hp Hua Hub Hts Hda Hdb)
    as (a1 & init & p & b1 & resp & q & sb & E1 & H1 & E2 & H2 & Hb1 & Hib & Hc).
  destruct (Hc wc) as (a2 & sa & E3 & [? ? _ _] & Ha2 & Hia).
  exists a1, init, p, b1, resp, q, a2, sa, sb. split_and!; eauto using signed_parse.
Qed.

(** C9: an initiation is accepted at most once. After an initiation has been
    accepted, whatever the handshake does next (any sequence of initiations,
    responses, cookie replies and expiries, in any order), the same message is
    refused as stale and changes nothing. *)
Theorem replayed_initiation_refused h p d w w' h1 s h2 d2 w2 :
  u32 (next_index h) ->
  receive_handshake_initialization h p d w = Ret (w', (h1, Ok s)) ->
  rtc hs_step h1 h2 ->
  receive_handshake_initialization h2 p d2 w2 = Ret (w2, (h2, Err WrongTai64nTimestamp)).
Proof.
  intros Hu E Hsteps. pose proof (receive_initiation_carries _ _ _ _ _ _ _ Hu E) as Hc.
  apply receive_initiation_cases in E as [(_ & _ & ? & ?)|(ts & hash & ck & Ha & Hrep & E)];
    [discriminate|].
  pose proof (steps_carries _ _ (cy_u32 _ _ Hc Hu) Hsteps) as Hc2.
  apply (format_response_carries (received h ts hash ck _ _)) in E as [_ _ _ Hts]; [|done].
  apply Hrep; [by rewrite (cy_params _ _ Hc2), (cy_params _ _ Hc)|].
  eapply tai_le_trans; [exact Hts|apply Hc2].
Qed.

(** C10: messages that fail do no harm. Given the buffer the wire format
    needs, receiving any well-formed initiation, response or cookie reply
    returns without a panic, and if it reports an error the handshake is
    exactly what it was before. *)
Theorem failed_messages_harmless h w d init resp cookie :
  packet_ok (PHandshakeInit init) -> packet_ok (PHandshakeResponse resp) ->
  (HANDSHAKE_RESP_SZ <= d)%nat ->
  (exists w' h' r, receive_handshake_initialization h init d w = Ret (w', (h', r)) /\
     ((exists e, r = Err e) -> h' = h)) /\
  (exists w' h' r, receive_handshake_response h resp w = Ret (w', (h', r)) /\
     ((exists e, r = Err e) -> h' = h)) /\
  (let '(h', r) := receive_cookie_reply h cookie in (exists e, r = Err e) -> h' = h).
Proof.
  intros (_ & _ & Hi2 & Hi3) (_ & _ & _ & Hr) Hd. split_and!.
  - destruct (receive_handshake_initialization h init d w) as [[w' [h' r]]| |] eqn:E.
    + exists w', h', r. split; [done|]. intros [e ->].
      apply receive_initiation_cases in E as [[-> _]|(ts & hash & ck & _ & _ & E)]; [done|].
      erewrite format_response_eq in E by done. cbn zeta in E.
      destruct (append_mac1_and_mac2 _ _ _). simplify_eq.
    + exfalso. by eapply receive_initiation_returns; [..|left; exact E].
    + exfalso. by eapply receive_initiation_returns; [..|right; exact E].
  - destruct (receive_handshake_response h resp w) as [[w' [h' r]]| |] eqn:E.
    + exists w', h', r. split; [done|]. intros [e ->].
      by apply receive_response_cases in E as [[-> _]|(? & ? & ? & ? & _ & _ & ? & _)].
    + exfalso. by eapply receive_response_returns; [|left; exact E].
    + exfalso. by eapply receive_response_returns; [|right; exact E].
  - destruct (receive_cookie_reply h cookie) as [h' r] eqn:E. intros [e ->].
    by apply receive_cookie_cases in E as [[-> _]|(? & _)].
Qed.

(** Session indices stay with their peer and do not collide. The indices
    a handshake hands out one after the other all carry the peer number in
    their upper 24 bits, fit 32 bits, count through the 256 values of the lower
    byte, and are pairwise different for 256 handshakes in a row. *)
Theorem session_indices_cycle h n :
  u32 (next_index h) ->
  Forall (fun i => u32 i /\ i / 256 = next_index h / 256) (session_indices h n) /\
  map (fun i => i mod 256) (session_indices h n)
    = map (fun k => (next_index h + 1 + k) mod 256) (seqZ 0 (Z.of_nat n)) /\
  ((n <= 256)%nat -> NoDup (session_indices h n)).
Proof.
  intros Hu. rewrite session_indices_eq by done. split_and!.
  - apply Forall_map, Forall_forall. intros k _. unfold u32 in *. cbn.
    change (2 ^ 32) with 4294967296 in *. dlia.
  - rewrite map_map. apply map_ext. intros k. dlia.
  - intros Hn. apply NoDup_fmap_2_strong; [|apply NoDup_seqZ].
    intros x y Hx%elem_of_seqZ Hy%elem_of_seqZ E. dlia.
Qed.
End properties.

(** ** Witnesses *)

(** A clock that advances a second per reading, on a fixed day. *)
Definition demo_world : World :=
  mkWorld (fun i => mkInstant (Z.of_nat i) 0) (fun _ => from_secs 1700000000)
    (fun d i => Z.of_nat (7 * d + i)) 0 0 0.

Definition secret_a : bytes := replicate 32 5.
Definition secret_b : bytes := replicate 32 9.

Definition demo_peer (mine theirs : bytes) (index : Z) : Handshake :=
  mkHandshake (NoiseParams_new mine (x25519_public mine) (x25519_public theirs) None)
    index HsNone HsNone (mkCookies None 0 None) Tai64N_zero
    (mkTimeStamper (from_secs 1700000000) (mkInstant 0 0)) None.

Definition peer_a : Handshake := demo_peer secret_a secret_b 256.
Definition peer_b : Handshake := demo_peer secret_b secret_a 512.

(** What a call that returned left of the handshake, and its result. *)
Definition left_by {A} (o : outcome (World * (Handshake * A))) : option Handshake :=
  match o with Ret (_, (h, _)) => Some h | _ => None end.
Definition result_of {A} (o : outcome (World * (Handshake * Result WireGuardError A))) : option A :=
  match o with Ret (_, (_, Ok r)) => Some r | _ => None end.

(** The initiation of [peer_a] and its reception by [peer_b]. *)
Definition init_a : HandshakeInit := initiation peer_a demo_world.
Definition recv_b : outcome (World * (Handshake * Result WireGuardError (bytes * Session))) :=
  receive_handshake_initialization peer_b init_a 148 demo_world.
Definition peer_b1 : Handshake := default peer_b (left_by recv_b).
Definition answer_b : bytes * Session := default ([], end_a) (result_of recv_b).

Lemma demo_peers : peers (params peer_a) (params peer_b).
Proof. repeat split. Qed.

Lemma handshake_agreement_witness :
  exists a1 init p b1 resp q a2 sa sb,
    format_handshake_initiation peer_a 148 demo_world
      = Ret (advance demo_world 2 1, (a1, Ok init)) /\
    parse_incoming_packet init = Ok (PHandshakeInit p) /\
    receive_handshake_initialization peer_b p 148 demo_world
      = Ret (advance demo_world 0 1, (b1, Ok (resp, sb))) /\
    parse_incoming_packet resp = Ok (PHandshakeResponse q) /\
    receive_handshake_response a1 q demo_world = Ret (advance demo_world 1 0, (a2, Ok sa)) /\
    paired sa sb /\ paired sb sa /\ state a2 = HsNone /\ state b1 = HsNone /\
    local_index sa = 257 /\ local_index sb = 513.
Proof.
  apply (handshake_agreement peer_a peer_b demo_world demo_world demo_world 148 148).
  - apply demo_peers.
  - unfold u32; cbn; lia.
  - unfold u32; cbn; lia.
  - vm_compute. reflexivity.
  - unfold HANDSHAKE_INIT_SZ; lia.
  - unfold HANDSHAKE_RESP_SZ; lia.
Defined.

Lemma replayed_initiation_refused_witness :
  receive_handshake_initialization (set_expired peer_b1) init_a 148 demo_world
    = Ret (demo_world, (set_expired peer_b1, Err WrongTai64nTimestamp)).
Proof.
  apply (replayed_initiation_refused peer_b init_a 148 demo_world (advance demo_world 0 1)
    peer_b1 answer_b).
  - unfold u32; cbn; lia.
  - vm_compute. reflexivity.
  - eapply rtc_l; [apply step_expired|apply rtc_refl].
Defined.

Lemma failed_messages_harmless_witness :
  (exists w' h' r, receive_handshake_initialization peer_b
      (mkHandshakeInit 1 (replicate 32 0) (replicate 48 0) (replicate 28 0)) 92 demo_world
      = Ret (w', (h', r)) /\ ((exists e, r = Err e) -> h' = peer_b)) /\
  (exists w' h' r, receive_handshake_response peer_b
      (mkHandshakeResponse 1 2 (replicate 32 0) (replicate 16 0)) demo_world = Ret (w', (h', r)) /\
     ((exists e, r = Err e) -> h' = peer_b)) /\
  (let '(h', r) := receive_cookie_reply peer_b (mkPacketCookieReply 1 (replicate 24 0) (replicate 32 0))
   in (exists e, r = Err e) -> h' = peer_b).
Proof.
  apply (failed_messages_harmless peer_b demo_world 92
    (mkHandshakeInit 1 (replicate 32 0) (replicate 48 0) (replicate 28 0))
    (mkHandshakeResponse 1 2 (replicate 32 0) (replicate 16 0))).
  - vm_compute. repeat split; discriminate.
  - vm_compute. repeat split; discriminate.
  - unfold HANDSHAKE_RESP_SZ; lia.
Defined.

Lemma session_indices_cycle_witness :
  Forall (fun i => u32 i /\ i / 256 = next_index peer_a / 256) (session_indices peer_a 20) /\
  map (fun i => i mod 256) (session_indices peer_a 20)
    = map (fun k => (next_index peer_a + 1 + k) mod 256) (seqZ 0 (Z.of_nat 20)) /\
  ((20 <= 256)%nat -> NoDup (session_indices peer_a 20)).
Proof. apply (session_indices_cycle peer_a 20). unfold u32; cbn; lia. Defined.
