(* ===== verification/RateLimiter.v ===== *)
(** The rate limiter in front of the handshake,
    [boringtun/src/noise/rate_limiter.rs]: MAC checks, the per-period packet
    count, and the cookies that let a loaded endpoint ask a sender to prove its
    address. *)

From S2P Require Import Prelude Time Errors Crypto ToyCrypto Packet Session Handshake HandshakeFacts.

Definition COOKIE_REFRESH : Z := 128.
Definition COOKIE_SIZE : nat := 16.
Definition COOKIE_NONCE_SIZE : nat := 24.
Definition RESET_PERIOD : Z := 1.

(** The counters are [AtomicU64]s and [last_reset] sits behind a mutex, so the
    methods take [&self]; here each returns the limiter it leaves. *)
Record RateLimiter := mkRateLimiter {
  nonce_key : bytes;
  secret_key : bytes;
  start_time : Instant;
  nonce_ctr : Z;
  mac1_key : bytes;
  cookie_key : bytes;
  limit : Z;
  count : Z;
  last_reset : Instant
}.

Definition set_nonce_ctr (r : RateLimiter) n := mkRateLimiter (nonce_key r) (secret_key r)
  (start_time r) n (mac1_key r) (cookie_key r) (limit r) (count r) (last_reset r).
Definition set_count (r : RateLimiter) n := mkRateLimiter (nonce_key r) (secret_key r)
  (start_time r) (nonce_ctr r) (mac1_key r) (cookie_key r) (limit r) n (last_reset r).
Definition set_last_reset (r : RateLimiter) i := mkRateLimiter (nonce_key r) (secret_key r)
  (start_time r) (nonce_ctr r) (mac1_key r) (cookie_key r) (limit r) (count r) i.

Definition reset_count (r : RateLimiter) : M RateLimiter :=
  let* current_time := Instant_now in
  if RESET_PERIOD <=? as_secs (duration_since current_time (last_reset r))
  then mret (set_last_reset (set_count r 0) current_time)
  else mret r.

(** The packet is counted whether or not it is over the limit. *)
Definition is_under_load (r : RateLimiter) : RateLimiter * bool :=
  (set_count r (wadd 64 (count r) 1), limit r <=? count r).

(** The sixteen bytes an address is hashed as. *)
Definition addr_bytes (addr : IpAddr) : bytes :=
  match addr with
  | V4 a => a ++ replicate 12 0
  | V6 a => a
  end.

Section limiter.
Context {C : Crypto}.

Definition RateLimiter_new (public_key : bytes) (limit : Z) : M RateLimiter :=
  let* secret_key := rand_bytes 16 in
  let* nonce_key := rand_bytes 32 in
  let* start_time := Instant_now in
  let* last_reset := Instant_now in
  mret (mkRateLimiter nonce_key secret_key start_time 0
          (b2s_hash LABEL_MAC1 public_key) (b2s_hash LABEL_COOKIE public_key)
          limit 0 last_reset).

Definition current_cookie (r : RateLimiter) (addr : IpAddr) : M bytes :=
  let* now := Instant_now in
  let cur_counter := as_secs (duration_since now (start_time r)) / COOKIE_REFRESH in
  mret (b2s_keyed_mac_16_2 (secret_key r) (to_le_bytes 8 cur_counter) (addr_bytes addr)).

Definition nonce (r : RateLimiter) : RateLimiter * bytes :=
  (set_nonce_ctr r (wadd 64 (nonce_ctr r) 1), b2s_mac_24 (nonce_key r) (to_le_bytes 8 (nonce_ctr r))).

Definition format_cookie_reply (r : RateLimiter) (idx : Z) (cookie mac1 : bytes) (dst_len : nat)
  : RateLimiter * Result WireGuardError bytes :=
  if (dst_len <? COOKIE_REPLY_SZ)%nat then (r, Err DestinationBufferTooSmall)
  else
    let '(r, nonce) := nonce r in
    let '(ct, tag) := xchacha_encrypt (cookie_key r) nonce mac1 cookie in
    (r, Ok (packet_prefix (PPacketCookieReply (mkPacketCookieReply idx nonce (ct ++ tag))))).

(** The sender index of the messages that carry MACs. *)
Definition handshake_sender (p : Packet) : option Z :=
  match p with
  | PHandshakeInit h => Some (hi_sender_idx h)
  | PHandshakeResponse h => Some (hr_sender_idx h)
  | _ => None
  end.

Definition verify_packet (r : RateLimiter) (src_addr : option IpAddr) (src : bytes) (dst_len : nat)
  : M (RateLimiter * Result TunnResult Packet) :=
  match parse_incoming_packet src with
  | Err e => mret (r, Err (TErr e))
  | Ok packet =>
      match handshake_sender packet with
      | None => mret (r, Ok packet)
      | Some sender_idx =>
          let msg := take (length src - 32) src in
          let macs := drop (length src - 32) src in
          let mac1 := take 16 macs in
          let mac2 := drop 16 macs in
          let computed_mac1 := b2s_keyed_mac_16 (mac1_key r) msg in
          if negb (bytes_eqb (take 16 computed_mac1) mac1) then mret (r, Err (TErr InvalidMac))
          else
            let '(r, loaded) := is_under_load r in
            if loaded then
              match src_addr with
              | None => mret (r, Err (TErr UnderLoad))
              | Some addr =>
                  let* cookie := current_cookie r addr in
                  let computed_mac2 := b2s_keyed_mac_16_2 cookie msg mac1 in
                  if negb (bytes_eqb (take 16 computed_mac2) mac2) then
                    let '(r, reply) := format_cookie_reply r sender_idx cookie mac1 dst_len in
                    match reply with
                    | Err e => mret (r, Err (TErr e))
                    | Ok cookie_packet => mret (r, Err (WriteToNetwork cookie_packet))
                    end
                  else mret (r, Ok packet)
              end
            else mret (r, Ok packet)
      end
  end.
End limiter.

(** ** Specification *)

Section spec.
Context {C : Crypto}.

(** A handshake message whose first MAC was made for this endpoint. *)
Definition authentic (key : bytes) (src : bytes) : bool :=
  match parse_incoming_packet src with
  | Ok p =>
      match handshake_sender p with
      | Some _ => bytes_eqb (b2s_keyed_mac_16 key (take (length src - 32) src))
                    (take 16 (drop (length src - 32) src))
      | None => false
      end
  | Err _ => false
  end.

(** The cookie period an instant falls in, and the cookie of an address then. *)
Definition epoch (r : RateLimiter) (i : Instant) : Z :=
  as_secs (duration_since i (start_time r)) / COOKIE_REFRESH.

Definition cookie_at (r : RateLimiter) (addr : IpAddr) (e : Z) : bytes :=
  b2s_keyed_mac_16_2 (secret_key r) (to_le_bytes 8 e) (addr_bytes addr).

(** A datagram whose second MAC, its last sixteen bytes, was made with the cookie
    its source address has in period [e]: the sender has proved its address. *)
Definition proves_address (r : RateLimiter) (addr : option IpAddr) (src : bytes) (e : Z) : bool :=
  match addr with
  | None => false
  | Some a =>
      let msg := take (length src - 32) src in
      let macs := drop (length src - 32) src in
      bytes_eqb (b2s_keyed_mac_16_2 (cookie_at r a e) msg (take 16 macs)) (drop 16 macs)
  end.

(** What reaches the limiter: a datagram, with its source address if the caller
    knows it, or a reset. *)
Inductive event :=
| Verify (addr : option IpAddr) (src : bytes)
| Reset.

(** A datagram, the next reading of the clock when it arrived, and the answer. *)
Record Verdict := mkVerdict {
  v_addr : option IpAddr;
  v_src : bytes;
  v_at : Instant;
  v_result : Result TunnResult Packet
}.

(** The limiter over a trace, and its answers in order. *)
Fixpoint run_events (r : RateLimiter) (evs : list event) (dst_len : nat) : M (RateLimiter * list Verdict) :=
  match evs with
  | [] => mret (r, [])
  | Verify addr src :: evs' =>
      let* at_ := (fun w => Ret (w, w_clock w (w_ticks w))) in
      let* (r, res) := verify_packet r addr src dst_len in
      let* (r, vs) := run_events r evs' dst_len in
      mret (r, mkVerdict addr src at_ res :: vs)
  | Reset :: evs' =>
      let* r := reset_count r in
      run_events r evs' dst_len
  end.

(** A handshake message was let through. *)
Definition is_handshake (r : Result TunnResult Packet) : bool :=
  match r with
  | Ok p => bool_decide (is_Some (handshake_sender p))
  | Err _ => false
  end.

(** The handshake messages let through without a proof of the sender's address. *)
Definition unproven (r : RateLimiter) (v : Verdict) : bool :=
  is_handshake (v_result v) && negb (proves_address r (v_addr v) (v_src v) (epoch r (v_at v))).
Definition admitted (r : RateLimiter) (vs : list Verdict) : Z := Z.of_nat (length (List.filter (unproven r) vs)).
End spec.

(** ** Lemmas *)

Section facts.
Context {C : Crypto} {L : CryptoLaws C}.

Lemma take16_mac k m : take 16 (b2s_keyed_mac_16 k m) = b2s_keyed_mac_16 k m.
Proof. apply take_ge. by rewrite b2s_keyed_mac_16_len. Qed.

Lemma take16_mac2 k m n : take 16 (b2s_keyed_mac_16_2 k m n) = b2s_keyed_mac_16_2 k m n.
Proof. apply take_ge. by rewrite b2s_keyed_mac_16_2_len. Qed.

(** Without a source address the limiter is a pure function of its state. *)
Lemma verify_without_address r src d w :
  verify_packet r None src d w =
    Ret (w, match parse_incoming_packet src with
            | Err e => (r, Err (TErr e))
            | Ok p =>
                match handshake_sender p with
                | None => (r, Ok p)
                | Some _ =>
                    if authentic (mac1_key r) src then
                      (set_count r (wadd 64 (count r) 1),
                       if limit r <=? count r then Err (TErr UnderLoad) else Ok p)
                    else (r, Err (TErr InvalidMac))
                end
            end).
Proof.
  unfold verify_packet, authentic. destruct (parse_incoming_packet src) as [p|]; [|done].
  destruct (handshake_sender p); [|done]. rewrite take16_mac.
  destruct (bytes_eqb _ _); cbn; [|done]. by destruct (limit r <=? count r).
Qed.

Lemma reset_count_run r w :
  reset_count r w = Ret (advance w 1 0,
    if NANOSECOND <=? duration_since (w_clock w (w_ticks w)) (last_reset r)
    then set_last_reset (set_count r 0) (w_clock w (w_ticks w)) else r).
Proof.
  unfold reset_count, mbind, Instant_now, advance, as_secs, RESET_PERIOD.
  rewrite Nat.add_1_r, Nat.add_0_r. cbn [obind].
  destruct (Z.leb_spec 1 (duration_since (w_clock w (w_ticks w)) (last_reset r) / NANOSECOND)) as [H|H],
    (Z.leb_spec NANOSECOND (duration_since (w_clock w (w_ticks w)) (last_reset r)));
    try reflexivity; unfold NANOSECOND in *; dlia.
Qed.
End facts.

(** ** Properties *)

Section properties.
Context {C : Crypto} {L : CryptoLaws C}.

(** Admissions a limiter has left until time [t] (in nanoseconds). *)
Definition allowance (r : RateLimiter) (t : Z) : Z :=
  Z.max 0 (limit r - count r) + limit r * ((t - ns (last_reset r)) / NANOSECOND).

(** A reset that takes effect costs at least a second. *)
Lemma allowance_reset r i t :
  0 <= limit r -> 0 <= count r -> ns (last_reset r) + NANOSECOND <= ns i -> ns i <= t ->
  allowance (set_last_reset (set_count r 0) i) t <= allowance r t.
Proof.
  unfold allowance. cbn. intros Hl Hc Hi Ht.
  assert ((t - ns i) / NANOSECOND + 1 <= (t - ns (last_reset r)) / NANOSECOND) as Hd.
  { unfold NANOSECOND in *. dlia. }
  rewrite Z.sub_0_r, Z.max_r by done.
  apply (Z.mul_le_mono_nonneg_l _ _ (limit r)) in Hd; [|done]. lia.
Qed.

(** Limiters of one endpoint, whose cookies are the same. *)
Definition same_cookies (r r' : RateLimiter) : Prop := secret_key r' = secret_key r /\ start_time r' = start_time r.

Lemma unproven_same r r' v : same_cookies r r' -> unproven r' v = unproven r v.
Proof. intros [E1 E2]. unfold unproven, proves_address, cookie_at, epoch. by rewrite E1, E2. Qed.

Lemma admitted_same r r' vs : same_cookies r r' -> admitted r' vs = admitted r vs.
Proof.
  intros Hs. unfold admitted. do 2 f_equal. apply List.filter_ext. intros v. by apply unproven_same.
Qed.

Lemma format_cookie_reply_keeps r0 idx cookie mac1 d r' reply :
  format_cookie_reply r0 idx cookie mac1 d = (r', reply) ->
  same_cookies r0 r' /\ mac1_key r' = mac1_key r0 /\ last_reset r' = last_reset r0 /\ limit r' = limit r0 /\
  count r' = count r0.
Proof.
  unfold format_cookie_reply. cbn [nonce]. intros E. repeat case_hyp E; by simplify_eq.
Qed.

(** A datagram either leaves the count alone and is no handshake message let
    through, or is counted, and then let through only below the limit or with
    the cookie of its source address. *)
Lemma verify_effect r addr src d w :
  0 <= count r -> count r + 1 < 2 ^ 64 ->
  exists w1 r1 res, verify_packet r addr src d w = Ret (w1, (r1, res)) /\
    w_clock w1 = w_clock w /\ (w_ticks w1 <= w_ticks w + 1)%nat /\
    same_cookies r r1 /\ last_reset r1 = last_reset r /\ limit r1 = limit r /\
    (count r1 = count r /\ is_handshake res = false \/
     count r1 = count r + 1 /\
     (is_handshake res = true -> count r < limit r \/ proves_address r addr src (epoch r (w_clock w (w_ticks w))) = true)).
Proof.
  intros Hc Hmax. unfold verify_packet.
  destruct (parse_incoming_packet src) as [p|]; [|do 3 eexists; split; [done|]; split_and!; (done || lia || by left)].
  destruct (handshake_sender p) as [idx|] eqn:Hs.
  2: { do 3 eexists. split; [done|]. split_and!; try (done || lia). left. cbn. by rewrite Hs. }
  rewrite take16_mac. destruct (bytes_eqb _ (take 16 _)); cbn [negb];
    [|do 3 eexists; split; [done|]; split_and!; (done || lia || by left)].
  assert (wadd 64 (count r) 1 = count r + 1) as Hw by (apply wrap_small; lia).
  unfold is_under_load. rewrite Hw. destruct (Z.leb_spec (limit r) (count r)) as [Hl|Hl].
  2: { do 3 eexists. split; [done|]. split_and!; try (done || lia). right. split; [done|]. by left. }
  destruct addr as [a|]; [|do 3 eexists; split; [done|]; split_and!; try (done || lia); by right].
  unfold mbind, current_cookie. cbn [Instant_now mbind obind mret]. rewrite take16_mac2.
  change (b2s_keyed_mac_16_2 (secret_key _) _ _) with (cookie_at r a (epoch r (w_clock w (w_ticks w)))).
  destruct (bytes_eqb _ (drop 16 _)) eqn:Em2; cbn [negb].
  - do 3 eexists. split; [done|]. split_and!; try (done || (cbn; lia)). right. split; [done|].
    intros _. right. exact Em2.
  - destruct (format_cookie_reply _ _ _ _ _) as [r2 reply] eqn:Ef.
    apply format_cookie_reply_keeps in Ef as (Hsame & _ & Hr & Hlim & Hcnt). cbn in Hr, Hlim, Hcnt.
    destruct reply; do 3 eexists; (split; [done|]); split_and!; try (done || (cbn; lia)); by right.
Qed.

(** C28: the admission rate is bounded. Over any sequence of datagrams, with or
    without source addresses, and of resets, running the limiter never fails and
    answers every datagram. The handshake messages it lets through without a
    proof of the sender's address (a second MAC made with the cookie that address
    has at that moment) are at most what is left of the current period plus
    [limit] for every whole second that passes from the last reset to the end
    of the run; only senders that prove their address pass beyond that. *)
Theorem admission_rate_bounded r evs d w t :
  clock_ok (w_clock w) -> instant_ok (last_reset r) ->
  0 <= limit r -> 0 <= count r -> count r + Z.of_nat (length evs) < 2 ^ 64 ->
  ns (last_reset r) <= t ->
  (forall i, (i < w_ticks w + length evs)%nat -> ns (w_clock w i) <= t) ->
  exists w' r' vs, run_events r evs d w = Ret (w', (r', vs)) /\
    map (fun v => Verify (v_addr v) (v_src v)) vs =
      List.filter (fun e => match e with Verify _ _ => true | Reset => false end) evs /\
    admitted r vs <= allowance r t.
Proof.
  revert r w. induction evs as [|[addr src|] evs IH]; intros r w Hck Hlr Hl Hc Hmax Hrt Ht;
    cbn [run_events length List.filter] in *.
  - do 3 eexists. split; [done|]. split; [done|]. unfold allowance, NANOSECOND, admitted.
    assert (0 <= (t - ns (last_reset r)) / 1000000000) by dlia. cbn. nia.
  - destruct (verify_effect r addr src d w) as (w1 & r1 & res & E1 & Hw1 & Ht1 & Hsame & E2 & E3 & E4); [lia..|].
    destruct (IH r1 w1) as (w' & r' & vs & E & Hvs & Hn); rewrite ?E2, ?E3, ?Hw1; try done; [lia..| |].
    { intros. apply Ht. lia. }
    exists w', r'. eexists. unfold mbind. cbn [obind]. rewrite E1. cbn [obind]. rewrite E. split; [done|].
    split; [cbn; by rewrite Hvs|]. rewrite (admitted_same r r1 vs Hsame) in Hn.
    unfold allowance in *. rewrite E2, E3 in Hn. unfold admitted in *. cbn [List.filter].
    destruct (unproven r _) eqn:Eu; cbn [length].
    + unfold unproven in Eu. cbn [v_result v_addr v_src v_at] in Eu. apply andb_prop in Eu as [Eh Ep].
      destruct E4 as [[_ E4]|[E4 Hlt]]; [by rewrite E4 in Eh|].
      destruct (Hlt Eh) as [Hlt'|Hp]; [|by rewrite Hp in Ep]. rewrite E4 in Hn. lia.
    + destruct E4 as [[E4 _]|[E4 _]]; rewrite E4 in Hn; lia.
  - unfold mbind. rewrite reset_count_run. cbn [obind].
    pose proof (Ht (w_ticks w) ltac:(lia)) as Hnow.
    rewrite duration_since_ns by (done || apply Hck).
    destruct (Z.leb_spec NANOSECOND (Z.max 0 (ns (w_clock w (w_ticks w)) - ns (last_reset r)))) as [Hd|Hd].
    + destruct (IH (set_last_reset (set_count r 0) (w_clock w (w_ticks w))) (advance w 1 0))
        as (w' & r' & vs & E & Hvs & Hn); cbn; try done; [apply Hck|lia| |].
      { intros. apply Ht. lia. }
      do 3 eexists. split; [exact E|]. split; [exact Hvs|].
      rewrite (admitted_same r (set_last_reset (set_count r 0) (w_clock w (w_ticks w))) vs) in Hn by done.
      pose proof (allowance_reset r (w_clock w (w_ticks w)) t Hl Hc).
      unfold NANOSECOND in *. lia.
    + apply (IH r (advance w 1 0)); cbn; try done; [lia|]. intros. apply Ht. lia.
Qed.

(** The MACs sit in the last 32 bytes. *)
Lemma split_macs (msg mac1 mac2 : bytes) :
  length mac1 = 16%nat -> length mac2 = 16%nat ->
  let src := msg ++ mac1 ++ mac2 in
  take (length src - 32) src = msg /\ drop (length src - 32) src = mac1 ++ mac2.
Proof.
  intros H1 H2. cbn. rewrite !length_app, H1, H2.
  replace (length msg + (16 + 16) - 32)%nat with (length msg) by lia.
  by rewrite take_app_length, drop_app_length.
Qed.

(** A loaded limiter facing an initiation with a good first MAC. *)
Lemma verify_loaded r addr h (mac2 : bytes) d w :
  let msg := packet_prefix (PHandshakeInit h) in
  let mac1 := b2s_keyed_mac_16 (mac1_key r) msg in
  let cookie := cookie_at r addr (epoch r (w_clock w (w_ticks w))) in
  packet_ok (PHandshakeInit h) -> length mac2 = 16%nat -> limit r <= count r ->
  verify_packet r (Some addr) (msg ++ mac1 ++ mac2) d w =
    let r := set_count r (wadd 64 (count r) 1) in
    if bytes_eqb (b2s_keyed_mac_16_2 cookie msg mac1) mac2
    then Ret (advance w 1 0, (r, Ok (PHandshakeInit h)))
    else let '(r, reply) := format_cookie_reply r (hi_sender_idx h) cookie mac1 d in
         Ret (advance w 1 0, (r, Err (match reply with Ok b => WriteToNetwork b | Err e => TErr e end))).
Proof.
  intros msg mac1 cookie Hp H2 Hl.
  assert (length mac1 = 16%nat) as H1 by apply b2s_keyed_mac_16_len.
  destruct (split_macs msg mac1 mac2 H1 H2) as [E1 E2]. unfold verify_packet.
  rewrite E1, E2, take_app_length', drop_app_length' by done.
  unfold msg at 1. rewrite (parse_serialize (PHandshakeInit h) (mac1 ++ mac2)) by
    (done || (rewrite length_app, H1, H2; done)).
  cbn [handshake_sender]. rewrite take16_mac. fold mac1. rewrite bytes_eqb_refl. cbn [negb is_under_load].
  rewrite (proj2 (Z.leb_le _ _) Hl). unfold mbind, current_cookie. cbn [obind Instant_now mbind mret].
  rewrite take16_mac2. unfold advance. rewrite Nat.add_1_r, Nat.add_0_r.
  change (b2s_keyed_mac_16_2 (secret_key (set_count r (wadd 64 (count r) 1))) _ _) with cookie.
  destruct (bytes_eqb _ mac2); [done|]. cbn [negb].
  by destruct (format_cookie_reply _ _ _ _ _) as [r1 [?|?]].
Qed.

(** A good second MAC is let through, loaded or not. *)
Lemma verify_with_cookie r addr h d w :
  let msg := packet_prefix (PHandshakeInit h) in
  let mac1 := b2s_keyed_mac_16 (mac1_key r) msg in
  let cookie := cookie_at r addr (epoch r (w_clock w (w_ticks w))) in
  packet_ok (PHandshakeInit h) ->
  exists w' r', verify_packet r (Some addr) (msg ++ mac1 ++ b2s_keyed_mac_16_2 cookie msg mac1) d w
    = Ret (w', (r', Ok (PHandshakeInit h))).
Proof.
  intros msg mac1 cookie Hp.
  assert (length (b2s_keyed_mac_16_2 cookie msg mac1) = 16%nat) as H2
    by apply b2s_keyed_mac_16_2_len.
  destruct (Z.leb_spec (limit r) (count r)) as [Hl|Hl].
  - pose proof (verify_loaded r addr h _ d w Hp H2 Hl) as Hv. cbn zeta in Hv.
    fold msg mac1 cookie in Hv. rewrite Hv, bytes_eqb_refl. eauto.
  - assert (length mac1 = 16%nat) as H1 by apply b2s_keyed_mac_16_len.
    destruct (split_macs msg mac1 _ H1 H2) as [E1 E2]. unfold verify_packet.
    rewrite E1, E2, take_app_length' by done. unfold msg at 1.
    rewrite (parse_serialize (PHandshakeInit h)) by (done || (rewrite length_app, H1, H2; done)).
    cbn [handshake_sender]. rewrite take16_mac. fold mac1.
    rewrite bytes_eqb_refl. cbn [negb is_under_load].
    rewrite (proj2 (Z.leb_gt _ _) Hl). unfold mret. eauto.
Qed.

(** The sender reads the cookie out of the reply to its own message. *)
Lemma cookie_reply_opens r a idx cookie mac1 d :
  cookie_key r = b2s_hash LABEL_COOKIE (peer_static_public (params a)) ->
  last_mac1 (cookies a) = Some mac1 -> ck_index (cookies a) = idx -> u32 idx ->
  length mac1 = 16%nat -> length cookie = 16%nat -> (COOKIE_REPLY_SZ <= d)%nat ->
  exists r' reply c a', format_cookie_reply r idx cookie mac1 d = (r', Ok reply) /\
    parse_incoming_packet reply = Ok (PPacketCookieReply c) /\
    receive_cookie_reply a c = (a', Ok tt) /\
    a' = set_cookies a (mkCookies (Some mac1) idx (Some cookie)).
Proof.
  intros Hk Hm Hi Hu H1 Hc Hd. unfold format_cookie_reply.
  rewrite (proj2 (Nat.ltb_ge _ _) Hd). cbn [nonce cookie_key set_nonce_ctr].
  set (n := b2s_mac_24 (nonce_key r) (to_le_bytes 8 (nonce_ctr r))).
  pose proof (aead_ct_len _ _ xchacha_laws (cookie_key r) n mac1 cookie) as Hct.
  pose proof (aead_tag_len _ _ xchacha_laws (cookie_key r) n mac1 cookie) as Htag.
  pose proof (aead_open _ _ xchacha_laws (cookie_key r) n mac1 cookie) as Ho.
  destruct (xchacha_encrypt (cookie_key r) n mac1 cookie) as [ct tag]. cbn [fst snd] in *.
  assert (length (ct ++ tag) = 32%nat) as Hlen by (rewrite length_app; lia).
  do 4 eexists. split; [done|]. split.
  { rewrite <- (app_nil_r (packet_prefix _)). apply parse_serialize; [|done].
    split_and!; [done|apply b2s_mac_24_len|done]. }
  unfold receive_cookie_reply.
  rewrite Hm, Hi. cbn [pc_receiver_idx pc_nonce pc_encrypted_cookie]. rewrite Z.eqb_refl, Hlen.
  cbn [negb Nat.ltb Nat.leb Nat.sub]. rewrite take_app_length', drop_app_length' by lia.
  rewrite <- Hk, (take_ge mac1) by lia. rewrite Ho, Hc. done.
Qed.

(** What an initiation looks like on the wire, with the cookie in use. *)
Lemma initiation_wire a d w :
  (148 <= d)%nat ->
  let msg := packet_prefix (PHandshakeInit (initiation a w)) in
  let mac1 := b2s_keyed_mac_16 (sending_mac1_key (params a)) msg in
  exists a', format_handshake_initiation a d w = Ret (advance w 2 1, (a', Ok (msg ++ mac1 ++
      match write_cookie (cookies a) with
      | Some cookie => b2s_keyed_mac_16_2 cookie msg mac1
      | None => replicate 16 0
      end))) /\
    cookies a' = mkCookies (Some mac1) (snd (inc_index a)) (write_cookie (cookies a)) /\
    params a' = params a /\ next_index a' = snd (inc_index a).
Proof.
  intros Hd msg mac1. rewrite format_initiation_eq by done. unfold append_mac1_and_mac2.
  fold msg. cbn [params cookies initiated set_state set_previous inc_index fst set_next_index].
  eexists. split; [reflexivity|]. done.
Qed.

(** A sender that holds the cookie of the current period is let through. *)
Lemma cookie_holder_admitted a r addr d w d' wv :
  params_ok (params a) -> u32 (next_index a) -> mac1_key r = sending_mac1_key (params a) ->
  write_cookie (cookies a) = Some (cookie_at r addr (epoch r (w_clock wv (w_ticks wv)))) ->
  (148 <= d)%nat ->
  exists w' a' init w'' r' h, format_handshake_initiation a d w = Ret (w', (a', Ok init)) /\
    verify_packet r (Some addr) init d' wv = Ret (w'', (r', Ok (PHandshakeInit h))).
Proof.
  intros Hp Hu Hm Hc Hd. destruct (initiation_wire a d w Hd) as (a' & E & _). cbn zeta in E.
  rewrite Hc, <- Hm in E.
  destruct (verify_with_cookie r addr (initiation a w) d' wv (initiation_ok a w Hp Hu)) as (w'' & r' & E').
  do 6 eexists. split; [exact E|exact E'].
Qed.

(** C29: a cookie gets a sender back in. A loaded endpoint either lets an
    initiation through or answers with a cookie reply that the sender accepts,
    and from then on the sender's initiations pass the endpoint's check from
    the same address, however loaded it is, until the cookie period ends. *)
Theorem cookie_admits_sender a r addr da wa d wv :
  params_ok (params a) -> u32 (next_index a) ->
  mac1_key r = sending_mac1_key (params a) ->
  cookie_key r = b2s_hash LABEL_COOKIE (peer_static_public (params a)) ->
  limit r <= count r ->
  (HANDSHAKE_INIT_SZ <= da)%nat -> (COOKIE_REPLY_SZ <= d)%nat ->
  exists a1 init,
    format_handshake_initiation a da wa = Ret (advance wa 2 1, (a1, Ok init)) /\
    ((exists w' r' h, verify_packet r (Some addr) init d wv = Ret (w', (r', Ok (PHandshakeInit h)))) \/
     exists w' r' reply c a2,
       verify_packet r (Some addr) init d wv = Ret (w', (r', Err (WriteToNetwork reply))) /\
       parse_incoming_packet reply = Ok (PPacketCookieReply c) /\
       receive_cookie_reply a1 c = (a2, Ok tt) /\
       forall n da' wa' d' wv',
         (HANDSHAKE_INIT_SZ <= da')%nat ->
         epoch r (w_clock wv' (w_ticks wv')) = epoch r (w_clock wv (w_ticks wv)) ->
         exists wa'' a3 init' w'' r'' h,
           format_handshake_initiation a2 da' wa' = Ret (wa'', (a3, Ok init')) /\
           verify_packet (set_count r' n) (Some addr) init' d' wv'
             = Ret (w'', (r'', Ok (PHandshakeInit h)))).
Proof.
  intros Hp Hu Hm1 Hck Hl Hda Hd. unfold HANDSHAKE_INIT_SZ in *.
  destruct (initiation_wire a da wa Hda) as (a1 & E1 & Hc1 & Hp1 & Hn1). cbn zeta in *.
  pose proof (initiation_ok a wa Hp Hu) as Hok.
  rewrite <- Hm1 in *. set (msg := packet_prefix _) in *. set (mac1 := b2s_keyed_mac_16 _ _) in *.
  set (mac2 := match write_cookie (cookies a) with Some _ => _ | None => _ end) in *.
  assert (length mac2 = 16%nat) as Hm2.
  { unfold mac2. case_match; [apply b2s_keyed_mac_16_2_len|done]. }
  do 2 eexists. split; [exact E1|].
  pose proof (verify_loaded r addr (initiation a wa) mac2 d wv Hok Hm2 Hl) as Hv.
  cbn zeta in Hv. fold msg mac1 in Hv. rewrite Hv. clear Hv.
  set (cookie := cookie_at _ _ _) in *.
  destruct (bytes_eqb _ mac2); [left; eauto|right].
  destruct (cookie_reply_opens (set_count r (wadd 64 (count r) 1)) a1 (snd (inc_index a)) cookie mac1 d)
    as (r' & reply & c & a2 & E2 & E3 & E4 & E5); rewrite ?Hp1, ?Hc1; try done;
    [by apply inc_index_u32|apply b2s_keyed_mac_16_len|apply b2s_keyed_mac_16_2_len|].
  change (hi_sender_idx (initiation a wa)) with (snd (inc_index a)). rewrite E2.
  do 5 eexists. split; [done|]. split; [done|]. split; [done|].
  intros n da' wa' d' wv' Hda' He. subst a2.
  set (a2 := set_cookies _ _) in *.
  assert (secret_key r' = secret_key r /\ start_time r' = start_time r /\ mac1_key r' = mac1_key r)
    as (Hk1 & Hk2 & Hk3) by (apply format_cookie_reply_keeps in E2 as ([? ?] & ? & _); done).
  apply cookie_holder_admitted; try done; cbn;
    [by rewrite Hp1|rewrite Hn1; by apply inc_index_u32|by rewrite Hk3, Hp1|].
  f_equal. unfold cookie, cookie_at, epoch in *. cbn. by rewrite Hk1, Hk2, He.
Qed.
End properties.

(** ** Witnesses *)

Lemma demo_clock_ok : clock_ok (w_clock demo_world).
Proof. constructor; cbn; unfold instant_ok, ns, NANOSECOND; cbn; intros; lia. Qed.

Definition demo_limiter : RateLimiter :=
  mkRateLimiter (replicate 32 3) (replicate 16 4) (mkInstant 0 0) 0
    (b2s_hash LABEL_MAC1 (x25519_public secret_b)) (b2s_hash LABEL_COOKIE (x25519_public secret_b))
    2 0 (mkInstant 0 0).

(** An initiation for this endpoint, offered four times: twice without an
    address, twice with one; then a second passes. *)
Definition demo_init : bytes :=
  match format_handshake_initiation peer_a 148 demo_world with Ret (_, (_, Ok m)) => m | _ => [] end.
Definition demo_addr : IpAddr := V4 [10; 0; 0; 1].
Definition demo_events : list event :=
  [Verify None demo_init; Verify None demo_init; Verify (Some demo_addr) demo_init; Verify None demo_init; Reset;
   Verify None [1; 2; 3]].

(** Two are let through, the third is asked for a cookie, the fourth refused. *)
Example demo_verdicts :
  match run_events demo_limiter demo_events 64 demo_world with
  | Ret (_, (_, [a; b; c; d; _])) =>
      is_handshake (v_result a) && is_handshake (v_result b) &&
      match v_result c, v_result d with
      | Err (WriteToNetwork _), Err (TErr UnderLoad) => true
      | _, _ => false
      end
  | _ => false
  end = true.
Proof. vm_compute. reflexivity. Qed.

Lemma admission_rate_bounded_witness :
  exists w' r' vs, run_events demo_limiter demo_events 64 demo_world = Ret (w', (r', vs)) /\
    map (fun v => Verify (v_addr v) (v_src v)) vs =
      [Verify None demo_init; Verify None demo_init; Verify (Some demo_addr) demo_init; Verify None demo_init;
       Verify None [1; 2; 3]] /\
    admitted demo_limiter vs <= allowance demo_limiter (from_secs 6).
Proof.
  apply (admission_rate_bounded demo_limiter demo_events 64 demo_world (from_secs 6)).
  - apply demo_clock_ok.
  - vm_compute. by split.
  - cbn; lia.
  - cbn; lia.
  - cbn; lia.
  - vm_compute. discriminate.
  - intros i Hi. cbn in *. unfold ns, from_secs, NANOSECOND. cbn. lia.
Defined.

Lemma cookie_admits_sender_witness :
  exists a1 init,
    format_handshake_initiation peer_a 148 demo_world = Ret (advance demo_world 2 1, (a1, Ok init)) /\
    ((exists w' r' h, verify_packet (set_count demo_limiter 2) (Some (V4 [10; 0; 0; 1])) init 64 demo_world
        = Ret (w', (r', Ok (PHandshakeInit h)))) \/
     exists w' r' reply c a2,
       verify_packet (set_count demo_limiter 2) (Some (V4 [10; 0; 0; 1])) init 64 demo_world
         = Ret (w', (r', Err (WriteToNetwork reply))) /\
       parse_incoming_packet reply = Ok (PPacketCookieReply c) /\
       receive_cookie_reply a1 c = (a2, Ok tt) /\
       forall n da' wa' d' wv',
         (HANDSHAKE_INIT_SZ <= da')%nat ->
         epoch (set_count demo_limiter 2) (w_clock wv' (w_ticks wv'))
           = epoch (set_count demo_limiter 2) (w_clock demo_world (w_ticks demo_world)) ->
         exists wa'' a3 init' w'' r'' h,
           format_handshake_initiation a2 da' wa' = Ret (wa'', (a3, Ok init')) /\
           verify_packet (set_count r' n) (Some (V4 [10; 0; 0; 1])) init' d' wv'
             = Ret (w'', (r'', Ok (PHandshakeInit h)))).
Proof.
  apply (cookie_admits_sender peer_a (set_count demo_limiter 2)).
  - apply demo_peers.
  - unfold u32; cbn; lia.
  - reflexivity.
  - reflexivity.
  - cbn; lia.
  - unfold HANDSHAKE_INIT_SZ; lia.
  - unfold COOKIE_REPLY_SZ; lia.
Defined.
