(* ===== verification/Timers.v ===== *)
(** The timers of a tunnel, [Timers] of [boringtun/src/noise/timers.rs]: when
    things last happened, in time since the tunnel was started. *)

From S2P Require Import Prelude Time.

Definition REKEY_AFTER_TIME : Duration := from_secs 120.
Definition REJECT_AFTER_TIME : Duration := from_secs 180.
Definition REKEY_ATTEMPT_TIME : Duration := from_secs 90.
Definition REKEY_TIMEOUT : Duration := from_secs 5.
Definition KEEPALIVE_TIMEOUT : Duration := from_secs 10.
Definition COOKIE_EXPIRATION_TIME : Duration := from_secs 120.

Definition N_SESSIONS : nat := 8.

Inductive TimerName : Type :=
| TimeCurrent
| TimeSessionEstablished
| TimeLastHandshakeStarted
| TimeLastPacketReceived
| TimeLastPacketSent
| TimeLastDataPacketReceived
| TimeLastDataPacketSent
| TimeCookieReceived
| TimePersistentKeepalive
| Top.

#[export] Instance TimerName_eq_dec : EqDecision TimerName.
Proof. solve_decision. Defined.

(** [timer_name as usize]. *)
Definition timer_index (n : TimerName) : nat :=
  match n with
  | TimeCurrent => 0
  | TimeSessionEstablished => 1
  | TimeLastHandshakeStarted => 2
  | TimeLastPacketReceived => 3
  | TimeLastPacketSent => 4
  | TimeLastDataPacketReceived => 5
  | TimeLastDataPacketSent => 6
  | TimeCookieReceived => 7
  | TimePersistentKeepalive => 8
  | Top => 9
  end.

Record Timers := mkTimers {
  t_is_initiator : bool;
  time_started : Instant;
  t_timers : list Duration;
  session_timers : list Duration;
  want_keepalive : bool;
  want_handshake : bool;
  t_persistent_keepalive : Z;
  should_reset_rr : bool
}.

Definition set_t_timers (t : Timers) x := mkTimers (t_is_initiator t) (time_started t) x
  (session_timers t) (want_keepalive t) (want_handshake t) (t_persistent_keepalive t)
  (should_reset_rr t).
Definition set_session_timers (t : Timers) x := mkTimers (t_is_initiator t) (time_started t)
  (t_timers t) x (want_keepalive t) (want_handshake t) (t_persistent_keepalive t)
  (should_reset_rr t).
Definition set_wants (t : Timers) keepalive handshake := mkTimers (t_is_initiator t)
  (time_started t) (t_timers t) (session_timers t) keepalive handshake
  (t_persistent_keepalive t) (should_reset_rr t).
Definition set_is_initiator (t : Timers) b := mkTimers b (time_started t) (t_timers t)
  (session_timers t) (want_keepalive t) (want_handshake t) (t_persistent_keepalive t)
  (should_reset_rr t).
Definition set_should_reset_rr (t : Timers) b := mkTimers (t_is_initiator t) (time_started t)
  (t_timers t) (session_timers t) (want_keepalive t) (want_handshake t)
  (t_persistent_keepalive t) b.

Definition Timers_new (persistent_keepalive : option Z) (reset_rr : bool) : M Timers :=
  let* now := Instant_now in
  mret (mkTimers false now (replicate (timer_index Top) 0) (replicate N_SESSIONS 0) false false
          (default 0 persistent_keepalive) reset_rr).

Definition is_initiator (t : Timers) : bool := t_is_initiator t.

(** Every timer is set to the present, the session timers are left alone. *)
Definition Timers_clear (t : Timers) : M Timers :=
  let* i := Instant_now in
  let now := duration_since i (time_started t) in
  mret (set_wants (set_t_timers t (map (fun _ => now) (t_timers t))) false false).

(** [self.timers[name]] and its assignment; only names below [Top] occur. *)
Definition timer_get (t : Timers) (n : TimerName) : Duration := default 0 (t_timers t !! timer_index n).

Definition timer_set (t : Timers) (n : TimerName) (d : Duration) : Timers :=
  set_t_timers t (<[timer_index n := d]> (t_timers t)).

Definition timer_tick (t : Timers) (n : TimerName) : Timers :=
  let t :=
    match n with
    | TimeLastPacketReceived => set_wants t true false
    | TimeLastPacketSent => set_wants t false true
    | _ => t
    end in
  timer_set t n (timer_get t TimeCurrent).

(** The slot of a session id in the ring. *)
Definition slot (idx : Z) : nat := Z.to_nat (idx mod Z.of_nat N_SESSIONS).

Definition timer_tick_session_established (t : Timers) (initiator : bool) (session_idx : Z)
  : Timers :=
  let t := timer_tick t TimeSessionEstablished in
  let t := set_session_timers t
    (<[slot session_idx := timer_get t TimeCurrent]> (session_timers t)) in
  set_is_initiator t initiator.

(** ** Invariant *)

(** The arrays have their sizes, no timer is ahead of [now] (in time since the
    start of the tunnel), and no session is newer than the last timer pass, so
    that a session just established counts as the newest. *)
Record timers_ok (t : Timers) (now : Duration) : Prop := {
  to_len : length (t_timers t) = timer_index Top;
  to_slots : length (session_timers t) = N_SESSIONS;
  to_past : Forall (fun d => 0 <= d <= now) (t_timers t);
  to_session_past : Forall (fun d => 0 <= d <= now) (session_timers t);
  to_session_current : Forall (fun d => d <= timer_get t TimeCurrent) (session_timers t);
  to_started : instant_ok (time_started t)
}.

Lemma timer_get_past t now n : timers_ok t now -> 0 <= now -> 0 <= timer_get t n <= now.
Proof.
  intros Hok ?. unfold timer_get. destruct (t_timers t !! timer_index n) eqn:E; cbn; [|lia].
  by eapply (Forall_lookup_1 _ _ _ _ (to_past _ _ Hok)).
Qed.

Lemma timers_ok_le t now now' : timers_ok t now -> now <= now' -> timers_ok t now'.
Proof.
  intros [? ? H1 H2 ? ?] ?. constructor; try done; (eapply Forall_impl; [exact H1 || exact H2|]); cbn; intros; lia.
Qed.

Lemma timers_ok_wants t now a b : timers_ok t now -> timers_ok (set_wants t a b) now.
Proof. by intros [? ? ? ? ? ?]. Qed.

(** Reading back a timer after a tick of another. *)
Lemma timer_get_set t n m d :
  length (t_timers t) = timer_index Top -> n <> Top -> m <> Top ->
  timer_get (timer_set t n d) m = if decide (n = m) then d else timer_get t m.
Proof.
  intros Hl Hn Hm. unfold timer_get, timer_set; cbn.
  case_decide as E.
  - subst. rewrite list_lookup_insert_eq; [done|].
    unfold Duration in *. rewrite Hl. destruct m; cbn; (lia || congruence).
  - rewrite list_lookup_insert_ne; [done|]. destruct n, m; cbn; congruence.
Qed.

Lemma timers_ok_set t now n d :
  timers_ok t now -> 0 <= d <= now -> timer_get t TimeCurrent <= timer_get (timer_set t n d) TimeCurrent ->
  timers_ok (timer_set t n d) now.
Proof.
  intros [? ? ? ? Hc ?] ? Hle. constructor; cbn; rewrite ?length_insert; auto using Forall_insert.
  eapply Forall_impl; [exact Hc|]. intros x Hx. cbn in Hx. lia.
Qed.

Lemma timers_ok_tick t now n : timers_ok t now -> 0 <= now -> timers_ok (timer_tick t n) now.
Proof.
  intros Hok ?. unfold timer_tick.
  match goal with |- context [timer_set ?x n _] => set (t1 := x) end.
  assert (timers_ok t1 now) as Hok1 by (subst t1; destruct n; try done; by apply timers_ok_wants).
  apply timers_ok_set; [done|by apply timer_get_past|].
  unfold timer_get at 2, timer_set. cbn. destruct (decide (timer_index n = 0%nat)) as [->|Hne].
  - rewrite list_lookup_insert_eq; [done|]. pose proof (to_len _ _ Hok1) as Hl. unfold Duration in *. rewrite Hl. cbn. lia.
  - rewrite list_lookup_insert_ne by done. done.
Qed.

Lemma timer_tick_current t n :
  length (t_timers t) = timer_index Top -> timer_get (timer_tick t n) TimeCurrent = timer_get t TimeCurrent.
Proof.
  intros Hl. unfold timer_tick.
  match goal with |- context [timer_set ?x n _] => set (t1 := x) end.
  assert (t_timers t1 = t_timers t) as E by (by subst t1; destruct n).
  unfold timer_get, timer_set. cbn. rewrite E. destruct (decide (timer_index n = 0%nat)) as [->|Hne].
  - rewrite list_lookup_insert_eq; [done|]. unfold Duration in *. rewrite Hl. cbn. lia.
  - by rewrite list_lookup_insert_ne.
Qed.

Lemma timers_ok_established t now b i :
  timers_ok t now -> 0 <= now -> timers_ok (timer_tick_session_established t b i) now.
Proof.
  intros Hok ?. unfold timer_tick_session_established.
  pose proof (timers_ok_tick t now TimeSessionEstablished Hok ltac:(done)) as Hok'.
  pose proof (timer_get_past _ _ TimeCurrent Hok' ltac:(done)).
  destruct Hok' as [H1 H2 H3 H4 H5 H6].
  constructor; cbn [set_is_initiator set_session_timers t_timers session_timers time_started];
    rewrite ?length_insert; auto using Forall_insert. apply Forall_insert; [exact H5|reflexivity].
Qed.

Lemma tick_sessions t n : session_timers (timer_tick t n) = session_timers t.
Proof. by destruct n. Qed.

(** A session just established is not older than any other. *)
Lemma established_newest t b i k :
  length (t_timers t) = timer_index Top -> length (session_timers t) = N_SESSIONS ->
  Forall (fun d => d <= timer_get t TimeCurrent) (session_timers t) -> (k < N_SESSIONS)%nat ->
  default 0 (session_timers (timer_tick_session_established t b i) !! k) <=
    default 0 (session_timers (timer_tick_session_established t b i) !! slot i).
Proof.
  intros Ht Hl Hc Hk. assert (slot i < N_SESSIONS)%nat as Hi.
  { unfold slot, N_SESSIONS. pose proof (Z.mod_pos_bound i 8). lia. }
  cbn. change (timer_get _ TimeCurrent) with (timer_get (timer_tick t TimeSessionEstablished) TimeCurrent).
  rewrite timer_tick_current by done. unfold Duration in *. rewrite (list_lookup_insert_eq _ (slot i)) by (by rewrite Hl).
  destruct (decide (slot i = k)) as [<-|Hne]; [by rewrite list_lookup_insert_eq by (by rewrite Hl)|].
  rewrite list_lookup_insert_ne by done.
  destruct (lookup_lt_is_Some_2 (session_timers t) k) as [x Hx]; [unfold Duration in *; lia|]. unfold Duration in Hx. rewrite Hx.
  by apply (Forall_lookup_1 _ _ _ _ Hc Hx).
Qed.

Lemma time_started_tick t n : time_started (timer_tick t n) = time_started t.
Proof. by destruct n. Qed.
