(* ===== verification/Tunn.v ===== *)
(** The tunnel, [Tunn] of [boringtun/src/noise/mod.rs] and the timer-driven
    half of it in [boringtun/src/noise/timers.rs]: eight sessions in a ring, a
    queue of packets that wait for a session, the handshake, the timers and the
    rate limiter. *)

From S2P Require Import Prelude Time Errors Crypto Packet Session Handshake RateLimiter Timers.

Definition PEER_HANDSHAKE_RATE_LIMIT : Z := 10.
Definition MAX_QUEUE_DEPTH : nat := 256.

Record Tunn := mkTunn {
  handshake : Handshake;
  sessions : list (option Session);
  current : Z;
  packet_queue : list bytes;
  timers : Timers;
  tx_bytes : Z;
  rx_bytes : Z;
  rate_limiter : RateLimiter
}.

Definition set_handshake (t : Tunn) x := mkTunn x (sessions t) (current t) (packet_queue t)
  (timers t) (tx_bytes t) (rx_bytes t) (rate_limiter t).
Definition set_sessions (t : Tunn) x := mkTunn (handshake t) x (current t) (packet_queue t)
  (timers t) (tx_bytes t) (rx_bytes t) (rate_limiter t).
Definition set_current (t : Tunn) x := mkTunn (handshake t) (sessions t) x (packet_queue t)
  (timers t) (tx_bytes t) (rx_bytes t) (rate_limiter t).
Definition set_queue (t : Tunn) x := mkTunn (handshake t) (sessions t) (current t) x
  (timers t) (tx_bytes t) (rx_bytes t) (rate_limiter t).
Definition set_timers (t : Tunn) x := mkTunn (handshake t) (sessions t) (current t)
  (packet_queue t) x (tx_bytes t) (rx_bytes t) (rate_limiter t).
Definition set_tx (t : Tunn) x := mkTunn (handshake t) (sessions t) (current t) (packet_queue t)
  (timers t) x (rx_bytes t) (rate_limiter t).
Definition set_rx (t : Tunn) x := mkTunn (handshake t) (sessions t) (current t) (packet_queue t)
  (timers t) (tx_bytes t) x (rate_limiter t).
Definition set_limiter (t : Tunn) x := mkTunn (handshake t) (sessions t) (current t)
  (packet_queue t) (timers t) (tx_bytes t) (rx_bytes t) x.

(** [self.sessions[idx % N_SESSIONS]] and its assignment. *)
Definition session_at (t : Tunn) (idx : Z) : option Session := mjoin (sessions t !! slot idx).
Definition put_session (t : Tunn) (idx : Z) (s : option Session) : Tunn :=
  set_sessions t (<[slot idx := s]> (sessions t)).

Definition tick (t : Tunn) (n : TimerName) : Tunn := set_timers t (timer_tick (timers t) n).

(** ** The packet queue *)

Definition queue_packet (t : Tunn) (packet : bytes) : Tunn :=
  if (length (packet_queue t) <? MAX_QUEUE_DEPTH)%nat
  then set_queue t (packet_queue t ++ [packet]) else t.

Definition requeue_packet (t : Tunn) (packet : bytes) : Tunn :=
  if (length (packet_queue t) <? MAX_QUEUE_DEPTH)%nat
  then set_queue t (packet :: packet_queue t) else t.

Definition dequeue_packet (t : Tunn) : Tunn * option bytes :=
  match packet_queue t with
  | [] => (t, None)
  | p :: q => (set_queue t q, Some p)
  end.

(** ** Sessions *)

Definition Tunn_is_expired (t : Tunn) : bool := Handshake.is_expired (handshake t).

Definition set_current_session (t : Tunn) (new_idx : Z) : Tunn :=
  let cur_idx := current t in
  if cur_idx =? new_idx then t
  else if negb (bool_decide (is_Some (session_at t cur_idx))) ||
          (default 0 (session_timers (timers t) !! slot cur_idx) <=?
           default 0 (session_timers (timers t) !! slot new_idx))
       then set_current t new_idx
       else t.

(** Check an opened packet against its IP header and cut it to the length the
    header gives. *)
Definition validate_decapsulated_packet (t : Tunn) (packet : bytes) : Tunn * TunnResult :=
  match packet with
  | [] => (t, Done)
  | _ :: _ =>
      let parsed :=
        if (ip_version packet =? 4) && (IPV4_MIN_HEADER_SIZE <=? length packet)%nat then
          Some (from_be_bytes (slice IPV4_LEN_OFF (IPV4_LEN_OFF + IP_LEN_SZ) packet),
                V4 (slice IPV4_SRC_IP_OFF (IPV4_SRC_IP_OFF + IPV4_IP_SZ) packet))
        else if (ip_version packet =? 6) && (IPV6_MIN_HEADER_SIZE <=? length packet)%nat then
          Some (from_be_bytes (slice IPV6_LEN_OFF (IPV6_LEN_OFF + IP_LEN_SZ) packet)
                  + Z.of_nat IPV6_MIN_HEADER_SIZE,
                V6 (slice IPV6_SRC_IP_OFF (IPV6_SRC_IP_OFF + IPV6_IP_SZ) packet))
        else None in
      match parsed with
      | None => (t, TErr InvalidPacket)
      | Some (computed_len, src_ip_address) =>
          if Z.of_nat (length packet) <? computed_len then (t, TErr InvalidPacket)
          else
            let t := tick t TimeLastDataPacketReceived in
            let t := set_rx t (wadd 64 (rx_bytes t) computed_len) in
            let out := take (Z.to_nat computed_len) packet in
            match src_ip_address with
            | V4 addr => (t, WriteToTunnelV4 out addr)
            | V6 addr => (t, WriteToTunnelV6 out addr)
            end
      end
  end.

(** Drop the sessions that are older than [REJECT_AFTER_TIME]. *)
Fixpoint expire_slots (time_now : Duration) (ss : list (option Session)) (ts : list Duration)
  : outcome (list (option Session) * list Duration) :=
  match ss, ts with
  | s :: ss', d :: ts' =>
      let! age := dur_sub time_now d in
      let! (ss2, ts2) := expire_slots time_now ss' ts' in
      if REJECT_AFTER_TIME <? age then Ret (None :: ss2, time_now :: ts2)
      else Ret (s :: ss2, d :: ts2)
  | _, _ => Ret (ss, ts)
  end.

Definition update_session_timers (t : Tunn) (time_now : Duration) : outcome Tunn :=
  let! (ss, ts) := expire_slots time_now (sessions t) (session_timers (timers t)) in
  Ret (set_timers (set_sessions t ss) (set_session_timers (timers t) ts)).

Definition clear_all (t : Tunn) : M Tunn :=
  let t := set_sessions t (map (fun _ => None) (sessions t)) in
  let t := set_queue t [] in
  let* tm := Timers_clear (timers t) in
  mret (set_timers t tm).

Definition time_since_last_handshake (t : Tunn) : M (option Duration) :=
  match session_at t (current t) with
  | Some _ =>
      let* now := Instant_now in
      let duration_since_tun_start := duration_since now (time_started (timers t)) in
      let* d := mlift (dur_sub duration_since_tun_start (timer_get (timers t) TimeSessionEstablished)) in
      mret (Some d)
  | None => mret None
  end.

Definition persistent_keepalive (t : Tunn) : option Z :=
  let keepalive := t_persistent_keepalive (timers t) in
  if 0 <? keepalive then Some (wrap 16 keepalive) else None.

Section tunn.
Context {C : Crypto}.

Definition Tunn_new (static_private peer_static_public : bytes) (preshared_key : option bytes)
    (keepalive : option Z) (index : Z) (limiter : option RateLimiter) : M Tunn :=
  let static_public := x25519_public static_private in
  let* h := Handshake_new static_private static_public peer_static_public
              (wrap 32 (Z.shiftl index 8)) preshared_key in
  let* tm := Timers_new keepalive (negb (bool_decide (is_Some limiter))) in
  let* rl := match limiter with
             | Some r => mret r
             | None => RateLimiter_new static_public PEER_HANDSHAKE_RATE_LIMIT
             end in
  mret (mkTunn h (replicate N_SESSIONS None) 0 [] tm 0 0 rl).

Definition Tunn_set_static_private (t : Tunn) (static_private static_public : bytes)
    (limiter : option RateLimiter) : M Tunn :=
  let t := set_timers t (set_should_reset_rr (timers t) (negb (bool_decide (is_Some limiter)))) in
  let* rl := match limiter with
             | Some r => mret r
             | None => RateLimiter_new static_public PEER_HANDSHAKE_RATE_LIMIT
             end in
  let t := set_limiter t rl in
  let* h := mlift (set_static_private (handshake t) static_private static_public) in
  let t := set_handshake t h in
  mret (set_sessions t (map (fun _ => None) (sessions t))).

(** ** Sending *)

Definition Tunn_format_handshake_initiation (t : Tunn) (dst_len : nat) (force_resend : bool)
  : M (Tunn * TunnResult) :=
  if is_in_progress (handshake t) && negb force_resend then mret (t, Done)
  else
    let* t := if is_expired (handshake t)
              then let* tm := Timers_clear (timers t) in mret (set_timers t tm)
              else mret t in
    let starting_new_handshake := negb (is_in_progress (handshake t)) in
    let* (h, r) := format_handshake_initiation (handshake t) dst_len in
    let t := set_handshake t h in
    match r with
    | Ok packet =>
        let t := if starting_new_handshake then tick t TimeLastHandshakeStarted else t in
        mret (tick t TimeLastPacketSent, WriteToNetwork packet)
    | Err e => mret (t, TErr e)
    end.

Definition encapsulate (t : Tunn) (src : bytes) (dst_len : nat) : M (Tunn * TunnResult) :=
  match session_at t (current t) with
  | Some session =>
      let* (session, packet) := mlift (format_packet_data session src dst_len) in
      let t := put_session t (current t) (Some session) in
      let t := tick t TimeLastPacketSent in
      let t := match src with [] => t | _ :: _ => tick t TimeLastDataPacketSent end in
      let t := set_tx t (wadd 64 (tx_bytes t) (Z.of_nat (length src))) in
      mret (t, WriteToNetwork packet)
  | None =>
      let t := queue_packet t src in
      Tunn_format_handshake_initiation t dst_len false
  end.

Definition send_queued_packet (t : Tunn) (dst_len : nat) : M (Tunn * TunnResult) :=
  let '(t, p) := dequeue_packet t in
  match p with
  | Some packet =>
      let* (t, r) := encapsulate t packet dst_len in
      match r with
      | TErr _ => mret (requeue_packet t packet, Done)
      | r => mret (t, r)
      end
  | None => mret (t, Done)
  end.

(** ** Receiving *)

Definition handle_handshake_init (t : Tunn) (p : HandshakeInit) (dst_len : nat)
  : M (Tunn * Result WireGuardError TunnResult) :=
  let* (h, r) := receive_handshake_initialization (handshake t) p dst_len in
  let t := set_handshake t h in
  match r with
  | Err e => mret (t, Err e)
  | Ok (packet, session) =>
      let index := local_index session in
      let t := put_session t index (Some session) in
      let t := tick t TimeLastPacketReceived in
      let t := tick t TimeLastPacketSent in
      let t := set_timers t (timer_tick_session_established (timers t) false index) in
      mret (t, Ok (WriteToNetwork packet))
  end.

Definition handle_handshake_response (t : Tunn) (p : HandshakeResponse) (dst_len : nat)
  : M (Tunn * Result WireGuardError TunnResult) :=
  let* (h, r) := receive_handshake_response (handshake t) p in
  let t := set_handshake t h in
  match r with
  | Err e => mret (t, Err e)
  | Ok session =>
      let* (session, keepalive_packet) := mlift (format_packet_data session [] dst_len) in
      let l_idx := local_index session in
      let index := l_idx mod Z.of_nat N_SESSIONS in
      let t := put_session t index (Some session) in
      let t := tick t TimeLastPacketReceived in
      let t := set_timers t (timer_tick_session_established (timers t) true index) in
      let t := set_current_session t l_idx in
      mret (t, Ok (WriteToNetwork keepalive_packet))
  end.

Definition handle_cookie_reply (t : Tunn) (p : PacketCookieReply)
  : Tunn * Result WireGuardError TunnResult :=
  let '(h, r) := receive_cookie_reply (handshake t) p in
  let t := set_handshake t h in
  match r with
  | Err e => (t, Err e)
  | Ok _ => (tick (tick t TimeLastPacketReceived) TimeCookieReceived, Ok Done)
  end.

Definition handle_data (t : Tunn) (packet : PacketData) (dst_len : nat)
  : outcome (Tunn * Result WireGuardError TunnResult) :=
  let r_idx := pd_receiver_idx packet in
  match session_at t r_idx with
  | None => Ret (t, Err NoCurrentSession)
  | Some session =>
      let! (session, r) := receive_packet_data session packet dst_len in
      let t := put_session t r_idx (Some session) in
      match r with
      | Err e => Ret (t, Err e)
      | Ok decapsulated_packet =>
          let t := set_current_session t r_idx in
          let t := tick t TimeLastPacketReceived in
          let '(t, r) := validate_decapsulated_packet t decapsulated_packet in
          Ret (t, Ok r)
      end
  end.

Definition handle_verified_packet (t : Tunn) (packet : Packet) (dst_len : nat)
  : M (Tunn * TunnResult) :=
  let* (t, r) :=
    match packet with
    | PHandshakeInit p => handle_handshake_init t p dst_len
    | PHandshakeResponse p => handle_handshake_response t p dst_len
    | PPacketCookieReply p => mret (handle_cookie_reply t p)
    | PPacketData p => mlift (handle_data t p dst_len)
    end in
  mret (t, match r with Ok r => r | Err e => TErr e end).

Definition decapsulate (t : Tunn) (src_addr : option IpAddr) (datagram : bytes) (dst_len : nat)
  : M (Tunn * TunnResult) :=
  match datagram with
  | [] => send_queued_packet t dst_len
  | _ :: _ =>
      let* (rl, r) := verify_packet (rate_limiter t) src_addr datagram COOKIE_REPLY_SZ in
      let t := set_limiter t rl in
      match r with
      | Ok packet => handle_verified_packet t packet dst_len
      | Err (WriteToNetwork cookie) =>
          if (dst_len <? length cookie)%nat then mlift Panicked
          else mret (t, WriteToNetwork cookie)
      | Err (TErr e) => mret (t, TErr e)
      | Err _ => mlift Panicked
      end
  end.

(** ** Timers *)

(** Give up: the handshake expires, sessions and queued packets are dropped. *)
Definition expire_connection (t : Tunn) : M (Tunn * TunnResult) :=
  let t := set_handshake t (set_expired (handshake t)) in
  let* t := clear_all t in
  mret (t, TErr ConnectionExpired).

(** [now - t >= period] guarded by [cond], as in [cond && now - t >= period]. *)
Definition due (cond : bool) (now t period : Duration) : outcome bool :=
  if cond then let! d := dur_sub now t in Ret (period <=? d) else Ret false.

Definition clear_old_cookie (t : Tunn) (now : Duration) : outcome Tunn :=
  let! old := due (has_cookie (handshake t)) now (timer_get (timers t) TimeCookieReceived)
                COOKIE_EXPIRATION_TIME in
  Ret (if old then set_handshake t (clear_cookie (handshake t)) else t).

(** The work of [update_timers] when no initiation is in flight: whether a
    handshake and whether a keepalive is due. [snap] holds the timers as loaded
    once at the top. *)
Definition idle_timers (t : Tunn) (snap : Timers) (now : Duration)
  : outcome (Tunn * (bool * bool)) :=
  let session_established := timer_get snap TimeSessionEstablished in
  let aut_packet_received := timer_get snap TimeLastPacketReceived in
  let aut_packet_sent := timer_get snap TimeLastPacketSent in
  let data_packet_received := timer_get snap TimeLastDataPacketReceived in
  let data_packet_sent := timer_get snap TimeLastDataPacketSent in
  let keepalive := t_persistent_keepalive snap in
  let! on_send := due (is_initiator (timers t) && (session_established <? data_packet_sent))
                    now session_established REKEY_AFTER_TIME in
  let! on_receive := due (is_initiator (timers t) && (session_established <? data_packet_received))
                       now session_established
                       (REJECT_AFTER_TIME - KEEPALIVE_TIMEOUT - REKEY_TIMEOUT) in
  let! silent := due (aut_packet_received <? data_packet_sent) now aut_packet_received
                   (KEEPALIVE_TIMEOUT + REKEY_TIMEOUT) in
  let wanted := silent && want_handshake (timers t) in
  let t := if silent
           then set_timers t (set_wants (timers t) (want_keepalive (timers t)) false) else t in
  let required := on_send || on_receive || wanted in
  if required then Ret (t, (true, false))
  else
    let! owed := due (aut_packet_sent <? data_packet_received) now aut_packet_sent
                   KEEPALIVE_TIMEOUT in
    let passive := owed && want_keepalive (timers t) in
    let t := if owed
             then set_timers t (set_wants (timers t) false (want_handshake (timers t))) else t in
    let! persistent := due (0 <? keepalive) now (timer_get (timers t) TimePersistentKeepalive)
                         (from_secs keepalive) in
    let t := if persistent then tick t TimePersistentKeepalive else t in
    Ret (t, (false, passive || persistent)).

(** What [update_timers] sends at its end. *)
Definition send_due (t : Tunn) (due : bool * bool) (dst_len : nat) : M (Tunn * TunnResult) :=
  let '(handshake_initiation_required, keepalive_required) := due in
  if handshake_initiation_required then Tunn_format_handshake_initiation t dst_len true
  else if keepalive_required then encapsulate t [] dst_len
  else mret (t, Done).

Definition update_timers (t : Tunn) (dst_len : nat) : M (Tunn * TunnResult) :=
  let* time := Instant_now in
  let* rl := if should_reset_rr (timers t) then reset_count (rate_limiter t)
             else mret (rate_limiter t) in
  let t := set_limiter t rl in
  let now := duration_since time (time_started (timers t)) in
  let t := set_timers t (timer_set (timers t) TimeCurrent now) in
  let* t := mlift (update_session_timers t now) in
  let snap := timers t in
  if is_expired (handshake t) then mret (t, TErr ConnectionExpired)
  else
    let* t := mlift (clear_old_cookie t now) in
    let* age := mlift (dur_sub now (timer_get snap TimeSessionEstablished)) in
    if REJECT_AFTER_TIME * 3 <=? age then expire_connection t
    else
      match timer (handshake t) with
      | Some time_init_sent =>
          let* trying := mlift (dur_sub now (timer_get snap TimeLastHandshakeStarted)) in
          if REKEY_ATTEMPT_TIME <=? trying then expire_connection t
          else
            let* waited := elapsed time_init_sent in
            send_due t (REKEY_TIMEOUT <=? waited, false) dst_len
      | None =>
          let* (t, d) := mlift (idle_timers t snap now) in
          send_due t d dst_len
      end.
End tunn.
