(* ===== verification/TunnFacts.v ===== *)
(** What the tunnel of [Tunn.v] guarantees: its invariant, that no operation
    panics in a buffer of the documented size, when sessions and queued packets
    are dropped, and that packets arrive at the other end. *)

From S2P Require Import Prelude Time Errors Replay Crypto ToyCrypto.
From S2P Require Import Packet Session Handshake HandshakeFacts RateLimiter Timers Tunn.

(** ** Invariant *)

(** An index that belongs to a peer: the peer number sits above the low byte. *)
Definition own (peer i : Z) : Prop := u32 i /\ i / 256 = peer.

Definition init_own (peer : Z) (st : HandshakeState) : Prop :=
  match st with InitSent s => own peer (is_local_index s) | _ => True end.

Record hs_ok (peer : Z) (h : Handshake) : Prop := {
  ho_index : own peer (next_index h);
  ho_state : init_own peer (state h);
  ho_previous : init_own peer (previous h)
}.

Definition session_ok (peer : Z) (s : Session) : Prop :=
  own peer (receiving_index s) /\ exists win, session_window s win.

(** Time since the tunnel was started, at the next reading of the clock. *)
Definition age (t : Tunn) (w : World) : Duration :=
  duration_since (w_clock w (w_ticks w)) (time_started (timers t)).

(** Every session sits in its slot of the ring and carries the peer's number,
    the queue is bounded and its packets fit the MTU, no timer is ahead of the
    clock. *)
Record tunn_ok (peer : Z) (mtu : nat) (t : Tunn) (w : World) : Prop := {
  tk_hs : hs_ok peer (handshake t);
  tk_len : length (sessions t) = N_SESSIONS;
  tk_sessions : forall k s, sessions t !! k = Some (Some s) ->
    slot (receiving_index s) = k /\ session_ok peer s;
  tk_queue : (length (packet_queue t) <= MAX_QUEUE_DEPTH)%nat;
  tk_fit : Forall (fun p => (length p <= mtu)%nat) (packet_queue t);
  tk_timers : timers_ok (timers t) (age t w)
}.

Lemma own_inc peer h : own peer (next_index h) -> own peer (snd (inc_index h)).
Proof.
  intros [Hu <-]. split; [by apply inc_index_u32|]. rewrite inc_index_value by done. dlia.
Qed.

Lemma slot_bound i : (slot i < N_SESSIONS)%nat.
Proof. unfold slot, N_SESSIONS. dlia. Qed.

Lemma slot_mod i : slot (i mod Z.of_nat N_SESSIONS) = slot i.
Proof. unfold slot. by rewrite Z.mod_mod. Qed.

Lemma session_at_spec t i s :
  session_at t i = Some s <-> sessions t !! slot i = Some (Some s).
Proof.
  unfold session_at. destruct (sessions t !! slot i) as [[?|]|]; cbn; naive_solver.
Qed.

Section handshake_safe.
Context {C : Crypto} {L : CryptoLaws C} (peer : Z).

Lemma set_macs_ok h i msg : hs_ok peer h -> hs_ok peer (fst (append_mac1_and_mac2 h i msg)).
Proof. by intros [? ? ?]. Qed.

Lemma format_initiation_safe h d w :
  hs_ok peer h -> safe (format_handshake_initiation h d) w (fun _ '(h', _) => hs_ok peer h').
Proof.
  intros Hok. destruct (Nat.ltb_spec d 148) as [Hd|Hd].
  - exists w. unfold format_handshake_initiation, HANDSHAKE_INIT_SZ.
    rewrite (proj2 (Nat.ltb_lt _ _) Hd). eexists. split; [done|]. auto with rust.
  - unfold safe. rewrite format_initiation_eq by done.
    destruct (append_mac1_and_mac2 _ _ _) as [h' pkt] eqn:E.
    do 2 eexists. split; [done|]. split; [split; cbn; [done|lia]|].
    replace h' with (fst (h', pkt)) by done. rewrite <- E. apply set_macs_ok.
    destruct Hok. constructor; cbn; [by apply own_inc|by apply own_inc|done].
Qed.

Lemma format_response_safe h d w hash ck peph pidx :
  hs_ok peer h -> state h = InitReceived hash ck peph pidx ->
  safe (format_handshake_response h d) w (fun _ '(h', r) => hs_ok peer h' /\
    match r with Ok (_, s) => session_ok peer s | Err _ => True end).
Proof.
  intros Hok Hst. destruct (Nat.ltb_spec d 92) as [Hd|Hd].
  - exists w. unfold format_handshake_response, HANDSHAKE_RESP_SZ.
    rewrite (proj2 (Nat.ltb_lt _ _) Hd). eexists. split; [done|]. auto with rust.
  - unfold safe. erewrite format_response_eq by done. cbn zeta.
    destruct (append_mac1_and_mac2 _ _ _) as [h' pkt] eqn:E.
    do 2 eexists. split; [done|]. split; [split; cbn; [done|lia]|].
    replace h' with (fst (h', pkt)) by done. rewrite <- E. destruct Hok. split.
    + apply set_macs_ok. constructor; cbn; [by apply own_inc|done|done].
    + split; [by apply own_inc|]. exists window_init. by apply session_window_init.
Qed.

Lemma receive_initiation_safe h p d w :
  hs_ok peer h -> packet_ok (PHandshakeInit p) ->
  safe (receive_handshake_initialization h p d) w (fun _ '(h', r) => hs_ok peer h' /\
    match r with Ok (_, s) => session_ok peer s | Err _ => True end).
Proof.
  intros Hok (_ & _ & H2 & H3).
  destruct (receive_handshake_initialization h p d w) as [[w' [h' r]]| |] eqn:E.
  - pose proof E as E0.
    apply receive_initiation_cases in E as [(-> & -> & e & ->)|(ts & hash & ck & _ & _ & E)].
    + unfold safe. rewrite E0. do 2 eexists. split; [done|]. auto with rust.
    + destruct (format_response_safe (received h ts hash ck (hi_unencrypted_ephemeral p)
        (hi_sender_idx p)) d w _ _ _ _ ltac:(destruct Hok; by constructor) eq_refl)
        as (w2 & [h2 r2] & E2 & Hle & HQ).
      unfold safe. rewrite E0. rewrite E in E2. simplify_eq. eauto.
  - exfalso. by eapply receive_initiation_returns; [..|left; exact E].
  - exfalso. by eapply receive_initiation_returns; [..|right; exact E].
Qed.

Lemma awaiting_own h i st prev :
  hs_ok peer h -> awaiting h i = Some (st, prev) -> own peer (is_local_index st).
Proof.
  intros [_ Hs Hp]. unfold awaiting, init_own in *. intros E.
  repeat case_hyp E; simplify_eq; done.
Qed.

Lemma receive_response_safe h p w :
  hs_ok peer h -> packet_ok (PHandshakeResponse p) ->
  safe (receive_handshake_response h p) w (fun _ '(h', r) => hs_ok peer h' /\
    match r with Ok s => session_ok peer s | Err _ => True end).
Proof.
  intros Hok (_ & _ & _ & H2).
  destruct (receive_handshake_response h p w) as [[w' [h' r]]| |] eqn:E.
  - exists w', (h', r). split; [done|].
    pose proof (fun s Hr => receive_response_session h p w w' h' s (eq_trans E (f_equal (fun r => Ret (w', (h', r))) Hr))) as Hwin.
    apply receive_response_cases in E
      as [(-> & -> & e & ->)|(st & prev & rtt & s & -> & Haw & -> & Hi & _ & ->)];
      [auto with rust|].
    split; [split; cbn; [done|lia]|].
    pose proof (awaiting_own _ _ _ _ Hok Haw) as Hown. destruct Hok. split.
    + by destruct prev; constructor.
    + split; [by rewrite Hi|]. exists window_init. by apply Hwin.
  - exfalso. by eapply receive_response_returns; [|left; exact E].
  - exfalso. by eapply receive_response_returns; [|right; exact E].
Qed.
End handshake_safe.

(** ** The invariant under the elementary updates *)

Section updates.
Context (peer : Z) (mtu : nat) (t : Tunn) (w : World).
Context (Hclk : clock_ok (w_clock w)) (Hok : tunn_ok peer mtu t w).

Lemma age_nonneg : 0 <= age t w.
Proof. apply duration_since_nonneg; [apply Hclk|apply Hok]. Qed.

Lemma tunn_ok_later w' : world_le w w' -> tunn_ok peer mtu t w'.
Proof.
  intros Hle. destruct Hok. constructor; try done.
  eapply timers_ok_le; [done|]. unfold age. apply since_mono; [done..|apply tk_timers0|done].
Qed.

Lemma tunn_ok_hs h : hs_ok peer h -> tunn_ok peer mtu (set_handshake t h) w.
Proof. by destruct Hok. Qed.

Lemma tunn_ok_current i : tunn_ok peer mtu (set_current t i) w.
Proof. by destruct Hok. Qed.

Lemma tunn_ok_tx n : tunn_ok peer mtu (set_tx t n) w.
Proof. by destruct Hok. Qed.

Lemma tunn_ok_rx n : tunn_ok peer mtu (set_rx t n) w.
Proof. by destruct Hok. Qed.

Lemma tunn_ok_limiter r : tunn_ok peer mtu (set_limiter t r) w.
Proof. by destruct Hok. Qed.

Lemma tunn_ok_timers tm :
  time_started tm = time_started (timers t) -> timers_ok tm (age t w) ->
  tunn_ok peer mtu (set_timers t tm) w.
Proof. intros E ?. destruct Hok. constructor; try done. unfold age in *. cbn. by rewrite E. Qed.

Lemma tunn_ok_tick n : tunn_ok peer mtu (tick t n) w.
Proof.
  apply tunn_ok_timers; [apply time_started_tick|].
  apply timers_ok_tick; [apply Hok|apply age_nonneg].
Qed.

Lemma tunn_ok_established b i :
  tunn_ok peer mtu (set_timers t (timer_tick_session_established (timers t) b i)) w.
Proof.
  apply tunn_ok_timers; [done|]. apply timers_ok_established; [apply Hok|apply age_nonneg].
Qed.

Lemma tunn_ok_put i s :
  session_ok peer s -> slot (receiving_index s) = slot i ->
  tunn_ok peer mtu (put_session t i (Some s)) w.
Proof.
  intros Hs Hi. destruct Hok as [? Hlen Hss ? ? ?]. constructor; cbn; rewrite ?length_insert; try done.
  intros k s' E. destruct (decide (slot i = k)) as [<-|Hne].
  - rewrite list_lookup_insert_eq in E by (rewrite Hlen; apply slot_bound). by simplify_eq.
  - rewrite list_lookup_insert_ne in E by done. by apply Hss.
Qed.

Lemma tunn_ok_set_current i : tunn_ok peer mtu (set_current_session t i) w.
Proof. unfold set_current_session. repeat case_match; auto using tunn_ok_current. Qed.

Lemma tunn_ok_queue p : (length p <= mtu)%nat -> tunn_ok peer mtu (queue_packet t p) w.
Proof.
  intros Hp. unfold queue_packet. destruct (Nat.ltb_spec (length (packet_queue t)) MAX_QUEUE_DEPTH); [|done].
  destruct Hok. constructor; cbn; try done;
    [rewrite length_app; cbn; lia|apply Forall_app; eauto].
Qed.

Lemma tunn_ok_requeue p : (length p <= mtu)%nat -> tunn_ok peer mtu (requeue_packet t p) w.
Proof.
  intros Hp. unfold requeue_packet. destruct (Nat.ltb_spec (length (packet_queue t)) MAX_QUEUE_DEPTH); [|done].
  destruct Hok. constructor; cbn; try done. by constructor.
Qed.

Lemma tunn_ok_dequeue :
  let '(t', p) := dequeue_packet t in
  tunn_ok peer mtu t' w /\ match p with Some p => (length p <= mtu)%nat | None => True end.
Proof.
  unfold dequeue_packet. destruct (packet_queue t) as [|p q] eqn:E; [done|].
  destruct Hok as [? ? ? Hq Hf ?]. rewrite E in Hq, Hf. inversion Hf; subst.
  split; [|done]. constructor; cbn in *; try done. lia.
Qed.

Lemma tunn_ok_session i s : session_at t i = Some s -> slot (receiving_index s) = slot i /\ session_ok peer s.
Proof. intros E%session_at_spec. by apply Hok. Qed.
End updates.

Create HintDb tunn.

#[export] Hint Resolve tunn_ok_hs tunn_ok_current tunn_ok_tx tunn_ok_rx tunn_ok_limiter
  tunn_ok_tick tunn_ok_established tunn_ok_put tunn_ok_set_current tunn_ok_queue
  tunn_ok_requeue : tunn.
#[export] Hint Resolve world_clock : tunn.

(** Clearing the timers sets them to a reading of the clock. *)
Lemma timers_clear_safe peer mtu t w :
  clock_ok (w_clock w) -> tunn_ok peer mtu t w ->
  safe (Timers_clear (timers t)) w (fun w' tm => tunn_ok peer mtu (set_timers t tm) w').
Proof.
  intros Hc Hok. apply safe_bind, safe_now. intros w' Hle Htick. apply safe_ret.
  apply (tunn_ok_later _ _ _ _ Hc Hok) in Hle as Hok'.
  pose proof (since_mono w w' (time_started (timers t)) Hc (to_started _ _ (tk_timers _ _ _ _ Hok)) Hle).
  pose proof (age_nonneg _ _ _ _ Hc Hok). unfold age in *.
  apply tunn_ok_timers; [done|done|]. apply timers_ok_wants.
  destruct (tk_timers _ _ _ _ Hok') as [Hl Hl2 _ Hp2 Hc2 Hi2].
  constructor; cbn; try done; [by rewrite length_map|apply Forall_map, Forall_forall; unfold age; cbn; lia|].
  eapply Forall_impl; [apply (to_session_past _ _ (tk_timers _ _ _ _ Hok))|]. intros x Hx. unfold timer_get. cbn.
  rewrite list_lookup_fmap. destruct (lookup_lt_is_Some_2 (t_timers (timers t)) 0) as [y ->]; [rewrite Hl; cbn; lia|].
  cbn. unfold age in Hx. cbn in Hx. lia.
Qed.

(** The present is not before the last timer pass. *)
Lemma current_moves_on peer mtu t w :
  clock_ok (w_clock w) -> tunn_ok peer mtu t w ->
  timer_get (timers t) TimeCurrent <= timer_get (timer_set (timers t) TimeCurrent (age t w)) TimeCurrent.
Proof.
  intros Hc Hok. rewrite timer_get_set by (done || apply Hok). rewrite decide_True by done.
  eapply timer_get_past; [apply Hok|]. by eapply age_nonneg.
Qed.

(** ** The timer pass in closed form *)

Lemma due_eq cond now t period : t <= now -> due cond now t period = Ret (cond && (period <=? now - t)).
Proof. intros. unfold due. destruct cond; [|done]. by rewrite dur_sub_ret. Qed.

(** Whether a session slot last set at [d] has run out. *)
Definition stale (now d : Duration) : bool := REJECT_AFTER_TIME <? now - d.

Lemma expire_slots_eq now ss ts :
  length ss = length ts -> Forall (fun d => 0 <= d <= now) ts ->
  expire_slots now ss ts =
    Ret (zip_with (fun s d => if stale now d then None else s) ss ts,
         map (fun d => if stale now d then now else d) ts).
Proof.
  intros Hl Hts. revert ss Hl. induction Hts as [|x ts Hx _ IH]; intros [|s ss] Hl; try done.
  cbn [expire_slots zip_with map]. rewrite dur_sub_ret by lia. cbn [obind].
  rewrite IH by (cbn in Hl; lia). cbn [obind]. unfold stale. by destruct (REJECT_AFTER_TIME <? now - x).
Qed.

(** The tunnel after the first part of a timer pass at time [now]. *)
Definition refreshed (t : Tunn) (rl : RateLimiter) (now : Duration) : Tunn :=
  let ts := session_timers (timers t) in
  set_timers
    (set_sessions (set_limiter t rl)
       (zip_with (fun s d => if stale now d then None else s) (sessions t) ts))
    (set_session_timers (timer_set (timers t) TimeCurrent now)
       (map (fun d => if stale now d then now else d) ts)).

Section timer_pass.
Context {C : Crypto}.

(** The rest of it. *)
Definition after_refresh (t : Tunn) (now : Duration) (dst_len : nat) : M (Tunn * TunnResult) :=
  if is_expired (handshake t) then mret (t, TErr ConnectionExpired)
  else
    let snap := timers t in
    let* t := mlift (clear_old_cookie t now) in
    let* established := mlift (dur_sub now (timer_get snap TimeSessionEstablished)) in
    if REJECT_AFTER_TIME * 3 <=? established then expire_connection t
    else
      match timer (handshake t) with
      | Some time_init_sent =>
          let* trying := mlift (dur_sub now (timer_get snap TimeLastHandshakeStarted)) in
          if REKEY_ATTEMPT_TIME <=? trying then expire_connection t
          else
            let* waited := elapsed time_init_sent in
            send_due t (REKEY_TIMEOUT <=? waited, false) dst_len
      | None =>
          let* (t, d) := mlift (idle_timers t snap now) in
          send_due t d dst_len
      end.

Lemma update_timers_eq peer mtu t d w :
  tunn_ok peer mtu t w ->
  exists w1 rl, world_le w w1 /\ (w_ticks w < w_ticks w1)%nat /\
    update_timers t d w = after_refresh (refreshed t rl (age t w)) (age t w) d w1.
Proof.
  intros Hok. unfold update_timers. unfold mbind at 1. cbn [Instant_now obind].
  set (w0 := mkWorld _ _ _ (S (w_ticks w)) _ _).
  assert (world_le w w0) as Hle0 by (split; cbn; [done|lia]).
  assert (exists w1 rl, world_le w0 w1 /\
    (if should_reset_rr (timers t) then reset_count (rate_limiter t) else mret (rate_limiter t)) w0
      = Ret (w1, rl)) as (w1 & rl & Hle1 & E).
  { destruct (should_reset_rr (timers t)).
    - rewrite reset_count_run. do 2 eexists. split; [|done]. split; cbn; [done|lia].
    - by exists w0, (rate_limiter t). }
  exists w1, rl. split; [by eapply world_le_trans|]. split; [destruct Hle1; cbn in *; lia|].
  unfold mbind at 1. rewrite E. cbn [obind].
  unfold update_session_timers. cbn [set_limiter set_timers sessions timers timer_set set_t_timers
    session_timers time_started].
  fold (age t w). destruct Hok as [_ Hlen _ _ _ Htm].
  rewrite expire_slots_eq; [reflexivity| |apply Htm].
  pose proof (to_slots _ _ Htm). unfold Duration in *. congruence.
Qed.
End timer_pass.

Lemma refreshed_ok peer mtu t w rl :
  clock_ok (w_clock w) -> tunn_ok peer mtu t w -> tunn_ok peer mtu (refreshed t rl (age t w)) w.
Proof.
  intros Hc Hok. pose proof (age_nonneg _ _ _ _ Hc Hok) as Ha.
  pose proof (timers_ok_set _ _ TimeCurrent (age t w) (tk_timers _ _ _ _ Hok) ltac:(lia)
    (current_moves_on _ _ _ _ Hc Hok)) as [H1 H2 H3 H4 H5 H6].
  destruct Hok as [? Hlen Hss ? ? Htm]. pose proof (to_slots _ _ Htm) as Hlt.
  constructor; try done.
  - cbn. rewrite length_zip_with, Hlen. unfold Duration in *. rewrite Hlt. done.
  - intros k s. cbn. rewrite lookup_zip_with. intros E.
    destruct (sessions t !! k) as [o|] eqn:Eo; [|done].
    destruct (session_timers (timers t) !! k); [|done]. cbn in E. case_match; simplify_eq. by apply Hss.
  - change (age (refreshed t rl (age t w)) w) with (age t w).
    constructor; cbn; try done; [by rewrite length_map|..];
      apply Forall_map; (eapply Forall_impl; [exact (to_session_past _ _ Htm)|]);
      intros x Hx; cbn in *; [case_match; lia|].
    unfold timer_get. cbn. rewrite list_lookup_insert_eq
      by (pose proof (to_len _ _ Htm) as Hl; unfold Duration in *; rewrite Hl; cbn; lia).
    cbn. case_match; lia.
Qed.

(** ** Every operation returns and keeps the invariant *)

Section safety.
Context {C : Crypto} {L : CryptoLaws C}.
Context (peer : Z) (mtu d : nat) (Hd : (mtu + 32 <= d)%nat).

(** A packet that opens under the session it names carries a counter below the
    limit of the replay window; what does not open is not restricted. *)
Definition counter_fits (t : Tunn) (p : PacketData) : Prop :=
  forall s, session_at t (pd_receiver_idx p) = Some s -> opened s p <> None -> counter_ok (pd_counter p).

(** What the operations promise. *)
Definition keeps (w' : World) (r : Tunn * TunnResult) : Prop := tunn_ok peer mtu (fst r) w'.

Lemma format_data_session s src dst_len :
  session_ok peer s -> (length src + 32 <= dst_len)%nat ->
  exists s' pkt, format_packet_data s src dst_len = Ret (s', pkt) /\
    session_ok peer s' /\ receiving_index s' = receiving_index s.
Proof.
  intros [Ho [win Hw]] Hl. rewrite format_packet_data_ok by done. do 2 eexists.
  split; [done|]. split; [|done]. split; [done|]. exists win. by destruct Hw.
Qed.

Lemma tunn_initiate_safe t force w :
  clock_ok (w_clock w) -> tunn_ok peer mtu t w ->
  safe (Tunn_format_handshake_initiation t d force) w keeps.
Proof.
  intros Hc Hok. unfold Tunn_format_handshake_initiation.
  destruct (is_in_progress (handshake t) && negb force); [by apply safe_ret|].
  apply safe_bind. eapply safe_weaken with (P := fun w' t' => tunn_ok peer mtu t' w').
  { destruct (is_expired (handshake t)); [|by apply safe_ret].
    apply safe_bind. eapply safe_weaken; [by apply timers_clear_safe|].
    intros. by apply safe_ret. }
  intros w' t' Hle Hok'. apply safe_bind.
  eapply safe_weaken; [apply format_initiation_safe, Hok'|]. intros w'' [h r] Hle' Hh.
  assert (clock_ok (w_clock w'')) as Hc'' by eauto using world_clock.
  assert (tunn_ok peer mtu (set_handshake t' h) w'') as Hok''.
  { apply tunn_ok_hs; [|done]. by apply (tunn_ok_later _ _ _ w'); [eapply world_clock|..]. }
  destruct r; apply safe_ret; [|done]. unfold keeps. case_match; eauto with tunn.
Qed.

Lemma encapsulate_safe t src w :
  clock_ok (w_clock w) -> tunn_ok peer mtu t w -> (length src <= mtu)%nat ->
  safe (encapsulate t src d) w keeps.
Proof.
  intros Hc Hok Hl. unfold encapsulate. destruct (session_at t (current t)) as [s|] eqn:Es.
  - destruct (tunn_ok_session _ _ _ _ Hok _ _ Es) as [Hi Hs].
    destruct (format_data_session s src d Hs ltac:(lia)) as (s' & pkt & E & Hs' & Hi').
    apply safe_bind. eapply safe_lift; [exact E|]. apply safe_ret. unfold keeps. cbn [fst].
    apply tunn_ok_tx. assert (tunn_ok peer mtu (put_session t (current t) (Some s')) w).
    { apply tunn_ok_put; [done..|by rewrite Hi']. }
    destruct src; eauto with tunn.
  - apply tunn_initiate_safe; [done|]. by apply tunn_ok_queue.
Qed.

Lemma send_queued_safe t w :
  clock_ok (w_clock w) -> tunn_ok peer mtu t w -> safe (send_queued_packet t d) w keeps.
Proof.
  intros Hc Hok. unfold send_queued_packet. pose proof (tunn_ok_dequeue _ _ _ _ Hok) as Hq.
  destruct (dequeue_packet t) as [t' [p|]]; destruct Hq as [Hok' Hp]; [|by apply safe_ret].
  apply safe_bind. eapply safe_weaken; [by apply encapsulate_safe|].
  intros w' [t'' r] Hle Hok''. unfold keeps in Hok''. cbn in Hok''.
  destruct r; apply safe_ret; try done. unfold keeps. cbn. eauto with tunn.
Qed.

Lemma handle_init_safe t p w :
  clock_ok (w_clock w) -> tunn_ok peer mtu t w -> packet_ok (PHandshakeInit p) ->
  safe (handle_handshake_init t p d) w (fun w' r => tunn_ok peer mtu (fst r) w').
Proof.
  intros Hc Hok Hp. apply safe_bind. eapply safe_weaken; [by apply receive_initiation_safe, Hp; apply Hok|].
  intros w' [h r] Hle [Hh Hs]. apply (tunn_ok_later _ _ _ _ Hc Hok) in Hle as Hok'.
  apply (tunn_ok_hs _ _ _ _ Hok') in Hh. pose proof (world_clock _ _ Hle Hc) as Hc'.
  destruct r as [[pkt s]|e]; apply safe_ret; [|done]. cbn [fst].
  apply tunn_ok_established; [done|]. do 2 (apply tunn_ok_tick; [done|]). by apply tunn_ok_put.
Qed.

Lemma handle_response_safe t p w :
  clock_ok (w_clock w) -> tunn_ok peer mtu t w -> packet_ok (PHandshakeResponse p) ->
  safe (handle_handshake_response t p d) w (fun w' r => tunn_ok peer mtu (fst r) w').
Proof.
  intros Hc Hok Hp. apply safe_bind. eapply safe_weaken; [by apply receive_response_safe, Hp; apply Hok|].
  intros w' [h r] Hle [Hh Hs]. apply (tunn_ok_later _ _ _ _ Hc Hok) in Hle as Hok'.
  apply (tunn_ok_hs _ _ _ _ Hok') in Hh. pose proof (world_clock _ _ Hle Hc) as Hc'.
  destruct r as [s|e]; [|by apply safe_ret].
  destruct (format_data_session s [] d Hs ltac:(cbn; lia)) as (s' & pkt & E & Hs' & Hi).
  apply safe_bind. eapply safe_lift; [exact E|]. apply safe_ret. cbn [fst].
  apply tunn_ok_set_current, tunn_ok_established; [done|]. apply tunn_ok_tick; [done|].
  apply tunn_ok_put; [done..|]. by rewrite slot_mod.
Qed.

Lemma receive_cookie_ok h p : hs_ok peer h -> hs_ok peer (fst (receive_cookie_reply h p)).
Proof.
  intros Hok. destruct (receive_cookie_reply h p) as [h' r] eqn:E.
  apply receive_cookie_cases in E as [[-> _]|(_ & c & _ & ->)]; [done|]. by destruct Hok.
Qed.

Lemma handle_cookie_ok t p w :
  clock_ok (w_clock w) -> tunn_ok peer mtu t w -> tunn_ok peer mtu (fst (handle_cookie_reply t p)) w.
Proof.
  intros Hc Hok. unfold handle_cookie_reply.
  pose proof (receive_cookie_ok (handshake t) p (tk_hs _ _ _ _ Hok)) as Hh.
  destruct (receive_cookie_reply (handshake t) p) as [h [?|?]]; cbn in *; eauto with tunn.
Qed.

Lemma validate_ok t p w :
  clock_ok (w_clock w) -> tunn_ok peer mtu t w ->
  tunn_ok peer mtu (fst (validate_decapsulated_packet t p)) w.
Proof.
  intros Hc Hok. unfold validate_decapsulated_packet.
  destruct p as [|b p]; [done|].
  repeat case_match; simplify_eq; cbn [fst]; auto; apply tunn_ok_rx, tunn_ok_tick; done.
Qed.

Lemma receive_data_session s p :
  session_ok peer s -> (opened s p <> None -> counter_ok (pd_counter p)) ->
  (16 <= length (pd_encrypted_encapsulated_packet p) <= d)%nat ->
  exists s' r, receive_packet_data s p d = Ret (s', r) /\ session_ok peer s' /\
    receiving_index s' = receiving_index s.
Proof.
  intros Hs Hc Hl. destruct (opened s p) as [pt|] eqn:Eo.
  2: { destruct (forged_packet_harmless s p d Hl (or_intror Eo)) as [e E]. eauto. }
  specialize (Hc ltac:(done)). clear pt Eo.
  destruct (Z.eqb_spec (pd_receiver_idx p) (receiving_index s)) as [Hi|Hi].
  - destruct Hs as [Ho [win Hw]].
    pose proof (receive_packet_data_spec s win p d Hw Hc Hl Hi) as Hspec. cbn zeta in Hspec.
    destruct (window_accepts win (pd_counter p)).
    + destruct (chacha_decrypt _ _ _ _ _).
      * destruct Hspec as (s' & E & Hw' & _ & _ & Hi' & _). do 2 eexists. split; [exact E|].
        split; [|done]. split; [by rewrite Hi'|eauto].
      * do 2 eexists. split; [exact Hspec|]. split; [|done]. split; eauto.
    + destruct Hspec as (e & E & _). do 2 eexists. split; [exact E|]. split; [|done]. split; eauto.
  - destruct (forged_packet_harmless s p d Hl (or_introl Hi)) as [e E]. eauto.
Qed.

Lemma handle_data_safe t p w :
  clock_ok (w_clock w) -> tunn_ok peer mtu t w -> counter_fits t p ->
  (16 <= length (pd_encrypted_encapsulated_packet p) <= d)%nat ->
  exists r, handle_data t p d = Ret r /\ tunn_ok peer mtu (fst r) w.
Proof.
  intros Hc Hok Hcnt Hl. unfold handle_data.
  destruct (session_at t (pd_receiver_idx p)) as [s|] eqn:Es; [|eauto].
  destruct (tunn_ok_session _ _ _ _ Hok _ _ Es) as [Hi Hs].
  destruct (receive_data_session s p Hs (Hcnt s Es) Hl) as (s' & r & -> & Hs' & Hi'). cbn [obind].
  assert (tunn_ok peer mtu (put_session t (pd_receiver_idx p) (Some s')) w) as Hok'.
  { apply tunn_ok_put; [done..|by rewrite Hi']. }
  destruct r as [pt|e]; [|eauto].
  set (t' := tick _ _).
  pose proof (validate_ok t' pt w Hc ltac:(apply tunn_ok_tick; [done|by apply tunn_ok_set_current])) as Hv.
  destruct (validate_decapsulated_packet t' pt) as [t'' r']. eauto.
Qed.

(** The limiter always answers, with a packet, an error or a cookie reply. *)
Lemma verify_packet_safe r addr src w :
  safe (verify_packet r addr src COOKIE_REPLY_SZ) w (fun _ '(_, res) =>
    match res with
    | Ok p => parse_incoming_packet src = Ok p
    | Err (TErr _) => True
    | Err (WriteToNetwork c) => length c = COOKIE_REPLY_SZ
    | Err _ => False
    end).
Proof.
  unfold verify_packet. destruct (parse_incoming_packet src) as [p|e] eqn:Ep; [|by apply safe_ret].
  destruct (handshake_sender p) as [idx|]; [|by apply safe_ret].
  destruct (negb _); [by apply safe_ret|]. unfold is_under_load.
  destruct (limit r <=? count r); [|by apply safe_ret].
  destruct addr as [addr|]; [|by apply safe_ret].
  apply safe_bind, safe_bind, safe_now. intros w' Hle _. apply safe_ret.
  set (r' := set_count _ _). set (cookie := b2s_keyed_mac_16_2 _ _ _).
  destruct (negb _); [|by apply safe_ret].
  unfold format_cookie_reply. cbn [nonce Nat.ltb Nat.leb COOKIE_REPLY_SZ].
  match goal with |- context [xchacha_encrypt ?k ?n ?a ?p] =>
    pose proof (aead_ct_len _ _ xchacha_laws k n a p) as H1;
    pose proof (aead_tag_len _ _ xchacha_laws k n a p) as H2;
    destruct (xchacha_encrypt k n a p) as [ct tag] end.
  cbn [fst snd] in *. apply safe_ret. cbn [packet_prefix pc_receiver_idx pc_nonce pc_encrypted_cookie].
  autorewrite with len. rewrite H1, H2. unfold cookie. by rewrite b2s_keyed_mac_16_2_len.
Qed.

Lemma decapsulate_safe t addr datagram w :
  clock_ok (w_clock w) -> tunn_ok peer mtu t w -> (COOKIE_REPLY_SZ <= d)%nat ->
  bytes_ok datagram -> (length datagram <= d + 16)%nat ->
  (forall p, parse_incoming_packet datagram = Ok (PPacketData p) -> counter_fits t p) ->
  safe (decapsulate t addr datagram d) w keeps.
Proof.
  intros Hc Hok H64 Hb Hl Hcnt. unfold decapsulate.
  destruct datagram as [|b datagram]; [by apply send_queued_safe|].
  set (src := b :: datagram) in *. apply safe_bind.
  eapply safe_weaken; [apply verify_packet_safe|]. intros w' [rl res] Hle Hres.
  apply (tunn_ok_later _ _ _ _ Hc Hok) in Hle as Hok'. pose proof (world_clock _ _ Hle Hc) as Hc'.
  pose proof (tunn_ok_limiter _ _ _ _ Hok' rl) as Hok2.
  destruct res as [p|[]]; try done; [| by apply safe_ret|].
  2: { rewrite (proj2 (Nat.ltb_ge _ _)) by (rewrite Hres; done). by apply safe_ret. }
  pose proof (serialize_parse _ _ Hb Hres) as [Hp (macs & Hsrc & Hm)].
  apply safe_bind. eapply safe_weaken with (P := fun w' r => tunn_ok peer mtu (fst r) w').
  2: { intros w'' [t' r] _ Ht'. by apply safe_ret. }
  destruct p as [p|p|p|p].
  - by apply handle_init_safe.
  - by apply handle_response_safe.
  - apply safe_ret. by apply handle_cookie_ok.
  - destruct (handle_data_safe (set_limiter t rl) p w') as (r & E & Hr); try done; [by apply Hcnt| |].
    + pose proof (length_packet _ macs Hp Hm) as Hlen. rewrite <- Hsrc in Hlen.
      destruct Hp as (_ & _ & ?). lia.
    + eapply safe_lift; [exact E|done].
Qed.

Lemma clear_all_safe t w :
  clock_ok (w_clock w) -> tunn_ok peer mtu t w ->
  safe (clear_all t) w (fun w' t' => tunn_ok peer mtu t' w' /\
    sessions t' = map (fun _ => None) (sessions t) /\ packet_queue t' = [] /\
    handshake t' = handshake t).
Proof.
  intros Hc Hok. unfold clear_all. set (t0 := set_queue _ _).
  assert (tunn_ok peer mtu t0 w) as Hok0.
  { destruct Hok as [? Hlen ? ? ? ?]. constructor; cbn; try done; [by rewrite length_map|..|apply Nat.le_0_l].
    intros k s. rewrite list_lookup_fmap. by destruct (sessions t !! k). }
  apply safe_bind. eapply safe_weaken; [by eapply timers_clear_safe|].
  intros w' tm Hle Hok'. by apply safe_ret.
Qed.

Lemma expire_safe t w :
  clock_ok (w_clock w) -> tunn_ok peer mtu t w ->
  safe (expire_connection t) w (fun w' r => keeps w' r /\
    snd r = TErr ConnectionExpired /\ is_expired (handshake (fst r)) = true /\
    sessions (fst r) = map (fun _ => None) (sessions t) /\ packet_queue (fst r) = []).
Proof.
  intros Hc Hok. unfold expire_connection. set (t0 := set_handshake _ _).
  assert (tunn_ok peer mtu t0 w) as Hok0.
  { apply tunn_ok_hs; [done|]. destruct (tk_hs _ _ _ _ Hok). by constructor. }
  apply safe_bind. eapply safe_weaken; [by apply clear_all_safe|].
  intros w' t' Hle (Hok' & Hs & Hq & Hh). apply safe_ret. cbn.
  split; [done|]. split; [done|]. by rewrite Hh.
Qed.

Lemma clear_old_cookie_ok t w now :
  tunn_ok peer mtu t w -> timer_get (timers t) TimeCookieReceived <= now ->
  exists t', clear_old_cookie t now = Ret t' /\ tunn_ok peer mtu t' w /\ timers t' = timers t /\
    sessions t' = sessions t /\ timer (handshake t') = timer (handshake t) /\ current t' = current t.
Proof.
  intros Hok Hn. unfold clear_old_cookie. rewrite due_eq by done. cbn [obind].
  eexists. split; [done|]. case_match; [|done].
  split; [|done]. apply tunn_ok_hs; [done|]. by destruct (tk_hs _ _ _ _ Hok).
Qed.

Lemma idle_timers_ok t w now :
  clock_ok (w_clock w) -> tunn_ok peer mtu t w -> (forall n, timer_get (timers t) n <= now) ->
  exists t' r, idle_timers t (timers t) now = Ret (t', r) /\ tunn_ok peer mtu t' w.
Proof.
  intros Hc Hok Hn.
  assert (forall t0 a b, tunn_ok peer mtu t0 w -> tunn_ok peer mtu (set_timers t0 (set_wants (timers t0) a b)) w)
    as Hw. { intros ? ? ? H0. apply tunn_ok_timers; [done..|]. apply timers_ok_wants, H0. }
  unfold idle_timers. rewrite !due_eq by apply Hn. cbn [obind].
  destruct (_ || _); [do 2 eexists; split; [done|]; case_match; auto|].
  rewrite due_eq by (repeat case_match; apply Hn). cbn [obind]. do 2 eexists. split; [done|].
  repeat case_match; auto with tunn.
Qed.

Lemma send_due_safe t b w :
  clock_ok (w_clock w) -> tunn_ok peer mtu t w -> safe (send_due t b d) w keeps.
Proof.
  intros Hc Hok. destruct b as [[] []]; cbn;
    [by apply tunn_initiate_safe..|apply encapsulate_safe; [done..|cbn; lia]|by apply safe_ret].
Qed.

Lemma after_refresh_safe t now w :
  clock_ok (w_clock w) -> tunn_ok peer mtu t w -> (forall n, timer_get (timers t) n <= now) ->
  safe (after_refresh t now d) w keeps.
Proof.
  intros Hc Hok Hn. unfold after_refresh. destruct (is_expired (handshake t)); [by apply safe_ret|].
  destruct (clear_old_cookie_ok t w now Hok (Hn _)) as (t' & E & Hok' & Htm & _).
  apply safe_bind. eapply safe_lift; [exact E|]. rewrite <- Htm in *.
  apply safe_bind. eapply safe_lift; [by apply dur_sub_ret|].
  assert (safe (expire_connection t') w keeps) as Hexp.
  { eapply safe_weaken; [by apply expire_safe|]. by intros ? ? _ [? _]. }
  case_match; [exact Hexp|]. destruct (timer (handshake t')).
  - apply safe_bind. eapply safe_lift; [by apply dur_sub_ret|].
    case_match; [exact Hexp|]. apply safe_bind, safe_bind, safe_now. intros w' Hle _. apply safe_ret.
    apply send_due_safe; [by eapply world_clock|]. by eapply tunn_ok_later.
  - destruct (idle_timers_ok t' w now Hc Hok' Hn) as (t'' & r & Ei & Hok'').
    apply safe_bind. eapply safe_lift; [exact Ei|]. by apply send_due_safe.
Qed.

Lemma update_timers_safe t w :
  clock_ok (w_clock w) -> tunn_ok peer mtu t w -> safe (update_timers t d) w keeps.
Proof.
  intros Hc Hok. destruct (update_timers_eq peer mtu t d w Hok) as (w1 & rl & Hle & _ & E).
  pose proof (refreshed_ok _ _ _ _ rl Hc Hok) as Hok1.
  destruct (after_refresh_safe (refreshed t rl (age t w)) (age t w) w1) as (w2 & r & E2 & Hle2 & Hk).
  - by eapply world_clock.
  - by eapply tunn_ok_later.
  - intros n. apply (timer_get_past _ _ n (tk_timers _ _ _ _ Hok1)). by apply (age_nonneg _ _ _ _ Hc Hok).
  - exists w2, r. rewrite E. eauto using world_le_trans.
Qed.
End safety.

(** ** Runs *)

(** The calls a tunnel takes. *)
Inductive op :=
| Encapsulate (src : bytes)
| Decapsulate (addr : option IpAddr) (datagram : bytes)
| UpdateTimers
| Initiate (force_resend : bool).

Section runs.
Context {C : Crypto}.

Definition run_op (t : Tunn) (o : op) (d : nat) : M (Tunn * TunnResult) :=
  match o with
  | Encapsulate src => encapsulate t src d
  | Decapsulate addr datagram => decapsulate t addr datagram d
  | UpdateTimers => update_timers t d
  | Initiate force => Tunn_format_handshake_initiation t d force
  end.

Fixpoint run_ops (t : Tunn) (ops : list op) (d : nat) : M (Tunn * list TunnResult) :=
  match ops with
  | [] => mret (t, [])
  | o :: ops' =>
      let* (t, r) := run_op t o d in
      let* (t, rs) := run_ops t ops' d in
      mret (t, r :: rs)
  end.
End runs.

Section run_facts.
Context {C : Crypto} {L : CryptoLaws C}.

(** Arguments within the sizes the documentation asks for: outgoing packets
    within the MTU, incoming datagrams no longer than the buffer and the data
    header. A data packet that authenticates under the session it names has a
    counter below the limit of the replay window; forged ones carry any. *)
Definition op_fits (mtu d : nat) (t : Tunn) (o : op) : Prop :=
  match o with
  | Encapsulate src => (length src <= mtu)%nat
  | Decapsulate _ datagram =>
      bytes_ok datagram /\ (length datagram <= d + 16)%nat /\
      forall p, parse_incoming_packet datagram = Ok (PPacketData p) -> counter_fits t p
  | _ => True
  end.

(** Every operation of a run fits the tunnel it finds. *)
Definition ops_fit (mtu d : nat) : Tunn -> list op -> World -> Prop :=
  along (fun t o => run_op t o d) (op_fits mtu d).

Lemma run_op_safe peer mtu d t o w :
  (mtu + 32 <= d)%nat -> (COOKIE_REPLY_SZ <= d)%nat ->
  clock_ok (w_clock w) -> tunn_ok peer mtu t w -> op_fits mtu d t o ->
  safe (run_op t o d) w (keeps peer mtu).
Proof.
  intros Hd Hd' Hc Hok Ho. destruct o; cbn in *.
  - by apply encapsulate_safe.
  - destruct Ho as (? & ? & ?). by apply decapsulate_safe.
  - by apply update_timers_safe.
  - by apply tunn_initiate_safe.
Qed.

Lemma run_ops_safe peer mtu d ops t w :
  (mtu + 32 <= d)%nat -> (COOKIE_REPLY_SZ <= d)%nat ->
  clock_ok (w_clock w) -> tunn_ok peer mtu t w -> ops_fit mtu d t ops w ->
  safe (run_ops t ops d) w (fun w' r => tunn_ok peer mtu (fst r) w' /\
    length (snd r) = length ops).
Proof.
  intros Hd Hd'. revert t w. induction ops as [|o ops IH]; intros t w Hc Hok Hops; [by apply safe_ret|].
  destruct Hops as [Ho Hops]. cbn [run_ops].
  apply safe_bind. eapply safe_weaken; [by apply safe_eqn, (run_op_safe peer mtu)|].
  intros w' [t' r] Hle [E Hk]. apply safe_bind.
  eapply safe_weaken; [apply IH; [by eapply world_clock|exact Hk|by eapply Hops]|].
  intros w'' [t'' rs] _ [Hok'' Hlen]. apply safe_ret. cbn in *. auto.
Qed.

(** The peer number of a tunnel made for [index]: the upper byte is lost. *)
Lemma own_new index : u32 index -> own (index mod 2 ^ 24) (wrap 32 (Z.shiftl index 8)).
Proof.
  intros Hu. unfold own, u32, wrap in *. rewrite Z.shiftl_mul_pow2 by lia.
  change (2 ^ 8) with 256 in *. change (2 ^ 32) with 4294967296 in *.
  change (2 ^ 24) with 16777216. dlia.
Qed.

Lemma tunn_new_safe priv pub psk keepalive index rl mtu w :
  clock_ok (w_clock w) -> u32 index ->
  safe (Tunn_new priv pub psk keepalive index rl) w
    (fun w' t => tunn_ok (index mod 2 ^ 24) mtu t w').
Proof.
  intros Hc Hu. unfold Tunn_new. apply safe_bind.
  eapply safe_weaken with (P := fun w' h => next_index h = wrap 32 (Z.shiftl index 8) /\
    state h = HsNone /\ previous h = HsNone).
  { do 2 eexists. split; [done|]. split; [split; cbn; [done|lia]|done]. }
  intros w1 h Hle1 (Hn & Hs & Hp). apply safe_bind, safe_bind, safe_now. intros w2 Hle2 Ht. apply safe_ret.
  set (tm := mkTimers _ _ _ _ _ _ _ _). apply safe_bind.
  eapply safe_weaken with (P := fun _ _ => True).
  { destruct rl; [by apply safe_ret|]. do 2 eexists. split; [done|]. split; [split; cbn; [done|lia]|done]. }
  intros w3 r Hle3 _. apply safe_ret.
  pose proof (world_clock _ _ Hle1 Hc) as Hc1. pose proof (world_clock _ _ Hle2 Hc1) as Hc2.
  pose proof (clock_wf _ Hc1 (w_ticks w1)) as Hi. constructor; cbn.
  - constructor; rewrite ?Hn, ?Hs, ?Hp; [by apply own_new|done..].
  - done.
  - intros k s E. by apply (lookup_replicate N_SESSIONS None) in E as [? _].
  - unfold MAX_QUEUE_DEPTH. lia.
  - done.
  - pose proof (duration_since_nonneg (w_clock w3 (w_ticks w3)) (w_clock w1 (w_ticks w1))
      (clock_wf _ (world_clock _ _ Hle3 Hc2) _) Hi) as Ha.
    change (timers_ok tm (duration_since (w_clock w3 (w_ticks w3)) (w_clock w1 (w_ticks w1)))).
    constructor; try done; apply Forall_replicate; (lia || done).
Qed.

(** C5: no panic, and an invariant of every run. From a fresh tunnel, any
    sequence of encapsulations, datagrams, timer passes and forced initiations
    returns a result for every call: no buffer panic, no underflow of a
    duration, no endless loop. Outgoing packets are within the MTU, the buffer
    has 32 bytes more and at least 64, and datagrams are at most 16 bytes longer
    than the buffer. Datagrams may be hostile: handshake messages of any
    content, and forged data packets with any counter. Only of a data packet
    that authenticates under the session it names, so that the holder of that
    session's key has made it, the counter is assumed to be below 2^64 - 1024
    (at the very end of the range the clearing loop of the replay window does
    run on: [Replay.clearing_stalls_near_wrap]). Afterwards every session still
    sits in the slot of its index and carries the tunnel's peer number, at most
    256 packets are queued, and no timer is ahead of the clock. *)
Theorem tunnel_never_panics priv pub psk keepalive index rl ops mtu d w :
  clock_ok (w_clock w) -> u32 index ->
  (mtu + 32 <= d)%nat -> (COOKIE_REPLY_SZ <= d)%nat ->
  (forall w0 t0, Tunn_new priv pub psk keepalive index rl w = Ret (w0, t0) -> ops_fit mtu d t0 ops w0) ->
  exists w' t rs,
    (let* t := Tunn_new priv pub psk keepalive index rl in run_ops t ops d) w = Ret (w', (t, rs)) /\
    length rs = length ops /\ tunn_ok (index mod 2 ^ 24) mtu t w'.
Proof.
  intros Hc Hu Hd Hd' Hops.
  assert (safe (let* t := Tunn_new priv pub psk keepalive index rl in run_ops t ops d) w
    (fun w' r => tunn_ok (index mod 2 ^ 24) mtu (fst r) w' /\ length (snd r) = length ops))
    as Hs.
  2: { destruct Hs as (w' & [t rs] & E & _ & H1 & H2). by exists w', t, rs. }
  apply safe_bind. eapply safe_weaken; [by apply safe_eqn, (tunn_new_safe _ _ _ _ _ _ mtu)|].
  intros w' t Hle [E Hok]. apply run_ops_safe; try done; [by eapply world_clock|by apply Hops].
Qed.
End run_facts.
