(* ===== verification/TunnProps.v ===== *)
(** Behaviour of the tunnel over time and between two ends: expiry, rekeying,
    and delivery of packets from one end to the other. *)

From S2P Require Import Prelude Time Errors Replay Crypto ToyCrypto Packet.
From S2P Require Import Session Handshake HandshakeFacts RateLimiter Timers Tunn TunnFacts.

(** ** Which session slots are in use *)

(** No slot comes into use from [t] to [t']. *)
Definition no_new_session (t t' : Tunn) : Prop :=
  forall k s', sessions t' !! k = Some (Some s') -> exists s, sessions t !! k = Some (Some s).

Lemma no_new_refl t t' : sessions t' = sessions t -> no_new_session t t'.
Proof. intros E k s'. rewrite E. eauto. Qed.

Lemma no_new_trans t1 t2 t3 : no_new_session t1 t2 -> no_new_session t2 t3 -> no_new_session t1 t3.
Proof. intros H1 H2 k s E. destruct (H2 k s E) as [s2 E2]. by apply (H1 k s2). Qed.

Lemma no_new_none t t' (ss : list (option Session)) :
  sessions t' = map (fun _ => None) ss -> no_new_session t t'.
Proof. intros E k s. rewrite E, list_lookup_fmap. by destruct (ss !! k). Qed.

Lemma no_new_put t t' i s s' :
  sessions t' = <[slot i := Some s']> (sessions t) -> session_at t i = Some s -> no_new_session t t'.
Proof.
  intros E Hs%session_at_spec k s2. rewrite E. destruct (decide (slot i = k)) as [<-|].
  - eauto.
  - rewrite list_lookup_insert_ne by done. eauto.
Qed.

Section timers.
Context {C : Crypto} {L : CryptoLaws C}.

Lemma initiate_sessions t d force w w' t' r :
  Tunn_format_handshake_initiation t d force w = Ret (w', (t', r)) -> sessions t' = sessions t.
Proof.
  unfold Tunn_format_handshake_initiation. intros E.
  destruct (_ && _); [unfold mret in E; by simplify_eq|].
  apply mbind_ret_inv in E as (w1 & t1 & E1 & E).
  assert (sessions t1 = sessions t) as Hs.
  { destruct (is_expired (handshake t)); unfold mbind, mret in E1; cbn in E1; by simplify_eq. }
  apply mbind_ret_inv in E as (w2 & [h [pkt|e]] & _ & E); unfold mret in E; simplify_eq; [|exact Hs].
  destruct (negb _); exact Hs.
Qed.

Lemma encapsulate_no_new t src d w w' t' r :
  encapsulate t src d w = Ret (w', (t', r)) -> no_new_session t t'.
Proof.
  unfold encapsulate. intros E. destruct (session_at t (current t)) as [s|] eqn:Es.
  - apply mbind_ret_inv in E as (w1 & [s' pkt] & _ & E). unfold mret in E. simplify_eq.
    eapply no_new_put; [|exact Es]. by destruct src.
  - apply initiate_sessions in E. apply no_new_refl. rewrite E. unfold queue_packet. by case_match.
Qed.

Lemma send_due_no_new t b d w w' t' r :
  send_due t b d w = Ret (w', (t', r)) -> no_new_session t t'.
Proof.
  destruct b as [[] []]; cbn; intros E;
    [apply initiate_sessions in E; by apply no_new_refl..|by eapply encapsulate_no_new|].
  unfold mret in E. simplify_eq. by apply no_new_refl.
Qed.

Lemma idle_timers_sessions t snap now t' r :
  idle_timers t snap now = Ret (t', r) -> sessions t' = sessions t.
Proof.
  unfold idle_timers. intros E.
  do 3 (apply obind_ret_inv in E as (? & _ & E)).
  destruct (_ || _); [simplify_eq; by case_match|].
  do 2 (apply obind_ret_inv in E as (? & _ & E)). simplify_eq. repeat case_match; done.
Qed.

Lemma expire_no_new t w w' t' r :
  expire_connection t w = Ret (w', (t', r)) -> no_new_session t t'.
Proof.
  unfold expire_connection, clear_all, Timers_clear, mbind, mret. cbn. intros E. simplify_eq.
  by eapply no_new_none.
Qed.

Lemma after_refresh_no_new t now d w w' t' r :
  after_refresh t now d w = Ret (w', (t', r)) -> no_new_session t t'.
Proof.
  unfold after_refresh. intros E.
  destruct (is_expired (handshake t)); [unfold mret in E; simplify_eq; by apply no_new_refl|].
  apply mbind_ret_inv in E as (w1 & t1 & E1 & E).
  assert (sessions t1 = sessions t) as Hs.
  { unfold mlift, clear_old_cookie in E1. repeat (apply obind_ret_inv in E1 as (? & ? & E1)).
    simplify_eq. repeat match goal with H : obind _ _ = Ret _ |- _ => apply obind_ret_inv in H as (? & _ & H) end.
    simplify_eq. by case_match. }
  eapply no_new_trans; [by apply no_new_refl|].
  apply mbind_ret_inv in E as (w2 & est & _ & E).
  case_match; [by eapply expire_no_new|]. destruct (timer (handshake t1)).
  - apply mbind_ret_inv in E as (w3 & try & _ & E). case_match; [by eapply expire_no_new|].
    apply mbind_ret_inv in E as (w4 & wt & _ & E). by eapply send_due_no_new.
  - apply mbind_ret_inv in E as (w3 & [t2 b] & E2 & E). unfold mlift in E2.
    apply obind_ret_inv in E2 as ([t3 b3] & E3 & E2). simplify_eq.
    eapply no_new_trans; [apply no_new_refl; by eapply idle_timers_sessions|].
    by eapply send_due_no_new.
Qed.

(** C12: a connection that cannot be renewed is wiped. When no new session was
    established for three times the reject time, a timer pass reports the
    connection as expired and leaves no session, no queued packet and no
    handshake in progress behind, whatever was in the tunnel. *)
Theorem expired_connection_wiped peer mtu t d w :
  clock_ok (w_clock w) -> tunn_ok peer mtu t w -> is_expired (handshake t) = false ->
  REJECT_AFTER_TIME * 3 <= age t w - timer_get (timers t) TimeSessionEstablished ->
  exists w' t', update_timers t d w = Ret (w', (t', TErr ConnectionExpired)) /\
    (forall i, session_at t' i = None) /\ packet_queue t' = [] /\
    is_expired (handshake t') = true /\ is_in_progress (handshake t') = false.
Proof.
  intros Hc Hok Hexp Hage.
  destruct (update_timers_eq peer mtu t d w Hok) as (w1 & rl & Hle & _ & E).
  pose proof (refreshed_ok _ _ _ _ rl Hc Hok) as Hok1. rewrite E.
  set (t1 := refreshed t rl (age t w)) in *. pose proof (age_nonneg _ _ _ _ Hc Hok) as H0.
  assert (timer_get (timers t1) TimeSessionEstablished = timer_get (timers t) TimeSessionEstablished) as Hte.
  { apply (timer_get_set (timers t) TimeCurrent); [apply Hok|done..]. }
  assert (forall n, timer_get (timers t1) n <= age t w) as Hpast.
  { intros n. apply (timer_get_past _ _ n (tk_timers _ _ _ _ Hok1) H0). }
  pose proof (tunn_ok_later _ _ _ _ Hc Hok1 _ Hle) as Hok2.
  destruct (clear_old_cookie_ok peer mtu t1 w1 (age t w) Hok2 (Hpast _)) as (t2 & E2 & Hok3 & _).
  unfold after_refresh. replace (is_expired (handshake t1)) with false by (symmetry; exact Hexp).
  unfold mbind at 1, mlift at 1. rewrite E2. cbn [obind].
  unfold mbind at 1, mlift at 1. rewrite dur_sub_ret by apply Hpast. cbn [obind].
  rewrite Hte, (proj2 (Z.leb_le _ _) Hage).
  destruct (expire_safe peer mtu t2 w1) as (w3 & [t3 r3] & E3 & _ & _ & Hr & Hx & Hs & Hq);
    [by eapply world_clock|done|]. cbn in *. subst r3.
  exists w3, t3. split; [exact E3|]. split_and!; [|done..|].
  - intros i. unfold session_at. rewrite Hs, list_lookup_fmap. by destruct (sessions t2 !! slot i).
  - unfold is_expired, is_in_progress in *. by destruct (state (handshake t3)).
Qed.

(** C11: no session outlives the reject time. Whatever a timer pass does,
    every session still there afterwards was established at most
    [REJECT_AFTER_TIME] before it. *)
Theorem stale_sessions_dropped peer mtu t d w w' t' r k s :
  clock_ok (w_clock w) -> tunn_ok peer mtu t w ->
  update_timers t d w = Ret (w', (t', r)) -> sessions t' !! k = Some (Some s) ->
  exists since, session_timers (timers t) !! k = Some since /\
    age t w - since <= REJECT_AFTER_TIME.
Proof.
  intros Hc Hok E Hk. destruct (update_timers_eq peer mtu t d w Hok) as (w1 & rl & _ & _ & E').
  rewrite E' in E. apply after_refresh_no_new in E. destruct (E _ _ Hk) as [s1 Hs1].
  cbn in Hs1. rewrite lookup_zip_with in Hs1.
  destruct (sessions t !! k); [|done]. destruct (session_timers (timers t) !! k) as [since|]; [|done].
  exists since. split; [done|]. cbn in Hs1. unfold stale in Hs1.
  destruct (Z.ltb_spec REJECT_AFTER_TIME (age t w - since)); [simplify_eq|done].
Qed.
End timers.

(** ** From one end to the other *)

(** An IP packet whose length field is its length. *)
Definition ip_wf (pkt : bytes) : Prop :=
  (ip_version pkt = 4 /\ (20 <= length pkt)%nat /\
   from_be_bytes (slice 2 4 pkt) = Z.of_nat (length pkt)) \/
  (ip_version pkt = 6 /\ (40 <= length pkt)%nat /\
   from_be_bytes (slice 4 6 pkt) + 40 = Z.of_nat (length pkt)).

(** What a result hands to the tunnel interface. *)
Definition tunnel_payload (r : TunnResult) : option bytes :=
  match r with
  | WriteToTunnelV4 b _ | WriteToTunnelV6 b _ => Some b
  | _ => None
  end.

Lemma validate_wf t pkt :
  ip_wf pkt -> tunnel_payload (snd (validate_decapsulated_packet t pkt)) = Some pkt.
Proof.
  intros Hwf. unfold validate_decapsulated_packet, IPV4_MIN_HEADER_SIZE, IPV6_MIN_HEADER_SIZE.
  destruct pkt as [|b pkt]; [destruct Hwf as [(_ & ? & _)|(_ & ? & _)]; cbn in *; lia|].
  set (p := b :: pkt) in *.
  destruct Hwf as [(Hv & Hl & Hlen)|(Hv & Hl & Hlen)]; rewrite Hv; cbn [Z.eqb Pos.eqb andb];
    rewrite (proj2 (Nat.leb_le _ _) Hl); cbv beta iota zeta.
  - change (slice IPV4_LEN_OFF (IPV4_LEN_OFF + IP_LEN_SZ) p) with (slice 2 4 p). rewrite Hlen.
    rewrite Z.ltb_irrefl. cbn [snd tunnel_payload]. by rewrite Nat2Z.id, firstn_all.
  - change (slice IPV6_LEN_OFF (IPV6_LEN_OFF + IP_LEN_SZ) p) with (slice 4 6 p).
    change (Z.of_nat 40) with 40. rewrite Hlen.
    rewrite Z.ltb_irrefl. cbn [snd tunnel_payload]. by rewrite Nat2Z.id, firstn_all.
Qed.

Lemma validate_sessions t pkt : sessions (fst (validate_decapsulated_packet t pkt)) = sessions t.
Proof.
  unfold validate_decapsulated_packet. destruct pkt; [done|]. by repeat case_match; simplify_eq.
Qed.

Lemma set_current_sessions t i : sessions (set_current_session t i) = sessions t.
Proof. unfold set_current_session. by repeat case_match. Qed.

Section ends.
Context {C : Crypto} {L : CryptoLaws C}.

Lemma parse_nonempty wire p : parse_incoming_packet wire = Ok p -> exists b rest, wire = b :: rest.
Proof. destruct wire; [discriminate|eauto]. Qed.

(** Data packets pass the limiter uncounted. *)
Lemma verify_data r addr wire p d w :
  parse_incoming_packet wire = Ok (PPacketData p) ->
  verify_packet r addr wire d w = Ret (w, (r, Ok (PPacketData p))).
Proof. intros E. unfold verify_packet. by rewrite E. Qed.

(** Handshake messages with a good first MAC pass an endpoint below its limit. *)
Lemma verify_signed r p pkt d w :
  signed (mac1_key r) p pkt -> count r < limit r ->
  verify_packet r None pkt d w = Ret (w, (set_count r (wadd 64 (count r) 1), Ok p)).
Proof.
  intros Hs Hl. rewrite verify_without_address, (signed_parse _ _ _ Hs).
  destruct Hs as (Hp & Hm & mac2 & H2 & ->).
  assert (exists i, handshake_sender p = Some i) as [i Hi] by (destruct p; eauto; done).
  rewrite Hi. destruct (split_macs (packet_prefix p) (b2s_keyed_mac_16 (mac1_key r) (packet_prefix p)) mac2)
    as [E1 E2]; [apply b2s_keyed_mac_16_len|done|].
  assert (authentic (mac1_key r) (packet_prefix p ++ b2s_keyed_mac_16 (mac1_key r) (packet_prefix p) ++ mac2) = true)
    as ->.
  { unfold authentic. rewrite parse_serialize, Hi, E1, E2, take_app_length'.
    - apply bytes_eqb_refl.
    - by rewrite b2s_keyed_mac_16_len.
    - done.
    - by rewrite length_app, b2s_keyed_mac_16_len, H2. }
  by rewrite (proj2 (Z.leb_gt _ _) Hl).
Qed.

Lemma encapsulate_session t src d w s s' wire :
  session_at t (current t) = Some s -> format_packet_data s src d = Ret (s', wire) ->
  exists t', encapsulate t src d w = Ret (w, (t', WriteToNetwork wire)) /\
    sessions t' = <[slot (current t) := Some s']> (sessions t) /\
    current t' = current t /\ packet_queue t' = packet_queue t /\ handshake t' = handshake t.
Proof.
  intros Es E. unfold encapsulate. rewrite Es. unfold mbind, mlift. rewrite E. cbn [obind].
  eexists. split; [reflexivity|]. by destruct src.
Qed.

Lemma receive_ok_index s p d s' pt :
  receive_packet_data s p d = Ret (s', Ok pt) -> pd_receiver_idx p = receiving_index s.
Proof.
  unfold receive_packet_data. intros E. repeat case_hyp E; simplify_eq. by zbool.
Qed.

(** What a data packet that opens does to the tunnel. *)
Lemma decapsulate_data_eq t addr wire p s s' pt d w :
  parse_incoming_packet wire = Ok (PPacketData p) ->
  session_at t (pd_receiver_idx p) = Some s -> receive_packet_data s p d = Ret (s', Ok pt) ->
  decapsulate t addr wire d w =
    Ret (w, validate_decapsulated_packet
      (tick (set_current_session (put_session (set_limiter t (rate_limiter t)) (pd_receiver_idx p) (Some s'))
               (pd_receiver_idx p)) TimeLastPacketReceived) pt).
Proof.
  intros Hp Hs Hr. pose proof (parse_nonempty _ _ Hp) as (b & rest & Hw). unfold decapsulate. rewrite Hw, <- Hw.
  unfold mbind at 1. rewrite (verify_data _ _ _ _ _ _ Hp). cbn [obind].
  unfold handle_verified_packet, mbind, mlift, handle_data.
  replace (session_at (set_limiter t (rate_limiter t)) (pd_receiver_idx p)) with (Some s) by (by rewrite <- Hs).
  rewrite Hr. cbn [obind]. by destruct (validate_decapsulated_packet _ pt).
Qed.

Lemma decapsulate_data t addr wire p s s' pt d w :
  parse_incoming_packet wire = Ok (PPacketData p) ->
  session_at t (pd_receiver_idx p) = Some s -> receive_packet_data s p d = Ret (s', Ok pt) ->
  exists t' r, decapsulate t addr wire d w = Ret (w, (t', r)) /\
    sessions t' = <[slot (pd_receiver_idx p) := Some s']> (sessions t) /\
    (pt = [] -> r = Done) /\ (ip_wf pt -> tunnel_payload r = Some pt).
Proof.
  intros Hp Hs Hr. rewrite (decapsulate_data_eq t addr wire p s s' pt d w Hp Hs Hr).
  match goal with |- context [validate_decapsulated_packet ?t0 pt] => set (t1 := t0) end.
  pose proof (validate_sessions t1 pt) as Hsess. pose proof (validate_wf t1 pt) as Hwf.
  assert (pt = [] -> snd (validate_decapsulated_packet t1 pt) = Done) as Hnil by (by intros ->).
  destruct (validate_decapsulated_packet t1 pt) as [t2 r]. cbn [fst snd obind] in *.
  exists t2, r. split; [reflexivity|]. rewrite Hsess. split; [|done].
  unfold t1, tick. cbn [sessions set_timers]. by rewrite set_current_sessions.
Qed.

(** The queue stays, and so does the current session when the packet came
    through it. *)
Lemma decapsulate_data_frame t addr wire p s s' pt d w t' r :
  parse_incoming_packet wire = Ok (PPacketData p) ->
  session_at t (pd_receiver_idx p) = Some s -> receive_packet_data s p d = Ret (s', Ok pt) ->
  decapsulate t addr wire d w = Ret (w, (t', r)) ->
  packet_queue t' = packet_queue t /\ rate_limiter t' = rate_limiter t /\
  (current t = pd_receiver_idx p -> current t' = current t).
Proof.
  intros Hp Hs Hr. rewrite (decapsulate_data_eq t addr wire p s s' pt d w Hp Hs Hr). intros E.
  match type of E with context [validate_decapsulated_packet ?t0 pt] => set (t1 := t0) in E end.
  assert (packet_queue t' = packet_queue t1 /\ rate_limiter t' = rate_limiter t1 /\ current t' = current t1) as (-> & -> & ->).
  { destruct (validate_decapsulated_packet t1 pt) as [t2 r2] eqn:Ev. simplify_eq.
    unfold validate_decapsulated_packet in Ev. destruct pt; [by simplify_eq|]. by repeat case_match; simplify_eq. }
  unfold t1, tick, set_current_session. cbn zeta. cbn [current put_session set_sessions set_limiter]. split_and!.
  - cbn [packet_queue set_timers]. by repeat (case_match; cbn).
  - cbn [rate_limiter set_timers]. by repeat (case_match; cbn).
  - intros Hc. rewrite Hc, Z.eqb_refl. exact Hc.
Qed.

(** Delivery. When the current session of one tunnel and a session of
    another are two ends of a channel and the next counter is acceptable, an
    IP packet of the right length given to the first tunnel comes out of the
    second one unchanged, and the two sessions stay in step. *)
Theorem packet_delivered ta tb sa sb win pkt da db wa wb addr :
  session_at ta (current ta) = Some sa -> session_at tb (receiving_index sb) = Some sb ->
  paired sa sb -> session_window sb win ->
  counter_ok (sending_key_counter sa) -> window_accepts win (sending_key_counter sa) = true ->
  ip_wf pkt -> (length pkt + 32 <= da)%nat -> (length pkt + 16 <= db)%nat ->
  exists ta' tb' sb' wire r,
    encapsulate ta pkt da wa = Ret (wa, (ta', WriteToNetwork wire)) /\
    decapsulate tb addr wire db wb = Ret (wb, (tb', r)) /\
    tunnel_payload r = Some pkt /\
    sessions tb' = <[slot (receiving_index sb) := Some sb']> (sessions tb) /\
    paired sa sb' /\ session_window sb' (window_mark win (sending_key_counter sa)).
Proof.
  intros Ha Hb Hpair Hw Hc Hacc Hwf Hda Hdb.
  destruct (seal_open sa sb win pkt da db Hpair Hw Hc Hacc Hda Hdb)
    as (wire & p & sb' & E1 & _ & Hp & E2 & Hw' & Hpair').
  destruct (encapsulate_session ta pkt da wa sa _ wire Ha E1) as (ta' & Ea & _).
  pose proof (receive_ok_index _ _ _ _ _ E2) as Hi. rewrite <- Hi in Hb.
  destruct (decapsulate_data tb addr wire p sb sb' pkt db wb Hp Hb E2) as (tb' & r & Eb & Hs & _ & Hr).
  exists ta', tb', sb', wire, r. rewrite <- Hi. auto 10.
Qed.

(** ** Bringing a connection up *)

Lemma encapsulate_no_session t pkt d w w' h1 init :
  session_at t (current t) = None -> is_in_progress (handshake t) = false ->
  is_expired (handshake t) = false -> (length (packet_queue t) < MAX_QUEUE_DEPTH)%nat ->
  format_handshake_initiation (handshake t) d w = Ret (w', (h1, Ok init)) ->
  exists t', encapsulate t pkt d w = Ret (w', (t', WriteToNetwork init)) /\
    handshake t' = h1 /\ sessions t' = sessions t /\ current t' = current t /\
    packet_queue t' = packet_queue t ++ [pkt] /\ rate_limiter t' = rate_limiter t.
Proof.
  intros Hs Hp Hx Hq E. unfold encapsulate. rewrite Hs. unfold Tunn_format_handshake_initiation, queue_packet.
  rewrite (proj2 (Nat.ltb_lt _ _) Hq). cbn [handshake set_queue]. rewrite Hp, Hx. cbn [andb negb].
  unfold mbind, mret. cbn [obind handshake set_queue]. rewrite E. cbn [obind]. rewrite Hp. cbn [negb].
  eexists. split; [reflexivity|]. split_and!; reflexivity.
Qed.

Lemma decapsulate_init t p init h1 resp s d w w' :
  signed (mac1_key (rate_limiter t)) (PHandshakeInit p) init ->
  count (rate_limiter t) < limit (rate_limiter t) ->
  receive_handshake_initialization (handshake t) p d w = Ret (w', (h1, Ok (resp, s))) ->
  exists t', decapsulate t None init d w = Ret (w', (t', WriteToNetwork resp)) /\
    sessions t' = <[slot (local_index s) := Some s]> (sessions t).
Proof.
  intros Hs Hl E. pose proof (parse_nonempty _ _ (signed_parse _ _ _ Hs)) as (b & rest & Hw).
  unfold decapsulate. rewrite Hw, <- Hw.
  unfold mbind at 1. rewrite (verify_signed _ _ _ _ _ Hs Hl). cbn [obind].
  unfold handle_verified_packet, handle_handshake_init, mbind. cbn [handshake set_limiter].
  rewrite E. cbn [obind]. eexists. split; [reflexivity|done].
Qed.

(** A session just stored at the present time becomes the current one. *)
Lemma current_after_store t t1 l s :
  length (sessions t) = N_SESSIONS -> session_at t (current t) = None ->
  sessions t1 = <[slot l := Some s]> (sessions t) -> current t1 = current t ->
  let t2 := set_current_session t1 l in
  current t2 = l /\ session_at t2 l = Some s /\ packet_queue t2 = packet_queue t1.
Proof.
  intros Hlen Hcur Hs Hc t2. assert (session_at t2 l = Some s) as Hl.
  { unfold session_at, t2. rewrite set_current_sessions, Hs.
    by rewrite list_lookup_insert_eq by (rewrite Hlen; apply slot_bound). }
  split; [|split; [done|unfold t2, set_current_session; by repeat case_match]].
  unfold t2, set_current_session. destruct (Z.eqb_spec (current t1) l); [done|].
  destruct (decide (slot (current t1) = slot l)) as [->|Hne].
  - by rewrite Z.leb_refl, orb_true_r.
  - assert (session_at t1 (current t1) = None) as ->; [|done].
    unfold session_at in *. rewrite Hs, list_lookup_insert_ne by done. by rewrite Hc.
Qed.

Lemma decapsulate_response t q resp h2 s s' ka d w w' :
  signed (mac1_key (rate_limiter t)) (PHandshakeResponse q) resp ->
  count (rate_limiter t) < limit (rate_limiter t) ->
  length (sessions t) = N_SESSIONS -> session_at t (current t) = None ->
  receive_handshake_response (handshake t) q w = Ret (w', (h2, Ok s)) ->
  format_packet_data s [] d = Ret (s', ka) ->
  exists t', decapsulate t None resp d w = Ret (w', (t', WriteToNetwork ka)) /\
    session_at t' (current t') = Some s' /\ packet_queue t' = packet_queue t.
Proof.
  intros Hs Hl Hlen Hcur E Ef. pose proof (parse_nonempty _ _ (signed_parse _ _ _ Hs)) as (b & rest & Hw).
  unfold decapsulate. rewrite Hw, <- Hw.
  unfold mbind at 1. rewrite (verify_signed _ _ _ _ _ Hs Hl). cbn [obind].
  unfold handle_verified_packet, handle_handshake_response, mbind. cbn [handshake set_limiter].
  rewrite E. cbn [obind]. unfold mlift. rewrite Ef. cbn [obind]. eexists. split; [reflexivity|].
  match goal with |- session_at (set_current_session ?t0 ?l) _ = _ /\ _ =>
    destruct (current_after_store t t0 l s' Hlen Hcur) as (H1 & H2 & H3) end.
  - cbn. by rewrite slot_mod.
  - done.
  - rewrite H1. split; [exact H2|exact H3].
Qed.

Lemma flush_one t pkt d w s s' wire :
  packet_queue t = [pkt] -> session_at t (current t) = Some s ->
  format_packet_data s pkt d = Ret (s', wire) ->
  exists t', decapsulate t None [] d w = Ret (w, (t', WriteToNetwork wire)) /\ packet_queue t' = [].
Proof.
  intros Hq Hs Hf. cbn [decapsulate]. unfold send_queued_packet, dequeue_packet. rewrite Hq.
  destruct (encapsulate_session (set_queue t []) pkt d w s s' wire Hs Hf) as (t' & E & _ & _ & Hq' & _).
  unfold mbind. rewrite E. cbn [obind]. exists t'. split; [reflexivity|exact Hq'].
Qed.

(** Two idle tunnels configured for each other; the first has a packet to
    send. *)
Record idle_pair (ta tb : Tunn) (w : World) : Prop := {
  ip_peers : peers (params (handshake ta)) (params (handshake tb));
  ip_index_a : u32 (next_index (handshake ta));
  ip_index_b : u32 (next_index (handshake tb));
  ip_newer : Tai64N_after (stamp_tai (stamper (handshake ta)) (w_clock w (w_ticks w)))
    (last_handshake_timestamp (handshake tb)) = true;
  ip_session : session_at ta (current ta) = None;
  ip_queue : packet_queue ta = [];
  ip_idle : is_in_progress (handshake ta) = false;
  ip_alive : is_expired (handshake ta) = false;
  ip_ring_a : length (sessions ta) = N_SESSIONS;
  ip_ring_b : length (sessions tb) = N_SESSIONS;
  ip_mac_a : mac1_key (rate_limiter ta) = b2s_hash LABEL_MAC1 (static_public (params (handshake ta)));
  ip_mac_b : mac1_key (rate_limiter tb) = b2s_hash LABEL_MAC1 (static_public (params (handshake tb)));
  ip_free_a : count (rate_limiter ta) < limit (rate_limiter ta);
  ip_free_b : count (rate_limiter tb) < limit (rate_limiter tb)
}.

(** The four messages that bring the session up, and the channel they leave. *)
Lemma connection_up ta tb pkt da db w1 w2 w3 w4 :
  idle_pair ta tb w1 -> (HANDSHAKE_INIT_SZ <= da)%nat -> (HANDSHAKE_RESP_SZ <= db)%nat ->
  exists x1 x2 x3 ta1 ta2 tb1 tb2 init resp ka sa sb,
    encapsulate ta pkt da w1 = Ret (x1, (ta1, WriteToNetwork init)) /\
    decapsulate tb None init db w2 = Ret (x2, (tb1, WriteToNetwork resp)) /\
    decapsulate ta1 None resp da w3 = Ret (x3, (ta2, WriteToNetwork ka)) /\
    decapsulate tb1 None ka db w4 = Ret (w4, (tb2, Done)) /\
    session_at ta2 (current ta2) = Some sa /\ session_at tb2 (receiving_index sb) = Some sb /\
    paired sa sb /\ sending_key_counter sa = 1 /\ session_window sb (window_mark window_init 0) /\
    packet_queue ta2 = [pkt].
Proof.
  intros [Hp Hua Hub Hts Hsa Hqa Hpa Hxa Hla Hlb Hma Hmb Hca Hcb] Hda Hdb.
  destruct (handshake_exchange _ _ w1 w2 da db Hp Hua Hub Hts Hda Hdb)
    as (a1 & init & p & b1 & resp & q & sb & E1 & Hs1 & E2 & Hs2 & _ & _ & Hresp).
  destruct (Hresp w3) as (a2 & sa & E3 & [Hab _ [Ha0 _] [_ Hb0]] & _ & _).
  rewrite (po_mac1 _ (peers_a _ _ Hp)), (peers_ab _ _ Hp), <- Hmb in Hs1.
  rewrite (po_mac1 _ (peers_b _ _ Hp)), (peers_ba _ _ Hp), <- Hma in Hs2.
  destruct (encapsulate_no_session ta pkt da w1 _ a1 init Hsa Hpa Hxa ltac:(rewrite Hqa; cbv; lia) E1)
    as (ta1 & F1 & Hh1 & Hss1 & Hc1 & Hq1 & Hr1).
  destruct (decapsulate_init tb p init b1 resp sb db w2 _ Hs1 Hcb E2) as (tb1 & F2 & Hss2).
  unfold HANDSHAKE_INIT_SZ, HANDSHAKE_RESP_SZ in *.
  destruct (seal_open sa sb window_init [] da db Hab Hb0) as (ka & pk & sb1 & G1 & _ & G2 & G3 & Hw1 & Hab1);
    rewrite ?Ha0; [done..|cbn; lia|cbn; lia|].
  rewrite Ha0 in *. rewrite <- Hr1 in Hs2, Hca. rewrite <- Hh1 in E3.
  destruct (decapsulate_response ta1 q resp a2 sa _ ka da w3 _ Hs2 Hca
    ltac:(by rewrite Hss1) ltac:(unfold session_at in *; by rewrite Hss1, Hc1) E3 G1)
    as (ta2 & F3 & Hcur2 & Hq2).
  pose proof (receive_ok_index _ _ _ _ _ G3) as Hi1.
  destruct (decapsulate_data tb1 None ka pk sb sb1 [] db w4 G2) as (tb2 & r2 & F4 & Hss4 & Hdone & _);
    [rewrite Hi1; unfold session_at; rewrite Hss2; unfold local_index;
     by rewrite list_lookup_insert_eq by (rewrite Hlb; apply slot_bound)|exact G3|].
  rewrite (Hdone eq_refl) in F4.
  assert (receiving_index sb1 = receiving_index sb) as Hri by (destruct Hab, Hab1; congruence).
  do 7 eexists. exists init, resp, ka, (with_sending_counter sa (0 + 1)), sb1.
  split_and!; [exact F1|exact F2|exact F3|exact F4|exact Hcur2| |by destruct Hab1|done|exact Hw1|].
  - rewrite Hri, <- Hi1. unfold session_at. rewrite Hss4.
    rewrite list_lookup_insert_eq; [done|]. rewrite Hss2, length_insert, Hlb. apply slot_bound.
  - by rewrite Hq2, Hq1, Hqa.
Qed.

(** C6: a connection comes up by itself. Between two idle tunnels configured
    for each other, giving an IP packet to the first and passing every datagram
    on establishes a session (initiation, response, keepalive) and then
    delivers that first packet unchanged, with nothing left in the queue. *)
Theorem first_packet_delivered ta tb pkt da db w1 w2 w3 w4 w5 w6 :
  idle_pair ta tb w1 ->
  ip_wf pkt -> (HANDSHAKE_INIT_SZ <= da)%nat -> (HANDSHAKE_RESP_SZ <= db)%nat ->
  (length pkt + 32 <= da)%nat -> (length pkt + 16 <= db)%nat ->
  exists x1 x2 x3 ta1 ta2 ta3 tb1 tb2 tb3 init resp ka data r,
    encapsulate ta pkt da w1 = Ret (x1, (ta1, WriteToNetwork init)) /\
    decapsulate tb None init db w2 = Ret (x2, (tb1, WriteToNetwork resp)) /\
    decapsulate ta1 None resp da w3 = Ret (x3, (ta2, WriteToNetwork ka)) /\
    decapsulate tb1 None ka db w4 = Ret (w4, (tb2, Done)) /\
    decapsulate ta2 None [] da w5 = Ret (w5, (ta3, WriteToNetwork data)) /\
    decapsulate tb2 None data db w6 = Ret (w6, (tb3, r)) /\
    tunnel_payload r = Some pkt /\ packet_queue ta3 = [].
Proof.
  intros Hip Hwf Hda Hdb Hd1 Hd2.
  destruct (connection_up ta tb pkt da db w1 w2 w3 w4 Hip Hda Hdb)
    as (x1 & x2 & x3 & ta1 & ta2 & tb1 & tb2 & init & resp & ka & sa & sb & F1 & F2 & F3 & F4
        & Hcur & Hsb & Hab & Hcnt & Hw & Hq).
  destruct (seal_open sa sb _ pkt da db Hab Hw) as (data & pd & sb2 & G4 & _ & G5 & G6 & _ & _);
    rewrite ?Hcnt; [done..|].
  destruct (flush_one ta2 pkt da w5 _ _ data Hq Hcur G4) as (ta3 & F5 & Hq3).
  pose proof (receive_ok_index _ _ _ _ _ G6) as Hi. rewrite <- Hi in Hsb.
  destruct (decapsulate_data tb2 None data pd sb sb2 pkt db w6 G5 Hsb G6) as (tb3 & r & F6 & _ & _ & Hpl).
  exists x1, x2, x3, ta1, ta2, ta3, tb1, tb2, tb3, init, resp, ka, data, r. auto 12.
Qed.
End ends.

(** ** Renewing a session *)

Section renewal.
Context {C : Crypto} {L : CryptoLaws C}.

(** A forced initiation always goes out. *)
Lemma forced_initiation t d w :
  params_ok (params (handshake t)) -> u32 (next_index (handshake t)) -> (HANDSHAKE_INIT_SZ <= d)%nat ->
  is_expired (handshake t) = false ->
  exists w' t' pkt p, Tunn_format_handshake_initiation t d true w = Ret (w', (t', WriteToNetwork pkt)) /\
    parse_incoming_packet pkt = Ok (PHandshakeInit p) /\ is_in_progress (handshake t') = true.
Proof.
  intros Hp Hu Hd Hx. destruct (initiator_sends (handshake t) w d Hp Hu Hd)
    as (h1 & init & E & Hs & Hst & _).
  unfold Tunn_format_handshake_initiation. rewrite andb_false_r, Hx. unfold mbind, mret. cbn [obind].
  rewrite E. cbn [obind]. do 4 eexists. split; [reflexivity|].
  split; [by eapply signed_parse|].
  unfold is_in_progress. destruct (match state (handshake t) with HsNone | Expired => _ | _ => _ end);
    cbn; by rewrite Hst.
Qed.

(** What the first part of a timer pass keeps. *)
Lemma refreshed_timers peer mtu t w rl n :
  tunn_ok peer mtu t w -> n <> TimeCurrent -> n <> Top ->
  timer_get (timers (refreshed t rl (age t w))) n = timer_get (timers t) n.
Proof.
  intros Hok Hn Ht. pose proof (timer_get_set (timers t) TimeCurrent n (age t w)) as E.
  rewrite decide_False in E by congruence. apply E; [apply Hok|done..].
Qed.

(** A timer pass of a tunnel that is not expired, up to the point where the
    handshake is looked at. *)
Lemma update_timers_reaches peer mtu t d w :
  clock_ok (w_clock w) -> tunn_ok peer mtu t w -> is_expired (handshake t) = false ->
  age t w - timer_get (timers t) TimeSessionEstablished < REJECT_AFTER_TIME * 3 ->
  exists w1 t1,
    world_le w w1 /\ (w_ticks w < w_ticks w1)%nat /\
    params (handshake t1) = params (handshake t) /\ next_index (handshake t1) = next_index (handshake t) /\
    is_expired (handshake t1) = false /\ timer (handshake t1) = timer (handshake t) /\
    is_initiator (timers t1) = is_initiator (timers t) /\
    (forall n, n <> TimeCurrent -> n <> Top -> timer_get (timers t1) n = timer_get (timers t) n) /\
    (forall n, timer_get (timers t1) n <= age t w) /\
    update_timers t d w =
      match timer (handshake t1) with
      | Some time_init_sent =>
          (let* trying := mlift (dur_sub (age t w) (timer_get (timers t1) TimeLastHandshakeStarted)) in
           if REKEY_ATTEMPT_TIME <=? trying then expire_connection t1
           else let* waited := elapsed time_init_sent in
                send_due t1 (REKEY_TIMEOUT <=? waited, false) d) w1
      | None => (let* (t, b) := mlift (idle_timers t1 (timers t1) (age t w)) in send_due t b d) w1
      end.
Proof.
  intros Hc Hok Hx Hage. destruct (update_timers_eq peer mtu t d w Hok) as (w1 & rl & Hle & Hlt & E).
  pose proof (refreshed_ok _ _ _ _ rl Hc Hok) as Hok1. pose proof (age_nonneg _ _ _ _ Hc Hok) as H0.
  pose proof (fun n => refreshed_timers peer mtu t w rl n Hok) as Hget.
  set (t1 := refreshed t rl (age t w)) in *.
  assert (forall n, timer_get (timers t1) n <= age t w) as Hpast.
  { intros n. apply (timer_get_past _ _ n (tk_timers _ _ _ _ Hok1) H0). }
  exists w1, (if has_cookie (handshake t1) &&
      (COOKIE_EXPIRATION_TIME <=? age t w - timer_get (timers t1) TimeCookieReceived)
    then set_handshake t1 (clear_cookie (handshake t1)) else t1).
  split; [done|]. split; [done|]. do 5 (split; [by destruct (_ && _)|]).
  assert (forall b : bool, timers (if b then set_handshake t1 (clear_cookie (handshake t1)) else t1) = timers t1)
    as Htm by (by intros []).
  split; [intros; rewrite Htm; auto|]. split; [intros; rewrite Htm; auto|].
  rewrite E. unfold after_refresh. replace (is_expired (handshake t1)) with false by (symmetry; exact Hx).
  unfold mbind at 1, mlift at 1, clear_old_cookie. rewrite due_eq by apply Hpast. cbn [obind].
  unfold mbind at 1, mlift at 1. rewrite dur_sub_ret by apply Hpast. cbn [obind].
  rewrite Hget by done. rewrite (proj2 (Z.leb_gt _ _) Hage), Htm. by destruct (timer _).
Qed.

(** C13: rekeying. An initiator that has sent data over a session at least
    [REKEY_AFTER_TIME] old, with no handshake in flight, starts a new handshake
    at the next timer pass. *)
Theorem rekey_after_send peer mtu t d w :
  clock_ok (w_clock w) -> tunn_ok peer mtu t w -> params_ok (params (handshake t)) ->
  is_expired (handshake t) = false -> timer (handshake t) = None ->
  is_initiator (timers t) = true ->
  timer_get (timers t) TimeSessionEstablished < timer_get (timers t) TimeLastDataPacketSent ->
  REKEY_AFTER_TIME <= age t w - timer_get (timers t) TimeSessionEstablished < REJECT_AFTER_TIME * 3 ->
  (HANDSHAKE_INIT_SZ <= d)%nat ->
  exists w' t' pkt p, update_timers t d w = Ret (w', (t', WriteToNetwork pkt)) /\
    parse_incoming_packet pkt = Ok (PHandshakeInit p) /\ is_in_progress (handshake t') = true.
Proof.
  intros Hc Hok Hp Hx Ht Hi Hsent [Hold Hyoung] Hd.
  destruct (update_timers_reaches peer mtu t d w Hc Hok Hx Hyoung)
    as (w1 & t1 & _ & _ & Hp1 & Hn1 & Hx1 & Ht1 & Hi1 & Hget & Hpast & ->).
  rewrite Ht1, Ht. unfold mbind, mlift, idle_timers. rewrite !due_eq by apply Hpast. cbn [obind].
  rewrite Hi1, Hi, !Hget by done. cbn [andb].
  rewrite (proj2 (Z.ltb_lt _ _) Hsent), (proj2 (Z.leb_le _ _) Hold). cbn [andb orb obind send_due].
  apply forced_initiation; [..|done|];
    match goal with |- context [if ?b then _ else t1] => destruct b end;
    cbn [handshake set_timers]; rewrite ?Hp1, ?Hn1; try done; apply Hok.
Qed.

End renewal.

(** ** Witnesses *)

(** The clock at [n] seconds, advancing a second per reading. *)
Definition world_at (n : Z) : World :=
  mkWorld (fun i => mkInstant (n + Z.of_nat i) 0) (fun _ => from_secs 1700000000)
    (fun d i => Z.of_nat (7 * d + i)) 0 0 0.

Definition demo_timers (initiator : bool) (data_sent : Duration) : Timers :=
  mkTimers initiator (mkInstant 0 0) [0; 0; 0; 0; 0; 0; data_sent; 0; 0] (replicate 8 0)
    false false 5 true.

Definition demo_tunn (h : Handshake) (mine : bytes) (ss : list (option Session)) (tm : Timers) : Tunn :=
  mkTunn h ss 0 [] tm 0 0
    (mkRateLimiter (replicate 32 3) (replicate 16 4) (mkInstant 0 0) 0
       (b2s_hash LABEL_MAC1 (x25519_public mine)) (b2s_hash LABEL_COOKIE (x25519_public mine))
       10 0 (mkInstant 0 0)).

Definition idle_a : Tunn := demo_tunn peer_a secret_a (replicate 8 None) (demo_timers false 0).
Definition idle_b : Tunn := demo_tunn peer_b secret_b (replicate 8 None) (demo_timers false 0).

(** An end with a session in slot 1, as its owner and its peer see it. *)
Definition session_a : Session := Session_new 257 513 key_ba key_ab.
Definition session_b : Session := Session_new 513 257 key_ab key_ba.
Definition ring (s : Session) : list (option Session) := <[1%nat := Some s]> (replicate 8 None).
Definition up_a : Tunn :=
  set_current (demo_tunn peer_a secret_a (ring session_a) (demo_timers true (from_secs 1))) 257.
Definition up_b : Tunn :=
  set_current (demo_tunn peer_b secret_b (ring session_b) (demo_timers false 0)) 513.

Lemma world_at_ok n : clock_ok (w_clock (world_at n)).
Proof. constructor; cbn; unfold instant_ok, ns, NANOSECOND; cbn; intros; lia. Qed.

Lemma demo_timers_ok b s n :
  0 <= s <= from_secs n -> timers_ok (demo_timers b s) (duration_since (mkInstant n 0) (mkInstant 0 0)).
Proof.
  intros Hs. rewrite duration_since_ns by (unfold instant_ok, NANOSECOND; cbn; lia).
  unfold from_secs, ns in *. cbn. constructor; try done;
    unfold demo_timers; cbn; repeat constructor; try lia; unfold instant_ok, NANOSECOND; cbn; lia.
Qed.

Lemma hs_ok_demo peer h :
  u32 (next_index h) -> next_index h / 256 = peer -> state h = HsNone -> previous h = HsNone -> hs_ok peer h.
Proof. intros ? ? Hs Hp. constructor; rewrite ?Hs, ?Hp; done. Qed.

(** A tunnel in its resting state, with or without a session in slot 1. *)
Lemma demo_ok peer h mine ss b s n cur :
  hs_ok peer h -> (ss = replicate 8 None \/ exists x, ss = ring x /\ slot (receiving_index x) = 1%nat /\ session_ok peer x) ->
  0 <= s <= from_secs n ->
  tunn_ok peer 1500 (set_current (demo_tunn h mine ss (demo_timers b s)) cur) (world_at n).
Proof.
  intros Hh Hss Hs. constructor; cbn -[Nat.le]; try done.
  - by destruct Hss as [->|(x & -> & _)].
  - intros k x. destruct Hss as [->|(y & -> & Hy & Hok)].
    + intros E. by apply (lookup_replicate 8 None) in E as [? _].
    + unfold ring. intros E. destruct (decide (1%nat = k)) as [<-|Hne].
      * rewrite list_lookup_insert_eq in E by (rewrite length_replicate; lia). by simplify_eq.
      * rewrite list_lookup_insert_ne in E by done. by apply (lookup_replicate 8 None) in E as [? _].
  - apply Nat.le_0_l.
  - unfold age. cbn. rewrite Z.add_0_r. by apply demo_timers_ok.
Qed.

Lemma peer_a_ok : hs_ok 1 peer_a.
Proof. apply hs_ok_demo; [unfold u32; cbn; lia|done..]. Qed.

Lemma idle_a_ok n : 0 <= n -> tunn_ok 1 1500 idle_a (world_at n).
Proof.
  intros. apply (demo_ok 1 peer_a secret_a (replicate 8 None) false 0 n 0); [apply peer_a_ok|by left|].
  unfold from_secs, NANOSECOND. lia.
Qed.

Lemma up_a_ok n : 1 <= n -> tunn_ok 1 1500 up_a (world_at n).
Proof.
  intros. apply (demo_ok 1 peer_a secret_a (ring session_a) true (from_secs 1) n 257); [apply peer_a_ok| |].
  - right. exists session_a. split; [done|]. split; [done|]. split; [|exists window_init; by apply session_window_init].
    split; [unfold u32; cbn; lia|done].
  - unfold from_secs, NANOSECOND. lia.
Qed.

Definition ping4 : bytes :=
  [69; 0; 0; 24; 0; 0; 0; 0; 64; 1; 0; 0; 10; 0; 0; 1; 10; 0; 0; 2; 8; 0; 0; 0].

(** A forged data packet for the tunnel's first index, with the largest counter. *)
Definition forged_max : bytes := [4; 0; 0; 0; 0; 3; 0; 0] ++ replicate 8 255 ++ replicate 16 0.
Definition demo_ops : list op :=
  [Decapsulate None forged_max; Encapsulate ping4; Decapsulate None [1; 2; 3]; UpdateTimers; Decapsulate None []].

Lemma tunnel_never_panics_witness :
  exists w' t rs,
    (let* t := Tunn_new secret_a (x25519_public secret_b) None (Some 5) 3 None in run_ops t demo_ops 1532)
      (world_at 0) = Ret (w', (t, rs)) /\
    length rs = length demo_ops /\ tunn_ok (3 mod 2 ^ 24) 1500 t w'.
Proof.
  apply (tunnel_never_panics secret_a (x25519_public secret_b) None (Some 5) 3 None demo_ops 1500 1532 (world_at 0)).
  - apply world_at_ok.
  - unfold u32; lia.
  - lia.
  - unfold COOKIE_REPLY_SZ; lia.
  - intros w0 t0 E. split; [|intros w1 t1 r1 _; apply along_always].
    + split; [by repeat constructor|]. split; [cbn; lia|]. vm_compute in E. injection E as <- <-.
      intros p Hp s Hs. vm_compute in Hp. injection Hp as <-. vm_compute in Hs. discriminate.
    + repeat constructor; cbn [op_fits]; try done; unfold byte_ok; cbn; try lia.
Defined.

Lemma expired_connection_wiped_witness :
  exists w' t', update_timers up_a 1532 (world_at 600) = Ret (w', (t', TErr ConnectionExpired)) /\
    (forall i, session_at t' i = None) /\ packet_queue t' = [] /\
    is_expired (handshake t') = true /\ is_in_progress (handshake t') = false.
Proof.
  apply (expired_connection_wiped 1 1500 up_a 1532 (world_at 600)).
  - apply world_at_ok.
  - apply up_a_ok. lia.
  - reflexivity.
  - vm_compute. discriminate.
Defined.

(** The timer pass of [up_a] at [n] seconds. *)
Definition pass_a (n : Z) : outcome (World * (Tunn * TunnResult)) := update_timers up_a 1532 (world_at n).
Definition state_of {A} (o : outcome (World * (Tunn * A))) (t : Tunn) : Tunn :=
  match o with Ret (_, (t', _)) => t' | _ => t end.
Definition world_of {A} (o : outcome (World * A)) (w : World) : World :=
  match o with Ret (w', _) => w' | _ => w end.

Lemma stale_sessions_dropped_witness :
  exists since, session_timers (timers up_a) !! 1%nat = Some since /\
    age up_a (world_at 3) - since <= REJECT_AFTER_TIME.
Proof.
  apply (stale_sessions_dropped 1 1500 up_a 1532 (world_at 3) (world_of (pass_a 3) (world_at 3))
    (state_of (pass_a 3) up_a) Done 1 session_a).
  - apply world_at_ok.
  - apply up_a_ok. lia.
  - vm_compute. reflexivity.
  - vm_compute. reflexivity.
Defined.

Lemma packet_delivered_witness :
  exists ta' tb' sb' wire r,
    encapsulate up_a ping4 1532 (world_at 2) = Ret (world_at 2, (ta', WriteToNetwork wire)) /\
    decapsulate up_b None wire 1532 (world_at 2) = Ret (world_at 2, (tb', r)) /\
    tunnel_payload r = Some ping4 /\
    sessions tb' = <[slot (receiving_index session_b) := Some sb']> (sessions up_b) /\
    paired session_a sb' /\ session_window sb' (window_mark window_init 0).
Proof.
  apply (packet_delivered up_a up_b session_a session_b window_init ping4 1532 1532 (world_at 2) (world_at 2)).
  - reflexivity.
  - reflexivity.
  - split; [reflexivity..|]. unfold u32; cbn; lia.
  - by apply session_window_init.
  - unfold counter_ok, COUNTER_LIMIT, N_BITS, WORD_SIZE, N_WORDS; cbn; lia.
  - reflexivity.
  - left. vm_compute. repeat split; repeat constructor.
  - cbn; lia.
  - cbn; lia.
Defined.

Lemma first_packet_delivered_witness :
  exists x1 x2 x3 ta1 ta2 ta3 tb1 tb2 tb3 init resp ka data r,
    encapsulate idle_a ping4 1532 (world_at 1) = Ret (x1, (ta1, WriteToNetwork init)) /\
    decapsulate idle_b None init 1532 (world_at 1) = Ret (x2, (tb1, WriteToNetwork resp)) /\
    decapsulate ta1 None resp 1532 (world_at 2) = Ret (x3, (ta2, WriteToNetwork ka)) /\
    decapsulate tb1 None ka 1532 (world_at 2) = Ret (world_at 2, (tb2, Done)) /\
    decapsulate ta2 None [] 1532 (world_at 3) = Ret (world_at 3, (ta3, WriteToNetwork data)) /\
    decapsulate tb2 None data 1532 (world_at 3) = Ret (world_at 3, (tb3, r)) /\
    tunnel_payload r = Some ping4 /\ packet_queue ta3 = [].
Proof.
  apply (first_packet_delivered idle_a idle_b ping4 1532 1532 (world_at 1) (world_at 1)
    (world_at 2) (world_at 2) (world_at 3) (world_at 3)).
  - constructor; try reflexivity; [apply demo_peers|unfold u32; cbn; lia..].
  - left. vm_compute. repeat split; repeat constructor.
  - unfold HANDSHAKE_INIT_SZ; lia.
  - unfold HANDSHAKE_RESP_SZ; lia.
  - cbn; lia.
  - cbn; lia.
Defined.

Lemma rekey_after_send_witness :
  exists w' t' pkt p, update_timers up_a 1532 (world_at 130) = Ret (w', (t', WriteToNetwork pkt)) /\
    parse_incoming_packet pkt = Ok (PHandshakeInit p) /\ is_in_progress (handshake t') = true.
Proof.
  apply (rekey_after_send 1 1500 up_a 1532 (world_at 130)).
  - apply world_at_ok.
  - apply up_a_ok. lia.
  - apply demo_peers.
  - reflexivity.
  - reflexivity.
  - reflexivity.
  - vm_compute. reflexivity.
  - vm_compute. split; [discriminate|reflexivity].
  - unfold HANDSHAKE_INIT_SZ; lia.
Defined.

(** [idle_a] waiting for an answer since second 1. *)
Definition waiting_a : Tunn :=
  set_handshake idle_a (set_state peer_a (InitSent (mkInitSent 257 [] [] [] (mkInstant 1 0)))).

