(* ===== verification/Channel.v ===== *)
(** Two tunnels over a hostile network: what arrives when datagrams are lost,
    repeated, reordered and forged on the way. *)

From S2P Require Import Prelude Time Errors Replay Crypto ToyCrypto Packet.
From S2P Require Import Session Handshake HandshakeFacts RateLimiter Timers Tunn TunnFacts TunnProps.

(** ** Runs of a tunnel *)

Section runs.
Context {C : Crypto}.

(** Packets given to a tunnel one after another. *)
Fixpoint encapsulate_all (t : Tunn) (pkts : list bytes) (d : nat) : M (Tunn * list TunnResult) :=
  match pkts with
  | [] => mret (t, [])
  | pkt :: pkts' =>
      let* (t, r) := encapsulate t pkt d in
      let* (t, rs) := encapsulate_all t pkts' d in
      mret (t, r :: rs)
  end.

(** Datagrams received one after another. *)
Fixpoint decapsulate_all (t : Tunn) (addr : option IpAddr) (wires : list bytes) (d : nat)
  : M (Tunn * list TunnResult) :=
  match wires with
  | [] => mret (t, [])
  | wire :: wires' =>
      let* (t, r) := decapsulate t addr wire d in
      let* (t, rs) := decapsulate_all t addr wires' d in
      mret (t, r :: rs)
  end.
End runs.

(** The positions that got through, in order of arrival. *)
Definition arrivals (order : list nat) (verdicts : list bool) : list nat :=
  omap (fun '(i, ok) => if (ok : bool) then Some i else None) (zip order verdicts).

(** The window's verdict on every arrival, when position [i] carries the counter
    [c0 + i]. *)
Definition verdicts (win : window) (c0 : Z) (order : list nat) : list bool :=
  snd (window_run win (map (fun i => c0 + Z.of_nat i) order)).

(** ** One datagram *)

(** The datagram a session seals a packet into under a counter. *)
Definition sealed {C : Crypto} (s : Session) (c : Z) (pkt : bytes) : bytes :=
  let e := chacha_encrypt (sender s) (counter_nonce c) [] pkt in
  packet_prefix (PPacketData (mkPacketData (sending_index s) c (fst e ++ snd e))).

(** A receiver that holds the other end [sb] of the channel of [sa] and has
    seen [win]. *)
Record listens (tb : Tunn) (sb sa : Session) (win : window) : Prop := {
  li_slot : session_at tb (receiving_index sb) = Some sb;
  li_pair : paired sa sb;
  li_window : session_window sb win
}.

(** Receiving leaves everything of a session but its window. *)
Record same_keys (s s' : Session) : Prop := {
  sk_sender : sender s' = sender s;
  sk_receiver : receiver s' = receiver s;
  sk_sending : sending_index s' = sending_index s;
  sk_receiving : receiving_index s' = receiving_index s;
  sk_counter : sending_key_counter s' = sending_key_counter s
}.

#[export] Instance same_keys_preorder : PreOrder same_keys.
Proof. split; [by constructor|]. intros s1 s2 s3 [] []. constructor; congruence. Qed.

(** Two states of a tunnel that verify and open the same messages. *)
Record same_secrets (t t' : Tunn) : Prop := {
  ss_mac : mac1_key (rate_limiter t') = mac1_key (rate_limiter t);
  ss_receiver : forall i, receiver <$> session_at t' i = receiver <$> session_at t i
}.

#[export] Instance same_secrets_equivalence : Equivalence same_secrets.
Proof.
  split.
  - by constructor.
  - intros t t' [Hm Hr]. by constructor.
  - intros t1 t2 t3 [Hm1 Hr1] [Hm2 Hr2]. constructor; [congruence|]. intros i. by rewrite Hr2, Hr1.
Qed.

(** A datagram the owner of the keys did not make: it is no message at all, its
    first MAC is wrong, or its tag does not open under the key of the session
    it names. Cookie replies are free: they never touch a session. *)
Record forged {C : Crypto} (t : Tunn) (d : nat) (datagram : bytes) : Prop := {
  fo_bytes : bytes_ok datagram;
  fo_nonempty : datagram <> [];
  fo_handshake : authentic (mac1_key (rate_limiter t)) datagram = false;
  fo_data p : parse_incoming_packet datagram = Ok (PPacketData p) ->
    let body := pd_encrypted_encapsulated_packet p in
    (length body <= d)%nat /\
    forall key, receiver <$> session_at t (pd_receiver_idx p) = Some key ->
      chacha_decrypt key (counter_nonce (pd_counter p)) [] (take (length body - 16) body) (drop (length body - 16) body)
        = None
}.

#[export] Instance forged_proper {C : Crypto} : Proper (same_secrets ==> eq ==> eq ==> impl) forged.
Proof.
  intros t t' [Hm Hr] d ? <- dg ? <- [Hb Hn Ha Hd]. constructor; [done|done|by rewrite Hm|].
  intros p Hp. cbn zeta. rewrite Hr. by apply Hd.
Qed.

Section one.
Context {C : Crypto} {L : CryptoLaws C}.

Lemma session_at_insert t t' i s s' :
  session_at t i = Some s -> sessions t' = <[slot i := Some s']> (sessions t) -> session_at t' i = Some s'.
Proof.
  unfold session_at. intros Hs ->. destruct (sessions t !! slot i) eqn:E; [|done].
  by rewrite list_lookup_insert_eq by (by eapply lookup_lt_Some).
Qed.

Lemma seal_fits s pkt d :
  counter_ok (sending_key_counter s) -> (length pkt + 32 <= d)%nat ->
  format_packet_data s pkt d =
    Ret (with_sending_counter s (sending_key_counter s + 1), sealed s (sending_key_counter s) pkt).
Proof.
  intros Hc Hd. rewrite format_packet_data_ok by done. cbn zeta. unfold sealed.
  by rewrite counter_add by (unfold counter_ok in Hc; lia || done).
Qed.

Lemma receive_same_keys s p d s' r : receive_packet_data s p d = Ret (s', r) -> same_keys s s'.
Proof.
  unfold receive_packet_data, receiving_counter_mark. intros E. repeat case_hyp E; simplify_eq; try reflexivity.
  all: apply obind_ret_inv in E as ([s1 r1] & E1 & E); apply obind_ret_inv in E1 as ([v r2] & _ & E1);
    repeat case_hyp E; simplify_eq; by constructor.
Qed.

(** Receiving a sealed packet: the window decides. *)
Lemma sealed_received a b w c pkt d :
  paired a b -> session_window b w -> counter_ok c -> (length pkt + 16 <= d)%nat ->
  exists p, parse_incoming_packet (sealed a c pkt) = Ok (PPacketData p) /\
    pd_receiver_idx p = receiving_index b /\
    exists b' r, receive_packet_data b p d = Ret (b', r) /\ paired a b' /\
      session_window b' (if window_accepts w c then window_mark w c else w) /\
      if window_accepts w c then r = Ok pkt else b' = b /\ exists e, r = Err e.
Proof.
  intros Hp Hw Hc Hd. destruct (window_accepts w c) eqn:Ha.
  - assert (paired (with_sending_counter a c) b) as Hp' by (by destruct Hp).
    destruct (seal_open (with_sending_counter a c) b w pkt (length pkt + 32) d Hp' Hw Hc Ha ltac:(done) Hd)
      as (wire & p & b' & E & _ & Epar & Er & Hw' & Hpb).
    rewrite seal_fits in E by done. injection E as <-. exists p. split; [exact Epar|].
    split; [by eapply receive_ok_index|]. exists b', (Ok pkt). split_and!; try done. by destruct Hpb.
  - set (e := chacha_encrypt (sender a) (counter_nonce c) [] pkt).
    set (p := mkPacketData (sending_index a) c (fst e ++ snd e)).
    assert (length (fst e ++ snd e) = (length pkt + 16)%nat) as He.
    { rewrite length_app. unfold e. by rewrite (aead_ct_len _ _ chacha_laws), (aead_tag_len _ _ chacha_laws). }
    exists p. split; [|split; [by destruct Hp|]].
    + apply parse_serialize_data. unfold counter_ok, COUNTER_LIMIT, N_BITS, WORD_SIZE, N_WORDS in Hc.
      destruct Hp. split_and!; [done|unfold u64; cbn; lia|cbn; lia].
    + pose proof (receive_packet_data_spec b w p d Hw Hc ltac:(cbn; lia) ltac:(by destruct Hp)) as Hr.
      cbn zeta in Hr. change (pd_counter p) with c in Hr. rewrite Ha in Hr. destruct Hr as (x & Hr & _).
      exists b, (Err x). eauto 10.
Qed.

(** A refused datagram leaves the sessions alone. *)
Lemma decapsulate_refused t addr wire p s e d w :
  parse_incoming_packet wire = Ok (PPacketData p) ->
  session_at t (pd_receiver_idx p) = Some s -> receive_packet_data s p d = Ret (s, Err e) ->
  exists t', decapsulate t addr wire d w = Ret (w, (t', TErr e)) /\ sessions t' = sessions t /\
    packet_queue t' = packet_queue t /\ rate_limiter t' = rate_limiter t /\ current t' = current t.
Proof.
  intros Hp Hs Hr. pose proof (parse_nonempty _ _ Hp) as (b & rest & Hw). unfold decapsulate. rewrite Hw, <- Hw.
  unfold mbind at 1. rewrite (verify_data _ _ _ _ _ _ Hp). cbn [obind].
  unfold handle_verified_packet, mbind, mlift, handle_data.
  replace (session_at (set_limiter t (rate_limiter t)) (pd_receiver_idx p)) with (Some s) by (by rewrite <- Hs).
  rewrite Hr. cbn [obind]. eexists. split; [reflexivity|]. cbn. split; [|done]. apply list_insert_id.
  unfold session_at in Hs. by destruct (sessions t !! slot (pd_receiver_idx p)) as [[?|]|]; cbn in Hs; simplify_eq.
Qed.

Lemma same_secrets_insert t t' i s s' :
  rate_limiter t' = rate_limiter t -> session_at t i = Some s ->
  sessions t' = <[slot i := Some s']> (sessions t) -> receiver s' = receiver s -> same_secrets t t'.
Proof.
  intros Hl Hs Hss Hr. constructor; [by rewrite Hl|]. intros j. unfold session_at in *. rewrite Hss.
  destruct (decide (slot i = slot j)) as [<-|Hne]; [|by rewrite list_lookup_insert_ne].
  rewrite Hs. destruct (sessions t !! slot i) eqn:E; [|done].
  rewrite list_lookup_insert_eq by (by eapply lookup_lt_Some). cbn. by rewrite Hr.
Qed.

Lemma same_secrets_frame t t' :
  rate_limiter t' = rate_limiter t -> sessions t' = sessions t -> same_secrets t t'.
Proof. intros Hl Hs. constructor; [by rewrite Hl|]. intros i. unfold session_at. by rewrite Hs. Qed.

Lemma verify_unauthentic r addr src p i d w :
  parse_incoming_packet src = Ok p -> handshake_sender p = Some i -> authentic (mac1_key r) src = false ->
  verify_packet r addr src d w = Ret (w, (r, Err (TErr InvalidMac))).
Proof.
  unfold verify_packet, authentic. intros -> ->. cbn zeta.
  rewrite take16_mac. by intros ->.
Qed.

(** A forged datagram changes nothing that matters and yields no packet. *)
Lemma forged_ignored t addr datagram d w :
  forged t d datagram ->
  exists t' r, decapsulate t addr datagram d w = Ret (w, (t', r)) /\ tunnel_payload r = None /\
   sessions t' = sessions t /\ rate_limiter t' = rate_limiter t /\ packet_queue t' = packet_queue t /\
   current t' = current t.
Proof.
  intros [Hb Hn Ha Hd]. destruct (parse_incoming_packet datagram) as [p|e] eqn:Hp.
  - destruct (handshake_sender p) as [i|] eqn:Hs.
    + unfold decapsulate. destruct datagram as [|c rest]; [done|]. unfold mbind.
      rewrite (verify_unauthentic _ _ _ _ _ _ _ Hp Hs Ha). cbn. eauto 10.
    + destruct p as [| |p|p]; [done|done| |].
      * unfold decapsulate. destruct datagram as [|c rest]; [done|]. unfold mbind, verify_packet. rewrite Hp. cbn.
        unfold handle_verified_packet, mbind, handle_cookie_reply. cbn [mret obind].
        destruct (receive_cookie_reply _ p) as [h [x|x]]; cbn; eauto 10.
      * destruct (Hd p eq_refl) as [Hl Hk]. destruct (serialize_parse _ _ Hb Hp) as [(_ & _ & H16) _].
        destruct (session_at t (pd_receiver_idx p)) as [s|] eqn:Es.
        { destruct (forged_packet_harmless s p d ltac:(lia) (or_intror (Hk _ eq_refl))) as [e He].
          destruct (decapsulate_refused t addr datagram p s e d w Hp Es He) as (t' & E & ? & ? & ? & ?).
          exists t', (TErr e). by split_and!. }
        unfold decapsulate. destruct datagram as [|c rest]; [done|]. unfold mbind at 1.
        rewrite (verify_data _ _ _ _ _ _ Hp). cbn [obind]. unfold handle_verified_packet, mbind, mlift, handle_data.
        replace (session_at (set_limiter t (rate_limiter t)) (pd_receiver_idx p)) with (None : option Session) by (by rewrite <- Es).
        cbn. eauto 10.
  - unfold decapsulate. destruct datagram as [|c rest]; [done|]. unfold mbind, verify_packet. rewrite Hp. cbn. eauto 10.
Qed.

(** What comes out for a packet: a keepalive carries nothing. *)
Definition carried (pkt : bytes) : option bytes := match pkt with [] => None | _ => Some pkt end.

Lemma carried_wf pkt : ip_wf pkt -> carried pkt = Some pkt.
Proof. destruct pkt; [|done]. by intros [(E & _)|(E & _)]. Qed.

Lemma sealed_arrives tb sb sa win c pkt addr d w :
  listens tb sb sa win -> counter_ok c -> pkt = [] \/ ip_wf pkt -> (length pkt + 16 <= d)%nat ->
  exists tb' sb' r, decapsulate tb addr (sealed sa c pkt) d w = Ret (w, (tb', r)) /\
    tunnel_payload r = (if window_accepts win c then carried pkt else None) /\
    listens tb' sb' sa (if window_accepts win c then window_mark win c else win) /\ same_keys sb sb' /\
    same_secrets tb tb' /\ packet_queue tb' = packet_queue tb /\
    (current tb = receiving_index sb -> current tb' = current tb) /\
    (forall i, slot i <> slot (receiving_index sb) -> session_at tb' i = session_at tb i).
Proof.
  intros [Hs Hp Hw] Hc Hwf Hd.
  destruct (sealed_received sa sb win c pkt d Hp Hw Hc Hd) as (p & Ep & Hi & sb' & r & Er & Hp' & Hw' & Hr).
  pose proof (receive_same_keys _ _ _ _ _ Er) as Hk. rewrite <- Hi in Hs |- *. destruct (window_accepts win c).
  - subst r. destruct (decapsulate_data tb addr _ p sb sb' pkt d w Ep Hs Er) as (tb' & r & E & Hss & Hdone & Hpay).
    destruct (decapsulate_data_frame tb addr _ p sb sb' pkt d w tb' r Ep Hs Er E) as (Hq & Hlim & Hcur).
    exists tb', sb', r. split_and!; [done| | |done|by eapply same_secrets_insert, Hk|done..|].
    + destruct Hwf as [->|Hwf]; [by rewrite Hdone|]. rewrite (carried_wf _ Hwf). by apply Hpay.
    + constructor; [|done..]. rewrite (sk_receiving _ _ Hk), <- Hi. by eapply session_at_insert.
    + intros i Hne. unfold session_at. by rewrite Hss, list_lookup_insert_ne.
  - destruct Hr as [-> [e ->]].
    destruct (decapsulate_refused tb addr _ p sb e d w Ep Hs Er) as (tb' & E & Hss & Hq & Hlim & Hcur).
    exists tb', sb, (TErr e). split_and!; [done..| |done|by apply same_secrets_frame|done|done|].
    + constructor; [|done..]. unfold session_at in *. by rewrite Hss, <- Hi.
    + intros i _. unfold session_at. by rewrite Hss.
Qed.
End one.

(** ** Many datagrams *)

Lemma arrivals_accepted c0 order oks :
  accepted (map (fun i => c0 + Z.of_nat i) order) oks = map (fun i => c0 + Z.of_nat i) (arrivals order oks).
Proof.
  unfold accepted, arrivals. revert oks. induction order as [|i order IH]; intros [|ok oks]; cbn; try done.
  destruct ok; cbn; [by rewrite IH|apply IH].
Qed.

Section channel.
Context {C : Crypto} {L : CryptoLaws C}.

Lemma encapsulate_all_seals t s pkts d w :
  session_at t (current t) = Some s -> 0 <= sending_key_counter s ->
  sending_key_counter s + Z.of_nat (length pkts) <= COUNTER_LIMIT ->
  Forall (fun pkt => (length pkt + 32 <= d)%nat) pkts ->
  exists t', encapsulate_all t pkts d w =
    Ret (w, (t', imap (fun i pkt => WriteToNetwork (sealed s (sending_key_counter s + Z.of_nat i) pkt)) pkts)) /\
    session_at t' (current t') =
      Some (with_sending_counter s (sending_key_counter s + Z.of_nat (length pkts))) /\
    current t' = current t /\ packet_queue t' = packet_queue t.
Proof.
  intros Hs H0 Hmax Hl. revert t s Hs H0 Hmax. induction Hl as [|pkt pkts Hp _ IH]; intros t s Hs H0 Hmax.
  { exists t. cbn. rewrite Z.add_0_r. by destruct s. }
  cbn [encapsulate_all]. cbn [length] in Hmax. rewrite Nat2Z.inj_succ in Hmax.
  destruct (encapsulate_session t pkt d w s _ _ Hs (seal_fits s pkt d ltac:(unfold counter_ok; lia) Hp))
    as (t1 & E & Hss & Hcur & Hq & _).
  unfold mbind at 1. rewrite E. cbn [obind].
  destruct (IH t1 (with_sending_counter s (sending_key_counter s + 1))) as (t2 & E2 & Hs2 & Hcur2 & Hq2); [|cbn; lia..|].
  { rewrite Hcur. by eapply session_at_insert. }
  exists t2. split; [|rewrite Hs2; cbn; split_and!; [|congruence..];
    unfold with_sending_counter; cbn; do 2 f_equal; lia].
  unfold mbind. rewrite E2. cbn [obind mret]. unfold mret. do 3 f_equal. cbn [imap].
  f_equal; [by rewrite Z.add_0_r|]. apply imap_ext. intros i x _. cbn.
  replace (sending_key_counter s + Z.of_nat (S i)) with (sending_key_counter s + 1 + Z.of_nat i) by lia. done.
Qed.

(** What reaches the receiver: the datagram of a packet, by its position, or one
    that somebody else made up. *)
Definition Arrival : Type := nat + bytes.

Definition arriving (wires : list bytes) (a : Arrival) : option bytes :=
  match a with inl i => wires !! i | inr datagram => Some datagram end.

(** The positions among the arrivals. *)
Definition genuine (order : list Arrival) : list nat :=
  omap (fun a : Arrival => match a with inl i => Some i | inr _ => None end) order.

Definition arrival_ok (t : Tunn) (n d : nat) (a : Arrival) : Prop :=
  match a with inl i => (i < n)%nat | inr datagram => forged t d datagram end.

(** The channel's answers: the packet for every position the window takes,
    nothing for the other arrivals. *)
Fixpoint answers (pkts : list bytes) (order : list Arrival) (oks : list bool) : list (option bytes) :=
  match order, oks with
  | inl i :: order', ok :: oks' => (if ok then pkts !! i else None) :: answers pkts order' oks'
  | inr _ :: order', _ => None :: answers pkts order' oks
  | _, _ => []
  end.

Lemma arrivals_ok_secrets t t' n d order :
  same_secrets t t' -> Forall (arrival_ok t n d) order -> Forall (arrival_ok t' n d) order.
Proof. intros Hs Hf. eapply Forall_impl; [exact Hf|]. intros [i|dg]; cbn; [done|]. by rewrite Hs. Qed.

Lemma listens_frame tb tb' sb sa win : sessions tb' = sessions tb -> listens tb sb sa win -> listens tb' sb sa win.
Proof. intros Hs [H1 H2 H3]. constructor; [|done..]. unfold session_at in *. by rewrite Hs. Qed.

Lemma decapsulate_all_arrive tb sb sa win c0 pkts order addr d w :
  listens tb sb sa win -> 0 <= c0 -> c0 + Z.of_nat (length pkts) <= COUNTER_LIMIT ->
  Forall (fun pkt => ip_wf pkt /\ (length pkt + 16 <= d)%nat) pkts ->
  Forall (arrival_ok tb (length pkts) d) order ->
  exists tb' sb' rs,
    decapsulate_all tb addr (omap (arriving (imap (fun i pkt => sealed sa (c0 + Z.of_nat i) pkt) pkts)) order) d w
      = Ret (w, (tb', rs)) /\
    map tunnel_payload rs = answers pkts order (verdicts win c0 (genuine order)) /\
    listens tb' sb' sa (fst (window_run win (map (fun i => c0 + Z.of_nat i) (genuine order)))) /\ same_keys sb sb' /\
    packet_queue tb' = packet_queue tb /\ (current tb = receiving_index sb -> current tb' = current tb).
Proof.
  intros Hlis H0 Hmax Hpk. revert tb sb win Hlis.
  induction order as [|[i|dg] order IH]; intros tb sb win Hlis Hord; [by exists tb, sb, []|..];
    inversion Hord as [|? ? Hi Hord']; subst; cbn [arrival_ok] in Hi.
  - destruct (lookup_lt_is_Some_2 pkts i Hi) as [pkt Hpkt].
    destruct (Forall_lookup_1 _ _ _ _ Hpk Hpkt) as [Hwf Hd].
    cbn [omap list_omap arriving genuine]. rewrite list_lookup_imap, Hpkt. cbn [option_map fmap option_fmap decapsulate_all].
    destruct (sealed_arrives tb sb sa win (c0 + Z.of_nat i) pkt addr d w Hlis ltac:(unfold counter_ok; lia) (or_intror Hwf) Hd)
      as (tb1 & sb1 & r & E & Hr & Hlis1 & Hk1 & Hsec & Hq1 & Hc1 & _). rewrite (carried_wf _ Hwf) in Hr.
    destruct (IH tb1 sb1 _ Hlis1) as (tb2 & sb2 & rs & E2 & Hrs & Hlis2 & Hk2 & Hq2 & Hc2);
      [by eapply arrivals_ok_secrets|]. exists tb2, sb2, (r :: rs).
    unfold mbind at 1. rewrite E. cbn [obind]. unfold mbind. rewrite E2. cbn [obind]. split; [done|].
    unfold verdicts in *. fold (genuine order). cbn [map window_run]. rewrite Hr, Hrs.
    destruct (window_run _ (map _ (genuine order))) as [w' oks]. cbn [fst snd answers] in *.
    split; [by destruct (window_accepts win (c0 + Z.of_nat i)); rewrite ?Hpkt|]. split; [done|].
    split; [by transitivity sb1|]. split; [congruence|]. intros Hc.
    rewrite Hc2; [by apply Hc1|]. rewrite (sk_receiving _ _ Hk1), Hc1 by done. done.
  - cbn [omap list_omap arriving genuine decapsulate_all].
    destruct (forged_ignored tb addr dg d w Hi) as (tb1 & r & E & Hr & Hss & Hl & Hq & Hc).
    destruct (IH tb1 sb win (listens_frame _ _ _ _ _ Hss Hlis)) as (tb2 & sb2 & rs & E2 & Hrs & Hlis2 & Hk2 & Hq2 & Hc2);
      [by eapply arrivals_ok_secrets; [apply same_secrets_frame|]|]. exists tb2, sb2, (r :: rs).
    unfold mbind at 1. rewrite E. cbn [obind]. unfold mbind. rewrite E2. cbn [obind map answers]. rewrite Hr, Hrs.
    split; [done|]. split; [by destruct (verdicts _ _ _)|]. split; [done|]. split; [done|]. split; [congruence|].
    intros Hx. rewrite Hc2 by congruence. exact Hc.
Qed.

(** C3: the tunnel is an at-most-once channel. One end seals any packets in
    turn; the network then delivers any of the datagrams in any order, any
    number of times, among forged ones. Every call returns, each arrival yields
    its own packet unchanged or nothing, exactly as the abstract window of
    received counters says, forgeries yield nothing and change no verdict, and no
    packet comes out twice. *)
Theorem channel_refines_window ta tb sa sb win pkts order da db wa wb addr :
  session_at ta (current ta) = Some sa -> listens tb sb sa win ->
  0 <= sending_key_counter sa -> sending_key_counter sa + Z.of_nat (length pkts) <= COUNTER_LIMIT ->
  Forall (fun pkt => ip_wf pkt /\ (length pkt + 32 <= da)%nat /\ (length pkt + 16 <= db)%nat) pkts ->
  Forall (arrival_ok tb (length pkts) db) order ->
  exists ta' wires tb' rs,
    encapsulate_all ta pkts da wa = Ret (wa, (ta', map WriteToNetwork wires)) /\ length wires = length pkts /\
    decapsulate_all tb addr (omap (arriving wires) order) db wb = Ret (wb, (tb', rs)) /\
    map tunnel_payload rs = answers pkts order (verdicts win (sending_key_counter sa) (genuine order)) /\
    NoDup (arrivals (genuine order) (verdicts win (sending_key_counter sa) (genuine order))).
Proof.
  intros Ha Hl H0 Hmax Hpk Hord.
  destruct (encapsulate_all_seals ta sa pkts da wa Ha H0 Hmax) as (ta' & Ea & _);
    [eapply Forall_impl; [exact Hpk|]; naive_solver|].
  destruct (decapsulate_all_arrive tb sb sa win (sending_key_counter sa) pkts order addr db wb Hl H0 Hmax)
    as (tb' & sb' & rs & Eb & Hrs & _); [eapply Forall_impl; [exact Hpk|]; naive_solver|done|].
  exists ta', (imap (fun i pkt => sealed sa (sending_key_counter sa + Z.of_nat i) pkt) pkts), tb', rs.
  split_and!; [rewrite Ea; do 3 f_equal; symmetry; apply fmap_imap|apply length_imap|exact Eb|exact Hrs|].
  apply (NoDup_fmap_1 (fun i => sending_key_counter sa + Z.of_nat i)).
  rewrite <- arrivals_accepted. apply window_run_nodup.
  destruct Hl as [_ _ Hw]. intros c Hc. by apply (rep_seen _ _ Hw).
Qed.
End channel.

(** ** Reordering within the window *)

(** No datagram arrives a window or more behind one that came before it. *)
Fixpoint mild (order : list nat) : Prop :=
  match order with
  | [] => True
  | i :: order' => Forall (fun j => Z.of_nat i < Z.of_nat j + N_BITS) order' /\ mild order'
  end.

(** A window that takes every one of some counters, in this order. *)
Record takes (win : window) (c0 : Z) (order : list nat) : Prop := {
  tk_seen : forall c, c ∈ w_seen win -> c < w_next win;
  tk_once : NoDup order;
  tk_mild : mild order;
  tk_open : Forall (fun i => c0 + Z.of_nat i ∉ w_seen win /\ w_next win <= c0 + Z.of_nat i + N_BITS) order
}.

Lemma takes_next win c0 i order :
  takes win c0 (i :: order) ->
  window_accepts win (c0 + Z.of_nat i) = true /\ takes (window_mark win (c0 + Z.of_nat i)) c0 order.
Proof.
  intros [Hs Hnd [Hmi Hm] Hf]. apply NoDup_cons in Hnd as [Hni Hnd]. inversion Hf as [|? ? [Hi1 Hi2] Hf']; subst.
  split; [|constructor; [|done..|]].
  - unfold window_accepts. rewrite bool_decide_true by done. rewrite (proj2 (Z.leb_le _ _) Hi2). by rewrite orb_true_r.
  - cbn. intros c [->%elem_of_singleton|Hc]%elem_of_union; [lia|]. specialize (Hs _ Hc). lia.
  - rewrite Forall_forall in *. intros j Hj. destruct (Hf' j Hj) as [Hj1 Hj2]. specialize (Hmi j Hj). cbn.
    split; [|lia]. intros [Hc%elem_of_singleton|Hc]%elem_of_union; [|done].
    assert (i = j) as -> by lia. done.
Qed.

Lemma window_takes_all win c0 order : takes win c0 order -> verdicts win c0 order = replicate (length order) true.
Proof.
  unfold verdicts. revert win. induction order as [|i order IH]; intros win Ht; [done|].
  destruct (takes_next _ _ _ _ Ht) as [Ha Ht']. specialize (IH _ Ht'). cbn [map window_run length replicate].
  rewrite Ha. destruct (window_run (window_mark _ _) _) as [w' oks]. cbn [snd] in *. by rewrite IH.
Qed.

(** A window before all of the counters takes them. *)
Lemma fresh_takes win c0 order :
  (forall c, c ∈ w_seen win -> c < w_next win) -> w_next win <= c0 -> NoDup order -> mild order -> takes win c0 order.
Proof.
  intros Hs Hf Hnd Hm. constructor; [done..|]. apply Forall_forall. intros i _.
  unfold N_BITS, WORD_SIZE, N_WORDS. split; [|lia]. intros Hc%Hs. lia.
Qed.

Lemma answers_all pkts order :
  answers pkts order (replicate (length (genuine order)) true) =
    map (fun a : Arrival => match a with inl i => pkts !! i | inr _ => None end) order.
Proof.
  induction order as [|[i|dg] order IH]; [done|..]; cbn [map]; rewrite <- IH; [done|].
  change (genuine (inr dg :: order)) with (genuine order). by destruct (replicate (length (genuine order)) true).
Qed.

(** C7: reordering and forgeries are tolerated. When the receiver has seen
    nothing of the packets yet and the network delivers each of some datagrams
    once, none of them 1024 positions or more behind an earlier arrival, every
    one of them yields its packet, in the order of arrival, whatever forged
    datagrams come in between; in particular, an orderly network delivers
    everything. *)
Theorem reordering_tolerated {C : Crypto} {L : CryptoLaws C} ta tb sa sb win pkts order da db wa wb addr :
  session_at ta (current ta) = Some sa -> listens tb sb sa win -> w_next win <= sending_key_counter sa ->
  0 <= sending_key_counter sa -> sending_key_counter sa + Z.of_nat (length pkts) <= COUNTER_LIMIT ->
  Forall (fun pkt => ip_wf pkt /\ (length pkt + 32 <= da)%nat /\ (length pkt + 16 <= db)%nat) pkts ->
  Forall (arrival_ok tb (length pkts) db) order -> NoDup (genuine order) -> mild (genuine order) ->
  exists ta' wires tb' rs,
    encapsulate_all ta pkts da wa = Ret (wa, (ta', map WriteToNetwork wires)) /\
    decapsulate_all tb addr (omap (arriving wires) order) db wb = Ret (wb, (tb', rs)) /\
    map tunnel_payload rs = map (fun a : Arrival => match a with inl i => pkts !! i | inr _ => None end) order.
Proof.
  intros Ha Hl Hfresh H0 Hmax Hpk Hord Hnd Hm.
  destruct (encapsulate_all_seals ta sa pkts da wa Ha H0 Hmax) as (ta' & Ea & _);
    [eapply Forall_impl; [exact Hpk|]; naive_solver|].
  destruct (decapsulate_all_arrive tb sb sa win (sending_key_counter sa) pkts order addr db wb Hl H0 Hmax)
    as (tb' & sb' & rs & Eb & Hrs & _); [eapply Forall_impl; [exact Hpk|]; naive_solver|done|].
  exists ta', (imap (fun i pkt => sealed sa (sending_key_counter sa + Z.of_nat i) pkt) pkts), tb', rs.
  split_and!; [rewrite Ea; do 3 f_equal; symmetry; apply fmap_imap|exact Eb|]. rewrite Hrs.
  destruct Hl as [_ _ Hw]. rewrite window_takes_all; [apply answers_all|]. apply fresh_takes; [intros c Hc; by apply (rep_seen _ _ Hw)|done..].
Qed.

(** ** Two ends in step *)

(** Two tunnels whose current sessions are the two ends of one channel, with
    nothing in flight. *)
Record linked (ta tb : Tunn) (sa sb : Session) (wa wb : window) : Prop := {
  ln_a : session_at ta (current ta) = Some sa;
  ln_b : session_at tb (current tb) = Some sb;
  ln_ia : current ta = receiving_index sa;
  ln_ib : current tb = receiving_index sb;
  ln_ab : paired sa sb;
  ln_ba : paired sb sa;
  ln_wa : session_window sa wa;
  ln_wb : session_window sb wb;
  ln_fa : 0 <= w_next wb <= sending_key_counter sa;
  ln_fb : 0 <= w_next wa <= sending_key_counter sb
}.

Lemma linked_sym ta tb sa sb wa wb : linked ta tb sa sb wa wb -> linked tb ta sb sa wb wa.
Proof. by intros []. Qed.

(** Two ends that have just agreed on their keys. *)
Lemma session_linked ta tb sa sb :
  session_at ta (current ta) = Some sa -> session_at tb (current tb) = Some sb ->
  current ta = receiving_index sa -> current tb = receiving_index sb -> paired sa sb -> paired sb sa ->
  receiving_key_counter sa = validator_default -> receiving_key_counter sb = validator_default ->
  sending_key_counter sa = 0 -> sending_key_counter sb = 0 -> linked ta tb sa sb window_init window_init.
Proof.
  intros ? ? ? ? ? ? Ha Hb Hca Hcb.
  constructor; try done; rewrite ?Hca, ?Hcb; (by apply session_window_init || (cbn; lia)).
Qed.

Lemma window_run_next win c0 n order :
  w_next win <= c0 + Z.of_nat n -> Forall (fun i => (i < n)%nat) order ->
  w_next win <= w_next (fst (window_run win (map (fun i => c0 + Z.of_nat i) order))) <= c0 + Z.of_nat n.
Proof.
  intros Hw Hf. revert win Hw. induction Hf as [|i order Hi _ IH]; intros win Hw; [cbn; lia|].
  cbn [map window_run]. specialize (IH (if window_accepts win (c0 + Z.of_nat i) then window_mark win (c0 + Z.of_nat i) else win)).
  destruct (window_run _ (map _ order)) as [w' oks]. cbn [fst] in *.
  destruct (window_accepts win (c0 + Z.of_nat i)); cbn [w_next window_mark] in *; lia.
Qed.

Lemma mild_seq k n : mild (seq k n).
Proof.
  revert k. induction n as [|n IH]; intros k; cbn; [done|]. split; [|apply IH].
  apply Forall_forall. intros j Hj%elem_of_seq. unfold N_BITS, WORD_SIZE, N_WORDS. lia.
Qed.

Lemma map_lookup_all {A} (l : list A) : map (l !!.) (seq 0 (length l)) = map Some l.
Proof.
  apply list_eq. intros i. rewrite !list_lookup_fmap. destruct (decide (i < length l)%nat) as [Hi|Hi].
  - rewrite lookup_seq_lt by done. cbn. by destruct (lookup_lt_is_Some_2 l i Hi) as [x ->].
  - rewrite lookup_seq_ge, (lookup_ge_None_2 l) by lia. done.
Qed.

Lemma omap_map {A B} (f : A -> option B) l l' : map f l = map Some l' -> omap f l = l'.
Proof.
  revert l'. induction l as [|x l IH]; intros [|y l'] E; simplify_eq/=; [done|]. rewrite H. f_equal. by apply IH.
Qed.

(** Everything arrives, in order. *)
Definition in_turn (n : nat) : list Arrival := map inl (seq 0 n).

Lemma genuine_only l : genuine (map inl l) = l.
Proof. unfold genuine. induction l as [|i l IH]; cbn; [done|]. by rewrite IH. Qed.

Lemma in_turn_ok {C : Crypto} t n d : Forall (arrival_ok t n d) (in_turn n).
Proof. unfold in_turn. apply Forall_map, Forall_forall. intros i Hi%elem_of_seq. cbn. lia. Qed.

Lemma arriving_in_turn wires : omap (arriving wires) (in_turn (length wires)) = wires.
Proof. apply omap_map. unfold in_turn. rewrite map_map. apply map_lookup_all. Qed.

Lemma answers_in_turn pkts :
  answers pkts (in_turn (length pkts)) (replicate (length pkts) true) = map Some pkts.
Proof.
  pose proof (answers_all pkts (in_turn (length pkts))) as E. unfold in_turn in *.
  rewrite genuine_only, length_seq, map_map in E. rewrite E. apply map_lookup_all.
Qed.

Section link.
Context {C : Crypto} {L : CryptoLaws C}.

(** A batch of packets from one end to the other. *)
Lemma linked_batch ta tb sa sb wa wb pkts da db w1 w2 addr :
  linked ta tb sa sb wa wb -> sending_key_counter sa + Z.of_nat (length pkts) <= COUNTER_LIMIT ->
  Forall (fun pkt => ip_wf pkt /\ (length pkt + 32 <= da)%nat /\ (length pkt + 16 <= db)%nat) pkts ->
  exists ta' tb' sa' sb' wb' rs,
    let wires := imap (fun i pkt => sealed sa (sending_key_counter sa + Z.of_nat i) pkt) pkts in
    encapsulate_all ta pkts da w1 = Ret (w1, (ta', map WriteToNetwork wires)) /\
    decapsulate_all tb addr wires db w2 = Ret (w2, (tb', rs)) /\
    map tunnel_payload rs = map Some pkts /\ linked ta' tb' sa' sb' wa wb' /\
    packet_queue ta' = packet_queue ta /\ packet_queue tb' = packet_queue tb /\
    sending_key_counter sa' = sending_key_counter sa + Z.of_nat (length pkts) /\
    sending_key_counter sb' = sending_key_counter sb /\
    receiving_index sa' = receiving_index sa /\ receiving_index sb' = receiving_index sb.
Proof.
  intros [Ha Hb Hia Hib Hab Hba Hwa Hwb Hfa Hfb] Hmax Hpk.
  destruct (encapsulate_all_seals ta sa pkts da w1 Ha ltac:(lia) Hmax) as (ta' & Ea & Hsa & Hca & Hqa);
    [eapply Forall_impl; [exact Hpk|]; naive_solver|].
  assert (Forall (fun i => (i < length pkts)%nat) (seq 0 (length pkts))) as Hord
    by (apply Forall_forall; intros i Hi%elem_of_seq; lia).
  rewrite Hib in Hb.
  destruct (decapsulate_all_arrive tb sb sa wb (sending_key_counter sa) pkts (in_turn (length pkts)) addr db w2
    (Build_listens _ _ _ _ Hb Hab Hwb) ltac:(lia) Hmax) as (tb' & sb' & rs & Eb & Hrs & [Hlb Hlp Hlw] & Hk & Hqb & Hcb);
    [eapply Forall_impl; [exact Hpk|]; naive_solver|apply in_turn_ok|].
  unfold in_turn in Hrs, Hlw. rewrite genuine_only in Hrs, Hlw. fold (in_turn (length pkts)) in Hrs.
  destruct (window_run_next wb (sending_key_counter sa) (length pkts) _ ltac:(lia) Hord) as [Hn1 Hn2].
  exists ta', tb', (with_sending_counter sa (sending_key_counter sa + Z.of_nat (length pkts))), sb'. do 2 eexists.
  cbn zeta. split; [rewrite Ea; do 3 f_equal; symmetry; apply fmap_imap|].
  split; [rewrite <- Eb; f_equal; rewrite <- (arriving_in_turn (imap _ pkts)) at 1; by rewrite length_imap|].
  split; [|split; [|split_and!; [done..|apply (sk_counter _ _ Hk)|done|apply (sk_receiving _ _ Hk)]]].
  - rewrite Hrs, window_takes_all; [rewrite length_seq; apply answers_in_turn|].
    apply fresh_takes; [intros c Hc; by apply (rep_seen _ _ Hwb)|lia|apply NoDup_seq|apply mild_seq].
  - pose proof (sk_receiving _ _ Hk) as Hkr. rewrite Hkr in Hlb. specialize (Hcb Hib). constructor.
    + exact Hsa.
    + by rewrite Hcb, Hib.
    + cbn. congruence.
    + congruence.
    + by destruct Hlp.
    + destruct Hba, Hk. constructor; cbn; congruence.
    + by destruct Hwa.
    + exact Hlw.
    + cbn. lia.
    + rewrite (sk_counter _ _ Hk). lia.
Qed.
End link.

(** ** Witnesses *)

(** A second packet, one byte different. *)
Definition ping4' : bytes := <[23%nat := 1]> ping4.

Lemma up_b_listens : listens up_b session_b session_a window_init.
Proof. constructor; [done| |by apply session_window_init]. constructor; [done..|]. unfold u32; cbn; lia. Qed.

Lemma pings_fit :
  Forall (fun pkt => ip_wf pkt /\ (length pkt + 32 <= 1532)%nat /\ (length pkt + 16 <= 1532)%nat) [ping4; ping4'; ping4].
Proof. repeat apply Forall_cons_2; try apply Forall_nil_2; (split; [left; vm_compute; repeat split; repeat constructor|cbn; lia]). Qed.

(** A made-up data packet for the session, and bytes that are no message. *)
Definition fake_data : bytes := packet_prefix (PPacketData (mkPacketData 513 9 (replicate 20 0))).
Definition noise : bytes := [4; 0; 0; 0; 1].

Definition hostile_order : list Arrival := [inr fake_data; inl 2%nat; inl 0%nat; inr noise; inl 2%nat; inl 0%nat].
Definition mixed_order : list Arrival := [inl 2%nat; inr fake_data; inl 1%nat; inr noise; inl 0%nat].

Lemma fake_data_forged : forged up_b 1532 fake_data.
Proof.
  constructor; [apply (bool_decide_unpack _); vm_compute; exact I|done|vm_compute; reflexivity|].
  intros p Hp. assert (p = mkPacketData 513 9 (replicate 20 0)) as -> by (vm_compute in Hp; by simplify_eq).
  split; [cbn; lia|]. intros key Hk. vm_compute in Hk. simplify_eq. vm_compute. reflexivity.
Qed.

Lemma noise_forged : forged up_b 1532 noise.
Proof.
  constructor; [apply (bool_decide_unpack _); vm_compute; exact I|done|vm_compute; reflexivity|].
  intros p Hp. by vm_compute in Hp.
Qed.

Lemma channel_refines_window_witness :
  exists ta' wires tb' rs,
    encapsulate_all up_a [ping4; ping4'; ping4] 1532 (world_at 2) = Ret (world_at 2, (ta', map WriteToNetwork wires)) /\
    length wires = 3%nat /\
    decapsulate_all up_b None (omap (arriving wires) hostile_order) 1532 (world_at 2) = Ret (world_at 2, (tb', rs)) /\
    map tunnel_payload rs = [None; Some ping4; Some ping4; None; None; None] /\
    NoDup (arrivals [2; 0; 2; 0]%nat (verdicts window_init 0 [2; 0; 2; 0]%nat)).
Proof.
  apply (channel_refines_window up_a up_b session_a session_b window_init [ping4; ping4'; ping4] hostile_order 1532 1532
    (world_at 2) (world_at 2) None).
  - reflexivity.
  - apply up_b_listens.
  - cbn; lia.
  - unfold COUNTER_LIMIT, N_BITS, WORD_SIZE, N_WORDS; cbn; lia.
  - apply pings_fit.
  - repeat apply Forall_cons_2; try apply Forall_nil_2; (apply fake_data_forged || apply noise_forged || (cbn; lia)).
Defined.

Lemma reordering_tolerated_witness :
  exists ta' wires tb' rs,
    encapsulate_all up_a [ping4; ping4'; ping4] 1532 (world_at 2) = Ret (world_at 2, (ta', map WriteToNetwork wires)) /\
    decapsulate_all up_b None (omap (arriving wires) mixed_order) 1532 (world_at 2) = Ret (world_at 2, (tb', rs)) /\
    map tunnel_payload rs = [Some ping4; None; Some ping4'; None; Some ping4].
Proof.
  apply (reordering_tolerated up_a up_b session_a session_b window_init [ping4; ping4'; ping4] mixed_order 1532 1532
    (world_at 2) (world_at 2) None).
  - reflexivity.
  - apply up_b_listens.
  - cbn; lia.
  - cbn; lia.
  - unfold COUNTER_LIMIT, N_BITS, WORD_SIZE, N_WORDS; cbn; lia.
  - apply pings_fit.
  - repeat apply Forall_cons_2; try apply Forall_nil_2; (apply fake_data_forged || apply noise_forged || (cbn; lia)).
  - apply (bool_decide_unpack _). vm_compute. exact I.
  - repeat split; repeat apply Forall_cons_2; try apply Forall_nil_2; unfold N_BITS, WORD_SIZE, N_WORDS; cbn; lia.
Defined.
