(* ===== verification/Rekey.v ===== *)
(** Changing keys while packets are in flight: the ring of sessions lets both
    ends open what was sealed before, during and after a handshake. *)

From S2P Require Import Prelude Time Errors Replay Crypto ToyCrypto Packet.
From S2P Require Import Session Handshake HandshakeFacts RateLimiter Timers Tunn TunnFacts TunnProps Channel.

(** ** What sending leaves alone *)

Record sends_only (t t' : Tunn) : Prop := {
  so_handshake : handshake t' = handshake t;
  so_limiter : rate_limiter t' = rate_limiter t;
  so_current : current t' = current t;
  so_ring : length (sessions t') = length (sessions t);
  so_others i : slot i <> slot (current t) -> session_at t' i = session_at t i;
  so_timers : length (t_timers (timers t')) = length (t_timers (timers t));
  so_session_timers : session_timers (timers t') = session_timers (timers t);
  so_now : length (t_timers (timers t)) = timer_index Top ->
    timer_get (timers t') TimeCurrent = timer_get (timers t) TimeCurrent
}.

(** What the choice of the current session relies on: no session is newer than
    the last timer pass. *)
Record in_step (tm : Timers) : Prop := {
  st_timers : length (t_timers tm) = timer_index Top;
  st_slots : length (session_timers tm) = N_SESSIONS;
  st_newest : Forall (fun d => d <= timer_get tm TimeCurrent) (session_timers tm)
}.

Lemma in_step_ok tm now : timers_ok tm now -> in_step tm.
Proof. by intros []. Qed.

Lemma in_step_sends t t' : sends_only t t' -> in_step (timers t) -> in_step (timers t').
Proof.
  intros Hs [H1 H2 H3]. constructor; rewrite ?(so_timers _ _ Hs), ?(so_session_timers _ _ Hs), ?(so_now _ _ Hs); done.
Qed.

#[export] Instance sends_only_preorder : PreOrder sends_only.
Proof.
  split; [by constructor|]. intros t1 t2 t3 [] []. constructor; try congruence.
  - intros i Hi. transitivity (session_at t2 i); [|auto]. apply so_others1. congruence.
  - intros Hl. rewrite so_now1 by congruence. auto.
Qed.

Lemma tick_length t n : length (t_timers (timer_tick t n)) = length (t_timers t).
Proof. unfold timer_tick. cbn. rewrite length_insert. by destruct n. Qed.

Section frames.
Context {C : Crypto} {L : CryptoLaws C}.

Lemma encapsulate_sends_only t src d w s s' wire w' t' r :
  session_at t (current t) = Some s -> format_packet_data s src d = Ret (s', wire) ->
  encapsulate t src d w = Ret (w', (t', r)) -> sends_only t t'.
Proof.
  intros Es E. unfold encapsulate. rewrite Es. unfold mbind, mlift. rewrite E. cbn [obind mret].
  unfold mret. intros Er.
  destruct src; simplify_eq; constructor; cbn; rewrite ?length_insert, ?tick_length, ?tick_sessions; try done;
    try (intros i Hi; unfold session_at; cbn; by rewrite list_lookup_insert_ne);
    intros Hl; by rewrite ?timer_tick_current by (rewrite ?tick_length; done).
Qed.

Lemma encapsulate_all_sends_only t s pkts d w w' t' rs :
  session_at t (current t) = Some s -> 0 <= sending_key_counter s ->
  sending_key_counter s + Z.of_nat (length pkts) <= COUNTER_LIMIT ->
  Forall (fun pkt => (length pkt + 32 <= d)%nat) pkts ->
  encapsulate_all t pkts d w = Ret (w', (t', rs)) -> sends_only t t'.
Proof.
  intros Hs H0 Hmax Hl. revert t s w rs Hs H0 Hmax. induction Hl as [|pkt pkts Hp _ IH]; intros t s w rs Hs H0 Hmax E.
  { cbn in E. unfold mret in E. simplify_eq. reflexivity. }
  cbn [encapsulate_all] in E. cbn [length] in Hmax. rewrite Nat2Z.inj_succ in Hmax.
  pose proof (seal_fits s pkt d ltac:(unfold counter_ok; lia) Hp) as Hf.
  destruct (encapsulate_session t pkt d w s _ _ Hs Hf) as (t1 & E1 & Hss & Hcur & _).
  pose proof (encapsulate_sends_only _ _ _ _ _ _ _ _ _ _ Hs Hf E1) as Hso.
  apply mbind_ret_inv in E as (w1 & [t1' r] & E1' & E). rewrite E1 in E1'. injection E1' as <- <- <-.
  apply mbind_ret_inv in E as (w2 & [t2 rs'] & E2 & E). unfold mret in E. simplify_eq.
  transitivity t1; [done|]. eapply (IH t1 (with_sending_counter s (sending_key_counter s + 1))); [|cbn; lia..|exact E2].
  rewrite Hcur. by eapply session_at_insert.
Qed.

(** A forced initiation. *)
Lemma initiate_sends_only t d w w' h init :
  is_expired (handshake t) = false -> format_handshake_initiation (handshake t) d w = Ret (w', (h, Ok init)) ->
  exists t', Tunn_format_handshake_initiation t d true w = Ret (w', (t', WriteToNetwork init)) /\
    handshake t' = h /\ sessions t' = sessions t /\ sends_only (set_handshake t h) t'.
Proof.
  intros Hx E. unfold Tunn_format_handshake_initiation. rewrite andb_false_r, Hx. unfold mbind, mret. cbn [obind].
  rewrite E. cbn [obind]. eexists. split; [reflexivity|].
  destruct (negb (is_in_progress (handshake t))); (split; [done|]; split; [done|]); constructor; cbn;
    rewrite ?length_insert; try done; intros Hl; by rewrite ?timer_tick_current by (rewrite ?tick_length; done).
Qed.
End frames.

(** ** The handshake *)

Section handshake.
Context {C : Crypto} {L : CryptoLaws C}.

(** The session just established is the newest, so it becomes the current
    one, and the others stay in their slots. *)
Lemma response_takes_over t q resp h2 s s' ka d w w' :
  signed (mac1_key (rate_limiter t)) (PHandshakeResponse q) resp ->
  count (rate_limiter t) < limit (rate_limiter t) ->
  length (sessions t) = N_SESSIONS -> in_step (timers t) ->
  receive_handshake_response (handshake t) q w = Ret (w', (h2, Ok s)) ->
  format_packet_data s [] d = Ret (s', ka) -> local_index s' = local_index s ->
  exists t', decapsulate t None resp d w = Ret (w', (t', WriteToNetwork ka)) /\
    current t' = local_index s /\ session_at t' (local_index s) = Some s' /\
    (forall i, slot i <> slot (local_index s) -> session_at t' i = session_at t i).
Proof.
  intros Hs Hl Hlen [Ht1 Ht2 Ht3] E Ef Hli. pose proof (parse_nonempty _ _ (signed_parse _ _ _ Hs)) as (b & rest & Hw).
  unfold decapsulate. rewrite Hw, <- Hw. unfold mbind at 1. rewrite (verify_signed _ _ _ _ _ Hs Hl). cbn [obind].
  unfold handle_verified_packet, handle_handshake_response, mbind. cbn [handshake set_limiter].
  rewrite E. cbn [obind]. unfold mlift. rewrite Ef. cbn [obind]. eexists. split; [reflexivity|].
  rewrite Hli. match goal with |- context [set_current_session ?t0 _] => set (t1 := t0) end.
  assert (sessions t1 = <[slot (local_index s) := Some s']> (sessions t)) as Hss by (cbn; by rewrite slot_mod).
  assert (session_at t1 (local_index s) = Some s') as Hat.
  { unfold session_at. rewrite Hss. by rewrite list_lookup_insert_eq by (rewrite Hlen; apply slot_bound). }
  assert (current (set_current_session t1 (local_index s)) = local_index s) as Hc.
  { unfold set_current_session. destruct (Z.eqb_spec (current t1) (local_index s)) as [|_]; [done|].
    replace (_ || _) with true; [done|]. symmetry. apply orb_true_intro. right. apply Z.leb_le.
    pose proof (established_newest (timer_tick (timers t) TimeLastPacketReceived) true
      (local_index s mod Z.of_nat N_SESSIONS) (slot (current t1))) as Hle. rewrite slot_mod in Hle.
    apply Hle; [by rewrite tick_length|done| |apply slot_bound]. by rewrite timer_tick_current. }
  split; [exact Hc|]. unfold session_at in *. rewrite set_current_sessions. split; [exact Hat|].
  intros i Hi. by rewrite Hss, list_lookup_insert_ne by done.
Qed.

(** Two connected tunnels, one of which may change keys: their peers are set up
    for each other, the initiation is newer than the last one, and neither end's
    next session takes the slot of the present one. *)
Record rekeying (pa : Z) (mtu : nat) (ta tb : Tunn) (sa sb : Session) (wa wb : window) (w v : World) : Prop := {
  rk_link : linked ta tb sa sb wa wb;
  rk_a : tunn_ok pa mtu ta w;
  rk_b : length (sessions tb) = N_SESSIONS;
  rk_peers : peers (params (handshake ta)) (params (handshake tb));
  rk_index_b : u32 (next_index (handshake tb));
  rk_newer : Tai64N_after (stamp_tai (stamper (handshake ta)) (w_clock v (w_ticks v)))
    (last_handshake_timestamp (handshake tb)) = true;
  rk_alive : is_expired (handshake ta) = false;
  rk_mac_a : mac1_key (rate_limiter ta) = b2s_hash LABEL_MAC1 (static_public (params (handshake ta)));
  rk_mac_b : mac1_key (rate_limiter tb) = b2s_hash LABEL_MAC1 (static_public (params (handshake tb)));
  rk_free_a : count (rate_limiter ta) < limit (rate_limiter ta);
  rk_free_b : count (rate_limiter tb) < limit (rate_limiter tb);
  rk_slot_a : slot (snd (inc_index (handshake ta))) <> slot (receiving_index sa);
  rk_slot_b : slot (snd (inc_index (handshake tb))) <> slot (receiving_index sb)
}.

(** The slot differs when the session has one of the last seven indices. *)
Lemma next_slot_differs h i k :
  u32 (next_index h) -> 0 <= k < 7 -> i mod 8 = (next_index h - k) mod 8 -> slot (snd (inc_index h)) <> slot i.
Proof.
  intros Hu Hk Hi E. rewrite inc_index_value in E by done. unfold slot, N_SESSIONS in E.
  assert ((next_index h / 256 * 256 + (next_index h + 1) mod 256) mod 8 = (next_index h + 1) mod 8) as E1.
  { replace (next_index h / 256 * 256) with ((next_index h / 256 * 32) * 8) by lia.
    rewrite Z.add_comm, Z.mod_add by done. rewrite <- (Z.mod_mod_divide (next_index h + 1) 256 8); [done|by exists 32]. }
  apply Z2Nat.inj in E; [|apply Z.mod_pos_bound; lia..]. change (Z.of_nat 8) with 8 in E. rewrite E1, Hi in E. dlia.
Qed.

(** The three messages of the handshake and what each end then holds: both its
    old session and the new one, which only the initiator uses yet. *)
Lemma rekey_exchange pa mtu ta tb sa sb wa wb w v ta1 tb1 sa1 sb1 da db w3 w4 :
  rekeying pa mtu ta tb sa sb wa wb w v -> sends_only ta ta1 -> sends_only tb tb1 ->
  (HANDSHAKE_INIT_SZ <= da)%nat -> (HANDSHAKE_RESP_SZ <= db)%nat ->
  session_at ta1 (receiving_index sa) = Some sa1 -> session_at tb1 (receiving_index sb) = Some sb1 ->
  exists x2 x3 x4 ta2 ta3 tb2 init resp na nb,
    Tunn_format_handshake_initiation ta1 da true v = Ret (x2, (ta2, WriteToNetwork init)) /\
    decapsulate tb1 None init db w3 = Ret (x3, (tb2, WriteToNetwork resp)) /\
    decapsulate ta2 None resp da w4 = Ret (x4, (ta3, WriteToNetwork (sealed na 0 []))) /\
    fresh_pair na nb /\ current ta3 = local_index na /\ current ta3 <> current ta /\
    session_at ta3 (current ta3) = Some (with_sending_counter na 1) /\
    session_at ta3 (receiving_index sa) = Some sa1 /\ slot (current ta3) <> slot (receiving_index sa) /\
    session_at tb2 (receiving_index sb) = Some sb1 /\ session_at tb2 (receiving_index nb) = Some nb /\
    slot (receiving_index nb) <> slot (receiving_index sb).
Proof.
  intros [Hlk Hoka Hlb Hp Hub Hts Hx Hma Hmb Hfa Hfb Hsla Hslb] Hsa Hsb Hda Hdb Ha1 Hb1.
  pose proof (ho_index _ _ (tk_hs _ _ _ _ Hoka)) as [Hua _].
  destruct (handshake_exchange _ _ v w3 da db Hp Hua Hub Hts Hda Hdb)
    as (a1 & init & p & b1 & resp & q & nb & E1 & Hs1 & E2 & Hs2 & _ & Hib & Hresp).
  destruct (Hresp w4) as (a2 & na & E3 & Hfp & _ & Hia).
  rewrite (po_mac1 _ (peers_a _ _ Hp)), (peers_ab _ _ Hp), <- Hmb, <- (so_limiter _ _ Hsb) in Hs1.
  rewrite (po_mac1 _ (peers_b _ _ Hp)), (peers_ba _ _ Hp), <- Hma, <- (so_limiter _ _ Hsa) in Hs2.
  rewrite <- (so_handshake _ _ Hsa) in E1, Hx. rewrite <- (so_handshake _ _ Hsb) in E2.
  rewrite <- (so_limiter _ _ Hsa) in Hfa. rewrite <- (so_limiter _ _ Hsb) in Hfb.
  destruct (initiate_sends_only ta1 da v _ _ _ Hx E1) as (ta2 & F1 & Hh2 & Hss2 & Hso2).
  destruct (decapsulate_init tb1 p init b1 resp nb db w3 _ Hs1 Hfb E2) as (tb2 & F2 & Hssb).
  rewrite <- Hh2 in E3. destruct (fp_a _ _ Hfp) as [Hc0 _]. unfold HANDSHAKE_INIT_SZ in Hda.
  pose proof (seal_fits na [] da ltac:(rewrite Hc0; by unfold counter_ok) ltac:(cbn; lia)) as Hka. rewrite Hc0 in Hka.
  destruct (response_takes_over ta2 q resp a2 na (with_sending_counter na (0 + 1)) (sealed na 0 []) da w4 (advance w4 1 0)) as (ta3 & F3 & Hc3 & Hat3 & Hot3); [..|exact E3|exact Hka|done|].
  { by rewrite (so_limiter _ _ Hso2). }
  { by rewrite (so_limiter _ _ Hso2). }
  { rewrite Hss2, (so_ring _ _ Hsa). apply Hoka. }
  { apply (in_step_sends _ _ Hso2). change (in_step (timers ta1)). apply (in_step_sends _ _ Hsa), (in_step_ok _ (age ta w)), Hoka. }
  rewrite <- Hia in Hsla. rewrite <- Hib in Hslb. unfold local_index in *.
  exists (advance v 2 1), (advance w3 0 1), (advance w4 1 0), ta2, ta3, tb2, init, resp, na, nb. rewrite Hc3.
  split_and!; try done.
  - intros E. apply Hsla. by rewrite E, (ln_ia _ _ _ _ _ _ Hlk).
  - rewrite Hot3 by done. unfold session_at in *. by rewrite Hss2.
  - unfold session_at in *. by rewrite Hssb, list_lookup_insert_ne.
  - unfold session_at. rewrite Hssb. by rewrite list_lookup_insert_eq by (rewrite (so_ring _ _ Hsb), Hlb; apply slot_bound).
Qed.
End handshake.

(** ** Two sessions at once *)

(** A datagram under way: one of the old session or one of the new, by position. *)
Definition Flight : Type := nat + nat.

Definition flying (old new : list bytes) (f : Flight) : option bytes :=
  match f with inl i => old !! i | inr j => new !! j end.

(** What comes out when it arrives. *)
Definition cargo (old new : list bytes) (f : Flight) : option bytes := flying old new f ≫= carried.

Definition olds (order : list Flight) : list nat :=
  omap (fun f : Flight => match f with inl i => Some i | inr _ => None end) order.
Definition news (order : list Flight) : list nat :=
  omap (fun f : Flight => match f with inl _ => None | inr j => Some j end) order.

Definition flight_ok (m n : nat) (f : Flight) : Prop :=
  match f with inl i => (i < m)%nat | inr j => (j < n)%nat end.

(** Packets a session can carry through a buffer. *)
Definition fits (d : nat) (pkt : bytes) : Prop := (pkt = [] \/ ip_wf pkt) /\ (length pkt + 16 <= d)%nat.

Definition sealed_all {C : Crypto} (s : Session) (c0 : Z) (pkts : list bytes) : list bytes :=
  imap (fun i pkt => sealed s (c0 + Z.of_nat i) pkt) pkts.

Section both.
Context {C : Crypto} {L : CryptoLaws C}.

Lemma decapsulate_all_cons t addr wire wires d w t1 r t2 rs :
  decapsulate t addr wire d w = Ret (w, (t1, r)) -> decapsulate_all t1 addr wires d w = Ret (w, (t2, rs)) ->
  decapsulate_all t addr (wire :: wires) d w = Ret (w, (t2, r :: rs)).
Proof. intros E1 E2. cbn [decapsulate_all]. unfold mbind. rewrite E1. cbn [obind]. by rewrite E2. Qed.

(** One arrival on one of two sessions. *)
Lemma arrives_beside tb sb sa win ob oa owin c0 pkts i addr d w :
  listens tb sb sa win -> listens tb ob oa owin -> slot (receiving_index ob) <> slot (receiving_index sb) ->
  0 <= c0 -> c0 + Z.of_nat (length pkts) <= COUNTER_LIMIT -> Forall (fits d) pkts -> (i < length pkts)%nat ->
  window_accepts win (c0 + Z.of_nat i) = true ->
  exists pkt tb' sb' r, pkts !! i = Some pkt /\ sealed_all sa c0 pkts !! i = Some (sealed sa (c0 + Z.of_nat i) pkt) /\
    decapsulate tb addr (sealed sa (c0 + Z.of_nat i) pkt) d w = Ret (w, (tb', r)) /\ tunnel_payload r = carried pkt /\
    listens tb' sb' sa (window_mark win (c0 + Z.of_nat i)) /\ listens tb' ob oa owin /\
    receiving_index sb' = receiving_index sb.
Proof.
  intros Hl [Ho1 Ho2 Ho3] Hne H0 Hmax Hpk Hi Ha. destruct (lookup_lt_is_Some_2 pkts i Hi) as [pkt Hpkt].
  destruct (Forall_lookup_1 _ _ _ _ Hpk Hpkt) as [Hwf Hd].
  destruct (sealed_arrives tb sb sa win (c0 + Z.of_nat i) pkt addr d w Hl ltac:(unfold counter_ok; lia) Hwf Hd)
    as (tb' & sb' & r & E & Hr & Hl' & Hk & _ & _ & _ & Hot). rewrite Ha in Hr, Hl'.
  exists pkt, tb', sb', r. split_and!; try done.
  - unfold sealed_all. by rewrite list_lookup_imap, Hpkt.
  - constructor; [|done..]. by rewrite Hot.
  - apply Hk.
Qed.

Lemma decapsulate_both tb ob oa wo nb na wn co cn po pn order addr d w :
  listens tb ob oa wo -> listens tb nb na wn -> slot (receiving_index nb) <> slot (receiving_index ob) ->
  0 <= co -> co + Z.of_nat (length po) <= COUNTER_LIMIT -> Forall (fits d) po ->
  0 <= cn -> cn + Z.of_nat (length pn) <= COUNTER_LIMIT -> Forall (fits d) pn ->
  Forall (flight_ok (length po) (length pn)) order -> takes wo co (olds order) -> takes wn cn (news order) ->
  exists tb' rs,
    decapsulate_all tb addr (omap (flying (sealed_all oa co po) (sealed_all na cn pn)) order) d w = Ret (w, (tb', rs)) /\
    map tunnel_payload rs = map (cargo po pn) order.
Proof.
  intros Ho Hn Hne Ho0 Homax Hpo Hn0 Hnmax Hpn Hord. revert tb ob nb wo wn Ho Hn Hne.
  induction Hord as [|f order Hf _ IH]; intros tb ob nb wo wn Ho Hn Hne Hto Htn; [by exists tb, []|].
  destruct f as [i|i]; cbn [flight_ok] in Hf.
  - destruct (takes_next _ _ _ _ Hto) as [Ha Hto'].
    destruct (arrives_beside tb ob oa wo nb na wn co po i addr d w) as (pkt & tb1 & ob1 & r & Hpkt & Hwire & E & Hr & Ho1 & Hn1 & Hi);
      try done. destruct (IH tb1 ob1 nb _ _ Ho1 Hn1) as (tb2 & rs & E2 & Hrs); [by rewrite Hi|done|done|].
    exists tb2, (r :: rs). cbn [omap list_omap flying]. rewrite Hwire. split; [by eapply decapsulate_all_cons|].
    cbn [map]. rewrite Hr, Hrs. unfold cargo at 2. cbn [flying]. by rewrite Hpkt.
  - destruct (takes_next _ _ _ _ Htn) as [Ha Htn'].
    destruct (arrives_beside tb nb na wn ob oa wo cn pn i addr d w) as (pkt & tb1 & nb1 & r & Hpkt & Hwire & E & Hr & Hn1 & Ho1 & Hi);
      try done. destruct (IH tb1 ob nb1 _ _ Ho1 Hn1) as (tb2 & rs & E2 & Hrs); [by rewrite Hi|done|done|].
    exists tb2, (r :: rs). cbn [omap list_omap flying]. rewrite Hwire. split; [by eapply decapsulate_all_cons|].
    cbn [map]. rewrite Hr, Hrs. unfold cargo at 2. cbn [flying]. by rewrite Hpkt.
Qed.

Lemma encapsulate_all_sealed t s pkts d w :
  session_at t (current t) = Some s -> 0 <= sending_key_counter s ->
  sending_key_counter s + Z.of_nat (length pkts) <= COUNTER_LIMIT ->
  Forall (fun pkt => (length pkt + 32 <= d)%nat) pkts ->
  exists t', encapsulate_all t pkts d w =
      Ret (w, (t', map WriteToNetwork (sealed_all s (sending_key_counter s) pkts))) /\
    session_at t' (current t) = Some (with_sending_counter s (sending_key_counter s + Z.of_nat (length pkts))) /\
    sends_only t t'.
Proof.
  intros Hs H0 Hmax Hl. destruct (encapsulate_all_seals t s pkts d w Hs H0 Hmax Hl) as (t' & E & Hat & Hc & _).
  exists t'. split; [rewrite E; do 3 f_equal; symmetry; apply fmap_imap|].
  split; [by rewrite <- Hc|]. by eapply encapsulate_all_sends_only.
Qed.

Lemma sealed_all_cons s pkt pkts :
  sealed_all s 0 (pkt :: pkts) = sealed s 0 pkt :: sealed_all (with_sending_counter s 1) 1 pkts.
Proof.
  unfold sealed_all. cbn [imap]. f_equal. apply imap_ext. intros i x _. cbn.
  change (sealed s (Z.of_nat (S i)) x = sealed s (1 + Z.of_nat i) x). by replace (Z.of_nat (S i)) with (1 + Z.of_nat i) by lia.
Qed.
End both.

(** ** Nothing is lost *)

Lemma arriving_genuine wires l : omap (arriving wires) (map inl l) = omap (wires !!.) l.
Proof. induction l as [|i l IH]; cbn; [done|]. by rewrite IH. Qed.

Section seamless.
Context {C : Crypto} {L : CryptoLaws C}.

(** Packets for a direction with these buffers. *)
Definition carries (d_out d_in : nat) (pkt : bytes) : Prop :=
  ip_wf pkt /\ (length pkt + 32 <= d_out)%nat /\ (length pkt + 16 <= d_in)%nat.

Lemma carries_out da db pkts :
  Forall (carries da db) pkts -> Forall (fun pkt => (length pkt + 32 <= da)%nat) pkts /\ Forall (fits db) pkts.
Proof. intros H. split; (eapply Forall_impl; [exact H|]); intros x (? & ? & ?); [done|]. split; auto. Qed.

(** C4: changing keys loses nothing. Both ends have packets in flight when one
    of them starts a new handshake. The handshake completes, the initiator goes
    on under new keys at once, and every datagram that arrives after that, of
    the old session or of the new one, in any order that does not overtake the
    window, yields its packet; so do the answers that the other end had sealed
    under the old keys. *)
Theorem rekey_loses_nothing pa mtu ta tb sa sb wa wb w v po pn pb order back da db w1 w2 w3 w4 w5 w6 w7 :
  rekeying pa mtu ta tb sa sb wa wb w v -> (HANDSHAKE_INIT_SZ <= da)%nat -> (HANDSHAKE_RESP_SZ <= db)%nat ->
  Forall (carries da db) po -> Forall (carries da db) pn -> Forall (carries db da) pb ->
  sending_key_counter sa + Z.of_nat (length po) <= COUNTER_LIMIT ->
  sending_key_counter sb + Z.of_nat (length pb) <= COUNTER_LIMIT -> 1 + Z.of_nat (length pn) <= COUNTER_LIMIT ->
  Forall (flight_ok (length po) (S (length pn))) order ->
  NoDup (olds order) -> mild (olds order) -> NoDup (news order) -> mild (news order) ->
  Forall (fun i => (i < length pb)%nat) back -> NoDup back -> mild back ->
  exists ta1 ta2 ta3 ta4 ta5 tb1 tb2 tb3 x2 x3 x4 old new answers init resp ka rs rs',
    encapsulate_all ta po da w1 = Ret (w1, (ta1, map WriteToNetwork old)) /\
    encapsulate_all tb pb db w2 = Ret (w2, (tb1, map WriteToNetwork answers)) /\
    Tunn_format_handshake_initiation ta1 da true v = Ret (x2, (ta2, WriteToNetwork init)) /\
    decapsulate tb1 None init db w3 = Ret (x3, (tb2, WriteToNetwork resp)) /\
    decapsulate ta2 None resp da w4 = Ret (x4, (ta3, WriteToNetwork ka)) /\ current ta3 <> current ta /\
    encapsulate_all ta3 pn da w5 = Ret (w5, (ta4, map WriteToNetwork new)) /\
    decapsulate_all tb2 None (omap (flying old (ka :: new)) order) db w6 = Ret (w6, (tb3, rs)) /\
    map tunnel_payload rs = map (cargo po ([] :: pn)) order /\
    decapsulate_all ta4 None (omap (answers !!.) back) da w7 = Ret (w7, (ta5, rs')) /\
    map tunnel_payload rs' = map (pb !!.) back.
Proof.
  intros Hrk Hda Hdb Hpo Hpn Hpb Hma Hmb Hmn Hord Hod Hom Hnd Hnm Hbk Hbd Hbm.
  destruct (rk_link _ _ _ _ _ _ _ _ _ _ Hrk) as [Ha Hb Hia Hib Hab Hba Hwa Hwb Hfa Hfb].
  destruct (carries_out _ _ _ Hpo) as [Hpo1 Hpo2], (carries_out _ _ _ Hpn) as [Hpn1 Hpn2], (carries_out _ _ _ Hpb) as [Hpb1 Hpb2].
  destruct (encapsulate_all_sealed ta sa po da w1 Ha ltac:(lia) Hma Hpo1) as (ta1 & E1 & Ha1 & Hsa).
  destruct (encapsulate_all_sealed tb sb pb db w2 Hb ltac:(lia) Hmb Hpb1) as (tb1 & E2 & Hb1 & Hsb).
  rewrite Hia in Ha1. rewrite Hib in Hb1.
  destruct (rekey_exchange _ _ _ _ _ _ _ _ _ _ ta1 tb1 _ _ da db w3 w4 Hrk Hsa Hsb Hda Hdb Ha1 Hb1)
    as (x2 & x3 & x4 & ta2 & ta3 & tb2 & init & resp & na & nb & F1 & F2 & F3 & [Hnab Hnba [Hn0 Hnwa] [Hm0 Hnwb]]
        & Hc3 & Hne & Hna & Hoa & Hsl & Hob & Hnb & Hslb).
  destruct (encapsulate_all_sealed ta3 (with_sending_counter na 1) pn da w5 Hna ltac:(cbn; lia) Hmn Hpn1) as (ta4 & E4 & _ & Hs4).
  set (sb1 := with_sending_counter sb _) in *. set (sa1 := with_sending_counter sa _) in *.
  assert (listens tb2 sb1 sa wb) as Hlb by (constructor; [done|by destruct Hab|by destruct Hwb]).
  assert (listens ta4 sa1 sb wa) as Hla.
  { constructor; [|by destruct Hba|by destruct Hwa]. by rewrite (so_others _ _ Hs4). }
  destruct (decapsulate_both tb2 sb1 sa wb nb na window_init (sending_key_counter sa) 0 po ([] :: pn) order None db w6 Hlb)
    as (tb3 & rs & E5 & Hrs); [by constructor|done|lia|done|done|lia|cbn [length]; lia|..].
  { constructor; [|done]. split; [by left|]. unfold HANDSHAKE_RESP_SZ in Hdb. cbn. lia. }
  { done. }
  { apply fresh_takes; [intros c Hc; by apply (rep_seen _ _ Hwb)|lia|done..]. }
  { apply fresh_takes; [by intros c Hc%elem_of_empty|cbn; lia|done..]. }
  destruct (decapsulate_all_arrive ta4 sa1 sb wa (sending_key_counter sb) pb (map inl back) None da w7 Hla ltac:(lia) Hmb)
    as (ta5 & ? & rs' & E6 & Hrs' & _).
  { eapply Forall_impl; [exact Hpb|]. by intros x (? & ? & ?). }
  { by apply Forall_map. }
  rewrite genuine_only in Hrs'. rewrite window_takes_all in Hrs'
    by (apply fresh_takes; [intros c Hc; by apply (rep_seen _ _ Hwa)|lia|done..]).
  rewrite <- (genuine_only back) in Hrs' at 2. rewrite answers_all, map_map in Hrs'.
  rewrite sealed_all_cons in E5. do 19 eexists. split_and!; [exact E1|exact E2|exact F1|exact F2|exact F3|exact Hne|exact E4|
    exact E5|exact Hrs| |exact Hrs'].
  rewrite <- E6. f_equal. symmetry. apply arriving_genuine.
Qed.
End seamless.

(** ** Witness *)

(** The two ends after their first handshake. *)
Definition rekey_a : Tunn :=
  set_current (demo_tunn (demo_peer secret_a secret_b 257) secret_a (ring session_a) (demo_timers true (from_secs 1))) 257.
Definition rekey_b : Tunn :=
  set_current (demo_tunn (demo_peer secret_b secret_a 513) secret_b (ring session_b) (demo_timers false 0)) 513.

(** Old and new datagrams in disorder, the keepalive among them. *)
Definition mixed_flights : list Flight := [inr 1%nat; inl 1%nat; inr 0%nat; inl 0%nat; inr 2%nat].

Lemma rekey_ready : rekeying 1 1500 rekey_a rekey_b session_a session_b window_init window_init (world_at 2) (world_at 130).
Proof.
  constructor; try reflexivity.
  - apply session_linked; (reflexivity || (constructor; [reflexivity..|unfold u32; cbn; lia])).
  - apply (demo_ok 1 (demo_peer secret_a secret_b 257) secret_a (ring session_a) true (from_secs 1) 2 257);
      [apply hs_ok_demo; [unfold u32; cbn; lia|done..]| |unfold from_secs, NANOSECOND; lia].
    right. exists session_a. split; [done|]. split; [done|]. split; [|exists window_init; by apply session_window_init].
    split; [unfold u32; cbn; lia|done].
  - repeat split.
  - unfold u32; cbn; lia.
  - apply (next_slot_differs _ _ 0); [unfold u32; cbn; lia|lia|done].
  - apply (next_slot_differs _ _ 0); [unfold u32; cbn; lia|lia|done].
Qed.

Lemma pings_carried : Forall (carries 1532 1532) [ping4; ping4'].
Proof. repeat apply Forall_cons_2; try apply Forall_nil_2; (split; [left; vm_compute; repeat split; repeat constructor|cbn; lia]). Qed.

Lemma rekey_loses_nothing_witness :
  exists ta1 ta2 ta3 ta4 ta5 tb1 tb2 tb3 x2 x3 x4 old new answers init resp ka rs rs',
    encapsulate_all rekey_a [ping4; ping4'] 1532 (world_at 2) = Ret (world_at 2, (ta1, map WriteToNetwork old)) /\
    encapsulate_all rekey_b [ping4; ping4'] 1532 (world_at 2) = Ret (world_at 2, (tb1, map WriteToNetwork answers)) /\
    Tunn_format_handshake_initiation ta1 1532 true (world_at 130) = Ret (x2, (ta2, WriteToNetwork init)) /\
    decapsulate tb1 None init 1532 (world_at 131) = Ret (x3, (tb2, WriteToNetwork resp)) /\
    decapsulate ta2 None resp 1532 (world_at 131) = Ret (x4, (ta3, WriteToNetwork ka)) /\ current ta3 <> 257 /\
    encapsulate_all ta3 [ping4; ping4'] 1532 (world_at 132) = Ret (world_at 132, (ta4, map WriteToNetwork new)) /\
    decapsulate_all tb2 None (omap (flying old (ka :: new)) mixed_flights) 1532 (world_at 133)
      = Ret (world_at 133, (tb3, rs)) /\
    map tunnel_payload rs = [Some ping4; Some ping4'; None; Some ping4; Some ping4'] /\
    decapsulate_all ta4 None (omap (answers !!.) [1; 0]%nat) 1532 (world_at 133) = Ret (world_at 133, (ta5, rs')) /\
    map tunnel_payload rs' = [Some ping4'; Some ping4].
Proof.
  apply (rekey_loses_nothing 1 1500 rekey_a rekey_b session_a session_b window_init window_init (world_at 2) (world_at 130)
    [ping4; ping4'] [ping4; ping4'] [ping4; ping4'] mixed_flights [1; 0]%nat 1532 1532
    (world_at 2) (world_at 2) (world_at 131) (world_at 131) (world_at 132) (world_at 133) (world_at 133)).
  - apply rekey_ready.
  - unfold HANDSHAKE_INIT_SZ; lia.
  - unfold HANDSHAKE_RESP_SZ; lia.
  - apply pings_carried.
  - apply pings_carried.
  - apply pings_carried.
  - unfold COUNTER_LIMIT, N_BITS, WORD_SIZE, N_WORDS; cbn; lia.
  - unfold COUNTER_LIMIT, N_BITS, WORD_SIZE, N_WORDS; cbn; lia.
  - unfold COUNTER_LIMIT, N_BITS, WORD_SIZE, N_WORDS; cbn; lia.
  - repeat apply Forall_cons_2; try apply Forall_nil_2; cbn; lia.
  - apply (bool_decide_unpack _). vm_compute. exact I.
  - repeat split; repeat apply Forall_cons_2; try apply Forall_nil_2; unfold N_BITS, WORD_SIZE, N_WORDS; cbn; lia.
  - apply (bool_decide_unpack _). vm_compute. exact I.
  - repeat split; repeat apply Forall_cons_2; try apply Forall_nil_2; unfold N_BITS, WORD_SIZE, N_WORDS; cbn; lia.
  - repeat apply Forall_cons_2; try apply Forall_nil_2; cbn; lia.
  - apply (bool_decide_unpack _). vm_compute. exact I.
  - repeat split; repeat apply Forall_cons_2; try apply Forall_nil_2; unfold N_BITS, WORD_SIZE, N_WORDS; cbn; lia.
Defined.
