(* ===== verification/Stats.v ===== *)
(** Statistics of a tunnel, [estimate_loss] and [stats] of
    [boringtun/src/noise/mod.rs]. *)

From Stdlib Require Import QArith Lqa.
From S2P Require Import Prelude Time Errors Replay Crypto ToyCrypto Packet.
From S2P Require Import Session Handshake HandshakeFacts RateLimiter Timers Tunn TunnFacts TunnProps.

#[local] Open Scope Z_scope.

(** ** Single-precision numbers *)

Class F32 := {
  f32 : Type;
  f32_of_Z : Z -> f32;
  f32_add : f32 -> f32 -> f32;
  f32_sub : f32 -> f32 -> f32;
  f32_mul : f32 -> f32 -> f32;
  f32_div : f32 -> f32 -> f32;
  f32_eqb : f32 -> f32 -> bool;
  f32_le : f32 -> f32 -> Prop
}.

(** The largest magnitude in use, that of a converted counter. *)
Definition F32_RANGE : Z := 2 ^ 64.

(** What IEEE arithmetic grants to finite numbers that are not negative,
    whatever the rounding: conversions and sums are monotone, sums of small
    integers are exact, and a product with a number up to one, a quotient by a
    larger number and a complement stay in range. *)
Class F32Laws (F : F32) : Prop := {
  f32_le_trans : forall a b c, f32_le a b -> f32_le b c -> f32_le a c;
  f32_of_Z_le : forall a b, 0 <= a <= b -> b <= F32_RANGE -> f32_le (f32_of_Z a) (f32_of_Z b);
  f32_of_Z_pos : forall a, 0 < a <= F32_RANGE -> f32_eqb (f32_of_Z a) (f32_of_Z 0) = false;
  f32_of_Z_add : forall a b, 0 <= a -> 0 <= b -> a + b < 2 ^ 24 ->
    f32_add (f32_of_Z a) (f32_of_Z b) = f32_of_Z (a + b);
  f32_add_le : forall a b c d, f32_le (f32_of_Z 0) a -> f32_le (f32_of_Z 0) c -> f32_le a b -> f32_le c d ->
    f32_le (f32_add a c) (f32_add b d) /\ f32_le (f32_of_Z 0) (f32_add a c);
  f32_sub_unit : forall a, f32_le (f32_of_Z 0) a -> f32_le a (f32_of_Z 1) ->
    f32_le (f32_of_Z 0) (f32_sub (f32_of_Z 1) a) /\ f32_le (f32_sub (f32_of_Z 1) a) (f32_of_Z 1);
  f32_mul_unit : forall a w, f32_le (f32_of_Z 0) a -> f32_le a (f32_of_Z 1) ->
    f32_le (f32_of_Z 0) w -> f32_le w (f32_of_Z F32_RANGE) ->
    f32_le (f32_of_Z 0) (f32_mul a w) /\ f32_le (f32_mul a w) w;
  f32_div_unit : forall a b, f32_le (f32_of_Z 0) a -> f32_le a b -> f32_le b (f32_of_Z F32_RANGE) ->
    f32_eqb b (f32_of_Z 0) = false ->
    f32_le (f32_of_Z 0) (f32_div a b) /\ f32_le (f32_div a b) (f32_of_Z 1);
  f32_div_3 : forall a, f32_le (f32_of_Z 0) a ->
    f32_le (f32_of_Z 0) (f32_div a (f32_of_Z 3)) /\ f32_le (f32_div a (f32_of_Z 3)) a
}.

(** ** The statistics *)

Section stats.
Context {C : Crypto} {F : F32}.

(** The loss a session sees. *)
Definition session_loss (s : Session) : f32 :=
  let '(expected, received) := current_packet_cnt s in
  if expected =? 0 then f32_of_Z 0
  else f32_sub (f32_of_Z 1) (f32_div (f32_of_Z received) (f32_of_Z expected)).

(** One round of the loop: weight, weighted sum and sum of weights. *)
Definition loss_round (t : Tunn) (acc : f32 * f32 * f32) (i : nat) : f32 * f32 * f32 :=
  let '(weight, cur_avg, total_weight) := acc in
  match session_at t (wsub 64 (current t) (Z.of_nat i)) with
  | Some session =>
      (f32_div weight (f32_of_Z 3), f32_add cur_avg (f32_mul (session_loss session) weight),
       f32_add total_weight weight)
  | None => acc
  end.

Definition estimate_loss (t : Tunn) : f32 :=
  let '(_, cur_avg, total_weight) :=
    foldl (loss_round t) (f32_of_Z 9, f32_of_Z 0, f32_of_Z 0) (seq 0 N_SESSIONS) in
  if f32_eqb total_weight (f32_of_Z 0) then f32_of_Z 0 else f32_div cur_avg total_weight.

Definition stats (t : Tunn) : M (option Duration * Z * Z * f32 * option Z) :=
  let* time := time_since_last_handshake t in
  mret (time, tx_bytes t, rx_bytes t, estimate_loss t, last_rtt (handshake t)).
End stats.

(** ** Bounds *)

Section bounds.
Context {C : Crypto} {LC : CryptoLaws C} {F : F32} {LF : F32Laws F}.

(** Between zero and one. *)
Definition unit_f32 (x : f32) : Prop := f32_le (f32_of_Z 0) x /\ f32_le x (f32_of_Z 1).

Lemma unit_zero : unit_f32 (f32_of_Z 0).
Proof. split; apply f32_of_Z_le; unfold F32_RANGE; lia. Qed.

(** No session has received more packets than it is past. *)
Lemma received_le_expected s win :
  session_window s win -> 0 <= snd (current_packet_cnt s) <= fst (current_packet_cnt s) /\
    fst (current_packet_cnt s) <= F32_RANGE.
Proof.
  intros Hw. pose proof (seen_count _ _ (sw_represents _ _ Hw)). unfold current_packet_cnt. cbn [fst snd].
  pose proof (vo_next _ (rep_ok _ _ Hw)) as Hn. rewrite (sw_count _ _ Hw), (rep_next _ _ Hw) in *.
  unfold COUNTER_LIMIT, N_BITS, WORD_SIZE, N_WORDS, F32_RANGE in *. lia.
Qed.

Lemma session_loss_unit s win : session_window s win -> unit_f32 (session_loss s).
Proof.
  intros Hw. pose proof (received_le_expected s win Hw) as Hr. unfold session_loss.
  destruct (current_packet_cnt s) as [e r]. cbn [fst snd] in Hr. destruct (Z.eqb_spec e 0) as [_|He]; [apply unit_zero|].
  destruct (f32_div_unit (f32_of_Z r) (f32_of_Z e)) as [H0 H1]; [apply f32_of_Z_le; lia..|apply f32_of_Z_pos; lia|].
  by apply f32_sub_unit.
Qed.

(** The sums of the loop stay in order and small: after [n] rounds the weights
    add up to at most [9 * n]. *)
Definition sums_ok (n : Z) (acc : f32 * f32 * f32) : Prop :=
  let '(weight, avg, total) := acc in
  f32_le (f32_of_Z 0) weight /\ f32_le weight (f32_of_Z 9) /\
  f32_le (f32_of_Z 0) avg /\ f32_le avg total /\ f32_le total (f32_of_Z (9 * n)).

Lemma sums_more n acc : 0 <= n <= 100 -> sums_ok n acc -> sums_ok (n + 1) acc.
Proof.
  destruct acc as [[weight avg] total]. intros Hn (? & ? & ? & ? & ?). split_and!; try done.
  eapply f32_le_trans; [done|]. apply f32_of_Z_le; unfold F32_RANGE; lia.
Qed.

Lemma loss_round_ok peer mtu t w n acc i :
  tunn_ok peer mtu t w -> 0 <= n <= 100 -> sums_ok n acc -> sums_ok (n + 1) (loss_round t acc i).
Proof.
  intros Hok Hn Hs. destruct acc as [[weight avg] total] eqn:Eacc. cbn [loss_round].
  destruct (session_at t _) as [s|] eqn:Es; [|by apply sums_more]. destruct Hs as (Hw0 & Hw9 & Ha & Hat & Ht).
  apply session_at_spec in Es. destruct (tk_sessions _ _ _ _ Hok _ _ Es) as [_ [_ [win Hwin]]].
  destruct (session_loss_unit s win Hwin) as [H0 H1].
  destruct (f32_mul_unit _ weight H0 H1 Hw0) as [Hm0 Hm1].
  { eapply f32_le_trans; [exact Hw9|]. apply f32_of_Z_le; unfold F32_RANGE; lia. }
  destruct (f32_add_le avg total _ weight Ha Hm0 Hat Hm1) as [Hs1 Hs0]. destruct (f32_div_3 weight Hw0) as [Hd0 Hd].
  split_and!; [done|exact (f32_le_trans _ _ _ Hd Hw9)|done|done|].
  replace (9 * (n + 1)) with (9 * n + 9) by lia. rewrite <- f32_of_Z_add by lia.
  apply f32_add_le; [exact (f32_le_trans _ _ _ Ha Hat)|done..].
Qed.

Lemma loss_rounds_ok peer mtu t w ks n acc :
  tunn_ok peer mtu t w -> 0 <= n -> n + Z.of_nat (length ks) <= 100 -> sums_ok n acc ->
  sums_ok (n + Z.of_nat (length ks)) (foldl (loss_round t) acc ks).
Proof.
  intros Hok. revert n acc. induction ks as [|i ks IH]; intros n acc Hn Hl Hs; cbn [foldl length] in *.
  { by rewrite Z.add_0_r. }
  replace (n + Z.of_nat (S (length ks))) with ((n + 1) + Z.of_nat (length ks)) by lia.
  apply IH; [lia..|]. by eapply loss_round_ok; [|lia|].
Qed.

Lemma estimate_loss_unit peer mtu t w : tunn_ok peer mtu t w -> unit_f32 (estimate_loss t).
Proof.
  intros Hok. unfold estimate_loss.
  pose proof (loss_rounds_ok peer mtu t w (seq 0 N_SESSIONS) 0 (f32_of_Z 9, f32_of_Z 0, f32_of_Z 0) Hok) as Hr.
  destruct (foldl _ _ _) as [[weight avg] total]. destruct Hr as (_ & _ & H0 & H1 & H2); [done..| |].
  { split_and!; apply f32_of_Z_le; unfold F32_RANGE; lia. }
  destruct (f32_eqb total (f32_of_Z 0)) eqn:E; [apply unit_zero|]. apply f32_div_unit; [done..| |done].
  eapply f32_le_trans; [exact H2|]. apply f32_of_Z_le; unfold F32_RANGE, N_SESSIONS; cbn; lia.
Qed.

Lemma stats_safe peer mtu t w :
  clock_ok (w_clock w) -> tunn_ok peer mtu t w ->
  safe (stats t) w (fun w' '(time, _, _, loss, _) =>
    unit_f32 loss /\ forall d, time = Some d -> 0 <= d <= age t w).
Proof.
  intros Hc Hok. apply safe_bind. eapply safe_weaken with (P := fun _ time => forall d, time = Some d -> 0 <= d <= age t w).
  - unfold time_since_last_handshake. destruct (session_at t (current t)); [|by apply safe_ret].
    apply safe_bind, safe_now. intros w' Hle _. apply safe_bind.
    pose proof (timer_get_past _ _ TimeSessionEstablished (tk_timers _ _ _ _ Hok) (age_nonneg peer mtu t w Hc Hok)) as Hp.
    eapply safe_lift; [apply dur_sub_ret; apply Hp|]. apply safe_ret. intros d [= <-]. unfold age in *. lia.
  - intros w' time Hle Ht. apply safe_ret. split; [by eapply estimate_loss_unit|done].
Qed.

(** C36: the statistics are sound. After a run of a tunnel from its creation,
    with packets and datagrams that fit the buffers and hostile datagrams
    included, reading the statistics returns: no duration underflows, the time
    since the handshake is not longer than the tunnel has existed, and the loss
    estimate is between zero and one, because no session counts more packets than
    its window has passed. As for the run itself, the data packets that
    authenticate under the session they name are assumed to carry counters below
    2^64 - 1024: past that the expected counter wraps to zero and the estimate
    can leave the range. *)
Theorem stats_sound priv pub psk keepalive index rl ops mtu d w :
  clock_ok (w_clock w) -> u32 index ->
  (mtu + 32 <= d)%nat -> (COOKIE_REPLY_SZ <= d)%nat ->
  (forall w0 t0, Tunn_new priv pub psk keepalive index rl w = Ret (w0, t0) -> ops_fit mtu d t0 ops w0) ->
  exists w' t rs w'' time tx rx loss rtt,
    (let* t := Tunn_new priv pub psk keepalive index rl in run_ops t ops d) w = Ret (w', (t, rs)) /\
    stats t w' = Ret (w'', (time, tx, rx, loss, rtt)) /\ unit_f32 loss /\
    forall x, time = Some x -> 0 <= x <= age t w'.
Proof.
  intros Hc Hu Hd Hd' Hops.
  destruct (tunn_new_safe priv pub psk keepalive index rl mtu w Hc Hu) as (w1 & t1 & E1 & Hle1 & Hok1).
  pose proof (world_clock _ _ Hle1 Hc) as Hc1.
  destruct (run_ops_safe _ mtu d ops t1 w1 Hd Hd' Hc1 Hok1 (Hops _ _ E1)) as (w2 & [t2 rs] & E2 & Hle2 & Hok2 & _).
  destruct (stats_safe _ mtu t2 w2 (world_clock _ _ Hle2 Hc1) Hok2) as (w3 & [[[[time tx] rx] loss] rtt] & E3 & _ & Hs).
  exists w2, t2, rs, w3, time, tx, rx, loss, rtt. split; [unfold mbind; rewrite E1; exact E2|]. by destruct Hs.
Qed.
End bounds.

(** ** Witness *)

(** Rationals satisfy the laws. *)
#[export] Instance QF32 : F32 := {|
  f32 := Q; f32_of_Z := inject_Z; f32_add := Qplus; f32_sub := Qminus; f32_mul := Qmult; f32_div := Qdiv;
  f32_eqb := Qeq_bool; f32_le := Qle
|}.

Lemma Q_div_unit (a b : Q) : (0 <= a -> a <= b -> Qeq_bool b 0 = false -> 0 <= a / b /\ a / b <= 1)%Q.
Proof.
  intros Ha Hab Hb%Qeq_bool_neq. assert (0 < b)%Q as Hp by (apply Qle_lteq in Hab as [?|E]; [lra|]; lra).
  split; [apply Qle_shift_div_l; [done|]; lra|apply Qle_shift_div_r; [done|]; lra].
Qed.

#[export] Instance QF32Laws : F32Laws QF32.
Proof.
  constructor; cbn [f32 f32_of_Z f32_add f32_sub f32_mul f32_div f32_eqb f32_le QF32].
  - intros a b c. apply Qle_trans.
  - intros a b [_ Hab] _. by rewrite <- Zle_Qle.
  - intros a Ha. apply not_true_is_false. intros E%Qeq_bool_eq. apply (inject_Z_injective a 0) in E. lia.
  - intros a b _ _ _. unfold Qplus, inject_Z. cbn. by rewrite !Z.mul_1_r.
  - intros a b c d. change (inject_Z 0) with 0%Q. intros. split; lra.
  - intros a. change (inject_Z 0) with 0%Q. change (inject_Z 1) with 1%Q. intros. split; lra.
  - intros a w. change (inject_Z 0) with 0%Q. change (inject_Z 1) with 1%Q. intros. split; nra.
  - intros a b H0 H1 _. by apply Q_div_unit.
  - intros a. change (inject_Z 0) with 0%Q. change (inject_Z 3) with 3%Q. intros H.
    split; [apply Qle_shift_div_l; [reflexivity|lra]|apply Qle_shift_div_r; [reflexivity|lra]].
Qed.

Lemma stats_sound_witness :
  exists w' t rs w'' time tx rx loss rtt,
    (let* t := Tunn_new secret_a (x25519_public secret_b) None (Some 5) 3 None in
     run_ops t [Encapsulate ping4; Decapsulate None [1; 2; 3]; UpdateTimers] 1532) (world_at 0) = Ret (w', (t, rs)) /\
    stats t w' = Ret (w'', (time, tx, rx, loss, rtt)) /\ unit_f32 loss /\
    forall x, time = Some x -> 0 <= x <= age t w'.
Proof.
  apply (stats_sound secret_a (x25519_public secret_b) None (Some 5) 3 None
    [Encapsulate ping4; Decapsulate None [1; 2; 3]; UpdateTimers] 1500 1532 (world_at 0)).
  - apply world_at_ok.
  - unfold u32; lia.
  - lia.
  - unfold COOKIE_REPLY_SZ; lia.
  - intros w0 t0 _. apply along_always. repeat constructor; cbn [op_fits]; try done; unfold byte_ok; cbn; try lia.
Defined.

(** Of the counters up to six, half arrived. *)
Example half_lost :
  session_loss (mkSession 513 257 key_ba key_ab 0 (mkValidator 6 3 (replicate 16 0))) == 1 # 2.
Proof. reflexivity. Qed.
