(* ===== verification/Text.v ===== *)
(** Strings as the sources handle them: UTF-8 bytes, cut at ASCII delimiters,
    with the standard library's decimal parsing and printing. *)

From Stdlib Require Import Ascii String.
From S2P Require Import Prelude.

Definition str : Type := bytes.

(** A literal of the sources. *)
Definition lit (s : string) : str :=
  map (fun a => Z.of_nat (nat_of_ascii a)) (list_ascii_of_string s).
Arguments lit s%_string_scope.

Definition COLON : Z := 58.
Definition SLASH : Z := 47.
Definition PLUS : Z := 43.
Definition LBRACKET : Z := 91.
Definition RBRACKET : Z := 93.

(** [str::split_once] at the first delimiter. *)
Fixpoint split_once (c : Z) (s : str) : option (str * str) :=
  match s with
  | [] => None
  | b :: s' =>
      if b =? c then Some ([], s')
      else match split_once c s' with
           | Some (x, y) => Some (b :: x, y)
           | None => None
           end
  end.

(** [str::rsplit_once] at the last delimiter. *)
Fixpoint rsplit_once (c : Z) (s : str) : option (str * str) :=
  match s with
  | [] => None
  | b :: s' =>
      match rsplit_once c s' with
      | Some (x, y) => Some (b :: x, y)
      | None => if b =? c then Some ([], s') else None
      end
  end.

Definition strip_prefix (c : Z) (s : str) : option str :=
  match s with
  | b :: s' => if b =? c then Some s' else None
  | [] => None
  end.

(** One whitespace character (Unicode White_Space, in UTF-8) at the front of a
    string, and at the end of one given back to front. *)
Definition strip_ws (s : str) : option str :=
  match s with
  | 194 :: b :: r => if (b =? 133) || (b =? 160) then Some r else None
  | 225 :: 154 :: 128 :: r => Some r
  | 226 :: 128 :: b :: r =>
      if ((128 <=? b) && (b <=? 138)) || (b =? 168) || (b =? 169) || (b =? 175) then Some r else None
  | 226 :: 129 :: 159 :: r => Some r
  | 227 :: 128 :: 128 :: r => Some r
  | b :: r => if ((9 <=? b) && (b <=? 13)) || (b =? 32) then Some r else None
  | [] => None
  end.

Definition strip_ws_rev (s : str) : option str :=
  match s with
  | b :: r =>
      if ((9 <=? b) && (b <=? 13)) || (b =? 32) then Some r
      else
        match s with
        | 133 :: 194 :: r | 160 :: 194 :: r => Some r
        | 128 :: 154 :: 225 :: r => Some r
        | 159 :: 129 :: 226 :: r => Some r
        | 128 :: 128 :: 227 :: r => Some r
        | b :: 128 :: 226 :: r =>
            if ((128 <=? b) && (b <=? 138)) || (b =? 168) || (b =? 169) || (b =? 175)
            then Some r else None
        | _ => None
        end
  | [] => None
  end.

Fixpoint strip_all (strip : str -> option str) (fuel : nat) (s : str) : str :=
  match fuel with
  | O => s
  | S f => match strip s with Some r => strip_all strip f r | None => s end
  end.

(** [str::trim]; every round drops at least a byte, so the length is enough fuel. *)
Definition trim (s : str) : str :=
  let s := strip_all strip_ws (length s) s in
  rev (strip_all strip_ws_rev (length s) (rev s)).

(** ** Decimal numbers *)

Definition digit (b : Z) : option Z := if (48 <=? b) && (b <=? 57) then Some (b - 48) else None.

(** The digits from left to right, giving up on anything else and on a value
    above [max]. *)
Fixpoint parse_digits (max acc : Z) (s : str) : option Z :=
  match s with
  | [] => Some acc
  | b :: s' =>
      match digit b with
      | None => None
      | Some d =>
          let acc := acc * 10 + d in
          if max <? acc then None else parse_digits max acc s'
      end
  end.

(** [str::parse] for an unsigned integer type: at least one digit, an optional
    plus sign, no overflow. *)
Definition parse_uint (max : Z) (s : str) : option Z :=
  match s with
  | [] => None
  | b :: s' =>
      if b =? PLUS then match s' with [] => None | _ :: _ => parse_digits max 0 s' end
      else parse_digits max 0 s
  end.

Definition U8_MAX : Z := 255.
Definition U16_MAX : Z := 65535.

(** [Display] of a number of at most [fuel] digits. *)
Fixpoint to_decimal (fuel : nat) (n : Z) : str :=
  match fuel with
  | O => []
  | S f => if n <? 10 then [48 + n] else to_decimal f (n / 10) ++ [48 + n mod 10]
  end.

(** A [u16] has at most five digits. *)
Definition display_u16 (n : Z) : str := to_decimal 5 n.

(** ** Lemmas *)

Lemma split_once_app c a b : c ∉ a -> split_once c (a ++ c :: b) = Some (a, b).
Proof.
  induction a as [|x a IH]; intros Ha; cbn.
  - by rewrite Z.eqb_refl.
  - destruct (Z.eqb_spec x c); [set_solver|]. rewrite IH by set_solver. done.
Qed.

Lemma rsplit_once_none c b : c ∉ b -> rsplit_once c b = None.
Proof.
  induction b as [|x b IH]; intros Hb; [done|]; cbn. rewrite IH by set_solver.
  destruct (Z.eqb_spec x c); [set_solver|done].
Qed.

Lemma rsplit_once_app c a b : c ∉ b -> rsplit_once c (a ++ c :: b) = Some (a, b).
Proof.
  intros Hb. induction a as [|x a IH]; cbn.
  - rewrite rsplit_once_none by done. by rewrite Z.eqb_refl.
  - by rewrite IH.
Qed.

(** Cutting at the first delimiter and gluing back. *)
Lemma split_once_inv c s a b : split_once c s = Some (a, b) -> s = a ++ c :: b /\ c ∉ a.
Proof.
  revert a b. induction s as [|x s IH]; intros a b E; [done|]; cbn in E.
  destruct (Z.eqb_spec x c); [simplify_eq; split; [done|set_solver]|].
  destruct (split_once c s) as [[u v]|]; [|done]. simplify_eq.
  destruct (IH u b eq_refl) as [-> ?]. split; [done|set_solver].
Qed.

Lemma rsplit_none_notin c s : rsplit_once c s = None -> c ∉ s.
Proof.
  induction s as [|y s IH]; [set_solver|]. cbn.
  destruct (rsplit_once c s) as [[]|]; [done|]. destruct (Z.eqb_spec y c); [done|].
  intros _. specialize (IH eq_refl). set_solver.
Qed.

Lemma rsplit_once_inv c s a b : rsplit_once c s = Some (a, b) -> s = a ++ c :: b /\ c ∉ b.
Proof.
  revert a b. induction s as [|x s IH]; intros a b E; [done|]; cbn in E.
  destruct (rsplit_once c s) as [[u v]|] eqn:Es.
  - simplify_eq. destruct (IH u b eq_refl) as [-> ?]. done.
  - destruct (Z.eqb_spec x c); [|done]. simplify_eq. split; [done|].
    by apply rsplit_none_notin.
Qed.

Lemma digit_of n : 0 <= n < 10 -> digit (48 + n) = Some n.
Proof.
  intros. unfold digit. rewrite (proj2 (Z.leb_le _ _)), (proj2 (Z.leb_le _ _)) by lia. cbn. f_equal. lia.
Qed.

Lemma parse_digits_app max acc a b x :
  parse_digits max acc a = Some x -> parse_digits max acc (a ++ b) = parse_digits max x b.
Proof.
  revert acc. induction a as [|c a IH]; intros acc E; cbn in *; [by simplify_eq|].
  destruct (digit c); [|done]. destruct (max <? acc * 10 + z); [done|]. by apply IH.
Qed.

Lemma parse_to_decimal max fuel n :
  0 <= n <= max -> n < 10 ^ Z.of_nat fuel -> parse_digits max 0 (to_decimal fuel n) = Some n.
Proof.
  revert n. induction fuel as [|f IH]; intros n Hn Hf; [change (10 ^ Z.of_nat 0) with 1 in Hf; cbn; f_equal; lia|].
  rewrite Nat2Z.inj_succ, Z.pow_succ_r in Hf by lia. cbn [to_decimal].
  destruct (Z.ltb_spec n 10).
  - cbn. rewrite digit_of by lia. cbn. by rewrite (proj2 (Z.ltb_ge _ _)) by lia.
  - rewrite (parse_digits_app _ _ _ _ (n / 10)) by (apply IH; dlia). cbn [parse_digits].
    rewrite digit_of by dlia. cbn zeta.
    replace (n / 10 * 10 + n mod 10) with n by dlia. by rewrite (proj2 (Z.ltb_ge _ _)) by lia.
Qed.

Lemma to_decimal_digits fuel n b : 0 <= n -> b ∈ to_decimal fuel n -> 48 <= b <= 57.
Proof.
  revert n. induction fuel as [|f IH]; intros n Hn Hb; cbn in Hb; [set_solver|].
  destruct (Z.ltb_spec n 10); [set_unfold in Hb; lia|].
  apply elem_of_app in Hb as [Hb|Hb]; [apply (IH (n / 10)); [dlia|done]|]. set_unfold in Hb. dlia.
Qed.

Lemma to_decimal_nonempty fuel n : (0 < fuel)%nat -> 0 <= n -> exists b r, to_decimal fuel n = b :: r /\ 48 <= b <= 57.
Proof.
  intros Hf Hn. destruct (to_decimal fuel n) as [|b r] eqn:E.
  - destruct fuel; [lia|]. cbn in E. destruct (n <? 10); [done|]. by destruct (to_decimal fuel (n / 10)).
  - exists b, r. split; [done|]. apply (to_decimal_digits fuel n); [done|]. rewrite E. set_solver.
Qed.

Lemma to_decimal_last fuel n : (0 < fuel)%nat -> 0 <= n -> exists l b, to_decimal fuel n = l ++ [b] /\ 48 <= b <= 57.
Proof.
  intros Hf Hn. destruct fuel as [|f]; [lia|]. cbn [to_decimal]. destruct (Z.ltb_spec n 10).
  - exists [], (48 + n). split; [done|lia].
  - exists (to_decimal f (n / 10)), (48 + n mod 10). split; [done|dlia].
Qed.

Lemma split_once_none c s : c ∉ s -> split_once c s = None.
Proof.
  induction s as [|x s IH]; intros Hs; [done|]. cbn. destruct (Z.eqb_spec x c); [set_solver|]. by rewrite IH by set_solver.
Qed.

(** Parsing what was printed. *)
Lemma parse_display_u16 n : 0 <= n <= U16_MAX -> parse_uint U16_MAX (display_u16 n) = Some n.
Proof.
  intros Hn. unfold display_u16, parse_uint.
  destruct (to_decimal_nonempty 5 n ltac:(lia) ltac:(lia)) as (b & r & E & Hb). rewrite E.
  destruct (Z.eqb_spec b PLUS); [unfold PLUS in *; lia|]. rewrite <- E.
  apply parse_to_decimal; [done|]. unfold U16_MAX in Hn. cbn. lia.
Qed.

Lemma parse_display_u8 n : 0 <= n <= U8_MAX -> parse_uint U8_MAX (display_u16 n) = Some n.
Proof.
  intros Hn. unfold display_u16, parse_uint.
  destruct (to_decimal_nonempty 5 n ltac:(lia) ltac:(lia)) as (b & r & E & Hb). rewrite E.
  destruct (Z.eqb_spec b PLUS); [unfold PLUS in *; lia|]. rewrite <- E.
  apply parse_to_decimal; [done|]. unfold U8_MAX in Hn. cbn. lia.
Qed.

Lemma parse_digits_bound max acc s n :
  0 <= acc <= max -> parse_digits max acc s = Some n -> 0 <= n <= max.
Proof.
  revert acc. induction s as [|b s IH]; intros acc Hacc E; cbn in E; [by simplify_eq|].
  destruct (digit b) as [x|] eqn:Ed; [|done]. destruct (Z.ltb_spec max (acc * 10 + x)); [done|].
  apply (IH (acc * 10 + x)); [|done]. unfold digit in Ed. case_match; simplify_eq. zbool. lia.
Qed.

Lemma parse_uint_bound max s n : 0 <= max -> parse_uint max s = Some n -> 0 <= n <= max.
Proof.
  intros Hm. unfold parse_uint. intros E. repeat case_hyp E; simplify_eq;
    by apply parse_digits_bound in E; [|lia].
Qed.

(** [trim] leaves a string alone that starts and ends with a digit. *)
Lemma trim_digits s b c : head s = Some b -> last s = Some c -> 48 <= b <= 57 -> 48 <= c <= 57 -> trim s = s.
Proof.
  intros Hb Hc Rb Rc.
  assert (forall x r, 48 <= x <= 57 -> strip_ws (x :: r) = None /\ strip_ws_rev (x :: r) = None) as Hws.
  { intros x r Hx. cut (x = 48 \/ x = 49 \/ x = 50 \/ x = 51 \/ x = 52 \/ x = 53 \/ x = 54 \/ x = 55 \/ x = 56 \/ x = 57); [|lia].
    intros H. split; repeat destruct H as [->|H]; subst; cbn; repeat case_match; done. }
  assert (forall strip n x, strip x = None -> strip_all strip n x = x) as Hall
    by (intros strip [|n] x E; cbn; [done|by rewrite E]).
  unfold trim. destruct s as [|b' s]; [done|]. injection Hb as ->.
  rewrite (Hall strip_ws) by (by apply Hws). apply last_Some in Hc as [l E]. rewrite E.
  rewrite (Hall strip_ws_rev) by (rewrite rev_app_distr; by apply Hws). apply rev_involutive.
Qed.
