(* ===== verification/Redact.v ===== *)
(** What the [Debug] output of keys and sessions shows, [boringtun/src/noise/
    handshake.rs] and [session.rs]: the formatters written by hand, and the one
    derived for the state that contains them. *)

From Stdlib Require Import String.
From S2P Require Import Prelude Time Crypto ToyCrypto Packet Replay Session Handshake HandshakeFacts Text.

(** ** The formatter of the standard library *)

(** Numbers of at most 64 bits. *)
Definition show_num (n : Z) : str := to_decimal 20 n.

Fixpoint separated (items : list str) : str :=
  match items with
  | [] => []
  | [x] => x
  | x :: items' => x ++ lit ", " ++ separated items'
  end.

(** Arrays, options, string literals. *)
Definition show_bytes (b : bytes) : str := lit "[" ++ separated (map show_num b) ++ lit "]".
Definition show_option {A} (show : A -> str) (o : option A) : str :=
  match o with Some x => lit "Some(" ++ show x ++ lit ")" | None => lit "None" end.
Definition show_text (s : str) : str := [34] ++ s ++ [34].

(** [debug_struct]: the name and the fields in the order given. *)
Definition debug_struct (name : str) (fields : list (str * str)) : str :=
  name ++ lit " { " ++ separated (map (fun '(f, v) => f ++ lit ": " ++ v) fields) ++ lit " }".

Definition redacted : str := show_text (lit "<redacted>").

(** ** The formatters *)

Section debug.
(** Public keys and instants format themselves. *)
Variables (show_public : bytes -> str) (show_instant : Instant -> str).

Definition fmt_NoiseParams (p : NoiseParams) : str :=
  debug_struct (lit "NoiseParams")
    [(lit "static_public", show_public (static_public p));
     (lit "static_private", redacted);
     (lit "peer_static_public", show_public (peer_static_public p));
     (lit "static_shared", redacted);
     (lit "sending_mac1_key", show_bytes (sending_mac1_key p));
     (lit "preshared_key", show_option show_bytes (preshared_key p))].

Definition fmt_HandshakeInitSentState (s : HandshakeInitSentState) : str :=
  debug_struct (lit "HandshakeInitSentState")
    [(lit "local_index", show_num (is_local_index s));
     (lit "hash", show_bytes (is_hash s));
     (lit "chaining_key", show_bytes (is_chaining_key s));
     (lit "ephemeral_private", redacted);
     (lit "time_sent", show_instant (is_time_sent s))].

Definition fmt_HandshakeState (s : HandshakeState) : str :=
  match s with
  | HsNone => lit "None"
  | InitSent s => lit "InitSent(" ++ fmt_HandshakeInitSentState s ++ lit ")"
  | InitReceived hash chaining_key peer_ephemeral_public peer_index =>
      debug_struct (lit "InitReceived")
        [(lit "hash", show_bytes hash); (lit "chaining_key", show_bytes chaining_key);
         (lit "peer_ephemeral_public", show_public peer_ephemeral_public); (lit "peer_index", show_num peer_index)]
  | Expired => lit "Expired"
  end.

Definition fmt_Session (s : Session) : str :=
  lit "Session: " ++ show_num (receiving_index s) ++ lit "<- ->" ++ show_num (sending_index s).

(** ** What an observer of the output can tell apart *)

(** Configurations that differ at most in the private key and what follows from
    it. *)
Record alike_params (p q : NoiseParams) : Prop := {
  ap_public : static_public p = static_public q;
  ap_peer : peer_static_public p = peer_static_public q;
  ap_mac : sending_mac1_key p = sending_mac1_key q;
  ap_psk : preshared_key p = preshared_key q
}.

(** States that differ at most in the ephemeral private key. *)
Inductive alike_state : HandshakeState -> HandshakeState -> Prop :=
| alike_refl s : alike_state s s
| alike_sent i h c e e' t : alike_state (InitSent (mkInitSent i h c e t)) (InitSent (mkInitSent i h c e' t)).

(** Sessions with the same indices. *)
Definition alike_session (s t : Session) : Prop :=
  receiving_index s = receiving_index t /\ sending_index s = sending_index t.

#[export] Instance alike_params_equivalence : Equivalence alike_params.
Proof. split; [by constructor|by intros p q []|]. intros p q r [] []. constructor; congruence. Qed.

#[export] Instance alike_state_equivalence : Equivalence alike_state.
Proof.
  split; [constructor|by intros s t []; constructor|].
  intros s t u H1 H2. destruct H1; [done|]. inversion H2; subst; constructor.
Qed.

(** Private keys do not show. The output for a configuration does not depend on
    the static private key or on the shared secret, that for a handshake in
    progress not on the ephemeral private key, and that for a session not on its
    keys or counters. *)
Theorem debug_redacts p q s t a b :
  alike_params p q -> alike_state s t -> alike_session a b ->
  fmt_NoiseParams p = fmt_NoiseParams q /\ fmt_HandshakeState s = fmt_HandshakeState t /\ fmt_Session a = fmt_Session b.
Proof.
  intros [E1 E2 E3 E4] Hs [E5 E6]. unfold fmt_NoiseParams, fmt_Session. rewrite E1, E2, E3, E4, E5, E6.
  split; [done|]. split; [|done]. by destruct Hs.
Qed.

(** The preshared key does show: two keys give two outputs. *)
Theorem preshared_key_shows p k k' :
  show_bytes k <> show_bytes k' ->
  let with_psk x := mkNoiseParams (static_public p) (static_private p) (peer_static_public p) (static_shared p)
    (sending_mac1_key p) (Some x) in
  fmt_NoiseParams (with_psk k) <> fmt_NoiseParams (with_psk k').
Proof.
  cbn zeta. intros Hne E. apply Hne. unfold fmt_NoiseParams, debug_struct in E. cbn [map separated static_public
    static_private peer_static_public static_shared sending_mac1_key preshared_key show_option] in E.
  rewrite !app_assoc in E. repeat (apply app_inj_2 in E as [E _]; [|done]). by apply app_inv_head in E.
Qed.
End debug.

(** ** Witnesses *)

Definition hex_key : bytes -> str := show_bytes.
Definition no_instant (i : Instant) : str := lit "Instant".

Lemma debug_redacts_witness :
  fmt_NoiseParams hex_key (params peer_a) = fmt_NoiseParams hex_key
    (mkNoiseParams (static_public (params peer_a)) [] (peer_static_public (params peer_a)) []
       (sending_mac1_key (params peer_a)) None) /\
  fmt_HandshakeState hex_key no_instant (InitSent (mkInitSent 5 [] [] [1; 2] (mkInstant 0 0))) =
    fmt_HandshakeState hex_key no_instant (InitSent (mkInitSent 5 [] [] [3] (mkInstant 0 0))) /\
  fmt_Session (Session_new 1 2 [] []) = fmt_Session (Session_new 1 2 [9] [8]).
Proof. apply debug_redacts; [by constructor|constructor|done]. Defined.

Lemma preshared_key_shows_witness :
  fmt_NoiseParams hex_key (mkNoiseParams [] [] [] [] [] (Some [1])) <>
  fmt_NoiseParams hex_key (mkNoiseParams [] [] [] [] [] (Some [2])).
Proof. apply (preshared_key_shows hex_key (mkNoiseParams [] [] [] [] [] None)). vm_compute. discriminate. Defined.

Example session_shows : fmt_Session (Session_new 257 513 [] []) = lit "Session: 257<- ->513".
Proof. vm_compute. reflexivity. Qed.
