(* ===== verification/Ip.v ===== *)
(** IP addresses as text: the standard library's [IpAddr::from_str] and
    [Ipv4Addr::from_str], which the sources call. A reader takes what it can
    from the front of the string and returns the rest. *)

From S2P Require Import Prelude Packet Text.

Definition DOT : Z := 46.

(** [char::to_digit] for the radices ten and sixteen. *)
Definition to_digit (radix b : Z) : option Z :=
  let d := if (48 <=? b) && (b <=? 57) then b - 48
           else if (97 <=? b) && (b <=? 102) then b - 87
           else if (65 <=? b) && (b <=? 70) then b - 55
           else 16 in
  if d <? radix then Some d else None.

(** The digits at the front, at most [max] of them. *)
Fixpoint read_digits (radix : Z) (max count : nat) (acc : Z) (s : str) : option (Z * nat * str) :=
  match s with
  | [] => Some (acc, count, s)
  | b :: s' =>
      match to_digit radix b with
      | None => Some (acc, count, s)
      | Some d => if (max <=? count)%nat then None else read_digits radix max (S count) (acc * radix + d) s'
      end
  end.

Definition read_number (radix : Z) (max : nat) (allow_zero_prefix : bool) (bound : Z) (s : str)
  : option (Z * str) :=
  match read_digits radix max 0 0 s with
  | None => None
  | Some (v, n, rest) =>
      if (n =? 0)%nat then None
      else if negb allow_zero_prefix && bool_decide (head s = Some 48) && (1 <? n)%nat then None
      else if bound <? v then None else Some (v, rest)
  end.

Definition read_ipv4_addr (s : str) : option (bytes * str) :=
  let octet := read_number 10 3 false U8_MAX in
  match octet s with
  | None => None
  | Some (a, s) =>
      match strip_prefix DOT s with
      | None => None
      | Some s =>
          match octet s with
          | None => None
          | Some (b, s) =>
              match strip_prefix DOT s with
              | None => None
              | Some s =>
                  match octet s with
                  | None => None
                  | Some (c, s) =>
                      match strip_prefix DOT s with
                      | None => None
                      | Some s =>
                          match octet s with
                          | None => None
                          | Some (d, s) => Some ([a; b; c; d], s)
                          end
                      end
                  end
              end
          end
      end
  end.

(** A separator before every group but the first. *)
Definition read_separator (i : nat) (s : str) : option str :=
  match i with O => Some s | S _ => strip_prefix COLON s end.

(** Up to [n] groups of an IPv6 address, the [i]-th first; an embedded IPv4
    address may stand for the last two. *)
Fixpoint read_groups (n i : nat) (s : str) : bytes * bool * str :=
  match n with
  | O => ([], false, s)
  | S n' =>
      let v4 := match n' with
                | O => None
                | S _ => match read_separator i s with Some r => read_ipv4_addr r | None => None end
                end in
      match v4 with
      | Some (octets, rest) => (octets, true, rest)
      | None =>
          match read_separator i s with
          | None => ([], false, s)
          | Some r =>
              match read_number 16 4 true U16_MAX r with
              | None => ([], false, s)
              | Some (g, rest) =>
                  let '(gs, v4, rest) := read_groups n' (S i) rest in
                  (to_be_bytes 2 g ++ gs, v4, rest)
              end
          end
      end
  end.

(** The groups before a double colon and those after it, zeros between. *)
Definition read_ipv6_addr (s : str) : option (bytes * str) :=
  let '(front, v4, rest) := read_groups 8 0 s in
  if (length front =? 16)%nat then Some (front, rest)
  else if v4 then None
  else
    match strip_prefix COLON rest with
    | None => None
    | Some rest =>
        match strip_prefix COLON rest with
        | None => None
        | Some rest =>
            let limit := (8 - (length front / 2 + 1))%nat in
            let '(back, _, rest) := read_groups limit 0 rest in
            Some (front ++ replicate (16 - length front - length back) 0 ++ back, rest)
        end
    end.

(** [IpAddr::from_str]: the whole string. *)
Definition ip_from_str (s : str) : option IpAddr :=
  let r := match read_ipv4_addr s with
           | Some (o, rest) => Some (V4 o, rest)
           | None => match read_ipv6_addr s with
                     | Some (o, rest) => Some (V6 o, rest)
                     | None => None
                     end
           end in
  match r with
  | Some (a, []) => Some a
  | _ => None
  end.

(** [Ipv4Addr::from_str]. *)
Definition ipv4_from_str (s : str) : option bytes :=
  if (15 <? length s)%nat then None
  else match read_ipv4_addr s with
       | Some (o, []) => Some o
       | _ => None
       end.

(** ** Well-formed addresses *)

Definition octets (a : IpAddr) : bytes := match a with V4 o | V6 o => o end.

Definition ip_ok (a : IpAddr) : Prop :=
  bytes_ok (octets a) /\ length (octets a) = match a with V4 _ => 4%nat | V6 _ => 16%nat end.

Lemma to_digit_bound radix b d : to_digit radix b = Some d -> 0 <= d < radix.
Proof.
  unfold to_digit. intros E. repeat case_hyp E; simplify_eq; zbool; lia.
Qed.

Lemma read_digits_nonneg radix max count acc s v n rest :
  0 <= radix -> 0 <= acc -> read_digits radix max count acc s = Some (v, n, rest) -> 0 <= v.
Proof.
  intros Hr. revert count acc. induction s as [|b s IH]; intros count acc Ha E; cbn in E; [by simplify_eq|].
  destruct (to_digit radix b) as [d|] eqn:Ed; [|by simplify_eq]. apply to_digit_bound in Ed.
  destruct (max <=? count)%nat; [done|]. apply IH in E; [done|nia].
Qed.

Lemma read_number_bound radix max z bound s v rest :
  0 <= radix -> read_number radix max z bound s = Some (v, rest) -> 0 <= v <= bound.
Proof.
  intros Hr. unfold read_number. destruct (read_digits radix max 0 0 s) as [[[x n] r]|] eqn:E; [|done].
  apply read_digits_nonneg in E; [|lia..]. intros H. repeat case_hyp H; simplify_eq. zbool. lia.
Qed.

Lemma read_ipv4_ok s o rest : read_ipv4_addr s = Some (o, rest) -> bytes_ok o /\ length o = 4%nat.
Proof.
  unfold read_ipv4_addr. intros E. repeat case_hyp E; simplify_eq.
  repeat match goal with H : read_number _ _ _ _ _ = Some _ |- _ => apply read_number_bound in H; [|lia] end.
  split; [|done]. unfold U8_MAX, bytes_ok, byte_ok in *. repeat constructor; lia.
Qed.

Lemma read_groups_ok n i s gs v4 rest :
  read_groups n i s = (gs, v4, rest) ->
  bytes_ok gs /\ (length gs <= 2 * n)%nat /\ (length gs / 2 * 2 = length gs)%nat.
Proof.
  revert i s gs. induction n as [|n IH]; intros i s gs E; cbn [read_groups] in E; [simplify_eq; split_and!; [apply Forall_nil_2|done|done]|].
  match type of E with (match ?v with _ => _ end = _) => destruct v as [[o r]|] eqn:Ev end.
  - simplify_eq. destruct n; [done|]. destruct (read_separator i s); [|done].
    apply read_ipv4_ok in Ev as [Hb Hl]. rewrite Hl. split_and!; [done|lia|done].
  - destruct (read_separator i s) as [r|]; [|simplify_eq; split_and!; [apply Forall_nil_2|cbn; lia|done]].
    destruct (read_number 16 4 true U16_MAX r) as [[g r1]|]; [|simplify_eq; split_and!; [apply Forall_nil_2|cbn; lia|done]].
    destruct (read_groups n (S i) r1) as [[gs' v4'] r2] eqn:Eg. simplify_eq.
    destruct (IH _ _ _ Eg) as (Hb & Hl & Hd).
    change (g / 256 mod 256 :: g mod 256 :: gs') with (to_be_bytes 2 g ++ gs'). split_and!.
    + apply Forall_app. split; [apply to_be_bytes_ok|done].
    + rewrite length_app, length_to_be_bytes. lia.
    + rewrite length_app, length_to_be_bytes. change (2 + length gs')%nat with (1 * 2 + length gs')%nat.
      rewrite Nat.div_add_l by lia. lia.
Qed.

Lemma read_ipv6_ok s o rest : read_ipv6_addr s = Some (o, rest) -> bytes_ok o /\ length o = 16%nat.
Proof.
  unfold read_ipv6_addr. destruct (read_groups 8 0 s) as [[front v4] r1] eqn:Ef.
  apply read_groups_ok in Ef as (Hb & Hl & Hd). intros E.
  destruct (Nat.eqb_spec (length front) 16); [by simplify_eq|]. destruct v4; [done|].
  destruct (strip_prefix COLON r1) as [r2|]; [|done]. destruct (strip_prefix COLON r2) as [r3|]; [|done].
  destruct (read_groups _ 0 r3) as [[back v4'] r4] eqn:Eb. simplify_eq.
  apply read_groups_ok in Eb as (Hb' & Hl' & _). split.
  - apply Forall_app. split; [done|]. apply Forall_app. split; [|done]. apply Forall_replicate. unfold byte_ok. lia.
  - rewrite !length_app, length_replicate. lia.
Qed.

(** What parses is a well-formed address. *)
Lemma ip_from_str_ok s a : ip_from_str s = Some a -> ip_ok a.
Proof.
  unfold ip_from_str. intros E.
  destruct (read_ipv4_addr s) as [[o rest]|] eqn:E4.
  - apply read_ipv4_ok in E4. destruct rest; [|done]. by simplify_eq.
  - destruct (read_ipv6_addr s) as [[o rest]|] eqn:E6; [|done].
    apply read_ipv6_ok in E6. destruct rest; [|done]. by simplify_eq.
Qed.

Lemma ipv4_from_str_ok s o : ipv4_from_str s = Some o -> bytes_ok o /\ length o = 4%nat.
Proof.
  unfold ipv4_from_str. intros E. case_match; [done|].
  destruct (read_ipv4_addr s) as [[o' [|]]|] eqn:E4; [|done..]. simplify_eq. by eapply read_ipv4_ok.
Qed.

(** ** Round trip *)

Definition print_ipv4 (a b c d : Z) : str :=
  to_decimal 3 a ++ DOT :: to_decimal 3 b ++ DOT :: to_decimal 3 c ++ DOT :: to_decimal 3 d.

Lemma to_digit_10 d : 0 <= d < 10 -> to_digit 10 (48 + d) = Some d.
Proof.
  intros. unfold to_digit. rewrite (proj2 (Z.leb_le 48 _)), (proj2 (Z.leb_le _ 57)) by lia. cbn [andb].
  replace (48 + d - 48) with d by lia. by rewrite (proj2 (Z.ltb_lt _ _)) by lia.
Qed.

(** Reading back an octet that something other than a digit follows. *)
Lemma read_octet n rest :
  byte_ok n -> (forall b, head rest = Some b -> to_digit 10 b = None) ->
  read_number 10 3 false U8_MAX (to_decimal 3 n ++ rest) = Some (n, rest).
Proof.
  intros Hn Hr. unfold byte_ok in Hn. unfold read_number.
  assert (forall c a, read_digits 10 3 c a rest = Some (a, c, rest)) as Hstop.
  { intros c a. destruct rest as [|b r]; [done|]. cbn. by rewrite (Hr b). }
  cbn [to_decimal]. destruct (Z.ltb_spec n 10); [|destruct (Z.ltb_spec (n / 10) 10); [|destruct (Z.ltb_spec (n / 10 / 10) 10); [|dlia]]];
    cbn [app read_digits Nat.leb]; rewrite !to_digit_10 by dlia; rewrite Hstop; cbn [Nat.eqb negb andb head Nat.ltb Nat.leb];
    rewrite ?andb_false_r, ?andb_true_r.
  - rewrite (proj2 (Z.ltb_ge _ _)) by (unfold U8_MAX; lia). done.
  - rewrite bool_decide_eq_false_2 by (intros [=]; dlia).
    replace ((0 * 10 + n / 10) * 10 + n mod 10) with n by dlia.
    by rewrite (proj2 (Z.ltb_ge _ _)) by (unfold U8_MAX; lia).
  - rewrite bool_decide_eq_false_2 by (intros [=]; dlia).
    replace (((0 * 10 + n / 10 / 10) * 10 + (n / 10) mod 10) * 10 + n mod 10) with n by dlia.
    by rewrite (proj2 (Z.ltb_ge _ _)) by (unfold U8_MAX; lia).
Qed.

Lemma ipv4_round_trip a b c d rest :
  bytes_ok [a; b; c; d] -> (forall x, head rest = Some x -> to_digit 10 x = None) ->
  read_ipv4_addr (print_ipv4 a b c d ++ rest) = Some ([a; b; c; d], rest).
Proof.
  intros Hok Hr. inversion_clear Hok as [|? ? Ha Hok1]. inversion_clear Hok1 as [|? ? Hb Hok2].
  inversion_clear Hok2 as [|? ? Hc Hok3]. inversion_clear Hok3 as [|? ? Hd _].
  unfold read_ipv4_addr, print_ipv4. rewrite <- !app_assoc. cbn [app]. rewrite <- !app_assoc. cbn [app].
  rewrite <- !app_assoc. cbn [app].
  assert (forall l x, head (DOT :: l) = Some x -> to_digit 10 x = None) as Hdot by (by intros l x [= <-]).
  rewrite read_octet by first [assumption | apply Hdot]. cbn [strip_prefix]. rewrite Z.eqb_refl.
  rewrite read_octet by first [assumption | apply Hdot]. cbn [strip_prefix]. rewrite Z.eqb_refl.
  rewrite read_octet by first [assumption | apply Hdot]. cbn [strip_prefix]. rewrite Z.eqb_refl.
  by rewrite read_octet by first [assumption | apply Hdot].
Qed.
