(* ===== verification/Json.v ===== *)
(** JSON as the program uses it through [serde_json]: values, their accessors,
    the [json!] objects (ordered maps), and the decoding of structs that
    [#[derive(Deserialize)]] generates. The textual format itself is that of the
    crate, the class [JsonText]. *)

From Stdlib Require Import String.
From S2P Require Import Prelude Text.

(** [f64] values are passed through untouched, so their type is a parameter,
    with the constant [0.0] and the conversion of an integer. *)
Class Float := { f64 : Type; f64_zero : f64; f64_of_Z : Z -> f64 }.

(** A document: an object lists its fields in the order of the text. A
    [serde_json::Value] is one whose objects are sorted and without duplicates
    ([value_ok] below), since the crate's map is a [BTreeMap]. *)
Inductive json {F : Float} : Type :=
| JNull
| JBool (b : bool)
| JInt (z : Z)
| JFloat (f : f64)
| JStr (s : str)
| JArr (l : list json)
| JObj (fields : list (str * json)).

(** ** Ordered maps *)

(** The order of strings: bytes, lexicographically. *)
Fixpoint str_compare (a b : str) : comparison :=
  match a, b with
  | [], [] => Eq
  | [], _ => Lt
  | _, [] => Gt
  | x :: a', y :: b' => match x ?= y with Eq => str_compare a' b' | c => c end
  end.

Fixpoint assoc {A} (k : str) (fs : list (str * A)) : option A :=
  match fs with
  | [] => None
  | (k', v) :: fs' => if bytes_eqb k k' then Some v else assoc k fs'
  end.

(** Insertion into the map: a value that was there is replaced. *)
Fixpoint obj_insert {A} (k : str) (v : A) (fs : list (str * A)) : list (str * A) :=
  match fs with
  | [] => [(k, v)]
  | (k', v') :: fs' =>
      match str_compare k k' with
      | Lt => (k, v) :: fs
      | Eq => (k, v) :: fs'
      | Gt => (k', v') :: obj_insert k v fs'
      end
  end.

Definition obj_of {A} (fs : list (str * A)) : list (str * A) :=
  foldl (fun m kv => obj_insert (fst kv) (snd kv) m) [] fs.

Fixpoint sorted_keys {A} (fs : list (str * A)) : bool :=
  match fs with
  | [] => true
  | (k, _) :: fs' =>
      match fs' with
      | [] => true
      | (k', _) :: _ => match str_compare k k' with Lt => sorted_keys fs' | _ => false end
      end
  end.

Section values.
Context {F : Float}.

(** A [json!] object literal. *)
Definition jobj (fs : list (str * json)) : json := JObj (obj_of fs).

(** Reading a document as a [Value]. *)
Fixpoint to_value (j : json) : json :=
  match j with
  | JArr l => JArr (map to_value l)
  | JObj fs => JObj (obj_of (map (fun kv => (fst kv, to_value (snd kv))) fs))
  | _ => j
  end.

Fixpoint value_ok (j : json) : bool :=
  match j with
  | JArr l => forallb value_ok l
  | JObj fs => sorted_keys fs && forallb (fun kv => value_ok (snd kv)) fs
  | _ => true
  end.

(** ** Accessors of a value *)

(** [v.get(k)]; [v[k]] is the same with [Null] for what is missing. *)
Definition get (k : str) (v : json) : option json :=
  match v with JObj fs => assoc k fs | _ => None end.

Definition index (k : str) (v : json) : json :=
  match get k v with Some x => x | None => JNull end.

Definition as_str (v : json) : option str := match v with JStr s => Some s | _ => None end.
Definition as_array (v : json) : option (list json) := match v with JArr l => Some l | _ => None end.
Definition as_u64 (v : json) : option Z :=
  match v with JInt z => if 0 <=? z then Some z else None | _ => None end.

(** ** Derived decoding *)

Definition dec_str (v : json) : option str := as_str v.
Definition dec_bool (v : json) : option bool := match v with JBool b => Some b | _ => None end.
Definition dec_int (lo hi : Z) (v : json) : option Z :=
  match v with JInt z => if (lo <=? z) && (z <=? hi) then Some z else None | _ => None end.
Definition dec_i64 : json -> option Z := dec_int (- 2 ^ 63) (2 ^ 63 - 1).
Definition dec_u16 : json -> option Z := dec_int 0 U16_MAX.
Definition dec_f64 (v : json) : option f64 :=
  match v with JFloat f => Some f | JInt z => Some (f64_of_Z z) | _ => None end.
Definition dec_option {A} (dec : json -> option A) (v : json) : option (option A) :=
  match v with JNull => Some None | _ => option_map Some (dec v) end.
Definition dec_vec {A} (dec : json -> option A) (v : json) : option (list A) :=
  match v with JArr l => mapM dec l | _ => None end.

(** A struct is read from an object or, positionally, from an array. *)
Inductive Fields : Type :=
| FMap (fs : list (str * json))
| FSeq (l : list json).

(** A reader of fields, in the order of their declaration. *)
Definition Dec (A : Type) : Type := Fields -> option (A * Fields).
Definition dret {A} (a : A) : Dec A := fun f => Some (a, f).
Definition dbind {A B} (m : Dec A) (k : A -> Dec B) : Dec B :=
  fun f => match m f with Some (a, f') => k a f' | None => None end.

(** One field; [in_map] and [in_seq] are what an absent one stands for. *)
Definition field {A} (name : str) (dec : json -> option A) (in_map in_seq : option A) : Dec A :=
  fun f =>
    match f with
    | FMap fs =>
        match assoc name fs with
        | Some v => option_map (fun a => (a, f)) (dec v)
        | None => option_map (fun a => (a, f)) in_map
        end
    | FSeq [] => option_map (fun a => (a, f)) in_seq
    | FSeq (v :: l) => option_map (fun a => (a, FSeq l)) (dec v)
    end.

(** A required field, one with [#[serde(default)]], an [Option] without it. *)
Definition required {A} (name : str) (dec : json -> option A) : Dec A := field name dec None None.
Definition defaulted {A} (name : str) (dec : json -> option A) (d : A) : Dec A :=
  field name dec (Some d) (Some d).
Definition optional {A} (name : str) (dec : json -> option A) : Dec (option A) :=
  field name (dec_option dec) (Some None) None.

(** The visitor: unknown fields of an object are ignored, left-over elements of
    an array are an error. *)
Definition dec_struct {A} (m : Dec A) (v : json) : option A :=
  match v with
  | JObj fs => option_map fst (m (FMap fs))
  | JArr l => match m (FSeq l) with Some (a, FSeq []) => Some a | _ => None end
  | _ => None
  end.
End values.

Declare Scope dec_scope.
Notation "'let?' x ':=' m 'in' k" := (dbind m (fun x => k))
  (at level 10, x pattern, m at level 100, k at level 200) : dec_scope.
#[global] Open Scope dec_scope.

(** ** The text *)

(** [serde_json]'s printer and parser. The law is the crate's round trip on
    documents without floating-point numbers; the printed text is made of
    bytes. *)
Class JsonText {F : Float} := {
  json_print : json -> bytes;
  json_parse : bytes -> option json
}.

Fixpoint no_floats {F : Float} (j : json) : bool :=
  match j with
  | JFloat _ => false
  | JArr l => forallb no_floats l
  | JObj fs => forallb (fun kv => no_floats (snd kv)) fs
  | _ => true
  end.

Class JsonTextLaws {F : Float} (J : JsonText) : Prop := {
  json_parse_print : forall j, no_floats j = true -> json_parse (json_print j) = Some j;
  json_print_bytes : forall j, bytes_ok (json_print j)
}.

(** ** Induction over documents *)

Section json_ind.
Context {F : Float} (P : json -> Prop).
Hypothesis (Hnull : P JNull) (Hbool : forall b, P (JBool b)) (Hint : forall z, P (JInt z))
  (Hfloat : forall f, P (JFloat f)) (Hstr : forall s, P (JStr s))
  (Harr : forall l, Forall P l -> P (JArr l))
  (Hobj : forall fs, Forall (fun kv => P (snd kv)) fs -> P (JObj fs)).

Fixpoint json_deep_ind (j : json) : P j :=
  match j with
  | JNull => Hnull
  | JBool b => Hbool b
  | JInt z => Hint z
  | JFloat f => Hfloat f
  | JStr s => Hstr s
  | JArr l =>
      Harr l ((fix go (l : list json) : Forall P l :=
                 match l with
                 | [] => Forall_nil_2 _
                 | x :: l' => Forall_cons_2 _ _ _ (json_deep_ind x) (go l')
                 end) l)
  | JObj fs =>
      Hobj fs ((fix go (fs : list (str * json)) : Forall (fun kv => P (snd kv)) fs :=
                  match fs with
                  | [] => Forall_nil_2 _
                  | (k, x) :: fs' => Forall_cons_2 _ (k, x) _ (json_deep_ind x) (go fs')
                  end) fs)
  end.
End json_ind.

(** ** Facts about ordered maps *)

Lemma str_compare_eq a b : str_compare a b = Eq <-> a = b.
Proof.
  revert b. induction a as [|x a IH]; intros [|y b]; cbn; try done.
  destruct (Z.compare_spec x y); rewrite ?IH; split; intros; simplify_eq; (done || lia || by f_equal).
Qed.

Lemma str_compare_antisym a b : str_compare b a = CompOpp (str_compare a b).
Proof.
  revert b. induction a as [|x a IH]; intros [|y b]; cbn; try done.
  rewrite Z.compare_antisym. by destruct (x ?= y); cbn.
Qed.

Lemma str_compare_trans a b c : str_compare a b = Lt -> str_compare b c = Lt -> str_compare a c = Lt.
Proof.
  revert b c. induction a as [|x a IH]; intros [|y b] [|z c]; cbn; try done.
  destruct (Z.compare_spec x y), (Z.compare_spec y z); try done; intros H1 H2;
    destruct (Z.compare_spec x z); first [lia | done | by apply (IH b)].
Qed.

(** Every key is below [k]. *)
Definition keys_below {A} (k : str) (fs : list (str * A)) : Prop :=
  Forall (fun kv => str_compare (fst kv) k = Lt) fs.

Lemma obj_insert_last {A} k (v : A) fs : keys_below k fs -> obj_insert k v fs = fs ++ [(k, v)].
Proof.
  induction 1 as [|[k' v'] fs Hk _ IH]; [done|]. cbn in *.
  by rewrite str_compare_antisym, Hk, IH.
Qed.

Lemma obj_of_app {A} (acc fs : list (str * A)) :
  sorted_keys fs = true -> (forall kv, head fs = Some kv -> keys_below (fst kv) acc) ->
  foldl (fun m kv => obj_insert (fst kv) (snd kv) m) acc fs = acc ++ fs.
Proof.
  revert acc. induction fs as [|[k v] fs IH]; intros acc Hs Hb; [by rewrite app_nil_r|].
  cbn [foldl fst snd]. specialize (Hb _ eq_refl). cbn [fst] in Hb.
  rewrite obj_insert_last by done. cbn [sorted_keys] in Hs.
  destruct fs as [|[k' v'] fs]; [done|].
  destruct (str_compare k k') eqn:Hk; try discriminate.
  rewrite IH; [by rewrite <- app_assoc|done|]. intros kv [= <-]. cbn [fst].
  apply Forall_app. split; [|by repeat constructor].
  eapply Forall_impl; [exact Hb|]. intros x Hx. exact (str_compare_trans _ _ _ Hx Hk).
Qed.

Lemma obj_of_sorted {A} (fs : list (str * A)) : sorted_keys fs = true -> obj_of fs = fs.
Proof. intros Hs. apply (obj_of_app []); [done|]. intros. constructor. Qed.

(** A value reads as itself. *)
Lemma to_value_id {F : Float} j : value_ok j = true -> to_value j = j.
Proof.
  induction j as [| | | | |l IH|fs IH] using json_deep_ind; cbn; try done.
  - intros Hl. f_equal. induction IH as [|x l Hx _ IHl]; [done|]. cbn in *.
    apply andb_prop in Hl as [Hv Hl]. by rewrite Hx, IHl.
  - intros [Hs Hv]%andb_prop.
    enough (map (fun kv => (fst kv, to_value (snd kv))) fs = fs) as -> by (by rewrite obj_of_sorted).
    clear Hs. induction IH as [|[k x] fs Hx _ IHfs]; [done|]. cbn in *.
    apply andb_prop in Hv as [Hv Hfs]. by rewrite Hx, IHfs.
Qed.

(** ** A concrete text format *)

(** A stand-in for the crate's format, for the witnesses: documents as trees,
    trees as numbers, numbers as numerals. Floating-point numbers are left out, as
    the law allows. *)
Module ToyJson.
Section codec.
Context {F : Float}.

Fixpoint to_tree (j : json) : gen_tree Z :=
  match j with
  | JNull | JFloat _ => GenNode 0 []
  | JBool b => GenNode 1 [GenLeaf (Z.b2z b)]
  | JInt z => GenNode 2 [GenLeaf z]
  | JStr s => GenNode 3 (map GenLeaf s)
  | JArr l => GenNode 4 (map to_tree l)
  | JObj fs => GenNode 5 (map (fun kv => GenNode 6 [GenNode 3 (map GenLeaf (fst kv)); to_tree (snd kv)]) fs)
  end.

Definition leaf (t : gen_tree Z) : Z := match t with GenLeaf z => z | _ => 0 end.

Fixpoint of_tree (t : gen_tree Z) : json :=
  match t with
  | GenNode 1 [GenLeaf z] => JBool (z =? 1)
  | GenNode 2 [GenLeaf z] => JInt z
  | GenNode 3 s => JStr (map leaf s)
  | GenNode 4 l => JArr (map of_tree l)
  | GenNode 5 l =>
      JObj (map (fun t => match t with
                          | GenNode 6 [GenNode 3 k; v] => (map leaf k, of_tree v)
                          | _ => ([], JNull)
                          end) l)
  | _ => JNull
  end.

Lemma leaves s : map leaf (map GenLeaf s) = s.
Proof. rewrite map_map. apply map_id. Qed.

Lemma of_to_tree j : no_floats j = true -> of_tree (to_tree j) = j.
Proof.
  induction j as [|[]| | |s|l IH|fs IH] using json_deep_ind; cbn; try done.
  - intros _. by rewrite leaves.
  - intros Hl. f_equal. induction IH as [|x l Hx _ IHl]; [done|]. cbn in *.
    apply andb_prop in Hl as [Hv Hl]. by rewrite Hx, IHl.
  - intros Hl. f_equal. induction IH as [|[k x] fs Hx _ IHfs]; [done|]. cbn in *.
    apply andb_prop in Hl as [Hv Hl]. by rewrite Hx, leaves, IHfs.
Qed.

(** Numbers as binary numerals, the lowest digit first. *)
Fixpoint numeral (p : positive) : bytes :=
  match p with
  | xH => [49]
  | xO p => 48 :: numeral p
  | xI p => 49 :: numeral p
  end.

Fixpoint number (b : bytes) : option positive :=
  match b with
  | [] => None
  | c :: b' =>
      match number b' with
      | Some p => Some (if c =? 48 then xO p else xI p)
      | None => if c =? 49 then Some xH else None
      end
  end.

Lemma number_numeral p : number (numeral p) = Some p.
Proof. induction p as [p IH|p IH|]; cbn; by rewrite ?IH. Qed.

Lemma numeral_bytes p : bytes_ok (numeral p).
Proof. induction p as [p IH|p IH|]; cbn; repeat constructor; (done || (unfold byte_ok; lia)). Qed.

Definition print (j : json) : bytes := numeral (encode (to_tree j)).
Definition parse (b : bytes) : option json :=
  match number b with Some p => option_map of_tree (decode p) | None => None end.

Lemma parse_print j : no_floats j = true -> parse (print j) = Some j.
Proof. intros Hj. unfold parse, print. rewrite number_numeral, decode_encode. cbn. by rewrite of_to_tree. Qed.
End codec.

#[export] Instance ToyJsonText {F : Float} : JsonText := {| json_print := print; json_parse := parse |}.
#[export] Instance ToyJsonTextLaws {F : Float} : JsonTextLaws ToyJsonText.
Proof. split; [apply parse_print|intros; apply numeral_bytes]. Qed.
End ToyJson.

#[export] Instance ToyFloat : Float := {| f64 := Z; f64_zero := 0; f64_of_Z := id |}.
