(* ===== verification/Proto.v ===== *)
(** The messages of the control channel, [newt-core/src/proto.rs]: topics,
    payloads, and the encoding and decoding that serde derives for them. *)

From Stdlib Require Import String.
From S2P Require Import Prelude Text Json.

Module topic.
Definition PING_REQUEST : str := lit "newt/ping/request".
Definition PING_EXIT_NODES : str := lit "newt/ping/exitNodes".
Definition PING : str := lit "newt/ping".
Definition WG_REGISTER : str := lit "newt/wg/register".
Definition WG_CONNECT : str := lit "newt/wg/connect".
Definition WG_RECONNECT : str := lit "newt/wg/reconnect".
Definition WG_TERMINATE : str := lit "newt/wg/terminate".
Definition TCP_ADD : str := lit "newt/tcp/add".
Definition TCP_REMOVE : str := lit "newt/tcp/remove".
Definition SYNC : str := lit "newt/sync".
End topic.

Record TargetsByType := mkTargets { tcp : list str; udp : list str }.

Record WgData := mkWgData {
  wg_endpoint : str;
  wg_public_key : str;
  wg_server_ip : str;
  wg_tunnel_ip : str;
  wg_relay_port : Z;
  wg_targets : TargetsByType;
  wg_chain_id : str
}.

Section proto.
Context {F : Float}.

Record WsMessage := mkWsMessage { typ : str; data : json; config_version : option Z }.

Record ExitNode := mkExitNode {
  en_id : Z;
  en_name : str;
  en_endpoint : str;
  en_weight : f64;
  en_was_previously_connected : bool
}.

Record ExitNodeData := mkExitNodeData { exit_nodes : list ExitNode; en_chain_id : str }.

Record PingResult := mkPingResult {
  pr_exit_node_id : Z;
  pr_latency_ms : f64;
  pr_weight : f64;
  pr_error : str;
  pr_name : str;
  pr_endpoint : str;
  pr_was_previously_connected : bool
}.

(** The derived [Serialize] of a ping result. *)
Definition ping_result_json (r : PingResult) : json :=
  jobj [(lit "exitNodeId", JInt (pr_exit_node_id r));
        (lit "latencyMs", JFloat (pr_latency_ms r));
        (lit "weight", JFloat (pr_weight r));
        (lit "error", JStr (pr_error r));
        (lit "name", JStr (pr_name r));
        (lit "endpoint", JStr (pr_endpoint r));
        (lit "wasPreviouslyConnected", JBool (pr_was_previously_connected r))].

(** ** The envelope *)

(** The derived [Serialize]: fields in order, no version when there is none. *)
Definition message_json (m : WsMessage) : json :=
  JObj ([(lit "type", JStr (typ m)); (lit "data", data m)] ++
        match config_version m with Some v => [(lit "configVersion", JInt v)] | None => [] end).

Definition MESSAGE_FIELDS : list str := [lit "type"; lit "data"; lit "configVersion"].

(** How often a document's object has a field. *)
Definition occurrences (k : str) (v : json) : nat :=
  match v with JObj fs => length (List.filter (fun kv => bytes_eqb k (fst kv)) fs) | _ => 0 end.

Definition read_message : Dec WsMessage :=
  let? typ := required (lit "type") dec_str in
  let? data := required (lit "data") (fun v => Some (to_value v)) in
  let? version := optional (lit "configVersion") dec_i64 in
  dret (mkWsMessage typ data version).

(** The derived [Deserialize], from text: a field given twice is an error. *)
Definition dec_message (v : json) : option WsMessage :=
  if forallb (fun k => (occurrences k v <=? 1)%nat) MESSAGE_FIELDS then dec_struct read_message v else None.

(** ** Payloads *)

Definition dec_ExitNode : json -> option ExitNode :=
  dec_struct (
    let? id := required (lit "exitNodeId") dec_i64 in
    let? name := defaulted (lit "exitNodeName") dec_str [] in
    let? endpoint := defaulted (lit "endpoint") dec_str [] in
    let? weight := defaulted (lit "weight") dec_f64 f64_zero in
    let? was := defaulted (lit "wasPreviouslyConnected") dec_bool false in
    dret (mkExitNode id name endpoint weight was)).

Definition dec_ExitNodeData : json -> option ExitNodeData :=
  dec_struct (
    let? nodes := defaulted (lit "exitNodes") (dec_vec dec_ExitNode) [] in
    let? chain := defaulted (lit "chainId") dec_str [] in
    dret (mkExitNodeData nodes chain)).

Definition dec_TargetsByType : json -> option TargetsByType :=
  dec_struct (
    let? tcp := defaulted (lit "tcp") (dec_vec dec_str) [] in
    let? udp := defaulted (lit "udp") (dec_vec dec_str) [] in
    dret (mkTargets tcp udp)).

Definition dec_WgData : json -> option WgData :=
  dec_struct (
    let? endpoint := required (lit "endpoint") dec_str in
    let? public_key := required (lit "publicKey") dec_str in
    let? server_ip := required (lit "serverIP") dec_str in
    let? tunnel_ip := required (lit "tunnelIP") dec_str in
    let? relay_port := defaulted (lit "relayPort") dec_u16 0 in
    let? targets := defaulted (lit "targets") dec_TargetsByType (mkTargets [] []) in
    let? chain := defaulted (lit "chainId") dec_str [] in
    dret (mkWgData endpoint public_key server_ip tunnel_ip relay_port targets chain)).

(** ** The envelope's round trip *)

Definition i64_ok (z : Z) : Prop := - 2 ^ 63 <= z < 2 ^ 63.

Lemma dec_i64_ok z : i64_ok z -> dec_i64 (JInt z) = Some z.
Proof.
  unfold i64_ok, dec_i64, dec_int. intros Hz.
  rewrite (proj2 (Z.leb_le _ _)), (proj2 (Z.leb_le _ _)) by lia. done.
Qed.

Lemma dec_message_json m :
  value_ok (data m) = true -> (forall v, config_version m = Some v -> i64_ok v) ->
  dec_message (message_json m) = Some m.
Proof.
  destruct m as [ty d [v|]]; cbn [data config_version]; intros Hd Hv;
    lazy -[to_value dec_option dec_i64]; rewrite to_value_id by done; [|done].
  unfold dec_option. rewrite dec_i64_ok by (by apply Hv). done.
Qed.
End proto.
