(* ===== verification/Token.v ===== *)
(** The HTTP side of the transport, [newt/src/transport/token.rs]: splitting the
    endpoint, the token request, and reading its answer. *)

From Stdlib Require Import String.
From S2P Require Import Prelude Text Json.

(** ** Text helpers of the standard library *)

Fixpoint starts_with (pat s : str) : bool :=
  match pat, s with
  | [], _ => true
  | p :: pat', b :: s' => (p =? b) && starts_with pat' s'
  | _ :: _, [] => false
  end.

(** [s.split_once(pat)] for a non-empty text pattern: at its first occurrence. *)
Fixpoint split_once_str (pat s : str) : option (str * str) :=
  if starts_with pat s then Some ([], drop (length pat) s)
  else
    match s with
    | [] => None
    | b :: s' => match split_once_str pat s' with Some (a, r) => Some (b :: a, r) | None => None end
    end.

(** [s.trim_end_matches(c)]. *)
Fixpoint trim_end_matches (c : Z) (s : str) : str :=
  match s with
  | [] => []
  | b :: s' =>
      match trim_end_matches c s' with
      | [] => if b =? c then [] else [b]
      | r => b :: r
      end
  end.

(** One step of UTF-8 decoding: the bytes taken, and whether they are a
    character; an ill-formed sequence is taken up to its first offending byte. *)
Definition is_cont (b : Z) : bool := (128 <=? b) && (b <=? 191).

Definition utf8_step (s : bytes) : nat * bool :=
  let at_ i := nth i s 0 in
  let b0 := at_ 0%nat in
  let tail2 ok1 := if negb ok1 then (1%nat, false) else if is_cont (at_ 2%nat) then (3%nat, true) else (2%nat, false) in
  let tail3 ok1 := if negb ok1 then (1%nat, false)
                   else if negb (is_cont (at_ 2%nat)) then (2%nat, false)
                   else if is_cont (at_ 3%nat) then (4%nat, true) else (3%nat, false) in
  let within lo hi := (lo <=? at_ 1%nat) && (at_ 1%nat <=? hi) in
  if b0 <? 128 then (1%nat, true)
  else if (194 <=? b0) && (b0 <=? 223) then (if is_cont (at_ 1%nat) then (2%nat, true) else (1%nat, false))
  else if b0 =? 224 then tail2 (within 160 191)
  else if b0 =? 237 then tail2 (within 128 159)
  else if (225 <=? b0) && (b0 <=? 239) then tail2 (within 128 191)
  else if b0 =? 240 then tail3 (within 144 191)
  else if (241 <=? b0) && (b0 <=? 243) then tail3 (within 128 191)
  else if b0 =? 244 then tail3 (within 128 143)
  else (1%nat, false).

Fixpoint lossy_loop (fuel : nat) (s : bytes) : str :=
  match fuel, s with
  | S f, _ :: _ =>
      let '(n, good) := utf8_step s in
      (if good then take n s else [239; 191; 189]) ++ lossy_loop f (drop n s)
  | _, _ => []
  end.

(** [String::from_utf8_lossy]: every step takes a byte at least. *)
Definition from_utf8_lossy (s : bytes) : str := lossy_loop (length s) s.

(** ** Endpoints *)

(** Scheme, [host:port], host and port. *)
Record Endpoint := mkEndpoint { ep_scheme : str; ep_hostport : str; ep_host : str; ep_port : Z }.

(** Host and port; what does not end in a port is all host. *)
Definition host_port (scheme rest : str) : str * Z :=
  let fallback := (rest, if bytes_eqb scheme (lit "https") then 443 else 80) in
  match rsplit_once COLON rest with
  | Some (h, p) =>
      match h, parse_uint U16_MAX p with
      | _ :: _, Some port => (h, port)
      | _, _ => fallback
      end
  | None => fallback
  end.

Definition split_endpoint (endpoint : str) : Result str Endpoint :=
  let finish scheme rest :=
    let '(host, port) := host_port scheme (trim_end_matches SLASH rest) in
    Ok (mkEndpoint scheme (host ++ COLON :: display_u16 port) host port) in
  match split_once_str (lit "://") endpoint with
  | Some (scheme, r) =>
      if bytes_eqb scheme (lit "https") then finish (lit "https") r
      else if bytes_eqb scheme (lit "http") then finish (lit "http") r
      else Err (lit "unsupported scheme")
  | None => finish (lit "https") endpoint
  end.

(** ** The token request *)

Definition CRLF : str := [13; 10].
Definition CRLF2 : str := CRLF ++ CRLF.

Section token.
Context {F : Float} {J : JsonText}.

Definition token_request (kind : str) (ep : Endpoint) (body : json) : str :=
  let body := json_print body in
  lit "POST /api/v1/auth/" ++ kind ++ lit "/get-token HTTP/1.1" ++ CRLF ++
  lit "Host: " ++ ep_hostport ep ++ CRLF ++
  lit "Content-Type: application/json" ++ CRLF ++
  lit "X-CSRF-Token: x-csrf-protection" ++ CRLF ++
  lit "Content-Length: " ++ to_decimal 20 (Z.of_nat (length body)) ++ CRLF ++
  lit "Connection: close" ++ CRLF2 ++ body.

(** The JSON after the headers; without a blank line, the whole text. *)
Definition response_body (text : str) : str :=
  match split_once_str CRLF2 text with Some (_, r) => r | None => text end.

(** [exchange] is the network: it sends a request to a host and port, over TLS
    or not, and returns the whole answer. *)
Definition get_token_data (exchange : Endpoint -> str -> Result str bytes)
    (endpoint kind : str) (body : json) : Result str json :=
  match split_endpoint endpoint with
  | Err e => Err e
  | Ok ep =>
      match exchange ep (token_request kind ep body) with
      | Err e => Err e
      | Ok raw =>
          match json_parse (trim (response_body (from_utf8_lossy raw))) with
          | None => Err (lit "token json")
          | Some v => Ok (index (lit "data") (to_value v))
          end
      end
  end.

Definition get_token (exchange : Endpoint -> str -> Result str bytes)
    (endpoint kind : str) (body : json) : Result str str :=
  match get_token_data exchange endpoint kind body with
  | Err e => Err e
  | Ok data =>
      match as_str (index (lit "token") data) with
      | Some t => Ok t
      | None => Err (lit "no token in response")
      end
  end.
End token.

(** ** Facts *)

Lemma starts_with_app pat s : starts_with pat (pat ++ s) = true.
Proof. induction pat; cbn; [done|]. by rewrite Z.eqb_refl. Qed.

Lemma trim_end_app c s k :
  (forall b, last s = Some b -> b <> c) -> trim_end_matches c (s ++ replicate k c) = s.
Proof.
  intros Hl. induction s as [|b s IH].
  - cbn. induction k as [|k IH]; [done|]. cbn. by rewrite IH, Z.eqb_refl.
  - cbn [app trim_end_matches]. destruct s as [|b' s].
    + cbn [app] in *. rewrite IH by done. rewrite (proj2 (Z.eqb_neq _ _)) by (by apply Hl). done.
    + rewrite IH; [done|]. intros x Hx. apply Hl. by rewrite last_cons_cons.
Qed.

(** The schemes the transport speaks, with their default ports. *)
Definition scheme_ok (scheme : str) : Prop := scheme = lit "http" \/ scheme = lit "https".
Definition default_port (scheme : str) : Z := if bytes_eqb scheme (lit "https") then 443 else 80.

(** A URL, with or without a port, and any number of slashes after it. *)
Definition url (scheme host : str) (port : option Z) (slashes : nat) : str :=
  scheme ++ lit "://" ++ host ++
  match port with Some p => COLON :: display_u16 p | None => [] end ++ replicate slashes SLASH.

Lemma split_url scheme r :
  scheme_ok scheme -> split_once_str (lit "://") (scheme ++ lit "://" ++ r) = Some (scheme, r).
Proof. by intros [-> | ->]. Qed.

Lemma display_u16_last p : 0 <= p -> exists l b, display_u16 p = l ++ [b] /\ 48 <= b <= 57.
Proof. intros. apply to_decimal_last; lia. Qed.

Lemma host_port_spec scheme host port :
  host <> [] -> (forall p, port = Some p -> 0 <= p <= U16_MAX) -> (port = None -> COLON ∉ host /\ last host <> Some SLASH) ->
  host_port scheme (host ++ match port with Some p => COLON :: display_u16 p | None => [] end) =
  (host, default (default_port scheme) port).
Proof.
  intros Hh Hp Hn. unfold host_port. destruct port as [q|].
  - specialize (Hp q eq_refl). rewrite rsplit_once_app.
    + rewrite parse_display_u16 by done. by destruct host.
    + intros Hq%to_decimal_digits; [unfold COLON in Hq; lia|lia].
  - destruct (Hn eq_refl) as [Hc _]. by rewrite app_nil_r, rsplit_once_none.
Qed.

(** C39: endpoints split into what they were put together from. A URL of scheme
    [http] or [https], a non-empty host, an optional port and any number of slashes after
    it splits into the scheme, the host and port together, the host, and the
    port, which is the scheme's default (443 or 80) when the URL has none; the
    host may be anything, an IPv6 literal in brackets included, when a port
    follows it, and has no colon and no slash at its end when none does. A bare
    host means [https]: without its [https://] the URL splits to the same,
    unless what is left holds another [://]. *)
Theorem endpoint_round_trip scheme host port slashes :
  scheme_ok scheme -> host <> [] -> (forall p, port = Some p -> 0 <= p <= U16_MAX) ->
  (port = None -> COLON ∉ host /\ last host <> Some SLASH) ->
  let p := default (default_port scheme) port in
  split_endpoint (url scheme host port slashes) = Ok (mkEndpoint scheme (host ++ COLON :: display_u16 p) host p) /\
  (scheme = lit "https" -> split_once_str (lit "://") (drop 8 (url scheme host port slashes)) = None ->
   split_endpoint (drop 8 (url scheme host port slashes)) = split_endpoint (url scheme host port slashes)).
Proof.
  intros Hs Hh Hp Hn p. split.
  - unfold split_endpoint, url. rewrite split_url by done. rewrite app_assoc, trim_end_app.
    + destruct Hs as [-> | ->]; rewrite !host_port_spec by done; reflexivity.
    + intros b Hb ->. destruct port as [q|].
      * destruct (display_u16_last q) as (l & c & El & Hc); [specialize (Hp q eq_refl); lia|].
        rewrite El in Hb. rewrite app_comm_cons, app_assoc, last_snoc in Hb. injection Hb as ->. unfold SLASH in Hc. lia.
      * destruct (Hn eq_refl) as [_ Hl]. rewrite app_nil_r in Hb. done.
  - intros -> Hd. unfold split_endpoint at 1. rewrite Hd. unfold split_endpoint, url. rewrite split_url by done.
    reflexivity.
Qed.

Lemma endpoint_round_trip_witness :
  let p := 8080 in
  split_endpoint (url (lit "https") (lit "[::1]") (Some 8080) 1) =
    Ok (mkEndpoint (lit "https") (lit "[::1]" ++ COLON :: display_u16 p) (lit "[::1]") p) /\
  (lit "https" = lit "https" -> split_once_str (lit "://") (drop 8 (url (lit "https") (lit "[::1]") (Some 8080) 1)) = None ->
   split_endpoint (drop 8 (url (lit "https") (lit "[::1]") (Some 8080) 1)) =
   split_endpoint (url (lit "https") (lit "[::1]") (Some 8080) 1)).
Proof.
  apply (endpoint_round_trip (lit "https") (lit "[::1]") (Some 8080) 1).
  - by right.
  - discriminate.
  - intros p [= <-]. unfold U16_MAX. lia.
  - discriminate.
Defined.
