(* ===== verification/Config.v ===== *)
(** The configuration, [newt/src/config.rs] and [newt/src/log.rs]: environment
    variables, then command-line flags over them, then the roles that have
    credentials. *)

From Stdlib Require Import String.
From S2P Require Import Prelude Time Text Token.

Definition COMMA : Z := 44.
Definition U64_MAX : Z := 2 ^ 64 - 1.

(** ** Data *)

Inductive AccessMode : Type :=
| Kernel
| Userspace.

Record Forward := mkForward { f_listen_port : Z; f_dest_host : str; f_dest_port : Z }.

Record SiteRun := mkSiteRun {
  cfg_endpoint : str;
  cfg_id : str;
  cfg_secret : str;
  cfg_mtu : nat;
  cfg_skip_tls_verify : bool;
  cfg_udp_idle_timeout : Duration
}.

Record ClientRun := mkClientRun {
  cl_endpoint : str;
  cl_id : str;
  cl_secret : str;
  cl_user_token : str;
  cl_org_id : str;
  cl_mtu : nat;
  cl_skip_tls_verify : bool;
  cl_access : AccessMode;
  cl_interface : str;
  cl_forwards : list Forward;
  cl_socks_port : option Z
}.

Record Config := mkConfig { log_level : str; site : option SiteRun; client : option ClientRun }.

(** The accumulator while the sources are read. *)
Record Raw := mkRaw {
  r_endpoint : str;
  r_mtu : Z;
  r_log_level : str;
  r_skip_tls_verify : bool;
  r_udp_idle_timeout : Duration;
  r_newt_id : str;
  r_newt_secret : str;
  r_olm_id : str;
  r_olm_secret : str;
  r_user_token : str;
  r_org_id : str;
  r_access : AccessMode;
  r_interface : str;
  r_forwards : list Forward;
  r_socks_port : option Z
}.

Definition raw_endpoint (r : Raw) (v : str) : Raw :=
  mkRaw v (r_mtu r) (r_log_level r) (r_skip_tls_verify r) (r_udp_idle_timeout r) (r_newt_id r)
    (r_newt_secret r) (r_olm_id r) (r_olm_secret r) (r_user_token r) (r_org_id r) (r_access r)
    (r_interface r) (r_forwards r) (r_socks_port r).
Definition raw_mtu (r : Raw) (v : Z) : Raw :=
  mkRaw (r_endpoint r) v (r_log_level r) (r_skip_tls_verify r) (r_udp_idle_timeout r) (r_newt_id r)
    (r_newt_secret r) (r_olm_id r) (r_olm_secret r) (r_user_token r) (r_org_id r) (r_access r)
    (r_interface r) (r_forwards r) (r_socks_port r).
Definition raw_log_level (r : Raw) (v : str) : Raw :=
  mkRaw (r_endpoint r) (r_mtu r) v (r_skip_tls_verify r) (r_udp_idle_timeout r) (r_newt_id r)
    (r_newt_secret r) (r_olm_id r) (r_olm_secret r) (r_user_token r) (r_org_id r) (r_access r)
    (r_interface r) (r_forwards r) (r_socks_port r).
Definition raw_skip_tls_verify (r : Raw) (v : bool) : Raw :=
  mkRaw (r_endpoint r) (r_mtu r) (r_log_level r) v (r_udp_idle_timeout r) (r_newt_id r) (r_newt_secret r)
    (r_olm_id r) (r_olm_secret r) (r_user_token r) (r_org_id r) (r_access r) (r_interface r)
    (r_forwards r) (r_socks_port r).
Definition raw_udp_idle_timeout (r : Raw) (v : Duration) : Raw :=
  mkRaw (r_endpoint r) (r_mtu r) (r_log_level r) (r_skip_tls_verify r) v (r_newt_id r) (r_newt_secret r)
    (r_olm_id r) (r_olm_secret r) (r_user_token r) (r_org_id r) (r_access r) (r_interface r)
    (r_forwards r) (r_socks_port r).
Definition raw_newt_id (r : Raw) (v : str) : Raw :=
  mkRaw (r_endpoint r) (r_mtu r) (r_log_level r) (r_skip_tls_verify r) (r_udp_idle_timeout r) v
    (r_newt_secret r) (r_olm_id r) (r_olm_secret r) (r_user_token r) (r_org_id r) (r_access r)
    (r_interface r) (r_forwards r) (r_socks_port r).
Definition raw_newt_secret (r : Raw) (v : str) : Raw :=
  mkRaw (r_endpoint r) (r_mtu r) (r_log_level r) (r_skip_tls_verify r) (r_udp_idle_timeout r)
    (r_newt_id r) v (r_olm_id r) (r_olm_secret r) (r_user_token r) (r_org_id r) (r_access r)
    (r_interface r) (r_forwards r) (r_socks_port r).
Definition raw_olm_id (r : Raw) (v : str) : Raw :=
  mkRaw (r_endpoint r) (r_mtu r) (r_log_level r) (r_skip_tls_verify r) (r_udp_idle_timeout r)
    (r_newt_id r) (r_newt_secret r) v (r_olm_secret r) (r_user_token r) (r_org_id r) (r_access r)
    (r_interface r) (r_forwards r) (r_socks_port r).
Definition raw_olm_secret (r : Raw) (v : str) : Raw :=
  mkRaw (r_endpoint r) (r_mtu r) (r_log_level r) (r_skip_tls_verify r) (r_udp_idle_timeout r)
    (r_newt_id r) (r_newt_secret r) (r_olm_id r) v (r_user_token r) (r_org_id r) (r_access r)
    (r_interface r) (r_forwards r) (r_socks_port r).
Definition raw_user_token (r : Raw) (v : str) : Raw :=
  mkRaw (r_endpoint r) (r_mtu r) (r_log_level r) (r_skip_tls_verify r) (r_udp_idle_timeout r)
    (r_newt_id r) (r_newt_secret r) (r_olm_id r) (r_olm_secret r) v (r_org_id r) (r_access r)
    (r_interface r) (r_forwards r) (r_socks_port r).
Definition raw_org_id (r : Raw) (v : str) : Raw :=
  mkRaw (r_endpoint r) (r_mtu r) (r_log_level r) (r_skip_tls_verify r) (r_udp_idle_timeout r)
    (r_newt_id r) (r_newt_secret r) (r_olm_id r) (r_olm_secret r) (r_user_token r) v (r_access r)
    (r_interface r) (r_forwards r) (r_socks_port r).
Definition raw_access (r : Raw) (v : AccessMode) : Raw :=
  mkRaw (r_endpoint r) (r_mtu r) (r_log_level r) (r_skip_tls_verify r) (r_udp_idle_timeout r)
    (r_newt_id r) (r_newt_secret r) (r_olm_id r) (r_olm_secret r) (r_user_token r) (r_org_id r) v
    (r_interface r) (r_forwards r) (r_socks_port r).
Definition raw_interface (r : Raw) (v : str) : Raw :=
  mkRaw (r_endpoint r) (r_mtu r) (r_log_level r) (r_skip_tls_verify r) (r_udp_idle_timeout r)
    (r_newt_id r) (r_newt_secret r) (r_olm_id r) (r_olm_secret r) (r_user_token r) (r_org_id r)
    (r_access r) v (r_forwards r) (r_socks_port r).
Definition raw_forwards (r : Raw) (v : list Forward) : Raw :=
  mkRaw (r_endpoint r) (r_mtu r) (r_log_level r) (r_skip_tls_verify r) (r_udp_idle_timeout r)
    (r_newt_id r) (r_newt_secret r) (r_olm_id r) (r_olm_secret r) (r_user_token r) (r_org_id r)
    (r_access r) (r_interface r) v (r_socks_port r).
Definition raw_socks_port (r : Raw) (v : option Z) : Raw :=
  mkRaw (r_endpoint r) (r_mtu r) (r_log_level r) (r_skip_tls_verify r) (r_udp_idle_timeout r)
    (r_newt_id r) (r_newt_secret r) (r_olm_id r) (r_olm_secret r) (r_user_token r) (r_org_id r)
    (r_access r) (r_interface r) (r_forwards r) v.

(** The default on Linux. *)
Definition default_access : AccessMode := Kernel.

Definition Raw_default : Raw :=
  mkRaw [] 1280 (lit "INFO") false (from_secs 90) [] [] [] [] [] [] default_access (lit "olm") [] None.

(** ** Values *)

Definition ascii_lower (b : Z) : Z := if (65 <=? b) && (b <=? 90) then b + 32 else b.
Definition ascii_upper (b : Z) : Z := if (97 <=? b) && (b <=? 122) then b - 32 else b.
Definition to_ascii_lowercase (s : str) : str := map ascii_lower s.
Definition to_ascii_uppercase (s : str) : str := map ascii_upper s.

Definition one_of (s : str) (names : list str) : bool := existsb (bytes_eqb s) names.

Definition parse_secs (v : str) : Result str Duration :=
  match parse_uint U64_MAX (trim_end_matches 115 v) with
  | Some n => Ok (from_secs n)
  | None => Err (lit "bad duration")
  end.

Definition truthy (v : str) : bool := one_of (to_ascii_lowercase v) [lit "1"; lit "true"; lit "yes"].

Definition parse_access (v : str) : Result str AccessMode :=
  if one_of (to_ascii_lowercase v) [lit "kernel"; lit "tun"] then Ok Kernel
  else if one_of (to_ascii_lowercase v) [lit "userspace"; lit "user"; lit "socks"] then Ok Userspace
  else Err (lit "bad access mode: " ++ v ++ lit " (kernel|userspace)").

(** [s.split(c)]. *)
Fixpoint split (c : Z) (s : str) : list str :=
  match s with
  | [] => [[]]
  | b :: s' =>
      if b =? c then [] :: split c s'
      else match split c s' with x :: xs => (b :: x) :: xs | [] => [[b]] end
  end.

Definition parse_forward (spec : str) : Result str Forward :=
  match split_once COLON spec with
  | None => Err (lit "bad forward: " ++ spec)
  | Some (listen, rest) =>
      match rsplit_once COLON rest with
      | None => Err (lit "bad forward: " ++ spec)
      | Some (host, port) =>
          match parse_uint U16_MAX listen with
          | None => Err (lit "bad listen port: " ++ spec)
          | Some l =>
              match parse_uint U16_MAX port with
              | None => Err (lit "bad dest port: " ++ spec)
              | Some p => Ok (mkForward l host p)
              end
          end
      end
  end.

Fixpoint parse_specs (specs : list str) : Result str (list Forward) :=
  match specs with
  | [] => Ok []
  | spec :: specs' =>
      match parse_forward spec with
      | Err e => Err e
      | Ok f => match parse_specs specs' with Ok fs => Ok (f :: fs) | Err e => Err e end
      end
  end.

Definition is_empty (s : str) : bool := match s with [] => true | _ => false end.

Definition parse_forwards (v : str) : Result str (list Forward) :=
  parse_specs (List.filter (fun s => negb (is_empty s)) (map trim (split COMMA v))).

Definition parse_num (max : Z) (err v : str) : Result str Z :=
  match parse_uint max v with Some n => Ok n | None => Err err end.

Definition rmap {A B} (f : A -> B) (r : Result str A) : Result str B :=
  match r with Ok a => Ok (f a) | Err e => Err e end.

(** ** Sources *)

Section sources.
Context {P : Platform}.

(** What a variable or a flag does with its value. *)
Definition Setter : Type := Raw -> str -> Result str Raw.
Definition put (f : Raw -> str -> Raw) : Setter := fun r v => Ok (f r v).

(** The variables in the order they are read; the first of the names that is
    set counts. *)
Definition VARIABLES : list (list str * Setter) :=
  [([lit "PANGOLIN_ENDPOINT"], put raw_endpoint);
   ([lit "MTU"], fun r v => rmap (raw_mtu r) (parse_num USIZE_MAX (lit "bad MTU") v));
   ([lit "LOG_LEVEL"], put raw_log_level);
   ([lit "SKIP_TLS_VERIFY"], put (fun r v => raw_skip_tls_verify r (truthy v)));
   ([lit "NEWT_UDP_PROXY_IDLE_TIMEOUT"], fun r v => rmap (raw_udp_idle_timeout r) (parse_secs v));
   ([lit "NEWT_ID"], put raw_newt_id);
   ([lit "NEWT_SECRET"], put raw_newt_secret);
   ([lit "OLM_ID"], put raw_olm_id);
   ([lit "OLM_SECRET"], put raw_olm_secret);
   ([lit "OLM_USER_TOKEN"], put raw_user_token);
   ([lit "PANGOLIN_ORG_ID"; lit "ORG_ID"], put raw_org_id);
   ([lit "OLM_ACCESS_MODE"], fun r v => rmap (raw_access r) (parse_access v));
   ([lit "OLM_INTERFACE"], put raw_interface);
   ([lit "OLM_FORWARDS"], fun r v => rmap (raw_forwards r) (parse_forwards v));
   ([lit "OLM_SOCKS_PORT"],
    fun r v => rmap (fun p => raw_socks_port r (Some p)) (parse_num U16_MAX (lit "bad OLM_SOCKS_PORT") v))].

Section reading.
Variable env : str -> option str.

Fixpoint first_set (names : list str) : option str :=
  match names with
  | [] => None
  | n :: names' => match env n with Some v => Some v | None => first_set names' end
  end.

Fixpoint read_env (vars : list (list str * Setter)) (r : Raw) : Result str Raw :=
  match vars with
  | [] => Ok r
  | (names, set) :: vars' =>
      match first_set names with
      | None => read_env vars' r
      | Some v => match set r v with Ok r' => read_env vars' r' | Err e => Err e end
      end
  end.
End reading.

(** The flags that take a value; each is written with one dash or two. *)
Definition FLAGS : list (str * Setter) :=
  [(lit "endpoint", put raw_endpoint);
   (lit "id", put raw_newt_id);
   (lit "secret", put raw_newt_secret);
   (lit "mtu", fun r v => rmap (raw_mtu r) (parse_num USIZE_MAX (lit "bad --mtu") v));
   (lit "log-level", put raw_log_level);
   (lit "olm-id", put raw_olm_id);
   (lit "olm-secret", put raw_olm_secret);
   (lit "olm-user-token", put raw_user_token);
   (lit "org-id", put raw_org_id);
   (lit "olm-access", fun r v => rmap (raw_access r) (parse_access v));
   (lit "olm-interface", put raw_interface);
   (lit "olm-forwards", fun r v => rmap (raw_forwards r) (parse_forwards v));
   (lit "olm-socks-port",
    fun r v => rmap (fun p => raw_socks_port r (Some p)) (parse_num U16_MAX (lit "bad --olm-socks-port") v))].

Definition DASH : Z := 45.
Definition is_flag (a name : str) : bool := bytes_eqb a (DASH :: name) || bytes_eqb a (DASH :: DASH :: name).

Definition flag_of (a : str) : option (str * Setter) := List.find (fun f => is_flag a (fst f)) FLAGS.

Definition SKIP_FLAG : str := lit "skip-tls-verify".

(** The loop over the arguments. *)
Fixpoint read_args (args : list str) (r : Raw) : Result str Raw :=
  match args with
  | [] => Ok r
  | a :: rest =>
      if is_flag a SKIP_FLAG then read_args rest (raw_skip_tls_verify r true)
      else
        match flag_of a with
        | None => Err (lit "unknown flag: " ++ a)
        | Some (_, set) =>
            match rest with
            | [] => Err (lit "missing value for " ++ a)
            | v :: rest' => match set r v with Ok r' => read_args rest' r' | Err e => Err e end
            end
        end
  end.

(** ** The configuration *)

Definition site_of (r : Raw) : option SiteRun :=
  if negb (is_empty (r_newt_id r)) && negb (is_empty (r_newt_secret r))
  then Some (mkSiteRun (r_endpoint r) (r_newt_id r) (r_newt_secret r) (Z.to_nat (r_mtu r)) (r_skip_tls_verify r)
               (r_udp_idle_timeout r))
  else None.

Definition client_of (r : Raw) : option ClientRun :=
  if negb (is_empty (r_olm_id r)) && negb (is_empty (r_olm_secret r))
  then Some (mkClientRun (r_endpoint r) (r_olm_id r) (r_olm_secret r) (r_user_token r) (r_org_id r)
               (Z.to_nat (r_mtu r)) (r_skip_tls_verify r) (r_access r) (r_interface r) (r_forwards r) (r_socks_port r))
  else None.

Definition finish (r : Raw) : Result str Config :=
  if is_empty (r_endpoint r) then Err (lit "PANGOLIN_ENDPOINT (or --endpoint) is required")
  else
    match site_of r, client_of r with
    | None, None =>
        Err (lit "no role configured: set NEWT_ID/NEWT_SECRET (site) and/or OLM_ID/OLM_SECRET (client)")
    | s, c => Ok (mkConfig (r_log_level r) s c)
    end.

Definition from_sources (env : str -> option str) (args : list str) : Result str Config :=
  match read_env env VARIABLES Raw_default with
  | Err e => Err e
  | Ok r => match read_args args r with Ok r => finish r | Err e => Err e end
  end.

(** ** Log levels *)

(** [set_level] stores the level of a name; [enabled] compares against it. *)
Definition set_level (name : str) : Z :=
  let n := to_ascii_uppercase name in
  if bytes_eqb n (lit "DEBUG") then 1
  else if bytes_eqb n (lit "INFO") then 2
  else if bytes_eqb n (lit "WARN") then 3
  else if bytes_eqb n (lit "ERROR") then 4
  else 2.

Definition enabled (level l : Z) : bool := level <=? l.

(** [logln!] writes one line to the error output, or nothing. *)
Definition logln (level l : Z) (tag message : str) : option str :=
  if enabled level l then Some (lit "[" ++ tag ++ lit "] " ++ message ++ [10]) else None.

Definition log_debug (level : Z) : str -> option str := logln level 1 (lit "DEBUG").
Definition log_info (level : Z) : str -> option str := logln level 2 (lit "INFO").
Definition log_warn (level : Z) : str -> option str := logln level 3 (lit "WARN").
Definition log_error (level : Z) : str -> option str := logln level 4 (lit "ERROR").

(** Whatever the configured name, errors are written, and a line that is written
    at a level is also written at every lower one. *)
Theorem log_levels name low high tag l message :
  is_Some (log_error (set_level name) message) /\
  (low <= high -> is_Some (logln high l tag message) -> logln low l tag message = logln high l tag message).
Proof.
  split.
  - unfold log_error, logln, enabled, set_level.
    repeat match goal with |- context [if bytes_eqb ?a ?b then _ else _] => destruct (bytes_eqb a b) end; by eexists.
  - unfold logln, enabled. intros Hle [x Hx]. destruct (Z.leb_spec high l); [|done].
    by rewrite (proj2 (Z.leb_le _ _)) by lia.
Qed.

(** ** Reference *)

(** The values given to a flag, in order. *)
Fixpoint flag_values (name : str) (args : list str) : list str :=
  match args with
  | [] => []
  | a :: rest =>
      if is_flag a SKIP_FLAG then flag_values name rest
      else match rest with
           | [] => []
           | v :: rest' => (if is_flag a name then [v] else []) ++ flag_values name rest'
           end
  end.

Fixpoint skip_given (args : list str) : bool :=
  match args with
  | [] => false
  | a :: rest =>
      if is_flag a SKIP_FLAG then true
      else match rest with [] => false | _ :: rest' => skip_given rest' end
  end.

(** A setting: its last flag, else its variable, else nothing. *)
Definition setting (env : str -> option str) (args : list str) (flag : str) (vars : list str) : option str :=
  match last (flag_values flag args) with Some v => Some v | None => first_set env vars end.

(** Its value: the default when nothing is given, or what the text says. *)
Definition value {A} (parse : str -> option A) (d : A) (s : option str) : option A :=
  match s with None => Some d | Some v => parse v end.

Definition ok {A} (r : Result str A) : option A := match r with Ok a => Some a | Err _ => None end.

(** Every setting read on its own. *)
Record reads (env : str -> option str) (args : list str) (r : Raw) : Prop := {
  rd_endpoint : value Some [] (setting env args (lit "endpoint") [lit "PANGOLIN_ENDPOINT"]) = Some (r_endpoint r);
  rd_mtu : value (parse_uint USIZE_MAX) 1280 (setting env args (lit "mtu") [lit "MTU"]) = Some (r_mtu r);
  rd_log : value Some (lit "INFO") (setting env args (lit "log-level") [lit "LOG_LEVEL"]) = Some (r_log_level r);
  rd_skip : r_skip_tls_verify r =
    skip_given args || default false (option_map truthy (first_set env [lit "SKIP_TLS_VERIFY"]));
  rd_idle : value (fun v => ok (parse_secs v)) (from_secs 90) (first_set env [lit "NEWT_UDP_PROXY_IDLE_TIMEOUT"]) =
    Some (r_udp_idle_timeout r);
  rd_id : value Some [] (setting env args (lit "id") [lit "NEWT_ID"]) = Some (r_newt_id r);
  rd_secret : value Some [] (setting env args (lit "secret") [lit "NEWT_SECRET"]) = Some (r_newt_secret r);
  rd_olm_id : value Some [] (setting env args (lit "olm-id") [lit "OLM_ID"]) = Some (r_olm_id r);
  rd_olm_secret : value Some [] (setting env args (lit "olm-secret") [lit "OLM_SECRET"]) = Some (r_olm_secret r);
  rd_user : value Some [] (setting env args (lit "olm-user-token") [lit "OLM_USER_TOKEN"]) = Some (r_user_token r);
  rd_org : value Some [] (setting env args (lit "org-id") [lit "PANGOLIN_ORG_ID"; lit "ORG_ID"]) = Some (r_org_id r);
  rd_access : value (fun v => ok (parse_access v)) Kernel (setting env args (lit "olm-access") [lit "OLM_ACCESS_MODE"]) =
    Some (r_access r);
  rd_interface : value Some (lit "olm") (setting env args (lit "olm-interface") [lit "OLM_INTERFACE"]) =
    Some (r_interface r);
  rd_forwards : value (fun v => ok (parse_forwards v)) []
    (setting env args (lit "olm-forwards") [lit "OLM_FORWARDS"]) = Some (r_forwards r);
  rd_socks : value (fun v => option_map Some (parse_uint U16_MAX v)) None
    (setting env args (lit "olm-socks-port") [lit "OLM_SOCKS_PORT"]) = Some (r_socks_port r)
}.

(** ** Reading a field *)

Definition keeps {A} (g : Raw -> A) (set : Setter) : Prop := forall r v r', set r v = Ok r' -> g r' = g r.
Definition assigns {A} (g : Raw -> A) (p : str -> option A) (set : Setter) : Prop :=
  forall r v r', set r v = Ok r' -> p v = Some (g r').

Ltac setters :=
  intros ?r ?v ?r' ?E; unfold put, rmap, parse_num, ok in *;
  repeat case_match; simplify_eq; reflexivity.

(** Goes through a table of setters. *)
Ltac entries :=
  repeat (apply Forall_cons_2; [cbn [snd]; setters|]); apply Forall_nil_2.

Lemma read_env_keeps {A} (g : Raw -> A) env vars r r' :
  Forall (fun e => keeps g (snd e)) vars -> read_env env vars r = Ok r' -> g r' = g r.
Proof.
  intros Hk. revert r. induction Hk as [|[ns set] vars Hs _ IH]; intros r E; cbn in E; [by simplify_eq|].
  destruct (first_set env ns) as [v|]; [|by apply IH].
  destruct (set r v) as [r1|e] eqn:E1; [|done]. apply IH in E. rewrite E. by apply (Hs r v).
Qed.

(** The one variable of a field decides it. *)
Lemma read_env_field {A} (g : Raw -> A) p env pre names set post r r' :
  Forall (fun e => keeps g (snd e)) pre -> assigns g p set -> Forall (fun e => keeps g (snd e)) post ->
  read_env env (pre ++ (names, set) :: post) r = Ok r' ->
  value p (g r) (first_set env names) = Some (g r').
Proof.
  intros Hpre Hset Hpost. revert r. induction Hpre as [|[ns s] pre Hs _ IH]; intros r E; cbn in E.
  - destruct (first_set env names) as [v|].
    + destruct (set r v) as [r1|e] eqn:E1; [|done]. apply (read_env_keeps g) in E; [|done].
      cbn. rewrite E. by apply (Hset r).
    + cbn. f_equal. symmetry. by apply (read_env_keeps g) in E.
  - destruct (first_set env ns) as [v|]; [|by apply IH].
    destruct (s r v) as [r1|e] eqn:E1; [|done]. apply IH in E. by rewrite <- (Hs r v r1 E1).
Qed.

Definition no_dash (s : str) : Prop := head s <> Some DASH.

Lemma is_flag_eq a n m : no_dash n -> no_dash m -> is_flag a n = true -> is_flag a m = bytes_eqb n m.
Proof.
  unfold no_dash, is_flag. intros Hn Hm H. apply orb_prop in H as [H|H]; apply bytes_eqb_true in H as ->;
    destruct (bytes_eqb n m) eqn:E; rewrite ?bytes_eqb_true, ?bytes_eqb_false in E;
    try (subst; rewrite !bytes_eqb_refl; cbn; by rewrite ?orb_true_r);
    apply orb_false_intro; apply bytes_eqb_false; intros Heq; simplify_eq; cbn in *; congruence.
Qed.

Lemma flags_no_dash : Forall (fun f => no_dash (fst f)) FLAGS.
Proof. repeat constructor; discriminate. Qed.

Lemma flag_of_spec a name set :
  flag_of a = Some (name, set) -> In (name, set) FLAGS /\ forall m, no_dash m -> is_flag a m = bytes_eqb name m.
Proof.
  intros E. apply find_some in E as [Hin Hf]. split; [done|]. intros m Hm. apply (is_flag_eq a); [|done..].
  pose proof flags_no_dash as Hd. rewrite Forall_forall in Hd. apply (Hd (name, set)). by apply list_elem_of_In.
Qed.

(** The last flag of a field decides it over what was there. *)
Lemma read_args_field {A} (g : Raw -> A) p flag args r r' :
  no_dash flag -> (forall r b, g (raw_skip_tls_verify r b) = g r) ->
  Forall (fun f => if bytes_eqb (fst f) flag then assigns g p (snd f) else keeps g (snd f)) FLAGS ->
  read_args args r = Ok r' ->
  value p (g r) (last (flag_values flag args)) = Some (g r').
Proof.
  intros Hd Hskip Hf. remember (length args) as n eqn:Hn. assert (length args <= n)%nat as Hle by lia. clear Hn.
  revert args r Hle. induction n as [|n IH]; intros [|a rest] r Hle E; cbn [read_args length] in E, Hle; [by simplify_eq|lia|by simplify_eq|].
  revert E. cbn [flag_values]. destruct (is_flag a SKIP_FLAG); intros E.
  { rewrite <- (Hskip r true). apply IH; [lia|done]. }
  destruct (flag_of a) as [[name set]|] eqn:Ef; [|done]. apply flag_of_spec in Ef as [Hin Hm].
  destruct rest as [|v rest]; [done|]. destruct (set r v) as [r1|e] eqn:E1; [|done].
  rewrite Forall_forall in Hf. specialize (Hf (name, set) (proj2 (list_elem_of_In _ _) Hin)). cbn [fst snd] in Hf.
  cbn in Hle. specialize (IH rest r1 ltac:(lia) E). rewrite (Hm flag Hd).
  destruct (bytes_eqb name flag).
  - rewrite last_app. destruct (last (flag_values flag rest)); [exact IH|]. cbn in *. rewrite (Hf r v r1 E1). done.
  - cbn [app]. by rewrite <- (Hf r v r1 E1).
Qed.

(** ** What is read *)

(** A field with a flag: the last flag, over the variable, over the default. *)
Lemma setting_field {A} (g : Raw -> A) p flag pre names set post env args r0 r1 r2 :
  VARIABLES = pre ++ (names, set) :: post ->
  Forall (fun e => keeps g (snd e)) pre -> assigns g p set -> Forall (fun e => keeps g (snd e)) post ->
  no_dash flag -> (forall r b, g (raw_skip_tls_verify r b) = g r) ->
  Forall (fun f => if bytes_eqb (fst f) flag then assigns g p (snd f) else keeps g (snd f)) FLAGS ->
  read_env env VARIABLES r0 = Ok r1 -> read_args args r1 = Ok r2 ->
  value p (g r0) (setting env args flag names) = Some (g r2).
Proof.
  intros HV Hpre Hset Hpost Hd Hskip Hf E1 E2. rewrite HV in E1.
  pose proof (read_env_field g p env pre names set post r0 r1 Hpre Hset Hpost E1) as H1.
  pose proof (read_args_field g p flag args r1 r2 Hd Hskip Hf E2) as H2.
  unfold setting. destruct (last (flag_values flag args)) as [v|]; [exact H2|]. cbn in H2. simplify_eq. by rewrite H1, H2.
Qed.

(** A field without a flag. *)
Lemma read_args_keeps {A} (g : Raw -> A) args r r' :
  (forall r b, g (raw_skip_tls_verify r b) = g r) -> Forall (fun f => keeps g (snd f)) FLAGS ->
  read_args args r = Ok r' -> g r' = g r.
Proof.
  intros Hskip Hf E. remember (length args) as n eqn:Hn. assert (length args <= n)%nat as Hle by lia. clear Hn.
  revert args r Hle E.
  induction n as [|n IH]; intros [|a rest] r Hle E; cbn [read_args length] in E, Hle; [by simplify_eq|lia|by simplify_eq|].
  destruct (is_flag a SKIP_FLAG); [rewrite <- (Hskip r true); by apply (IH rest); [lia|]|].
  destruct (flag_of a) as [[name set]|] eqn:Ef; [|done]. apply find_some in Ef as [Hin _].
  destruct rest as [|v rest]; [done|]. destruct (set r v) as [r1|e] eqn:E1; [|done].
  rewrite Forall_forall in Hf. specialize (Hf (name, set) (proj2 (list_elem_of_In _ _) Hin)).
  rewrite <- (Hf r v r1 E1). apply (IH rest); [cbn in Hle; lia|done].
Qed.

Lemma variable_field {A} (g : Raw -> A) p pre names set post env args r0 r1 r2 :
  VARIABLES = pre ++ (names, set) :: post ->
  Forall (fun e => keeps g (snd e)) pre -> assigns g p set -> Forall (fun e => keeps g (snd e)) post ->
  (forall r b, g (raw_skip_tls_verify r b) = g r) -> Forall (fun f => keeps g (snd f)) FLAGS ->
  read_env env VARIABLES r0 = Ok r1 -> read_args args r1 = Ok r2 ->
  value p (g r0) (first_set env names) = Some (g r2).
Proof.
  intros HV Hpre Hset Hpost Hskip Hf E1 E2. rewrite HV in E1.
  rewrite (read_args_keeps g args r1 r2 Hskip Hf E2). by apply (read_env_field g p env pre names set post r0 r1).
Qed.

(** The skip flag: given once, it holds. *)
Lemma read_args_skip args r r' :
  read_args args r = Ok r' -> r_skip_tls_verify r' = r_skip_tls_verify r || skip_given args.
Proof.
  intros E. remember (length args) as n eqn:Hn. assert (length args <= n)%nat as Hle by lia. clear Hn.
  revert args r Hle E.
  induction n as [|n IH]; intros [|a rest] r Hle E; cbn [read_args length] in E, Hle;
    [simplify_eq; cbn; by rewrite orb_false_r|lia|simplify_eq; cbn; by rewrite orb_false_r|].
  cbn [skip_given]. destruct (is_flag a SKIP_FLAG).
  { apply IH in E; [|lia]. rewrite E, orb_true_r. done. }
  destruct (flag_of a) as [[name set]|] eqn:Ef; [|done]. apply find_some in Ef as [Hin _].
  destruct rest as [|v rest]; [done|]. destruct (set r v) as [r1|e] eqn:E1; [|done].
  assert (Forall (fun f => keeps r_skip_tls_verify (snd f)) FLAGS) as Hf by entries.
  rewrite Forall_forall in Hf. specialize (Hf (name, set) (proj2 (list_elem_of_In _ _) Hin)).
  rewrite <- (Hf r v r1 E1). apply (IH rest); [cbn in Hle; lia|done].
Qed.

Lemma setting_at {A} (g : Raw -> A) p i flag names set env args r0 r1 r2 :
  VARIABLES !! i = Some (names, set) ->
  Forall (fun e => keeps g (snd e)) (take i VARIABLES) -> assigns g p set ->
  Forall (fun e => keeps g (snd e)) (drop (S i) VARIABLES) ->
  no_dash flag -> (forall r b, g (raw_skip_tls_verify r b) = g r) ->
  Forall (fun f => if bytes_eqb (fst f) flag then assigns g p (snd f) else keeps g (snd f)) FLAGS ->
  read_env env VARIABLES r0 = Ok r1 -> read_args args r1 = Ok r2 ->
  value p (g r0) (setting env args flag names) = Some (g r2).
Proof.
  intros Hi H1 H2 H3 H4 H5 H6 E1 E2. eapply setting_field; [|exact H1|exact H2|exact H3|done..].
  symmetry. by apply take_drop_middle.
Qed.

(** A field, its position in the table of variables. *)
Ltac reads_at g i :=
  eapply (setting_at g _ i _ _ _ _ _ Raw_default);
  [reflexivity|entries|setters|entries|discriminate|reflexivity|entries|eassumption|eassumption].

Lemma sources_read env args r1 r2 :
  read_env env VARIABLES Raw_default = Ok r1 -> read_args args r1 = Ok r2 -> reads env args r2.
Proof.
  intros E1 E2. constructor;
    [reads_at r_endpoint 0%nat|reads_at r_mtu 1%nat|reads_at r_log_level 2%nat|..].
  - pose proof (read_env_field r_skip_tls_verify (fun v => Some (truthy v)) env (take 3 VARIABLES)
      [lit "SKIP_TLS_VERIFY"] (put (fun r v => raw_skip_tls_verify r (truthy v))) (drop 4 VARIABLES) Raw_default r1
      ltac:(entries) ltac:(setters) ltac:(entries) E1) as H1.
    rewrite (read_args_skip args r1 r2 E2), orb_comm. f_equal.
    destruct (first_set env _); cbn in *; by simplify_eq.
  - apply (variable_field r_udp_idle_timeout _ (take 4 VARIABLES) _ (fun r v => rmap (raw_udp_idle_timeout r) (parse_secs v))
      (drop 5 VARIABLES) env args Raw_default r1 r2); [reflexivity|entries|setters|entries|reflexivity|entries|done..].
  - reads_at r_newt_id 5%nat.
  - reads_at r_newt_secret 6%nat.
  - reads_at r_olm_id 7%nat.
  - reads_at r_olm_secret 8%nat.
  - reads_at r_user_token 9%nat.
  - reads_at r_org_id 10%nat.
  - reads_at r_access 11%nat.
  - reads_at r_interface 12%nat.
  - reads_at r_forwards 13%nat.
  - reads_at r_socks_port 14%nat.
Qed.

Lemma is_empty_spec s : negb (is_empty s) = true <-> s <> [].
Proof. by destruct s. Qed.

(** C32: the configuration is what the sources say, on 32-bit and 64-bit targets.
    When the program starts, every setting is the value of its last flag, else of
    its environment variable, else the default, each read on its own; the
    verification of servers is skipped exactly when [--skip-tls-verify] is among
    the arguments or its variable holds a true value; an endpoint is set; a role
    is active exactly when both its credentials are, and is made of those
    settings; and at least one role is active. *)
Theorem config_from_sources env args c :
  from_sources env args = Ok c ->
  exists r, reads env args r /\ r_endpoint r <> [] /\ log_level c = r_log_level r /\
    (site c <> None \/ client c <> None) /\
    (is_Some (site c) <-> r_newt_id r <> [] /\ r_newt_secret r <> []) /\
    (is_Some (client c) <-> r_olm_id r <> [] /\ r_olm_secret r <> []) /\
    (forall s, site c = Some s -> s = mkSiteRun (r_endpoint r) (r_newt_id r) (r_newt_secret r) (Z.to_nat (r_mtu r))
       (r_skip_tls_verify r) (r_udp_idle_timeout r)) /\
    (forall k, client c = Some k -> k = mkClientRun (r_endpoint r) (r_olm_id r) (r_olm_secret r) (r_user_token r)
       (r_org_id r) (Z.to_nat (r_mtu r)) (r_skip_tls_verify r) (r_access r) (r_interface r) (r_forwards r) (r_socks_port r)).
Proof.
  unfold from_sources. destruct (read_env env VARIABLES Raw_default) as [r1|] eqn:E1; [|done].
  destruct (read_args args r1) as [r|] eqn:E2; [|done]. intros E3. exists r.
  split; [by eapply sources_read|]. unfold finish in E3. destruct (is_empty (r_endpoint r)) eqn:Ee; [done|].
  assert (c = mkConfig (r_log_level r) (site_of r) (client_of r) /\ (site_of r <> None \/ client_of r <> None)) as [-> Hr]
    by (destruct (site_of r), (client_of r); simplify_eq; split; try done; first [by left | by right]).
  cbn [log_level site client]. split; [by destruct (r_endpoint r)|]. split; [done|]. split; [done|].
  unfold site_of, client_of.
  assert (forall {A} (a b : str) (x : A), (is_Some (if negb (is_empty a) && negb (is_empty b) then Some x else None) <->
    a <> [] /\ b <> []) /\ forall y, (if negb (is_empty a) && negb (is_empty b) then Some x else None) = Some y -> y = x) as Hif.
  { intros A a b x. rewrite <- !is_empty_spec. destruct (negb (is_empty a)), (negb (is_empty b)); cbn;
      (split; [split; [intros [? ?]; (done || auto)|intros [? ?]; (done || eauto)]|intros; by simplify_eq]). }
  split_and!; apply Hif.
Qed.

End sources.

(** ** Forwards *)

Definition print_forward (f : Forward) : str :=
  display_u16 (f_listen_port f) ++ COLON :: f_dest_host f ++ COLON :: display_u16 (f_dest_port f).

Fixpoint join (c : Z) (specs : list str) : str :=
  match specs with
  | [] => []
  | [s] => s
  | s :: specs' => s ++ c :: join c specs'
  end.

Record forward_ok (f : Forward) : Prop := {
  fo_listen : 0 <= f_listen_port f <= U16_MAX;
  fo_dest : 0 <= f_dest_port f <= U16_MAX;
  fo_host : COMMA ∉ f_dest_host f
}.

Lemma split_none c s : c ∉ s -> split c s = [s].
Proof.
  induction s as [|b s IH]; intros Hs; [done|]. apply not_elem_of_cons in Hs as [Hb Hs]. cbn.
  rewrite (proj2 (Z.eqb_neq _ _)) by done. by rewrite IH.
Qed.

Lemma split_app c a s : c ∉ a -> split c (a ++ c :: s) = a :: split c s.
Proof.
  induction a as [|b a IH]; intros Ha; cbn; [by rewrite Z.eqb_refl|].
  apply not_elem_of_cons in Ha as [Hb Ha]. rewrite (proj2 (Z.eqb_neq _ _)) by done. by rewrite IH.
Qed.

Lemma split_join c specs : specs <> [] -> Forall (fun s => c ∉ s) specs -> split c (join c specs) = specs.
Proof.
  intros Hne Hs. induction Hs as [|s specs Hx Hs IH]; [done|]. destruct specs as [|s' specs]; [by apply split_none|].
  change (join c (s :: s' :: specs)) with (s ++ c :: join c (s' :: specs)). rewrite split_app by done. by rewrite IH.
Qed.

Lemma digits_no_comma n : 0 <= n -> COMMA ∉ display_u16 n.
Proof. intros Hn Hc. apply to_decimal_digits in Hc; [|done]. unfold COMMA in Hc. lia. Qed.

Lemma digits_no_colon n : 0 <= n -> COLON ∉ display_u16 n.
Proof. intros Hn Hc. apply to_decimal_digits in Hc; [|done]. unfold COLON in Hc. lia. Qed.

Lemma print_forward_spec f : forward_ok f ->
  COMMA ∉ print_forward f /\ trim (print_forward f) = print_forward f /\ print_forward f <> [] /\
  parse_forward (print_forward f) = Ok f.
Proof.
  intros [Hl Hd Hh]. unfold print_forward.
  destruct (to_decimal_nonempty 5 (f_listen_port f)) as (b & r & Eb & Hb); [lia..|].
  destruct (to_decimal_last 5 (f_dest_port f)) as (r' & b' & Eb' & Hb'); [lia..|].
  split_and!.
  - rewrite !not_elem_of_app, !not_elem_of_cons, not_elem_of_app, not_elem_of_cons.
    split_and!; [by apply digits_no_comma; lia|done|done|done|by apply digits_no_comma; lia].
  - apply (trim_digits _ b b'); [unfold display_u16; by rewrite Eb| |done|done].
    unfold display_u16 at 2. rewrite Eb'. rewrite !app_comm_cons, !app_assoc. apply last_snoc.
  - unfold display_u16 at 1. by rewrite Eb.
  - unfold parse_forward. rewrite split_once_app by (apply digits_no_colon; lia).
    rewrite rsplit_once_app by (apply digits_no_colon; lia). rewrite !parse_display_u16 by done. by destruct f.
Qed.

(** Forwards. Any list of forwards, written as the option documents it and
    joined by commas, is read back as itself; the destination may be an IPv6
    address. *)
Theorem forwards_round_trip fs : Forall forward_ok fs -> parse_forwards (join COMMA (map print_forward fs)) = Ok fs.
Proof.
  intros Hfs. unfold parse_forwards. destruct fs as [|f0 fs0]; [reflexivity|]. set (fs := f0 :: fs0) in *.
  rewrite split_join; [|done|].
  - clearbody fs. induction Hfs as [|f fs Hf _ IH]; [done|].
    destruct (print_forward_spec f Hf) as (_ & Ht & Hne & Hp). cbn [map]. rewrite Ht. cbn [List.filter].
    rewrite (proj2 (is_empty_spec _) Hne). cbn [parse_specs]. by rewrite Hp, IH.
  - apply Forall_map. eapply Forall_impl; [exact Hfs|]. intros f Hf. by apply print_forward_spec.
Qed.

(** ** Witnesses *)

#[local] Existing Instance target64.

Definition demo_env (k : str) : option str :=
  if bytes_eqb k (lit "PANGOLIN_ENDPOINT") then Some (lit "https://env")
  else if bytes_eqb k (lit "NEWT_ID") then Some (lit "envid")
  else if bytes_eqb k (lit "NEWT_SECRET") then Some (lit "envsecret")
  else None.
Definition demo_args : list str := [lit "--endpoint"; lit "https://cli"; lit "-mtu"; lit "1400"; lit "--skip-tls-verify"].
Definition demo_config : Config :=
  mkConfig (lit "INFO") (Some (mkSiteRun (lit "https://cli") (lit "envid") (lit "envsecret") 1400 true (from_secs 90))) None.

Lemma config_from_sources_witness :
  exists r, reads demo_env demo_args r /\ r_endpoint r <> [] /\ log_level demo_config = r_log_level r /\
    (site demo_config <> None \/ client demo_config <> None) /\
    (is_Some (site demo_config) <-> r_newt_id r <> [] /\ r_newt_secret r <> []) /\
    (is_Some (client demo_config) <-> r_olm_id r <> [] /\ r_olm_secret r <> []) /\
    (forall s, site demo_config = Some s -> s = mkSiteRun (r_endpoint r) (r_newt_id r) (r_newt_secret r)
       (Z.to_nat (r_mtu r)) (r_skip_tls_verify r) (r_udp_idle_timeout r)) /\
    (forall k, client demo_config = Some k -> k = mkClientRun (r_endpoint r) (r_olm_id r) (r_olm_secret r) (r_user_token r)
       (r_org_id r) (Z.to_nat (r_mtu r)) (r_skip_tls_verify r) (r_access r) (r_interface r) (r_forwards r) (r_socks_port r)).
Proof. apply (config_from_sources demo_env demo_args demo_config). vm_compute. reflexivity. Defined.

Lemma forwards_round_trip_witness :
  parse_forwards (join COMMA (map print_forward [mkForward 8080 (lit "10.0.0.5") 80; mkForward 9090 (lit "fd00::1") 443])) =
  Ok [mkForward 8080 (lit "10.0.0.5") 80; mkForward 9090 (lit "fd00::1") 443].
Proof.
  apply (forwards_round_trip [mkForward 8080 (lit "10.0.0.5") 80; mkForward 9090 (lit "fd00::1") 443]).
  repeat apply Forall_cons_2; try apply Forall_nil_2; constructor; cbn; unfold U16_MAX;
    try lia; apply (bool_decide_unpack _); vm_compute; exact I.
Defined.
