(* ===== verification/Tls.v ===== *)
(** The TLS configuration, [newt/src/transport/tls.rs]: which certificates the
    program accepts. The checks themselves are those of the TLS library. *)

From Stdlib Require Import String.
From S2P Require Import Prelude Time Text Config.

(** What the library checks: a chain against trust anchors for a name at a time,
    and the signatures of either protocol version. *)
Class Rustls := {
  Certificate : Type;
  Anchor : Type;
  Signed : Type;
  Scheme : Type;
  TLS_SERVER_ROOTS : list Anchor;
  provider_schemes : list Scheme;
  check_chain : list Anchor -> Certificate -> list Certificate -> str -> bytes -> Z -> Result str unit;
  check_tls12 : bytes -> Certificate -> Signed -> Result str unit;
  check_tls13 : bytes -> Certificate -> Signed -> Result str unit
}.

Section tls.
Context {P : Platform} {R : Rustls}.

(** The verifiers a configuration can hold: the library's own over some trust
    anchors, or the one of this file. *)
Inductive Verifier : Type :=
| WebPki (roots : list Anchor)
| NoVerify.

Definition verify_server_cert (v : Verifier) (cert : Certificate) (chain : list Certificate) (name : str)
    (ocsp : bytes) (now : Z) : Result str unit :=
  match v with
  | WebPki roots => check_chain roots cert chain name ocsp now
  | NoVerify => Ok tt
  end.

Definition verify_tls12_signature (v : Verifier) (message : bytes) (cert : Certificate) (dss : Signed)
  : Result str unit :=
  match v with WebPki _ => check_tls12 message cert dss | NoVerify => Ok tt end.

Definition verify_tls13_signature (v : Verifier) (message : bytes) (cert : Certificate) (dss : Signed)
  : Result str unit :=
  match v with WebPki _ => check_tls13 message cert dss | NoVerify => Ok tt end.

Definition supported_verify_schemes (v : Verifier) : list Scheme := provider_schemes.

Definition client_config (skip_verify : bool) : Verifier :=
  if skip_verify then NoVerify else WebPki TLS_SERVER_ROOTS.

(** A server's handshake passes when its chain and its signature do. *)
Definition server_accepted (v : Verifier) (cert : Certificate) (chain : list Certificate) (name : str) (ocsp : bytes)
    (now : Z) (message : bytes) (dss : Signed) : bool :=
  is_ok (verify_server_cert v cert chain name ocsp now) && is_ok (verify_tls13_signature v message cert dss).

(** The configuration of a role. *)
Definition role_config (c : Config) : list Verifier :=
  match site c with Some s => [client_config (cfg_skip_tls_verify s)] | None => [] end ++
  match client c with Some k => [client_config (cl_skip_tls_verify k)] | None => [] end.

Lemma finish_skip r c :
  finish r = Ok c -> Forall (fun v => v = client_config (r_skip_tls_verify r)) (role_config c).
Proof.
  unfold finish. destruct (is_empty (r_endpoint r)); [done|]. unfold site_of, client_of, role_config.
  intros E. repeat case_match; simplify_eq/=; by repeat constructor.
Qed.

(** Servers are checked unless the user says otherwise: when neither the flag
    is given nor the variable set to a true value, every role accepts only a
    server whose chain leads to the built-in roots and whose signature is good. *)
Theorem servers_checked env args c v cert chain name ocsp now message dss :
  from_sources env args = Ok c -> skip_given args = false ->
  (forall s, env (lit "SKIP_TLS_VERIFY") = Some s -> truthy s = false) -> v ∈ role_config c ->
  server_accepted v cert chain name ocsp now message dss = true ->
  check_chain TLS_SERVER_ROOTS cert chain name ocsp now = Ok tt /\ check_tls13 message cert dss = Ok tt.
Proof.
  unfold from_sources. intros Ec Hskip Henv Hv Ha.
  destruct (read_env env VARIABLES Raw_default) as [r1|] eqn:E1; [|done].
  destruct (read_args args r1) as [r|] eqn:E2; [|done].
  pose proof (proj1 (Forall_forall _ _) (finish_skip r c Ec) v Hv) as ->.
  assert (r_skip_tls_verify r = false) as Hs.
  { rewrite (rd_skip _ _ _ (sources_read env args r1 r E1 E2)), Hskip. cbn [first_set orb].
    destruct (env (lit "SKIP_TLS_VERIFY")) as [s|] eqn:Es; [by apply Henv|done]. }
  rewrite Hs in Ha. unfold server_accepted, client_config, verify_server_cert, verify_tls13_signature in Ha.
  apply andb_prop in Ha as [Hc Hd].
  destruct (check_chain _ _ _ _ _ _) as [[]|]; [|done]. by destruct (check_tls13 _ _ _) as [[]|].
Qed.
End tls.

(** ** Witness *)

#[local] Existing Instance target64.

(** A library for which a certificate is good when it is the anchor. *)
#[export] Instance ToyRustls : Rustls := {|
  Certificate := Z; Anchor := Z; Signed := Z; Scheme := Z;
  TLS_SERVER_ROOTS := [7];
  provider_schemes := [];
  check_chain roots cert _ _ _ _ := if bool_decide (cert ∈ roots) then Ok tt else Err (lit "unknown issuer");
  check_tls12 _ cert dss := if cert =? dss then Ok tt else Err (lit "bad signature");
  check_tls13 _ cert dss := if cert =? dss then Ok tt else Err (lit "bad signature")
|}.

Definition checked_args : list str := [lit "-mtu"; lit "1400"].
Definition checked_config : Config :=
  mkConfig (lit "INFO") (Some (mkSiteRun (lit "https://env") (lit "envid") (lit "envsecret") 1400 false (from_secs 90))) None.

Lemma servers_checked_witness :
  check_chain TLS_SERVER_ROOTS 7 [] (lit "env") [] 0 = Ok tt /\ check_tls13 (Rustls := ToyRustls) [] 7 7 = Ok tt.
Proof.
  apply (servers_checked (R := ToyRustls) demo_env checked_args checked_config (WebPki TLS_SERVER_ROOTS) 7 [] (lit "env") [] 0 [] 7).
  - vm_compute. reflexivity.
  - vm_compute. reflexivity.
  - intros s E. vm_compute in E. discriminate.
  - vm_compute. left.
  - vm_compute. reflexivity.
Defined.
