(* ===== verification/Wg.v ===== *)
(** The packet pump of [newt/src/wg.rs]: a tunnel with its scratch buffer, and
    the demultiplexing of inbound datagrams by receiver index. *)

From Stdlib Require Import String.
From S2P Require Import Prelude Time Errors Replay Crypto ToyCrypto Packet Session.
From S2P Require Import Handshake HandshakeFacts RateLimiter Timers Tunn TunnFacts TunnProps Text.

(** ** Keys *)

(** Base64 comes from a third-party crate: encoding, and decoding with the
    message of its error. *)
Class Base64 := {
  b64_encode : bytes -> str;
  b64_decode : str -> Result str bytes
}.

Record Keys := mkKeys { secret : bytes; public_b64 : str }.

Section keys.
Context {C : Crypto} {B : Base64}.

Definition generate_keys : M Keys :=
  let* secret := rand_bytes 32 in
  mret (mkKeys secret (b64_encode (x25519_public secret))).

Definition public_from_b64 (s : str) : Result str bytes :=
  match b64_decode (trim s) with
  | Err e => Err (lit "bad pubkey b64: " ++ e)
  | Ok raw => if (length raw =? 32)%nat then Ok raw else Err (lit "pubkey not 32 bytes")
  end.
End keys.

Lemma generate_keys_safe {C : Crypto} {B : Base64} w : safe generate_keys w (fun _ _ => True).
Proof. do 2 eexists. split; [reflexivity|]. split; [split; cbn; [done|lia]|done]. Qed.

(** ** The pump *)

Record Pump := mkPump { tun : Tunn; p_mtu : nat }.

Definition set_tun (p : Pump) (t : Tunn) : Pump := mkPump t (p_mtu p).

(** Output of feeding an inbound datagram into the pump. *)
Inductive Inbound : Type :=
| InPacket (p : bytes)
| InNetwork (b : bytes)
| InNothing.

(** Length of the scratch buffer. *)
Definition scratch (p : Pump) : nat := Nat.max (p_mtu p) 1500 + 32.

Definition to_inbound (r : TunnResult) : Inbound :=
  match r with
  | WriteToTunnelV4 p _ | WriteToTunnelV6 p _ => InPacket p
  | WriteToNetwork b => InNetwork b
  | _ => InNothing
  end.

Definition to_network (r : TunnResult) : option bytes :=
  match r with WriteToNetwork b => Some b | _ => None end.

Section pump.
Context {C : Crypto}.

Definition with_index (secret peer_public : bytes) (mtu : nat) (index : Z) : M Pump :=
  let* t := Tunn_new secret peer_public None (Some 5) index None in
  mret (mkPump t mtu).

Definition Pump_new (secret peer_public : bytes) (mtu : nat) : M Pump :=
  with_index secret peer_public mtu 0.

Definition Pump_encapsulate (p : Pump) (packet : bytes) : M (Pump * option bytes) :=
  let* (t, r) := encapsulate (tun p) packet (scratch p) in
  mret (set_tun p t, to_network r).

Definition Pump_decapsulate (p : Pump) (datagram : bytes) : M (Pump * Inbound) :=
  let* (t, r) := decapsulate (tun p) None datagram (scratch p) in
  mret (set_tun p t, to_inbound r).

Definition drain (p : Pump) : M (Pump * Inbound) := Pump_decapsulate p [].

Definition initiate_handshake (p : Pump) : M (Pump * option bytes) :=
  let* (t, r) := Tunn_format_handshake_initiation (tun p) (scratch p) false in
  mret (set_tun p t, to_network r).

Definition Pump_update_timers (p : Pump) : M (Pump * option bytes) :=
  let* (t, r) := update_timers (tun p) (scratch p) in
  mret (set_tun p t, to_network r).

(** Enough iterations for the drain loop: a full queue and two. *)
Definition DRAIN_FUEL : nat := MAX_QUEUE_DEPTH + 2.

(** The callers' loop over [drain] until it returns [Nothing] (one per
    iteration of the fuel), collecting what comes out. *)
Fixpoint drain_loop (fuel : nat) (p : Pump) : M (Pump * list Inbound) :=
  match fuel with
  | O => mlift Diverged
  | S fuel' =>
      let* (p, r) := drain p in
      match r with
      | InNothing => mret (p, [])
      | more => let* (p, rest) := drain_loop fuel' p in mret (p, more :: rest)
      end
  end.
End pump.

(** ** Demultiplexing *)

Definition peer_index_of (datagram : bytes) : option Z :=
  if (length datagram <? 8)%nat then None
  else
    let off :=
      match datagram !!! 0%nat with
      | 2 => Some 8%nat
      | 3 | 4 => Some 4%nat
      | _ => None
      end in
    match off with
    | None => None
    | Some recv_idx_off =>
        let end_ := (recv_idx_off + 4)%nat in
        if (length datagram <? end_)%nat then None
        else Some (Z.shiftr (from_le_bytes (slice recv_idx_off end_ datagram)) 8)
    end.

(** The index a packet is addressed to, where its type has one. *)
Definition receiver_of (p : Packet) : option Z :=
  match p with
  | PHandshakeInit _ => None
  | PHandshakeResponse h => Some (hr_receiver_idx h)
  | PPacketCookieReply c => Some (pc_receiver_idx c)
  | PPacketData d => Some (pd_receiver_idx d)
  end.

Lemma first_byte t rest : (to_le_bytes 4 t ++ rest) !!! 0%nat = t mod 256.
Proof. reflexivity. Qed.

Lemma peer_index_of_packet p macs :
  packet_ok p -> length macs = macs_len p ->
  peer_index_of (packet_prefix p ++ macs) = option_map (fun i => i / 256) (receiver_of p).
Proof.
  intros Hp Hm. unfold peer_index_of. rewrite (length_packet p macs Hp Hm).
  destruct p as [h|h|h|h]; cbn [packet_ok] in Hp; destruct_and?; cbn [packet_prefix receiver_of option_map];
    rewrite <- ?app_assoc, first_byte;
    unfold HANDSHAKE_INIT, HANDSHAKE_RESP, COOKIE_REPLY, DATA, HANDSHAKE_RESP_SZ, COOKIE_REPLY_SZ;
    rewrite ?(proj2 (Nat.ltb_ge (16 + _) 8)) by lia; [reflexivity|..];
    [change (2 mod 256) with 2|change (3 mod 256) with 3|change (4 mod 256) with 4];
    cbv beta iota zeta; cbn [Nat.add]; rewrite (proj2 (Nat.ltb_ge _ _)) by lia;
    try (rewrite (proj2 (Nat.ltb_ge _ _)) by lia);
    rewrite Z.shiftr_div_pow2 by lia; change (2 ^ 8) with 256; fields; le_id; done.
Qed.

Lemma peer_index_bound datagram i :
  bytes_ok datagram -> peer_index_of datagram = Some i -> 0 <= i < 2 ^ 24.
Proof.
  intros Hb. unfold peer_index_of.
  destruct (Nat.ltb_spec (length datagram) 8) as [|Hl]; [discriminate|].
  assert (forall off : nat, (if (length datagram <? off + 4)%nat then None
    else Some (Z.shiftr (from_le_bytes (slice off (off + 4) datagram)) 8)) = Some i -> 0 <= i < 2 ^ 24) as Hoff.
  { intros off. destruct (Nat.ltb_spec (length datagram) (off + 4)) as [|Ho]; [discriminate|].
    intros E. simplify_eq. rewrite Z.shiftr_div_pow2 by lia.
    pose proof (proj2 (le_field off (off + 4) 4 datagram Hb ltac:(lia) ltac:(lia))) as Hf.
    change (2 ^ (8 * Z.of_nat 4)) with 4294967296 in Hf. change (2 ^ 8) with 256.
    change (2 ^ 24) with 16777216. dlia. }
  cbv zeta. match goal with |- match ?m with _ => _ end = _ -> _ => destruct m as [off|] end;
    [apply Hoff|discriminate].
Qed.

(** ** Draining the queue *)

Section draining.
Context {C : Crypto} {L : CryptoLaws C}.

Lemma scratch_init p : (HANDSHAKE_INIT_SZ <= scratch p)%nat.
Proof. unfold HANDSHAKE_INIT_SZ, scratch. lia. Qed.

(** With a session, a drain seals the packet at the head of the queue. *)
Lemma drain_session p pkt q s s' wire w :
  packet_queue (tun p) = pkt :: q -> session_at (tun p) (current (tun p)) = Some s ->
  length (sessions (tun p)) = N_SESSIONS -> format_packet_data s pkt (scratch p) = Ret (s', wire) ->
  exists t', drain p w = Ret (w, (set_tun p t', InNetwork wire)) /\ packet_queue t' = q /\
    current t' = current (tun p) /\ session_at t' (current t') = Some s' /\
    length (sessions t') = N_SESSIONS.
Proof.
  intros Hq Hs Hlen Hf. unfold drain, Pump_decapsulate. cbn [decapsulate].
  unfold send_queued_packet, dequeue_packet. rewrite Hq.
  destruct (encapsulate_session (set_queue (tun p) q) pkt (scratch p) w s s' wire Hs Hf)
    as (t' & E & Hss & Hc & Hq' & _).
  unfold mbind. rewrite E. cbn [obind]. exists t'. split; [reflexivity|]. split; [done|]. split; [done|].
  cbn in Hss, Hc. rewrite Hss, Hc, length_insert. split; [|done].
  unfold session_at. rewrite Hss, list_lookup_insert_eq; [done|]. rewrite Hlen. apply slot_bound.
Qed.

Lemma drain_empty p w : packet_queue (tun p) = [] -> drain p w = Ret (w, (p, InNothing)).
Proof.
  intros Hq. unfold drain, Pump_decapsulate. cbn [decapsulate].
  unfold send_queued_packet, dequeue_packet. rewrite Hq. by destruct p as [[] ?].
Qed.

(** A run of [drain] over a queue with a session sends its packets in order. *)
Lemma drain_loop_session fuel p s s' wires w :
  session_at (tun p) (current (tun p)) = Some s -> length (sessions (tun p)) = N_SESSIONS ->
  format_run s (packet_queue (tun p)) (scratch p) = Ret (s', wires) ->
  (length (packet_queue (tun p)) < fuel)%nat ->
  exists p', drain_loop fuel p w = Ret (w, (p', map InNetwork wires)) /\
    packet_queue (tun p') = [] /\ session_at (tun p') (current (tun p')) = Some s'.
Proof.
  revert p s wires. induction fuel as [|fuel IH]; intros p s wires Hs Hlen Hf Hfuel; [lia|].
  cbn [drain_loop]. unfold mbind at 1.
  destruct (packet_queue (tun p)) as [|pkt q] eqn:Hq; cbn [format_run] in Hf.
  - simplify_eq. rewrite drain_empty by done. exists p. done.
  - apply obind_ret_inv in Hf as ([s1 wire] & E1 & Hf).
    apply obind_ret_inv in Hf as ([s2 ws] & E2 & Hf). simplify_eq.
    destruct (drain_session p pkt q s s1 wire w Hq Hs Hlen E1) as (t' & -> & Hq' & _ & Hs' & Hlen').
    cbn [obind]. destruct (IH (set_tun p t') s1 ws Hs' Hlen') as (p' & E & Hp').
    { cbn [tun set_tun]. by rewrite Hq'. }
    { cbn [tun set_tun]. rewrite Hq'. cbn in Hfuel. lia. }
    exists p'. unfold mbind. rewrite E. done.
Qed.

(** Without a session, a drain starts a handshake at most once. *)
Lemma drain_waiting p w :
  is_in_progress (handshake (tun p)) = true -> session_at (tun p) (current (tun p)) = None ->
  exists p', drain p w = Ret (w, (p', InNothing)).
Proof.
  intros Hp Hs. destruct (packet_queue (tun p)) as [|pkt q] eqn:Hq; [rewrite drain_empty by done; eauto|].
  unfold drain, Pump_decapsulate. cbn [decapsulate]. unfold send_queued_packet, dequeue_packet.
  rewrite Hq. unfold encapsulate. cbn [current set_queue].
  replace (session_at (set_queue (tun p) q) (current (tun p))) with (@None Session) by (symmetry; exact Hs).
  unfold Tunn_format_handshake_initiation.
  assert (handshake (queue_packet (set_queue (tun p) q) pkt) = handshake (tun p)) as ->
    by (unfold queue_packet; by case_match).
  rewrite Hp. unfold mbind, mret. cbn [andb negb obind]. eexists. reflexivity.
Qed.

Lemma drain_no_session p w :
  session_at (tun p) (current (tun p)) = None ->
  exists w' p' r, drain p w = Ret (w', (p', r)) /\
    (r <> InNothing -> is_in_progress (handshake (tun p')) = true /\
       session_at (tun p') (current (tun p')) = None).
Proof.
  intros Hs. destruct (is_in_progress (handshake (tun p))) eqn:Hp;
    [destruct (drain_waiting p w Hp Hs) as [p' E]; do 3 eexists; by split; [exact E|]|].
  destruct (packet_queue (tun p)) as [|pkt q] eqn:Hq;
    [rewrite drain_empty by done; do 3 eexists; by split|].
  unfold drain, Pump_decapsulate. cbn [decapsulate]. unfold send_queued_packet, dequeue_packet.
  rewrite Hq. unfold encapsulate. cbn [current set_queue].
  replace (session_at (set_queue (tun p) q) (current (tun p))) with (@None Session) by (symmetry; exact Hs).
  set (t1 := queue_packet (set_queue (tun p) q) pkt).
  assert (handshake t1 = handshake (tun p) /\ sessions t1 = sessions (tun p) /\ current t1 = current (tun p))
    as (Hh & Hss & Hc) by (unfold t1, queue_packet; by case_match).
  unfold Tunn_format_handshake_initiation. rewrite Hh, Hp. cbn [andb].
  assert (exists w1 t2, (if is_expired (handshake (tun p))
     then let* tm := Timers_clear (timers t1) in mret (set_timers t1 tm) else mret t1) w = Ret (w1, t2) /\
     handshake t2 = handshake (tun p) /\ sessions t2 = sessions (tun p) /\ current t2 = current (tun p))
    as (w1 & t2 & E & Hh2 & Hss2 & Hc2).
  { destruct (is_expired (handshake (tun p))); unfold mbind, mret; cbn; do 2 eexists; split; eauto. }
  unfold mbind in E |- *. rewrite E. cbn [obind]. rewrite Hh2, format_initiation_eq by apply scratch_init.
  destruct (append_mac1_and_mac2 _ _ _) as [h' pkt'] eqn:Ea. cbn [obind].
  replace h' with (fst (h', pkt')) by done. rewrite <- Ea.
  do 3 eexists. split; [reflexivity|]. intros _. rewrite Hp. cbn. split; [done|].
  unfold session_at in *. cbn. by rewrite Hss2, Hc2.
Qed.
End draining.

(** ** The pump keeps the tunnel's invariant *)

Section pump_safe.
Context {C : Crypto} {L : CryptoLaws C} (peer : Z).

(** The pump's tunnel is in order, for packets up to the scratch buffer's size. *)
Definition pump_ok (p : Pump) (w : World) : Prop :=
  tunn_ok peer (Nat.max (p_mtu p) 1500) (tun p) w.

(** What the pump's operations promise. *)
Definition pump_keeps {A} (p : Pump) (w' : World) (r : Pump * A) : Prop :=
  p_mtu (fst r) = p_mtu p /\ pump_ok (fst r) w'.

Lemma pump_op_safe {A} p o (f : TunnResult -> A) w :
  clock_ok (w_clock w) -> pump_ok p w -> op_fits (Nat.max (p_mtu p) 1500) (scratch p) (tun p) o ->
  safe (let* (t, r) := run_op (tun p) o (scratch p) in mret (set_tun p t, f r)) w (pump_keeps p).
Proof.
  intros Hc Hok Ho. apply safe_bind. eapply safe_weaken.
  - apply (run_op_safe peer (Nat.max (p_mtu p) 1500)); [unfold scratch; lia
      |unfold scratch, COOKIE_REPLY_SZ; lia|done..].
  - intros w' [t r] _ Hk. by apply safe_ret.
Qed.

Lemma drain_safe p w :
  clock_ok (w_clock w) -> pump_ok p w -> safe (drain p) w (pump_keeps p).
Proof.
  intros Hc Hok. apply (pump_op_safe p (Decapsulate None []) to_inbound w Hc Hok).
  split; [constructor|]. split; [apply Nat.le_0_l|]. by intros ? ?.
Qed.

Lemma drain_loop_keeps fuel p w w' p' out :
  clock_ok (w_clock w) -> pump_ok p w -> drain_loop fuel p w = Ret (w', (p', out)) ->
  world_le w w' /\ p_mtu p' = p_mtu p /\ pump_ok p' w'.
Proof.
  revert p w out. induction fuel as [|fuel IH]; intros p w out Hc Hok E; [done|]. cbn [drain_loop] in E.
  apply mbind_ret_inv in E as (w1 & [p1 r] & E1 & E).
  destruct (safe_run _ _ _ _ _ (drain_safe p w Hc Hok) E1) as [Hle1 [Hm1 Hok1]]. cbn [fst] in *.
  destruct r; [| |unfold mret in E; by simplify_eq];
    (apply mbind_ret_inv in E as (w2 & [p2 rest] & E2 & E); unfold mret in E; simplify_eq;
     apply IH in E2 as (Hle2 & Hm2 & Hok2); [|by eapply world_clock|done];
     split; [by eapply world_le_trans|]; split; [congruence|done]).
Qed.

Lemma drain_loop_returns fuel p w :
  clock_ok (w_clock w) -> pump_ok p w -> (length (packet_queue (tun p)) + 2 <= fuel)%nat ->
  exists w' p' out, drain_loop fuel p w = Ret (w', (p', out)) /\
    (length out <= length (packet_queue (tun p)) + 1)%nat.
Proof.
  intros Hc Hok Hf. destruct (session_at (tun p) (current (tun p))) as [s|] eqn:Hs.
  - destruct (format_run_returns (packet_queue (tun p)) (scratch p) s) as (s' & wires & E & Hl).
    { eapply Forall_impl; [apply Hok|]. intros x Hx. cbv beta in *. unfold scratch. lia. }
    destruct (drain_loop_session fuel p s s' wires w Hs (tk_len _ _ _ _ Hok) E ltac:(lia)) as (p' & E' & _).
    do 3 eexists. split; [exact E'|]. rewrite length_map, Hl. apply Nat.le_add_r.
  - destruct (drain_no_session p w Hs) as (w1 & p1 & r & E & Hr).
    destruct fuel as [|[|fuel]]; [lia..|]. cbn [drain_loop]. unfold mbind. rewrite E. cbn [obind].
    destruct r as [b|b|]; [..|do 3 eexists; split; [done|cbn; lia]];
      (destruct (Hr ltac:(done)) as [Hp1 Hs1];
       destruct (drain_waiting p1 w1 Hp1 Hs1) as [p2 E2]; unfold mbind; rewrite E2; cbn [obind];
       do 3 eexists; split; [done|cbn; lia]).
Qed.

Lemma drain_all_safe p w :
  clock_ok (w_clock w) -> pump_ok p w -> safe (drain_loop DRAIN_FUEL p) w (pump_keeps p).
Proof.
  intros Hc Hok. destruct (drain_loop_returns DRAIN_FUEL p w Hc Hok) as (w' & p' & out & E & _).
  { pose proof (tk_queue _ _ _ _ Hok). unfold DRAIN_FUEL. lia. }
  destruct (drain_loop_keeps _ _ _ _ _ _ Hc Hok E) as (Hle & Hm & Hk). exists w', (p', out). by split_and!.
Qed.
End pump_safe.

Lemma with_index_safe {C : Crypto} {L : CryptoLaws C} sec pub mtu idx w :
  clock_ok (w_clock w) -> u32 idx ->
  safe (with_index sec pub mtu idx) w (fun w' p => p_mtu p = mtu /\ pump_ok (idx mod 2 ^ 24) p w').
Proof.
  intros Hc Hu. apply safe_bind.
  eapply safe_weaken; [by apply (tunn_new_safe _ _ _ _ _ _ (Nat.max mtu 1500))|].
  intros w' t _ Ht. apply safe_ret. done.
Qed.


(** ** Properties *)

(** Demultiplexing inverts the numbering. A well-formed packet is routed
    to the peer whose number its receiver index carries in the upper 24 bits
    (so every packet addressed to a session or a pending initiation of a
    tunnel goes to that tunnel), and an initiation to none. *)
Theorem demux_inverts_index p macs :
  packet_ok p -> length macs = macs_len p ->
  match receiver_of p with
  | Some i => forall peer, own peer i -> peer_index_of (packet_prefix p ++ macs) = Some peer
  | None => peer_index_of (packet_prefix p ++ macs) = None
  end.
Proof.
  intros Hp Hm. rewrite (peer_index_of_packet p macs Hp Hm).
  destruct (receiver_of p) as [i|]; [|done]. intros peer [_ <-]. done.
Qed.

Section properties.
Context {C : Crypto} {L : CryptoLaws C}.

(** C31: the drain loop ends. Whatever state the tunnel is in, calling [drain]
    until it returns [Nothing] takes at most two calls more than there are
    queued packets, and keeps the tunnel's invariant. *)
Theorem drain_terminates peer p w :
  clock_ok (w_clock w) -> pump_ok peer p w ->
  exists w' p' out, drain_loop (length (packet_queue (tun p)) + 2) p w = Ret (w', (p', out)) /\
    (length out <= length (packet_queue (tun p)) + 1)%nat /\ pump_ok peer p' w'.
Proof.
  intros Hc Hok.
  destruct (drain_loop_returns peer (length (packet_queue (tun p)) + 2) p w Hc Hok ltac:(lia))
    as (w' & p' & out & E & Hl).
  destruct (drain_loop_keeps peer _ _ _ _ _ _ Hc Hok E) as (_ & _ & Hok'). eauto 10.
Qed.

(** Queued packets leave in order. Once the tunnel has a session, draining
    sends exactly the queued packets, sealed under consecutive counters in the
    order they were queued, and leaves the queue empty. *)
Theorem queue_flushed_in_order p s w :
  session_at (tun p) (current (tun p)) = Some s -> length (sessions (tun p)) = N_SESSIONS ->
  Forall (fun pkt => (length pkt <= Nat.max (p_mtu p) 1500)%nat) (packet_queue (tun p)) ->
  exists p' s' wires,
    format_run s (packet_queue (tun p)) (scratch p) = Ret (s', wires) /\
    drain_loop (S (length (packet_queue (tun p)))) p w = Ret (w, (p', map InNetwork wires)) /\
    length wires = length (packet_queue (tun p)) /\ packet_queue (tun p') = [] /\
    session_at (tun p') (current (tun p')) = Some s'.
Proof.
  intros Hs Hlen Hfit.
  destruct (format_run_returns (packet_queue (tun p)) (scratch p) s) as (s' & wires & E & Hl).
  { eapply Forall_impl; [exact Hfit|]. cbn. unfold scratch. lia. }
  destruct (drain_loop_session (S (length (packet_queue (tun p)))) p s s' wires w Hs Hlen E ltac:(lia))
    as (p' & E' & Hq & Hs').
  exists p', s', wires. auto 10.
Qed.

(** An oversized datagram stops the process. The receive buffer of the
    callers holds [max mtu 1500 + 64] bytes, the scratch buffer of the pump
    [max mtu 1500 + 32]. A datagram that fills the receive buffer, says it is
    transport data and names the slot of any live session makes the pump panic
    before anything about it is authenticated. *)
Theorem oversized_datagram_panics p s idx counter body w :
  u32 idx -> u64 counter -> session_at (tun p) idx = Some s ->
  length body = (Nat.max (p_mtu p) 1500 + 48)%nat ->
  let datagram := packet_prefix (PPacketData (mkPacketData idx counter body)) in
  length datagram = (Nat.max (p_mtu p) 1500 + 64)%nat /\
  Pump_decapsulate p datagram w = Panicked.
Proof.
  intros Hi Hc Hs Hb datagram. set (d := mkPacketData idx counter body) in *.
  assert (packet_ok (PPacketData d)) as Hp by (split_and!; [done..|cbn; lia]).
  pose proof (parse_serialize_data d Hp) as Hparse. fold datagram in Hparse.
  pose proof (length_packet (PPacketData d) [] Hp eq_refl) as Hlen. rewrite app_nil_r in Hlen.
  split; [fold datagram in Hlen; rewrite Hlen; cbn; lia|].
  pose proof (parse_nonempty _ _ Hparse) as (b & rest & Hw).
  unfold Pump_decapsulate, decapsulate. rewrite Hw, <- Hw.
  unfold mbind at 1 2. rewrite (verify_data _ _ _ _ _ _ Hparse). cbn [obind].
  unfold handle_verified_packet, mbind, mlift, handle_data.
  replace (session_at (set_limiter (tun p) (rate_limiter (tun p))) (pd_receiver_idx d))
    with (Some s) by (by rewrite <- Hs).
  unfold receive_packet_data. rewrite (proj2 (Nat.ltb_lt _ _)); [done|].
  cbn. unfold scratch. lia.
Qed.

(** Draining while a handshake is pending reorders the queue. Without a
    session, [drain] takes the first queued packet and puts it back last, so
    any datagram that arrives before the session is up moves the oldest packet
    behind the younger ones. *)
Theorem waiting_drain_rotates p pkt q w :
  is_in_progress (handshake (tun p)) = true -> session_at (tun p) (current (tun p)) = None ->
  packet_queue (tun p) = pkt :: q -> (length q < MAX_QUEUE_DEPTH)%nat ->
  exists p', drain p w = Ret (w, (p', InNothing)) /\ packet_queue (tun p') = q ++ [pkt].
Proof.
  intros Hp Hs Hq Hl. unfold drain, Pump_decapsulate. cbn [decapsulate].
  unfold send_queued_packet, dequeue_packet. rewrite Hq. unfold encapsulate. cbn [current set_queue].
  replace (session_at (set_queue (tun p) q) (current (tun p))) with (@None Session) by (symmetry; exact Hs).
  unfold Tunn_format_handshake_initiation, queue_packet. cbn [packet_queue set_queue].
  rewrite (proj2 (Nat.ltb_lt _ _) Hl). cbn [handshake set_queue]. rewrite Hp.
  unfold mbind, mret. cbn [andb negb obind]. eexists. split; reflexivity.
Qed.
End properties.

(** ** Witnesses *)

#[export] Instance ToyBase64 : Base64 := {| b64_encode := fun b => b; b64_decode := fun s => Ok s |}.

Lemma demux_inverts_index_witness :
  match receiver_of (PPacketData (mkPacketData 769 5 (replicate 16 9))) with
  | Some i => forall peer, own peer i ->
      peer_index_of (packet_prefix (PPacketData (mkPacketData 769 5 (replicate 16 9))) ++ []) = Some peer
  | None => peer_index_of (packet_prefix (PPacketData (mkPacketData 769 5 (replicate 16 9))) ++ []) = None
  end.
Proof.
  apply (demux_inverts_index (PPacketData (mkPacketData 769 5 (replicate 16 9))) []).
  - vm_compute. repeat split; repeat constructor; discriminate.
  - reflexivity.
Defined.

Definition pump_a : Pump := mkPump up_a 1280.
Definition queued_a : Pump := mkPump (set_queue up_a [ping4; hello]) 1280.

Lemma drain_terminates_witness :
  exists w' p' out, drain_loop (length (packet_queue (tun pump_a)) + 2) pump_a (world_at 2)
    = Ret (w', (p', out)) /\ (length out <= length (packet_queue (tun pump_a)) + 1)%nat /\
    pump_ok 1 p' w'.
Proof.
  apply (drain_terminates 1 pump_a (world_at 2)).
  - apply world_at_ok.
  - apply up_a_ok. lia.
Defined.

Lemma queue_flushed_in_order_witness :
  exists p' s' wires,
    format_run session_a (packet_queue (tun queued_a)) (scratch queued_a) = Ret (s', wires) /\
    drain_loop (S (length (packet_queue (tun queued_a)))) queued_a (world_at 2)
      = Ret (world_at 2, (p', map InNetwork wires)) /\
    length wires = length (packet_queue (tun queued_a)) /\ packet_queue (tun p') = [] /\
    session_at (tun p') (current (tun p')) = Some s'.
Proof.
  apply (queue_flushed_in_order queued_a session_a (world_at 2)).
  - reflexivity.
  - reflexivity.
  - repeat constructor; cbn; lia.
Defined.

Lemma oversized_datagram_panics_witness :
  let datagram := packet_prefix (PPacketData (mkPacketData 1 0 (replicate 1548 0))) in
  length datagram = (Nat.max (p_mtu pump_a) 1500 + 64)%nat /\
  Pump_decapsulate pump_a datagram (world_at 2) = Panicked.
Proof.
  apply (oversized_datagram_panics pump_a session_a 1 0 (replicate 1548 0) (world_at 2)).
  - unfold u32; lia.
  - unfold u64; lia.
  - reflexivity.
  - rewrite length_replicate. reflexivity.
Defined.

Definition waiting_pump : Pump := mkPump (set_queue waiting_a [ping4; hello]) 1280.

Lemma waiting_drain_rotates_witness :
  exists p', drain waiting_pump (world_at 2) = Ret (world_at 2, (p', InNothing)) /\
    packet_queue (tun p') = [hello] ++ [ping4].
Proof.
  apply (waiting_drain_rotates waiting_pump ping4 [hello] (world_at 2)).
  - reflexivity.
  - reflexivity.
  - reflexivity.
  - unfold MAX_QUEUE_DEPTH; cbn; lia.
Defined.
