(* ===== verification/Holepunch.v ===== *)
(** Hole punching, [newt/src/holepunch.rs] and [newt/src/olm/holepunch.rs]: the
    sealed datagram by which a connector or a client registers its live UDP
    endpoint with an exit node. *)

From Stdlib Require Import String.
From S2P Require Import Prelude Time Errors Crypto ToyCrypto Packet Text Json.
From S2P Require Import Handshake HandshakeFacts RateLimiter Timers Tunn TunnFacts TunnProps Wg.

Section holepunch.
Context {C : Crypto} {B : Base64} {F : Float} {J : JsonText}.

(** The payload: who registers, with which token and public key. *)
Definition punch_payload (id_field id token pub_b64 : str) : json :=
  jobj [(id_field, JStr id); (lit "token", JStr token); (lit "publicKey", JStr pub_b64)].

Definition envelope (eph_pub nonce ciphertext : bytes) : json :=
  jobj [(lit "ephemeralPublicKey", JStr (b64_encode eph_pub));
        (lit "nonce", JStr (b64_encode nonce));
        (lit "ciphertext", JStr (b64_encode ciphertext))].

Definition build (id_field id token pub_b64 server_pub_b64 : str) : M (option bytes) :=
  match b64_decode (trim server_pub_b64) with
  | Err _ => mret None
  | Ok raw =>
      if negb (length raw =? 32)%nat then mret None
      else
        let* eph := rand_bytes 32 in
        let eph_pub := x25519_public eph in
        let shared := x25519_dh eph raw in
        let* nonce := rand_bytes 12 in
        let plaintext := json_print (punch_payload id_field id token pub_b64) in
        let '(ct, tag) := chacha_encrypt shared nonce [] plaintext in
        mret (Some (json_print (envelope eph_pub nonce (ct ++ tag))))
  end.

(** ** The client's exit nodes *)

Record PunchNode := mkPunchNode { pn_addr : SocketAddr; pn_server_pub : str }.

Record HolePunch := mkHolePunch { hp_olm_id : str; hp_token : str; hp_olm_pub : str; hp_nodes : list PunchNode }.

Definition HolePunch_new (olm_id olm_pub token : str) : HolePunch := mkHolePunch olm_id token olm_pub [].

Definition set_nodes (hp : HolePunch) (nodes : list PunchNode) : HolePunch :=
  mkHolePunch (hp_olm_id hp) (hp_token hp) (hp_olm_pub hp) nodes.

Definition hp_is_empty (hp : HolePunch) : bool := match hp_nodes hp with [] => true | _ => false end.

Fixpoint punch_all (hp : HolePunch) (nodes : list PunchNode) : M (list (bytes * SocketAddr)) :=
  match nodes with
  | [] => mret []
  | n :: nodes' =>
      let* pkt := build (lit "olmId") (hp_olm_id hp) (hp_token hp) (hp_olm_pub hp) (pn_server_pub n) in
      let* rest := punch_all hp nodes' in
      mret (match pkt with Some b => (b, pn_addr n) :: rest | None => rest end)
  end.

(** The datagrams of a tick, one per exit node with a usable key. *)
Definition datagrams (hp : HolePunch) : M (list (bytes * SocketAddr)) := punch_all hp (hp_nodes hp).

(** Building a datagram always returns. *)
Lemma build_safe id_field id token pub_b64 server_pub_b64 w :
  safe (build id_field id token pub_b64 server_pub_b64) w (fun _ _ => True).
Proof.
  unfold build, safe. repeat case_match; unfold mbind, rand_bytes, mret; cbn [obind]; repeat case_match;
    do 2 eexists; (split; [reflexivity|]); by split.
Qed.

(** ** The exit node's side *)

(** What the holder of [server_secret] reads from a datagram, by the format of
    the envelope: the reference for what [build] promises. *)
Definition open_envelope (server_secret datagram : bytes) : option json :=
  match json_parse datagram with
  | None => None
  | Some v =>
      let field k := match as_str (index k v) with
                     | Some s => match b64_decode s with Ok b => Some b | Err _ => None end
                     | None => None
                     end in
      match field (lit "ephemeralPublicKey"), field (lit "nonce"), field (lit "ciphertext") with
      | Some eph, Some nonce, Some sealed =>
          let n := (length sealed - 16)%nat in
          match chacha_decrypt (x25519_dh server_secret eph) nonce [] (take n sealed) (drop n sealed) with
          | Some plaintext => json_parse plaintext
          | None => None
          end
      | _, _, _ => None
      end
  end.
End holepunch.

(** What the base64 crate promises: decoding inverts encoding, and an encoded
    text has no white space around it. *)
Class Base64Laws (B : Base64) : Prop := {
  b64_round : forall b, b64_decode (b64_encode b) = Ok b;
  b64_trim : forall b, trim (b64_encode b) = b64_encode b
}.

Section opening.
Context {C : Crypto} {LC : CryptoLaws C} {B : Base64} {LB : Base64Laws B}.
Context {F : Float} {J : JsonText} {LJ : JsonTextLaws J}.

Lemma envelope_fields e n c :
  envelope e n c = JObj [(lit "ciphertext", JStr (b64_encode c));
                         (lit "ephemeralPublicKey", JStr (b64_encode e)); (lit "nonce", JStr (b64_encode n))].
Proof. reflexivity. Qed.

Lemma envelope_lookups (a b c : json) :
  let fs := [(lit "ciphertext", a); (lit "ephemeralPublicKey", b); (lit "nonce", c)] in
  assoc (lit "ciphertext") fs = Some a /\ assoc (lit "ephemeralPublicKey") fs = Some b /\ assoc (lit "nonce") fs = Some c.
Proof. done. Qed.

Lemma payload_no_floats id_field id token pub : no_floats (punch_payload id_field id token pub) = true.
Proof.
  unfold punch_payload, jobj, obj_of. cbn [foldl fst snd obj_insert].
  repeat (case_match; cbn; try done).
Qed.

Lemma build_opens id_field id token pub secret w :
  exists w' dg,
    build id_field id token pub (b64_encode (x25519_public secret)) w = Ret (w', Some dg) /\
    open_envelope secret dg = Some (punch_payload id_field id token pub).
Proof.
  unfold build. rewrite b64_trim, b64_round, x25519_public_len. cbn [Nat.eqb negb].
  unfold mbind, rand_bytes, mret. cbn [obind].
  match goal with |- context [chacha_encrypt ?k ?n [] ?p] =>
    set (key := k); set (nonce := n); set (pt := p);
    destruct (chacha_encrypt key nonce [] pt) as [ct tag] eqn:E end.
  do 2 eexists. split; [reflexivity|]. unfold open_envelope.
  rewrite json_parse_print by done. rewrite envelope_fields.
  unfold index, get.
  destruct (envelope_lookups (JStr (b64_encode (ct ++ tag))) (JStr (b64_encode (x25519_public (map (fun i => w_rng w (w_draws w) i mod 256) (seq 0 32)))))
    (JStr (b64_encode nonce))) as (-> & -> & ->). cbn [as_str]. rewrite !b64_round. pose proof (aead_tag_len _ _ chacha_laws key nonce [] pt) as Ht.
  pose proof (aead_open _ _ chacha_laws key nonce [] pt) as Ho. rewrite E in Ht, Ho. cbn [fst snd] in Ht, Ho.
  rewrite length_app, Ht. replace (length ct + 16 - 16)%nat with (length ct) by lia.
  rewrite take_app_length, drop_app_length, x25519_comm. fold key. rewrite Ho.
  apply json_parse_print, payload_no_floats.
Qed.
(** An exit node as the server describes it: with the key of [secret], or with a
    text that is not a key. *)
Definition node_of (n : SocketAddr * (bytes + str)) : PunchNode :=
  mkPunchNode (fst n) (match snd n with inl secret => b64_encode (x25519_public secret) | inr s => s end).

Definition not_a_key (s : str) : Prop :=
  forall raw, b64_decode (trim s) = Ok raw -> length raw <> 32%nat.

Definition node_key_ok (n : SocketAddr * (bytes + str)) : Prop :=
  match snd n with inl _ => True | inr s => not_a_key s end.

(** The nodes with a key. *)
Definition keyed (nodes : list (SocketAddr * (bytes + str))) : list (SocketAddr * bytes) :=
  omap (fun n => match snd n with inl secret => Some (fst n, secret) | inr _ => None end) nodes.

Lemma build_bad_key id_field id token pub s w :
  not_a_key s -> build id_field id token pub s w = Ret (w, None).
Proof.
  intros Hs. unfold build. destruct (b64_decode (trim s)) as [raw|e] eqn:E; [|done].
  destruct (Nat.eqb_spec (length raw) 32) as [Hl|Hl]; [|done]. by apply Hs in E.
Qed.

(** C33: hole punching registers with every exit node. Each tick, the client
    sends one datagram to each exit node whose key is usable, to that node's
    address and in order, and skips the others; the holder of the node's secret
    key opens it and reads exactly the client's id, its token and its public
    key. *)
Theorem punch_reaches_nodes hp nodes w :
  hp_nodes hp = map node_of nodes -> Forall node_key_ok nodes ->
  exists w' out, datagrams hp w = Ret (w', out) /\
    Forall2 (fun n o => snd o = fst n /\
        open_envelope (snd n) (fst o) =
          Some (punch_payload (lit "olmId") (hp_olm_id hp) (hp_token hp) (hp_olm_pub hp)))
      (keyed nodes) out.
Proof.
  intros Hn Hk. unfold datagrams. rewrite Hn. clear Hn. revert w.
  induction Hk as [|[addr [secret|s]] nodes Hx _ IH]; intros w; [by do 2 eexists|..];
    cbn [map punch_all node_of fst snd pn_server_pub pn_addr]; unfold mbind.
  - destruct (build_opens (lit "olmId") (hp_olm_id hp) (hp_token hp) (hp_olm_pub hp) secret w)
      as (w1 & dg & -> & Ho). cbn [obind].
    destruct (IH w1) as (w' & out & -> & Hf). do 2 eexists. split; [reflexivity|].
    change (keyed ((addr, inl secret) :: nodes)) with ((addr, secret) :: keyed nodes). by constructor.
  - rewrite build_bad_key by done. cbn [obind]. destruct (IH w) as (w' & out & -> & Hf).
    do 2 eexists. by split.
Qed.
End opening.

(** ** Witness *)

(** A text form with the laws of base64: the bytes between two marks. *)
Definition quoted_decode (s : str) : Result str bytes :=
  match s with
  | 48 :: r => match rev r with 48 :: r' => Ok (rev r') | _ => Err (lit "open") end
  | _ => Err (lit "open")
  end.

Definition QuotedBase64 : Base64 := {| b64_encode b := 48 :: b ++ [48]; b64_decode := quoted_decode |}.

Lemma QuotedLaws : Base64Laws QuotedBase64.
Proof.
  constructor; intros b.
  - cbn. rewrite rev_app_distr. cbn. by rewrite rev_involutive.
  - apply (trim_digits _ 48 48); [done|apply (last_snoc 48 (48 :: b))|lia|lia].
Qed.

Definition demo_hp : HolePunch (* one node with a key, one without *) :=
  set_nodes (HolePunch_new (lit "client") (lit "pk") (lit "jwt"))
    [mkPunchNode (V4 [203; 0; 113; 5], 21820) (48 :: x25519_public secret_b ++ [48]);
     mkPunchNode (V4 [203; 0; 113; 6], 21820) (lit "nonsense")].
Definition demo_nodes : list (SocketAddr * (bytes + str)) :=
  [((V4 [203; 0; 113; 5], 21820), inl secret_b); ((V4 [203; 0; 113; 6], 21820), inr (lit "nonsense"))].

Lemma punch_reaches_nodes_witness :
  exists w' out, datagrams (B := QuotedBase64) (J := ToyJson.ToyJsonText) demo_hp (world_at 0) = Ret (w', out) /\
    Forall2 (fun n o => snd o = fst n /\
        open_envelope (B := QuotedBase64) (J := ToyJson.ToyJsonText) (snd n) (fst o) =
          Some (punch_payload (lit "olmId") (lit "client") (lit "jwt") (lit "pk")))
      (keyed demo_nodes) out.
Proof.
  apply (punch_reaches_nodes (LB := QuotedLaws) (LJ := ToyJson.ToyJsonTextLaws) demo_hp demo_nodes (world_at 0)).
  - reflexivity.
  - repeat constructor. intros raw E. vm_compute in E. discriminate.
Defined.
