(* ===== verification/Ws.v ===== *)
(** The WebSocket transport, [newt/src/transport/ws.rs]: the upgrade, the frame
    codec and the assembly of messages, over a stream of bytes. *)

From Stdlib Require Import String.
From S2P Require Import Prelude Time Crypto Text Json Proto Token Wg.

(** ** Streams *)

(** The receiving side as it stands: bytes that have arrived, whether the peer
    has closed it, and whether it still takes what is written. *)
Record Stream := mkStream { avail : bytes; eof : bool; writable : bool }.

Definition rest_of (s : Stream) (b : bytes) : Stream := mkStream b (eof s) (writable s).

(** An operation on a stream: a result and what is left, an error that ends the
    connection, or a wait for bytes that have not arrived; a waiting read has
    taken everything there was. *)
Inductive Io (A : Type) : Type :=
| Got (a : A) (s : Stream)
| Failed (e : str)
| Waiting.
Arguments Got {A} a s.
Arguments Failed {A} e.
Arguments Waiting {A}.

Definition iobind {A B} (m : Io A) (k : A -> Stream -> Io B) : Io B :=
  match m with Got a s => k a s | Failed e => Failed e | Waiting => Waiting end.

Notation "'let+' ( x , s ) ':=' m 'in' k" := (iobind m (fun x s => k))
  (at level 10, x name, s name, m at level 100, k at level 200) : rust_scope.

Definition read_exact (n : nat) (s : Stream) : Io bytes :=
  if (n <=? length (avail s))%nat then Got (take n (avail s)) (rest_of s (drop n (avail s)))
  else if eof s then Failed (lit "early eof")
  else Waiting.

(** ** Frames *)

Definition MAX_FRAME : Z := 16 * 1024 * 1024.

(** Every byte is xored with the mask byte of its position. *)
Fixpoint xor_mask (mask : bytes) (i : nat) (payload : bytes) : bytes :=
  match payload with
  | [] => []
  | x :: payload' => Z.lxor x (nth (Nat.land i 3) mask 0) :: xor_mask mask (S i) payload'
  end.

(** The length field, with the mask bit of a client. *)
Definition write_len (len : Z) : bytes :=
  if len <? 126 then [Z.lor 128 (wrap 8 len)]
  else if len <=? U16_MAX then Z.lor 128 126 :: to_be_bytes 2 (wrap 16 len)
  else Z.lor 128 127 :: to_be_bytes 8 (wrap 64 len).

Definition frame_bytes (opcode : Z) (mask payload : bytes) : bytes :=
  [Z.lor 128 opcode] ++ write_len (Z.of_nat (length payload)) ++ mask ++ xor_mask mask 0 payload.

(** The frame, with a fresh mask. *)
Definition write_frame (opcode : Z) (payload : bytes) : M bytes :=
  let* mask := rand_bytes 4 in mret (frame_bytes opcode mask payload).

Section reading.
Context {P : Platform}.

(** The payload's length; the eight-byte form is a [u64] cast to [usize]. *)
Definition read_len (b : Z) (s : Stream) : Io Z :=
  match Z.land b 127 with
  | 126 => let+ (l, s) := read_exact 2 s in Got (from_be_bytes l) s
  | 127 => let+ (l, s) := read_exact 8 s in Got (wrap usize_bits (from_be_bytes l)) s
  | n => Got n s
  end.

(** The first part of a frame, up to its payload: whether it is the last of its
    message, its opcode, the length of its payload and its mask. *)
Definition read_header (s : Stream) : Io (bool * Z * Z * option bytes) :=
  let+ (h, s) := read_exact 2 s in
  let fin := negb (Z.land (h !!! 0%nat) 128 =? 0) in
  let opcode := Z.land (h !!! 0%nat) 15 in
  let masked := negb (Z.land (h !!! 1%nat) 128 =? 0) in
  let+ (len, s) := read_len (h !!! 1%nat) s in
  if MAX_FRAME <? len then Failed (lit "websocket frame too large")
  else
    let+ (mask, s) := (if masked then let+ (m, s) := read_exact 4 s in Got (Some m) s else Got None s) in
    Got (fin, opcode, len, mask) s.

(** Whether the frame is the last of its message, its opcode and its payload;
    the buffer for the payload is allocated before it is read. *)
Definition read_frame (s : Stream) : outcome (Io (bool * Z * bytes)) :=
  match read_header s with
  | Failed e => Ret (Failed e)
  | Waiting => Ret Waiting
  | Got (fin, opcode, len, mask) s =>
      let! _ := vec_zeroed len in
      Ret (let+ (payload, s) := read_exact (Z.to_nat len) s in
           Got (fin, opcode, match mask with Some m => xor_mask m 0 payload | None => payload end) s)
  end.
End reading.

(** ** Messages *)

Section messages.
Context {P : Platform} {F : Float} {J : JsonText}.

(** The bytes written for a message. *)
Definition send (m : WsMessage) : M bytes := write_frame 1 (json_print (message_json m)).

Definition decode_message (text : bytes) : option WsMessage :=
  match json_parse text with Some v => dec_message v | None => None end.

(** The receiving loop, with the bytes written on the way. The state is the
    message so far and whether it is a text message. *)
Fixpoint recv_loop (fuel : nat) (msg : bytes) (msg_is_text : bool) (s : Stream)
  : M (list bytes * Io (option WsMessage)) :=
  match fuel with
  | O => mlift Diverged
  | S fuel' =>
      let* frame := mlift (read_frame s) in
      match frame with
      | Failed e => mret ([], Failed e)
      | Waiting => mret ([], Waiting)
      | Got (fin, opcode, payload) s =>
          match opcode with
          | 9 =>
              if negb (writable s) then mret ([], Failed (lit "write"))
              else
                let* pong := write_frame 10 payload in
                let* (out, r) := recv_loop fuel' msg msg_is_text s in
                mret (pong :: out, r)
          | 10 => recv_loop fuel' msg msg_is_text s
          | 8 => mret ([], Got None s)
          | 0 | 1 | 2 =>
              let msg := if opcode =? 0 then msg else [] in
              let msg_is_text := if opcode =? 0 then msg_is_text else opcode =? 1 in
              let msg := msg ++ payload in
              if fin then
                if msg_is_text then
                  match decode_message msg with
                  | None => mret ([], Failed (lit "json"))
                  | Some m => mret ([], Got (Some m) s)
                  end
                else recv_loop fuel' [] msg_is_text s
              else recv_loop fuel' msg msg_is_text s
          | _ => mret ([], Failed (lit "unknown websocket opcode"))
          end
      end
  end.

(** Every frame takes two bytes at least, so the fuel is enough. *)
Definition recv (s : Stream) : M (list bytes * Io (option WsMessage)) :=
  recv_loop (S (length (avail s))) [] false s.

(** What the stream holds for the next call when a receiving call is dropped at
    a wait: the bytes it has read are gone. *)
Definition recv_dropped (s : Stream) : Stream := rest_of s [].
End messages.

(** ** The upgrade *)

Definition HEAD_MAX : nat := 8192.

Definition ends_with (pat s : bytes) : bool := starts_with (rev pat) (rev s).

(** The headers, a byte at a time, up to the blank line. *)
Fixpoint read_head (fuel : nat) (head : bytes) (s : Stream) : Io bytes :=
  match fuel with
  | O => Failed (lit "unreachable")
  | S fuel' =>
      let+ (b, s) := read_exact 1 s in
      let head := head ++ b in
      if ends_with CRLF2 head then Got head s
      else if (HEAD_MAX <? length head)%nat then Failed (lit "websocket upgrade headers too large")
      else read_head fuel' head s
  end.

(** The loop gives up on its 8193rd byte. *)
Definition HEAD_FUEL : nat := S HEAD_MAX.

Definition upgrade_request (token client_type hostport key_b64 : str) : str :=
  lit "GET /api/v1/ws?token=" ++ token ++ lit "&clientType=" ++ client_type ++ lit " HTTP/1.1" ++ CRLF ++
  lit "Host: " ++ hostport ++ CRLF ++ lit "Upgrade: websocket" ++ CRLF ++ lit "Connection: Upgrade" ++ CRLF ++
  lit "Sec-WebSocket-Key: " ++ key_b64 ++ CRLF ++ lit "Sec-WebSocket-Version: 13" ++ CRLF2.

(** The first line, without its carriage return. *)
Definition status_line (head : bytes) : bytes :=
  match split_once 13 head with Some (a, _) => a | None => head end.

(** [dial] is the network: it opens a connection to a host and port, over TLS
    for [https], and the stream holds what the server answers. *)
Definition connect {B : Base64} (dial : Endpoint -> Result str Stream) (endpoint token client_type : str)
  : M (bytes * Io unit) :=
  match split_endpoint endpoint with
  | Err e => mret ([], Failed e)
  | Ok ep =>
      match dial ep with
      | Err e => mret ([], Failed e)
      | Ok s =>
          let* key := rand_bytes 16 in
          let req := upgrade_request token client_type (ep_hostport ep) (b64_encode key) in
          if negb (writable s) then mret ([], Failed (lit "write"))
          else
            mret (req,
              let+ (head, s) := read_head HEAD_FUEL [] s in
              if starts_with (lit "HTTP/1.1 101") (status_line head) then Got tt s
              else Failed (lit "websocket upgrade failed: " ++ from_utf8_lossy (status_line head)))
      end
  end.

(** ** The codec against the protocol *)

(** A frame of RFC 6455, from either side: servers do not mask. *)
Definition len_field (masked : bool) (len : Z) : bytes :=
  let bit := if masked then 128 else 0 in
  if len <? 126 then [bit + len]
  else if len <=? U16_MAX then (bit + 126) :: to_be_bytes 2 len
  else (bit + 127) :: to_be_bytes 8 len.

Definition encode_frame (fin : bool) (opcode : Z) (mask : option bytes) (payload : bytes) : bytes :=
  [(if fin then 128 else 0) + opcode] ++
  len_field (match mask with Some _ => true | None => false end) (Z.of_nat (length payload)) ++
  match mask with Some m => m ++ xor_mask m 0 payload | None => payload end.

Definition mask_ok (mask : option bytes) : Prop := forall m, mask = Some m -> length m = 4%nat.

(** The bits of a header byte, checked on all its values. *)
Definition header_bits (n : Z) : bool :=
  (Z.lor 128 n =? 128 + n) && (Z.land (128 + n) 128 =? 128) && (Z.land n 128 =? 0) &&
  (Z.land (128 + n) 127 =? n) && (Z.land n 127 =? n) && (Z.land (128 + n) 15 =? n mod 16) && (Z.land n 15 =? n mod 16).

Lemma header_bits_all n : 0 <= n < 128 -> header_bits n = true.
Proof.
  intros Hn. assert (forallb header_bits (map Z.of_nat (seq 0 128)) = true) as Hall by (vm_compute; reflexivity).
  rewrite forallb_forall in Hall. apply Hall. apply in_map_iff. exists (Z.to_nat n).
  split; [lia|]. apply in_seq. lia.
Qed.

Lemma header_byte n :
  0 <= n < 128 ->
  Z.lor 128 n = 128 + n /\ Z.land (128 + n) 128 = 128 /\ Z.land n 128 = 0 /\ Z.land (128 + n) 127 = n /\
  Z.land n 127 = n /\ Z.land (128 + n) 15 = n mod 16 /\ Z.land n 15 = n mod 16.
Proof.
  intros Hn. pose proof (header_bits_all n Hn) as Hb. unfold header_bits in Hb.
  rewrite !andb_true_iff, !Z.eqb_eq in Hb. tauto.
Qed.

Lemma length_xor_mask m i p : length (xor_mask m i p) = length p.
Proof. revert i. induction p; intros; cbn; auto. Qed.

Lemma xor_mask_twice m i p : xor_mask m i (xor_mask m i p) = p.
Proof.
  revert i. induction p as [|x p IH]; intros i; cbn; [done|]. by rewrite IH, Z.lxor_assoc, Z.lxor_nilpotent, Z.lxor_0_r.
Qed.

Lemma read_exact_app n a b e wr :
  length a = n -> read_exact n (mkStream (a ++ b) e wr) = Got a (mkStream b e wr).
Proof.
  intros <-. unfold read_exact, rest_of. cbn. rewrite length_app, (proj2 (Nat.leb_le _ _)) by lia.
  by rewrite take_app_length, drop_app_length.
Qed.

(** What the code writes is the protocol's masked final frame. *)
Lemma frame_bytes_encode opcode mask payload :
  0 <= opcode < 16 -> Z.of_nat (length payload) < 2 ^ 64 ->
  frame_bytes opcode mask payload = encode_frame true opcode (Some mask) payload.
Proof.
  intros Ho Hl. unfold frame_bytes, encode_frame, write_len, len_field.
  destruct (header_byte opcode) as (-> & _); [lia|]. set (len := Z.of_nat (length payload)) in *.
  destruct (Z.ltb_spec len 126) as [H1|H1]; [|destruct (Z.leb_spec len U16_MAX) as [H2|H2]].
  - rewrite wrap_small by (change (2 ^ 8) with 256; lia). by destruct (header_byte len) as (-> & _); [lia|].
  - rewrite wrap_small by (unfold U16_MAX in H2; change (2 ^ 16) with 65536; lia). done.
  - rewrite wrap_small by lia. done.
Qed.

Lemma wrap_usize {P : Platform} n : 0 <= n < 2 ^ 32 -> wrap usize_bits n = n.
Proof.
  intros Hn. apply wrap_small. destruct usize_width as [-> | ->]; [lia|].
  change (2 ^ 64) with 18446744073709551616. lia.
Qed.

Lemma read_len_field {P : Platform} b masked len rest e wr :
  0 <= len < 2 ^ 32 -> b = hd 0 (len_field masked len) ->
  read_len b (mkStream (tl (len_field masked len) ++ rest) e wr) = Got len (mkStream rest e wr).
Proof.
  intros Hl ->. unfold len_field, read_len.
  destruct (Z.ltb_spec len 126) as [H1|H1]; [|destruct (Z.leb_spec len U16_MAX) as [H2|H2]]; cbn [hd tl app].
  - assert (Z.land ((if masked then 128 else 0) + len) 127 = len) as ->
      by (destruct (header_byte len) as (_ & _ & _ & ? & ? & _); [lia|]; by destruct masked).
    destruct len as [|q|q]; [done| |lia]. repeat (destruct q as [q|q|]; try done; try lia).
  - assert (Z.land ((if masked then 128 else 0) + 126) 127 = 126) as -> by (by destruct masked).
    rewrite read_exact_app by apply length_to_be_bytes. cbn [iobind].
    rewrite from_to_be_id; [done|]. unfold U16_MAX in H2. change (2 ^ (8 * Z.of_nat 2)) with 65536. lia.
  - assert (Z.land ((if masked then 128 else 0) + 127) 127 = 127) as -> by (by destruct masked).
    rewrite read_exact_app by apply length_to_be_bytes. cbn [iobind].
    rewrite from_to_be_id, wrap_usize by (change (2 ^ (8 * Z.of_nat 8)) with (2 ^ 64); lia). done.
Qed.

Lemma len_field_cons masked len : len_field masked len = hd 0 (len_field masked len) :: tl (len_field masked len).
Proof. unfold len_field. by repeat case_match. Qed.

Lemma len_field_masked masked len :
  0 <= len -> negb (Z.land (hd 0 (len_field masked len)) 128 =? 0) = masked.
Proof.
  intros Hl. unfold len_field. destruct (Z.ltb_spec len 126) as [H1|H1]; [|by case_match; destruct masked].
  cbn [hd]. destruct (header_byte len) as (_ & H2 & H3 & _); [lia|]. destruct masked; [|by rewrite Z.add_0_l, H3].
  by rewrite H2.
Qed.

Lemma vec_zeroed_frame {P : Platform} len : len <= MAX_FRAME -> vec_zeroed len = Ret tt.
Proof.
  intros Hl. unfold vec_zeroed, ISIZE_MAX, MAX_FRAME in *. rewrite (proj2 (Z.ltb_ge _ _)); [done|].
  destruct usize_width as [-> | ->]; cbn; lia.
Qed.

(** Reading a frame of the protocol, when it is not too large. *)
Lemma read_encode {P : Platform} fin opcode mask payload rest e wr :
  0 <= opcode < 16 -> mask_ok mask -> Z.of_nat (length payload) <= MAX_FRAME ->
  read_frame (mkStream (encode_frame fin opcode mask payload ++ rest) e wr) =
  Ret (Got (fin, opcode, payload) (mkStream rest e wr)).
Proof.
  intros Ho Hm Hl. unfold encode_frame, read_frame, read_header. rewrite <- !app_assoc.
  set (masked := match mask with Some _ => true | None => false end).
  set (len := Z.of_nat (length payload)) in *. rewrite (len_field_cons masked len).
  set (b0 := (if fin then 128 else 0) + opcode). set (b1 := hd 0 (len_field masked len)).
  assert (0 <= len < 2 ^ 32) as Hlen by (unfold MAX_FRAME in Hl; lia).
  match goal with |- context [[b0] ++ (b1 :: ?t) ++ ?r] => change ([b0] ++ (b1 :: t) ++ r) with ([b0; b1] ++ t ++ r) end.
  rewrite read_exact_app by done. cbn [iobind]. change ([b0; b1] !!! 0%nat) with b0. change ([b0; b1] !!! 1%nat) with b1.
  rewrite (read_len_field b1 masked len) by done. cbn [iobind].
  rewrite (proj2 (Z.ltb_ge _ _)) by lia. unfold b1. rewrite len_field_masked by lia.
  assert (Z.land b0 15 = opcode /\ negb (Z.land b0 128 =? 0) = fin) as [-> ->].
  { unfold b0. destruct (header_byte opcode) as (_ & H1 & H2 & _ & _ & H3 & H4); [lia|].
    rewrite Z.mod_small in H3, H4 by lia. destruct fin; [by rewrite H1, H3|by rewrite Z.add_0_l, H2, H4]. }
  unfold masked. destruct mask as [m|]; rewrite <- ?app_assoc.
  - rewrite read_exact_app by (by apply Hm). cbn [iobind]. rewrite vec_zeroed_frame by done. cbn [obind].
    rewrite read_exact_app by (rewrite length_xor_mask; unfold len; lia). cbn [iobind]. by rewrite xor_mask_twice.
  - cbn [iobind]. rewrite vec_zeroed_frame by done. cbn [obind]. rewrite read_exact_app by (unfold len; lia). done.
Qed.

(** ** Assembling messages *)

(** Control frames a server may put between the fragments of a message. *)
Inductive Control : Type :=
| Ping (p : bytes)
| Pong (p : bytes).

Definition control_payload (c : Control) : bytes := match c with Ping p | Pong p => p end.
Definition control_frame (c : Control) : bytes :=
  match c with Ping p => encode_frame true 9 None p | Pong p => encode_frame true 10 None p end.
Definition pings (cs : list Control) : list bytes :=
  omap (fun c => match c with Ping p => Some p | Pong _ => None end) cs.

(** A fragment with the control frames before it; the message's frames. *)
Definition Fragment : Type := list Control * bytes.

Fixpoint fragment_frames (opcode : Z) (fs : list Fragment) : bytes :=
  match fs with
  | [] => []
  | (cs, p) :: fs' =>
      concat (map control_frame cs) ++
      encode_frame (match fs' with [] => true | _ => false end) opcode None p ++ fragment_frames 0 fs'
  end.

Fixpoint frame_count (fs : list Fragment) : nat :=
  match fs with [] => 0 | (cs, _) :: fs' => length cs + S (frame_count fs') end.

Definition fits (p : bytes) : Prop := Z.of_nat (length p) <= MAX_FRAME.
Definition fragment_ok (f : Fragment) : Prop := Forall (fun c => fits (control_payload c)) (fst f) /\ fits (snd f).

(** A masked pong with the payload of a ping. *)
Definition answers (p pong : bytes) : Prop :=
  exists mask, length mask = 4%nat /\ pong = encode_frame true 10 (Some mask) p.

Lemma fits_u64 p : fits p -> Z.of_nat (length p) < 2 ^ 64.
Proof. unfold fits, MAX_FRAME. lia. Qed.

Section assembling.
Context {P : Platform} {F : Float} {J : JsonText}.

(** The loop, given [k] frames' worth of fuel, ends with [r] after answering
    the pings [ps]. *)
Definition receives (k : nat) (msg : bytes) (text : bool) (s : Stream) (ps : list bytes)
    (r : Io (option WsMessage)) : Prop :=
  forall fuel w, (k <= fuel)%nat ->
    exists w' out, recv_loop fuel msg text s w = Ret (w', (out, r)) /\ Forall2 answers ps out.

Lemma receives_controls cs k msg text rest e ps r :
  Forall (fun c => fits (control_payload c)) cs ->
  receives k msg text (mkStream rest e true) ps r ->
  receives (length cs + k) msg text (mkStream (concat (map control_frame cs) ++ rest) e true) (pings cs ++ ps) r.
Proof.
  intros Hc Hr. induction Hc as [|c cs Hx _ IH]; [exact Hr|]. intros fuel w Hf. cbn [length] in Hf.
  destruct fuel as [|fuel]; [lia|]. cbn [map concat recv_loop]. rewrite <- app_assoc.
  destruct c as [p|p]; cbn [control_frame control_payload] in *; unfold mlift, mbind at 1; rewrite read_encode by (done || lia); cbn [obind].
  - unfold write_frame, mbind at 1 2, rand_bytes. cbn [obind mret writable negb].
    match goal with |- context [mbind _ _ ?w1] => destruct (IH fuel w1) as (w' & out & E & Hout); [lia|] end.
    unfold mbind. rewrite E. cbn [obind]. do 2 eexists. split; [reflexivity|].
    change (pings (Ping p :: cs)) with (p :: pings cs). constructor; [|done].
    eexists. split; [|by apply frame_bytes_encode; [lia|apply fits_u64]]. by rewrite length_map, length_seq.
  - apply IH. lia.
Qed.

(** What is left of a message: it ends in its decoded text. *)
Lemma receives_fragments fs opcode msg text rest e m :
  fs <> [] -> Forall fragment_ok fs -> (opcode = 0 /\ text = true \/ opcode = 1) ->
  decode_message ((if opcode =? 0 then msg else []) ++ concat (map snd fs)) = Some m ->
  receives (frame_count fs) msg text
    (mkStream (fragment_frames opcode fs ++ rest) e true) (concat (map (fun f => pings (fst f)) fs))
    (Got (Some m) (mkStream rest e true)).
Proof.
  intros Hne Hfs. revert opcode msg text Hne.
  induction Hfs as [|[cs p] fs [Hcs Hp] _ IH]; intros opcode msg text Hne Hop Hm; [done|].
  cbn [fragment_frames map concat frame_count fst snd] in *. rewrite <- !app_assoc.
  apply receives_controls; [done|]. intros fuel w Hf. destruct fuel as [|fuel]; [lia|]. cbn [recv_loop].
  unfold mlift, mbind at 1. rewrite read_encode by (by destruct Hop as [[-> _]| ->]). cbn [obind].
  assert ((if opcode =? 0 then text else opcode =? 1) = true) as Ht by (by destruct Hop as [[-> ->]| ->]).
  set (msg' := (if opcode =? 0 then msg else []) ++ p) in *.
  match goal with |- exists w' out, ?l w = _ /\ _ =>
    assert (l w = (if match fs with [] => true | _ => false end
                 then match decode_message msg' with
                      | None => mret ([], Failed (lit "json"))
                      | Some m => mret ([], Got (Some m) (mkStream (fragment_frames 0 fs ++ rest) e true))
                      end
                 else recv_loop fuel msg' true (mkStream (fragment_frames 0 fs ++ rest) e true)) w) as ->
  end.
  { by destruct Hop as [[-> ->]| ->]. }
  destruct fs as [|f fs].
  - rewrite app_nil_r in Hm. unfold msg'. rewrite Hm. do 2 eexists. split; [reflexivity|constructor].
  - apply IH; [done|by left| |lia]. cbn [Z.eqb]. rewrite <- Hm. unfold msg'. by rewrite <- app_assoc.
Qed.

Lemma encode_frame_len fin opcode mask p : (2 <= length (encode_frame fin opcode mask p))%nat.
Proof. unfold encode_frame. rewrite len_field_cons. cbn. lia. Qed.

Lemma control_frames_len cs : (length cs <= length (concat (map control_frame cs)))%nat.
Proof.
  induction cs as [|c cs IH]; cbn; [lia|]. rewrite length_app.
  assert (2 <= length (control_frame c))%nat by (destruct c; apply encode_frame_len). lia.
Qed.

Lemma fragment_frames_len opcode fs :
  (frame_count fs <= length (fragment_frames opcode fs))%nat.
Proof.
  revert opcode. induction fs as [|[cs p] fs IH]; intros opcode; cbn [fragment_frames frame_count]; [lia|].
  rewrite !length_app. pose proof (control_frames_len cs). specialize (IH 0).
  match goal with |- context [encode_frame ?a ?b ?c ?d] => pose proof (encode_frame_len a b c d) end. lia.
Qed.

(** C25: messages are assembled. A server may split a text message into frames
    of any sizes up to the limit, each in any of the three length encodings its
    size calls for, and put pings and pongs between them: the next message
    received is the decoded concatenation of the fragments, each ping is
    answered by a masked pong with its payload, in order, and the bytes after
    the message stay in the stream. *)
Theorem recv_assembles fs rest e m w :
  fs <> [] -> Forall fragment_ok fs -> decode_message (concat (map snd fs)) = Some m ->
  exists w' out,
    recv (mkStream (fragment_frames 1 fs ++ rest) e true) w =
      Ret (w', (out, Got (Some m) (mkStream rest e true))) /\
    Forall2 answers (concat (map (fun f => pings (fst f)) fs)) out.
Proof.
  intros Hne Hfs Hm. unfold recv.
  apply (receives_fragments fs 1 [] false rest e m Hne Hfs); [by right|exact Hm|].
  cbn [avail]. rewrite length_app. pose proof (fragment_frames_len 1 fs). lia.
Qed.
End assembling.

(** ** Every call returns *)

Lemma read_exact_got n s b s' :
  read_exact n s = Got b s' -> (length (avail s') + n)%nat = length (avail s) /\ length b = n.
Proof.
  unfold read_exact. destruct (Nat.leb_spec n (length (avail s))) as [Hn|Hn].
  - intros [= <- <-]. cbn. rewrite length_drop, length_take. lia.
  - destruct (eof s); discriminate.
Qed.

Lemma iobind_got {A B} (m : Io A) (k : A -> Stream -> Io B) b s' :
  iobind m k = Got b s' -> exists a s1, m = Got a s1 /\ k a s1 = Got b s'.
Proof. destruct m; cbn; try discriminate. eauto. Qed.

Lemma read_len_got {P : Platform} b s n s' : read_len b s = Got n s' -> (length (avail s') <= length (avail s))%nat.
Proof.
  unfold read_len. generalize (Z.land b 127). intros x E.
  assert (forall k (f : bytes -> Z), iobind (read_exact k s) (fun l s => Got (f l) s) = Got n s' ->
    (length (avail s') <= length (avail s))%nat) as Hk.
  { intros k f Ek. apply iobind_got in Ek as (l & s1 & E1 & E2). simplify_eq. apply read_exact_got in E1. lia. }
  repeat (case_match; try (by apply (Hk 2%nat from_be_bytes) in E);
    try (by apply (Hk 8%nat (fun l => wrap usize_bits (from_be_bytes l))) in E); try (by simplify_eq)).
Qed.

Lemma read_header_got {P : Platform} s fin opcode len mask s' :
  read_header s = Got (fin, opcode, len, mask) s' -> (length (avail s') + 2 <= length (avail s))%nat /\ len <= MAX_FRAME.
Proof.
  unfold read_header. intros E. apply iobind_got in E as (h & s1 & E1 & E). cbv zeta in E.
  apply iobind_got in E as (n & s2 & E2 & E). destruct (Z.ltb_spec MAX_FRAME n) as [|Hn]; [discriminate|].
  apply iobind_got in E as (m & s3 & E3 & E). simplify_eq. apply read_exact_got in E1. apply read_len_got in E2.
  assert (length (avail s') <= length (avail s2))%nat as H3.
  { destruct (negb _); [|by simplify_eq]. apply iobind_got in E3 as (k & s5 & E5 & E6). simplify_eq.
    apply read_exact_got in E5. lia. }
  split; lia.
Qed.

(** A frame is read without a panic, and takes two bytes at least. *)
Lemma read_frame_returns {P : Platform} s :
  exists r, read_frame s = Ret r /\ forall f s', r = Got f s' -> (length (avail s') + 2 <= length (avail s))%nat.
Proof.
  unfold read_frame. destruct (read_header s) as [[[[fin opcode] len] mask] s1|e|] eqn:E; [|by eexists..].
  apply read_header_got in E as [H1 Hl]. rewrite vec_zeroed_frame by done. cbn [obind]. eexists. split; [reflexivity|].
  intros f s' E. apply iobind_got in E as (p & s2 & E2 & E). simplify_eq. apply read_exact_got in E2. lia.
Qed.

Section total.
Context {P : Platform} {F : Float} {J : JsonText}.

Lemma mret_returns {A} (a : A) w : exists w' r, mret a w = Ret (w', r).
Proof. by exists w, a. Qed.

Lemma recv_loop_returns fuel msg text s w :
  (length (avail s) < fuel)%nat -> exists w' r, recv_loop fuel msg text s w = Ret (w', r).
Proof.
  revert msg text s w. induction fuel as [|fuel IH]; intros msg text s w Hf; [lia|]. cbn [recv_loop].
  destruct (read_frame_returns s) as (fr & E & Hs). unfold mlift, mbind at 1. rewrite E. cbn [obind].
  destruct fr as [[[fin opcode] payload] s'|err|]; [|apply mret_returns..]. specialize (Hs _ _ eq_refl).
  assert (forall msg text w, exists w' r, recv_loop fuel msg text s' w = Ret (w', r)) as Hrec
    by (intros; apply IH; lia).
  assert (forall w', exists w2 r, (let* (out, r) := recv_loop fuel msg text s' in
    mret (frame_bytes 10 (map (fun i => w_rng w (w_draws w) i mod 256) (seq 0 4)) payload :: out, r)) w' = Ret (w2, r)) as Hping.
  { intros w'. destruct (Hrec msg text w') as (w2 & [out r] & Er). unfold mbind. rewrite Er. cbn [obind]. apply mret_returns. }
  repeat (case_match; try apply Hrec; try apply mret_returns).
  unfold write_frame, mbind at 1 2, rand_bytes. cbn [obind mret]. apply Hping.
Qed.

(** C27: receiving always returns. Whatever bytes arrive, on 32-bit and 64-bit
    targets, a call that has them all neither panics nor loops: it ends in a
    message, at the close frame, in an error, or waiting for more input. In
    particular no length a hostile server can write makes the allocation of the
    payload's buffer panic: a buffer is only allocated for the sixteen megabytes
    a frame may have. *)
Theorem recv_returns s w : exists w' out r, recv s w = Ret (w', (out, r)).
Proof.
  destruct (recv_loop_returns (S (length (avail s))) [] false s w ltac:(lia)) as (w' & [out r] & E). eauto.
Qed.

(** A masked payload: byte [i] is xored with byte [i mod 4] of the mask. *)
Definition masked_payload (mask payload : bytes) : bytes :=
  imap (fun i x => Z.lxor x (mask !!! (i mod 4)%nat)) payload.

Lemma xor_mask_payload mask payload : length mask = 4%nat -> xor_mask mask 0 payload = masked_payload mask payload.
Proof.
  intros Hm. unfold masked_payload. assert (forall i, xor_mask mask i payload =
    imap (fun j x => Z.lxor x (mask !!! ((i + j) mod 4)%nat)) payload) as H; [|apply (H 0%nat)].
  induction payload as [|x payload IH]; intros i; [done|]. cbn [xor_mask]. rewrite IH.
  change (Nat.land i 3) with (Nat.land i (Nat.ones 2)). rewrite Nat.land_ones. cbn [imap]. f_equal.
  - rewrite Nat.add_0_r. change (2 ^ 2)%nat with 4%nat. f_equal.
    destruct (lookup_lt_is_Some_2 mask (i mod 4)) as [b Hb]; [rewrite Hm; by apply Nat.mod_upper_bound|].
    rewrite (list_lookup_total_correct _ _ _ Hb). by apply nth_lookup_Some.
  - apply imap_ext. intros j y _. cbn [compose]. f_equal. f_equal. f_equal. lia.
Qed.

(** C26: messages survive the wire. What the program writes for a message is,
    byte for byte, one final text frame of RFC 6455 from a client: the first
    byte 0x81, the mask bit and the length in the shortest of the three
    encodings, the four random bytes of the mask, and the message's JSON text
    xored with them. A message without floating-point numbers, of at most sixteen
    megabytes, with data as the JSON library holds it (the keys of objects
    sorted, the version a 64-bit integer), is read back by the receiving side as
    itself, with the same topic, data and version, and the bytes after it stay in
    the stream. Numbers with a fraction are left out of that second part, because
    the JSON library does not promise to read them back exactly; the site's
    registration carries such numbers. *)
Theorem message_round_trip {LJ : JsonTextLaws J} m rest e w :
  let text := json_print (message_json m) in
  Z.of_nat (length text) < 2 ^ 64 ->
  exists w1 out mask, send m w = Ret (w1, out) /\
    mask = map (fun i => w_rng w (w_draws w) i mod 256) [0; 1; 2; 3]%nat /\
    out = [129] ++ len_field true (Z.of_nat (length text)) ++ mask ++ masked_payload mask text /\
    (fits text -> no_floats (data m) = true -> value_ok (data m) = true -> (forall v, config_version m = Some v -> i64_ok v) ->
     recv (mkStream (out ++ rest) e true) w1 = Ret (w1, ([], Got (Some m) (mkStream rest e true)))).
Proof.
  intros text Hl. unfold send, write_frame, mbind at 1, rand_bytes, mret. cbn [obind]. do 3 eexists.
  split; [reflexivity|]. split; [reflexivity|]. fold text. rewrite frame_bytes_encode by (lia || done). split.
  - unfold encode_frame. by rewrite xor_mask_payload.
  - intros Hfit Hf Hv Hi. unfold recv. cbn [recv_loop]. unfold mlift, mbind at 1.
    rewrite read_encode; [|lia|intros k [= <-]; reflexivity|done]. cbn.
    unfold decode_message, text. rewrite json_parse_print.
    + by rewrite dec_message_json.
    + unfold message_json. cbn. rewrite Hf. by destruct (config_version m).
Qed.
End total.

(** ** The upgrade's headers *)

(** A text whose first blank line is at its end. *)
Definition one_head (h : bytes) : bool :=
  ends_with CRLF2 h && forallb (fun k => negb (ends_with CRLF2 (take k h))) (seq 0 (length h)).

Lemma one_head_spec h : one_head h = true ->
  ends_with CRLF2 h = true /\ forall k, (k < length h)%nat -> ends_with CRLF2 (take k h) = false.
Proof.
  intros [He Hall]%andb_prop. split; [done|]. intros k Hk. rewrite forallb_forall in Hall.
  specialize (Hall k). rewrite in_seq, negb_true_iff in Hall. apply Hall. lia.
Qed.

Lemma read_head_steps h acc fuel rest e wr :
  (forall k, (k <= length h)%nat -> ends_with CRLF2 (acc ++ take k h) = false) ->
  (length (acc ++ h) <= HEAD_MAX)%nat ->
  read_head (length h + fuel) acc (mkStream (h ++ rest) e wr) = read_head fuel (acc ++ h) (mkStream rest e wr).
Proof.
  revert acc. induction h as [|b h IH]; intros acc Hh Hl; [by rewrite app_nil_r|].
  cbn [length Nat.add read_head]. change (b :: h) with ([b] ++ h). rewrite <- app_assoc, read_exact_app by done.
  cbn [iobind]. rewrite !length_app in Hl. cbn [length app] in Hl. pose proof (Hh 1%nat ltac:(cbn; lia)) as H1.
  change (acc ++ take 1 (b :: h)) with (acc ++ [b]) in H1. rewrite H1.
  rewrite (proj2 (Nat.ltb_ge _ _)) by (rewrite length_app; cbn [length]; lia).
  rewrite IH; [by rewrite app_assoc| |rewrite !length_app; cbn [length]; lia].
  intros k Hk. specialize (Hh (S k) ltac:(cbn; lia)). cbn [firstn] in Hh. by rewrite <- app_assoc.
Qed.

(** The upgrade consumes exactly the server's headers. Headers of at most
    8193 bytes up to their first blank line are read in full and nothing after
    them is touched, so a frame that follows in the same packet is not lost;
    longer headers without a blank line are refused. *)
Theorem upgrade_reads_head h rest e wr :
  (one_head h = true -> (length h <= S HEAD_MAX)%nat ->
   read_head HEAD_FUEL [] (mkStream (h ++ rest) e wr) = Got h (mkStream rest e wr)) /\
  ((forall k, ends_with CRLF2 (take k h) = false) -> length h = S HEAD_MAX ->
   read_head HEAD_FUEL [] (mkStream (h ++ rest) e wr) = Failed (lit "websocket upgrade headers too large")).
Proof.
  split.
  - intros [He Hno]%one_head_spec Hl. destruct (exists_last (l := h)) as (h0 & b & ->); [by intros ->|].
    rewrite length_app in *. cbn [length] in *. unfold HEAD_FUEL.
    replace (S HEAD_MAX) with (length h0 + S (HEAD_MAX - length h0))%nat by lia. rewrite <- app_assoc.
    rewrite read_head_steps; [|intros k Hk|cbn [app]; lia].
    + cbn [read_head]. rewrite read_exact_app by done. cbn [iobind app]. by rewrite He.
    + rewrite <- (Hno k) by lia. cbn [app]. by rewrite take_app_le by lia.
  - intros Hno Hl. destruct (exists_last (l := h)) as (h0 & b & ->); [by intros ->|].
    rewrite length_app in Hl. cbn [length] in Hl. unfold HEAD_FUEL.
    replace (S HEAD_MAX) with (length h0 + 1)%nat by lia. rewrite <- app_assoc.
    rewrite read_head_steps; [|intros k Hk|cbn [app]; lia].
    + cbn [read_head]. rewrite read_exact_app by done. cbn [iobind app].
      specialize (Hno (length (h0 ++ [b]))). rewrite firstn_all in Hno. rewrite Hno.
      by rewrite (proj2 (Nat.ltb_lt _ _)) by (rewrite length_app; cbn [length]; lia).
    + rewrite <- (Hno k). cbn [app]. by rewrite take_app_le by lia.
Qed.

(** On a 32-bit target the limit on a frame can be passed by: the length is cut
    to 32 bits before it is compared, so a frame that claims 2^32 + 3 bytes is
    taken for one of three, and the rest of its payload is read as frames. *)
Theorem long_frame_cut rest e wr :
  read_frame (P := target32) (mkStream ([130; 127] ++ to_be_bytes 8 (2 ^ 32 + 3) ++ [1; 2; 3] ++ rest) e wr) =
    Ret (Got (true, 2, [1; 2; 3]) (mkStream rest e wr)) /\
  read_frame (P := target64) (mkStream ([130; 127] ++ to_be_bytes 8 (2 ^ 32 + 3) ++ [1; 2; 3] ++ rest) e wr) =
    Ret (Failed (lit "websocket frame too large")).
Proof. split; reflexivity. Qed.

(** ** Witnesses *)

#[local] Existing Instance target64.

Import ToyJson.

Definition demo_message : WsMessage :=
  mkWsMessage topic.WG_TERMINATE (jobj [(lit "code", JInt 7); (lit "again", JBool true)]) (Some 3).
Definition demo_text : bytes := json_print (message_json demo_message).
(** The message in two fragments, with a ping before each and a pong. *)
Definition demo_fragments : list Fragment :=
  [([Ping [1; 2; 3]], take 100 demo_text); ([Pong []; Ping []], drop 100 demo_text)].

Lemma recv_assembles_witness :
  exists w' out,
    recv (mkStream (fragment_frames 1 demo_fragments ++ [9]) false true) (mkWorld (fun _ => mkInstant 0 0) (fun _ => 0) (fun _ _ => 5) 0 0 0) =
      Ret (w', (out, Got (Some demo_message) (mkStream [9] false true))) /\
    Forall2 answers [[1; 2; 3]; []] out.
Proof.
  apply (recv_assembles demo_fragments [9] false demo_message (mkWorld (fun _ => mkInstant 0 0) (fun _ => 0) (fun _ _ => 5) 0 0 0)).
  - discriminate.
  - repeat constructor; vm_compute; discriminate.
  - vm_compute. reflexivity.
Defined.

Definition demo_world : World := mkWorld (fun _ => mkInstant 0 0) (fun _ => 0) (fun _ _ => 5) 0 0 0.

Lemma message_round_trip_witness :
  exists w1 out, send demo_message demo_world = Ret (w1, out) /\
    out = [129] ++ len_field true (Z.of_nat (length demo_text)) ++ [5; 5; 5; 5] ++ masked_payload [5; 5; 5; 5] demo_text /\
    recv (mkStream (out ++ []) true true) w1 = Ret (w1, ([], Got (Some demo_message) (mkStream [] true true))).
Proof.
  destruct (message_round_trip (LJ := ToyJsonTextLaws) demo_message [] true demo_world) as (w1 & out & mask & E & -> & Ho & Hr).
  - vm_compute. reflexivity.
  - exists w1, out. split; [exact E|]. split; [exact Ho|]. apply Hr.
    + vm_compute. discriminate.
    + reflexivity.
    + reflexivity.
    + intros v [= <-]. unfold i64_ok. lia.
Defined.

Definition demo_head : bytes := lit "HTTP/1.1 101 Switching" ++ CRLF2.

Lemma upgrade_reads_head_witness :
  read_head HEAD_FUEL [] (mkStream (demo_head ++ [129]) false true) = Got demo_head (mkStream [129] false true) /\
  read_head HEAD_FUEL [] (mkStream (replicate (S HEAD_MAX) 65 ++ [129]) false true) =
    Failed (lit "websocket upgrade headers too large").
Proof.
  split.
  - apply (upgrade_reads_head demo_head [129] false true); [reflexivity|vm_compute; lia].
  - apply (upgrade_reads_head (replicate (S HEAD_MAX) 65) [129] false true).
    + intros k. unfold ends_with. destruct (rev (take k (replicate (S HEAD_MAX) 65))) as [|z l] eqn:E; [reflexivity|].
      assert (In z (take k (replicate (S HEAD_MAX) 65))) as Hz by (apply in_rev; rewrite E; by left).
      apply list_elem_of_In, elem_of_take in Hz as (i & Hi & _). apply lookup_replicate in Hi as [-> _]. reflexivity.
    + apply length_replicate.
Defined.

(** Dropping a waiting call breaks the stream: with a frame that arrives in two
    parts, the call on the whole returns the message; the call on the first part
    waits, and once it is dropped the next one, on the second part, does not
    find the message. *)
Example dropped_recv_loses_message :
  let frame := match send demo_message demo_world with Ret (_, out) => out | _ => [] end in
  let early := mkStream (take 5 frame) false true in
  let late s := mkStream (avail s ++ drop 5 frame) false true in
  let result s := match recv s demo_world with Ret (_, (_, r)) => Some r | _ => None end in
  result (late early) = Some (Got (Some demo_message) (mkStream [] false true)) /\
  result early = Some Waiting /\
  result (late (recv_dropped early)) = Some (Failed (lit "unknown websocket opcode")).
Proof. vm_compute. done. Qed.
