(* ===== verification/Target.v ===== *)
(** Proxy targets, [newt-core/src/target.rs]: "listenPort:host:targetPort",
    the host possibly a bracketed IPv6 literal. *)

From Stdlib Require Import String.
From S2P Require Import Prelude Text.

Record Target := mkTarget { listen_port : Z; host : str; target_port : Z }.

(** The host of a bracketed literal ends at the first closing bracket. *)
Definition Target_parse (s : str) : option Target :=
  match split_once COLON s with
  | None => None
  | Some (listen, rest) =>
      match parse_uint U16_MAX listen with
      | None => None
      | Some listen_port =>
          let host_port :=
            match strip_prefix LBRACKET rest with
            | Some after =>
                match split_once RBRACKET after with
                | None => None
                | Some (host, tail) =>
                    match strip_prefix COLON tail with
                    | None => None
                    | Some port => Some (host, port)
                    end
                end
            | None => rsplit_once COLON rest
            end in
          match host_port with
          | None => None
          | Some (host, port) =>
              match parse_uint U16_MAX port with
              | None => None
              | Some target_port => Some (mkTarget listen_port host target_port)
              end
          end
      end
  end.

(** ** The grammar *)

Definition target_ok (t : Target) : Prop :=
  0 <= listen_port t <= U16_MAX /\ 0 <= target_port t <= U16_MAX.

(** The two spellings of a target. *)
Definition print_plain (t : Target) : str :=
  display_u16 (listen_port t) ++ COLON :: host t ++ COLON :: display_u16 (target_port t).
Definition print_bracketed (t : Target) : str :=
  display_u16 (listen_port t) ++ COLON :: LBRACKET :: host t ++ RBRACKET :: COLON ::
  display_u16 (target_port t).

Lemma display_no_delim n c : 0 <= n -> c < 48 \/ 57 < c -> c ∉ display_u16 n.
Proof. intros Hn Hc Hin. apply (to_decimal_digits 5 n c Hn) in Hin. lia. Qed.

Lemma parse_plain t :
  target_ok t -> strip_prefix LBRACKET (host t ++ COLON :: display_u16 (target_port t)) = None ->
  Target_parse (print_plain t) = Some t.
Proof.
  intros [Hl Ht] Hb. unfold Target_parse, print_plain.
  rewrite split_once_app by (apply display_no_delim; unfold COLON; lia).
  rewrite parse_display_u16, Hb by done.
  rewrite rsplit_once_app by (apply display_no_delim; unfold COLON; lia).
  rewrite parse_display_u16 by done. by destruct t.
Qed.

Lemma parse_bracketed t :
  target_ok t -> RBRACKET ∉ host t -> Target_parse (print_bracketed t) = Some t.
Proof.
  intros [Hl Ht] Hb. unfold Target_parse, print_bracketed.
  rewrite split_once_app by (apply display_no_delim; unfold COLON; lia).
  rewrite parse_display_u16 by done. cbn [strip_prefix]. rewrite Z.eqb_refl.
  rewrite split_once_app by done. cbn [strip_prefix]. rewrite Z.eqb_refl.
  rewrite parse_display_u16 by done. by destruct t.
Qed.

(** Target round trip. Every target prints to a string that parses back to
    it: plainly when the host does not start with a bracket, in brackets when
    it contains none (IPv6 literals). *)
Theorem target_round_trip t :
  target_ok t ->
  (head (host t) <> Some LBRACKET -> Target_parse (print_plain t) = Some t) /\
  (RBRACKET ∉ host t -> Target_parse (print_bracketed t) = Some t).
Proof.
  intros Hok. split; [|by apply parse_bracketed]. intros Hh. apply parse_plain; [done|].
  destruct (host t) as [|b h]; cbn; [done|]. destruct (Z.eqb_spec b LBRACKET); [|done].
  cbn in Hh. congruence.
Qed.

(** The texts of a target: any numerals of its ports around the host, which is
    in brackets and holds no closing one, or else does not start like that. *)
Definition spelled (s : str) (t : Target) : Prop :=
  exists listen port,
    parse_uint U16_MAX listen = Some (listen_port t) /\ parse_uint U16_MAX port = Some (target_port t) /\
    (COLON ∉ listen) /\
    (s = listen ++ COLON :: LBRACKET :: host t ++ RBRACKET :: COLON :: port /\ (RBRACKET ∉ host t) \/
     s = listen ++ COLON :: host t ++ COLON :: port /\ (COLON ∉ port) /\
       strip_prefix LBRACKET (host t ++ COLON :: port) = None).

Lemma parsed_spelled s t : Target_parse s = Some t -> spelled s t.
Proof.
  unfold Target_parse, spelled. intros E.
  destruct (split_once COLON s) as [[listen rest]|] eqn:E1; [|done].
  apply split_once_inv in E1 as [-> Hl].
  destruct (parse_uint U16_MAX listen) as [lp|] eqn:E2; [|done].
  destruct (strip_prefix LBRACKET rest) as [after|] eqn:E3.
  - destruct rest as [|b rest]; [done|]. cbn in E3. destruct (Z.eqb_spec b LBRACKET); [|done]. simplify_eq.
    destruct (split_once RBRACKET after) as [[h tail]|] eqn:E4; [|done].
    apply split_once_inv in E4 as [-> Hh]. destruct tail as [|b tail]; [done|]. cbn in E.
    destruct (Z.eqb_spec b COLON); [|done]. subst b.
    destruct (parse_uint U16_MAX tail) as [tp|] eqn:E5; [|done]. simplify_eq.
    exists listen, tail. split_and!; [done..|]. by left.
  - destruct (rsplit_once COLON rest) as [[h p]|] eqn:E4; [|done].
    apply rsplit_once_inv in E4 as [-> Hp].
    destruct (parse_uint U16_MAX p) as [tp|] eqn:E5; [|done]. simplify_eq.
    exists listen, p. split_and!; [done..|]. by right.
Qed.

Lemma spelled_parses s t : spelled s t -> Target_parse s = Some t.
Proof.
  intros (l & p & Hl & Hp & Hc & H). unfold Target_parse. destruct t as [lp h tp]; cbn in *.
  destruct H as [[-> Hb]|(-> & Hcp & Hb)]; rewrite split_once_app, Hl by done.
  - cbn [strip_prefix]. rewrite Z.eqb_refl, split_once_app by done. cbn [strip_prefix]. by rewrite Z.eqb_refl, Hp.
  - by rewrite Hb, rsplit_once_app, Hp.
Qed.

(** C38: targets are exactly their grammar. A text is accepted as a target just
    when it spells that target: two ports that fit sixteen bits around a host
    in brackets, or around one that does not start with a bracket and ends at
    the last colon. *)
Theorem target_grammar s t : Target_parse s = Some t <-> spelled s t /\ target_ok t.
Proof.
  split; [|intros [H _]; by apply spelled_parses]. intros H%parsed_spelled. split; [done|].
  destruct H as (l & p & Hl & Hp & _). split; by eapply parse_uint_bound.
Qed.

(** ** Witnesses *)

Definition web6 : Target := mkTarget 3001 (lit "fd00::1") 443.

Lemma target_round_trip_witness :
  (head (host web6) <> Some LBRACKET -> Target_parse (print_plain web6) = Some web6) /\
  (RBRACKET ∉ host web6 -> Target_parse (print_bracketed web6) = Some web6).
Proof. apply (target_round_trip web6). vm_compute. repeat split; discriminate. Defined.
