(* ===== verification/Sm.v ===== *)
(** The control-channel state machine, [newt-core/src/sm.rs], over the message
    types of [newt-core/src/proto.rs]. A step takes an event and returns the
    actions for the caller, who keeps the data plane ([Connector]). *)

From Stdlib Require Import String.
From S2P Require Import Prelude Text Json Proto.

Inductive State : Type :=
| Disconnected
| RequestingExitNodes
| Registering
| Connected
| Stopped.

#[export] Instance State_eq_dec : EqDecision State.
Proof. solve_decision. Defined.

Section machine.
Context {F : Float}.

Inductive Event : Type :=
| WsConnected
| ExitNodes (d : ExitNodeData)
| WgConnect (wg : WgData)
| Reconnect
| Terminate
| Tick (elapsed : Z).

Inductive Action : Type :=
| Send (m : WsMessage)
| BringUp (wg : WgData)
| Teardown
| Stop.

Record Sm := mkSm {
  sm_state : State;
  public_key_b64 : str;
  newt_version : str;
  no_cloud : bool;
  pending_chain_id : str;
  resend_due_ms : Z
}.

Definition set_state_due (sm : Sm) (st : State) (due : Z) : Sm :=
  mkSm st (public_key_b64 sm) (newt_version sm) (no_cloud sm) (pending_chain_id sm) due.

Definition PING_RESEND_MS : Z := 3000.
Definition REGISTER_RESEND_MS : Z := 2000.

Definition Sm_new (key version : str) (cloud : bool) : Sm :=
  mkSm Disconnected key version cloud [] 0.

Definition ping_request_msg (sm : Sm) : WsMessage :=
  mkWsMessage topic.PING_REQUEST
    (jobj [(lit "noCloud", JBool (no_cloud sm)); (lit "chainId", JStr (pending_chain_id sm))]) None.

Definition register_msg (sm : Sm) (results : list PingResult) : WsMessage :=
  mkWsMessage topic.WG_REGISTER
    (jobj [(lit "publicKey", JStr (public_key_b64 sm));
           (lit "pingResults", JArr (map ping_result_json results));
           (lit "newtVersion", JStr (newt_version sm));
           (lit "chainId", JStr (pending_chain_id sm))]) None.

Definition step (sm : Sm) (ev : Event) : Sm * list Action :=
  match ev with
  | WsConnected =>
      let sm := set_state_due sm RequestingExitNodes PING_RESEND_MS in
      (sm, [Send (ping_request_msg sm)])
  | ExitNodes d =>
      if negb (bool_decide (sm_state sm = RequestingExitNodes)) then (sm, [])
      else
        match exit_nodes d with
        | [] => (sm, [])
        | node :: _ =>
            let results := [mkPingResult (en_id node) f64_zero (en_weight node) [] (en_name node)
                              (en_endpoint node) (en_was_previously_connected node)] in
            let sm := set_state_due sm Registering REGISTER_RESEND_MS in
            (sm, [Send (register_msg sm results)])
        end
  | WgConnect wg =>
      let down := if bool_decide (sm_state sm = Connected) then [Teardown] else [] in
      (set_state_due sm Connected 0, down ++ [BringUp wg])
  | Reconnect =>
      let down := if bool_decide (sm_state sm = Connected) then [Teardown] else [] in
      let sm := set_state_due sm RequestingExitNodes PING_RESEND_MS in
      (sm, down ++ [Send (ping_request_msg sm)])
  | Terminate => (set_state_due sm Stopped (resend_due_ms sm), [Teardown; Stop])
  | Tick elapsed =>
      if resend_due_ms sm =? 0 then (sm, [])
      else if resend_due_ms sm <=? elapsed then
        match sm_state sm with
        | RequestingExitNodes =>
            let sm := set_state_due sm RequestingExitNodes PING_RESEND_MS in
            (sm, [Send (ping_request_msg sm)])
        | Registering =>
            let sm := set_state_due sm Registering REGISTER_RESEND_MS in
            (sm, [Send (register_msg sm [])])
        | _ => (sm, [])
        end
      else (set_state_due sm (sm_state sm) (resend_due_ms sm - elapsed), [])
  end.

(** ** Invariant *)

(** A resend is pending exactly while an answer is awaited, and never overdue. *)
Record sm_ok (sm : Sm) : Prop := {
  so_range : 0 <= resend_due_ms sm <= PING_RESEND_MS;
  so_waiting : sm_state sm = RequestingExitNodes \/ sm_state sm = Registering -> 0 < resend_due_ms sm;
  so_idle : sm_state sm = Disconnected \/ sm_state sm = Connected -> resend_due_ms sm = 0
}.

Definition event_ok (ev : Event) : Prop :=
  match ev with Tick e => 0 <= e | _ => True end.

Lemma sm_new_ok key version cloud : sm_ok (Sm_new key version cloud).
Proof. constructor; cbn; unfold PING_RESEND_MS; [lia|intros [?|?]; done|done]. Qed.

Lemma step_ok sm ev : sm_ok sm -> event_ok ev -> sm_ok (fst (step sm ev)).
Proof.
  intros [Hr Hw Hi] Hev. unfold PING_RESEND_MS in *.
  destruct ev; cbn [step event_ok] in *; repeat case_match; zbool; cbn;
    (constructor; cbn; unfold PING_RESEND_MS, REGISTER_RESEND_MS in *; try lia;
     intuition (congruence || lia)).
Qed.

(** ** The tunnel follows the state *)

(** Whether a tunnel is up after an action; nothing for an action that would
    bring one up over another. *)
Definition track (up : option bool) (a : Action) : option bool :=
  match up, a with
  | Some true, BringUp _ => None
  | Some false, BringUp _ => Some true
  | Some _, Teardown => Some false
  | _, _ => up
  end.

Definition is_ws_connected (ev : Event) : bool :=
  match ev with WsConnected => true | _ => false end.

Definition connected (sm : Sm) : bool := bool_decide (sm_state sm = Connected).

(** With a tunnel up exactly in the connected state, a step's actions keep it
    so, and never bring one up over another. *)
Lemma step_tracks sm ev :
  (is_ws_connected ev = true -> sm_state sm = Disconnected) ->
  foldl track (Some (connected sm)) (snd (step sm ev)) = Some (connected (fst (step sm ev))).
Proof.
  intros Hws. unfold connected. destruct sm as [st key ver cloud chain due].
  destruct ev; cbn [step sm_state] in *; try (rewrite Hws by done);
    destruct st; cbn; repeat (case_match; cbn; try done).
Qed.

(** Only the termination stops, and nothing follows it. *)
Lemma step_stop sm ev : Stop ∈ snd (step sm ev) -> ev = Terminate.
Proof.
  destruct ev; cbn [step]; repeat case_match; cbn; rewrite ?elem_of_cons, ?elem_of_nil; naive_solver.
Qed.

(** ** Resending *)

(** The messages sent over [k] ticks of [e] milliseconds. *)
Fixpoint ticks (sm : Sm) (e : Z) (k : nat) : Sm * list Action :=
  match k with
  | O => (sm, [])
  | S k' =>
      let '(sm1, a) := step sm (Tick e) in
      let '(sm2, b) := ticks sm1 e k' in
      (sm2, a ++ b)
  end.

(** The period after which a waiting state repeats its message. *)
Definition resend_period (st : State) : option Z :=
  match st with
  | RequestingExitNodes => Some PING_RESEND_MS
  | Registering => Some REGISTER_RESEND_MS
  | _ => None
  end.

(** Ticks per resend. *)
Definition ticks_per (period e : Z) : Z := (period + e - 1) / e.

Lemma ticks_per_spec period e : 0 < e -> 0 < period ->
  0 < ticks_per period e /\ (ticks_per period e - 1) * e < period <= ticks_per period e * e.
Proof.
  intros He Hp. unfold ticks_per. pose proof (Z.div_mod (period + e - 1) e ltac:(lia)).
  pose proof (Z.mod_pos_bound (period + e - 1) e He). nia.
Qed.

Lemma tick_waiting sm e period j :
  resend_period (sm_state sm) = Some period -> 0 < e -> 0 < period ->
  0 <= j < ticks_per period e -> resend_due_ms sm = period - j * e ->
  exists sm' acts, step sm (Tick e) = (sm', acts) /\ sm_state sm' = sm_state sm /\
    if j + 1 =? ticks_per period e
    then length acts = 1%nat /\ resend_due_ms sm' = period
    else acts = [] /\ resend_due_ms sm' = period - (j + 1) * e.
Proof.
  intros Hst He Hp Hj Hd. destruct (ticks_per_spec period e He Hp) as (Hn0 & Hn1 & Hn2).
  assert (0 < resend_due_ms sm) as Hpos by nia. cbn [step].
  destruct (Z.eqb_spec (resend_due_ms sm) 0); [lia|].
  destruct (Z.eqb_spec (j + 1) (ticks_per period e)) as [Hl|Hl].
  - rewrite (proj2 (Z.leb_le _ _)) by nia.
    destruct (sm_state sm) eqn:E; try discriminate; cbn in Hst; simplify_eq; do 2 eexists; done.
  - rewrite (proj2 (Z.leb_gt _ _)) by nia. do 2 eexists. split; [done|]. split; [done|].
    split; [done|]. cbn. lia.
Qed.

(** Messages are repeated on time. While the machine waits for exit nodes
    or for its registration, [k] ticks of [e] milliseconds repeat the message
    exactly once per [period / e] ticks, rounded up (every third tick of a
    second for the exit-node request, every second one for the registration),
    and the machine keeps waiting: it neither floods nor stalls. *)
Theorem resend_rate sm st period e k :
  sm_state sm = st -> resend_period st = Some period -> resend_due_ms sm = period -> 0 < e ->
  exists sm' acts, ticks sm e k = (sm', acts) /\ sm_state sm' = st /\
    Z.of_nat (length acts) = Z.of_nat k / ticks_per period e.
Proof.
  intros Hst Hp Hd He.
  assert (0 < period) as Hpos
    by (destruct st; try discriminate; cbn in Hp; unfold PING_RESEND_MS, REGISTER_RESEND_MS in Hp; simplify_eq; lia).
  destruct (ticks_per_spec period e He Hpos) as (Hn0 & _ & _).
  enough (forall j, 0 <= j < ticks_per period e -> resend_due_ms sm = period - j * e ->
    exists sm' acts, ticks sm e k = (sm', acts) /\ sm_state sm' = st /\
      Z.of_nat (length acts) = (j + Z.of_nat k) / ticks_per period e) as H by (apply (H 0); lia).
  clear Hd. revert sm Hst. induction k as [|k IH]; intros sm Hst j Hj Hd.
  - exists sm, []. rewrite Z.add_0_r, Z.div_small by done. done.
  - subst st. destruct (tick_waiting sm e period j Hp He Hpos Hj Hd) as (sm1 & a & E & Hs1 & Hcase).
    cbn [ticks]. rewrite E. rewrite Nat2Z.inj_succ.
    destruct (Z.eqb_spec (j + 1) (ticks_per period e)) as [Hl|Hl]; destruct Hcase as [Ha Hd1].
    + destruct (IH sm1 Hs1 0) as (sm2 & b & -> & Hs2 & Hb); [lia..|].
      do 2 eexists. split; [done|]. split; [done|]. rewrite length_app, Nat2Z.inj_add, Hb, Ha.
      replace (j + Z.succ (Z.of_nat k)) with (0 + Z.of_nat k + 1 * ticks_per period e) by lia.
      rewrite Z.div_add by lia. lia.
    + destruct (IH sm1 Hs1 (j + 1)) as (sm2 & b & -> & Hs2 & Hb); [lia..|]. subst a.
      do 2 eexists. split; [done|]. split; [done|]. cbn [app]. rewrite Hb. f_equal. lia.
Qed.
End machine.

(** ** Witnesses *)

Definition demo_waiting : Sm := fst (step (Sm_new (lit "k") (lit "v") false) WsConnected).

Lemma resend_rate_witness :
  exists sm' acts, ticks demo_waiting 1000 7 = (sm', acts) /\ sm_state sm' = RequestingExitNodes /\
    Z.of_nat (length acts) = Z.of_nat 7 / ticks_per PING_RESEND_MS 1000.
Proof.
  apply (resend_rate demo_waiting RequestingExitNodes PING_RESEND_MS 1000 7).
  - reflexivity.
  - reflexivity.
  - reflexivity.
  - lia.
Defined.
