(* ===== verification/Router.v ===== *)
(** The multi-peer router of [newt/src/olm/router.rs]: longest-prefix routing
    of outbound packets over one pump per site, and demultiplexing of inbound
    datagrams to the peer that owns their receiver index. *)

From S2P Require Import Prelude Time Errors Replay Crypto ToyCrypto Packet Session.
From S2P Require Import Handshake HandshakeFacts RateLimiter Timers Tunn TunnFacts TunnProps Text Ip Wg.

(** ** Address ranges *)

Record Cidr := mkCidr { net : IpAddr; prefix : Z }.

(** Compare the first [prefix] bits. *)
Definition bits_match (a b : bytes) (prefix : Z) : outcome bool :=
  let full := Z.to_nat (prefix / 8) in
  let! a_full := prefix_to a full in
  let! b_full := prefix_to b full in
  if negb (bytes_eqb a_full b_full) then Ret false
  else
    let rem := prefix mod 8 in
    if rem =? 0 then Ret true
    else
      let mask := wrap 8 (Z.shiftl 255 (8 - rem)) in
      let! x := index_at a full in
      let! y := index_at b full in
      Ret (Z.land x mask =? Z.land y mask).

Definition contains (c : Cidr) (ip : IpAddr) : outcome bool :=
  match net c, ip with
  | V4 n, V4 a => bits_match n a (prefix c)
  | V6 n, V6 a => bits_match n a (prefix c)
  | _, _ => Ret false
  end.

Definition parts (c : Cidr) : IpAddr * Z := (net c, prefix c).

Definition same_cidr (a b : Cidr) : bool :=
  (prefix a =? prefix b) && bool_decide (net a = net b).

Definition Cidr_parse (s : str) : option Cidr :=
  let s := trim s in
  let addr_prefix :=
    match split_once SLASH s with
    | Some (a, p) =>
        match parse_uint U8_MAX p with
        | Some n => Some (a, Some n)
        | None => None
        end
    | None => Some (s, None)
    end in
  match addr_prefix with
  | None => None
  | Some (addr, prefix) =>
      match ip_from_str addr with
      | None => None
      | Some net =>
          let max := match net with V4 _ => 32 | V6 _ => 128 end in
          let prefix := default max prefix in
          if max <? prefix then None else Some (mkCidr net prefix)
      end
  end.

(** Destination of a bare IP packet. *)
Definition dest_ip (pkt : bytes) : option IpAddr :=
  match pkt with
  | [] => None
  | b :: _ =>
      let v := Z.shiftr b 4 in
      if (v =? 4) && (20 <=? length pkt)%nat then Some (V4 (slice 16 20 pkt))
      else if (v =? 6) && (40 <=? length pkt)%nat then Some (V6 (slice 24 40 pkt))
      else None
  end.

(** ** The router *)

Inductive Out : Type :=
| ToHost (p : bytes)
| ToNet (b : bytes) (endpoint : SocketAddr).

Record Peer := mkPeer {
  site_id : Z;
  pump : Pump;
  endpoint : SocketAddr;
  cidrs : list Cidr;
  index : Z
}.

Definition set_pump (p : Peer) (x : Pump) : Peer :=
  mkPeer (site_id p) x (endpoint p) (cidrs p) (index p).

Record Router := mkRouter {
  r_secret : bytes;
  r_mtu : nat;
  peers : list Peer;
  r_next_index : Z
}.

Definition set_peers (r : Router) (ps : list Peer) : Router :=
  mkRouter (r_secret r) (r_mtu r) ps (r_next_index r).

Definition Router_new (secret : bytes) (mtu : nat) : Router := mkRouter secret mtu [] 1.

Definition peer_count (r : Router) : nat := length (peers r).

Definition remove_peer (r : Router) (site : Z) : Router :=
  set_peers r (filter (fun p => site_id p <> site) (peers r)).

(** [iter_mut().find(..)]: the first peer that satisfies [f] is updated. *)
Fixpoint update_first (f : Peer -> bool) (g : Peer -> Peer) (ps : list Peer) : list Peer :=
  match ps with
  | [] => []
  | p :: ps' => if f p then g p :: ps' else p :: update_first f g ps'
  end.

Definition is_site (site : Z) (p : Peer) : bool := site_id p =? site.

Definition set_endpoint (r : Router) (site : Z) (ep : SocketAddr) : Router :=
  set_peers r (update_first (is_site site)
    (fun p => mkPeer (site_id p) (pump p) ep (cidrs p) (index p)) (peers r)).

Definition set_cidrs (r : Router) (site : Z) (cs : list Cidr) : Router :=
  set_peers r (update_first (is_site site)
    (fun p => mkPeer (site_id p) (pump p) (endpoint p) cs (index p)) (peers r)).

Definition add_cidrs (r : Router) (site : Z) (cs : list Cidr) : Router :=
  set_peers r (update_first (is_site site)
    (fun p => mkPeer (site_id p) (pump p) (endpoint p) (cidrs p ++ cs) (index p)) (peers r)).

Definition remove_cidrs (r : Router) (site : Z) (drop : list Cidr) : Router :=
  set_peers r (update_first (is_site site)
    (fun p => mkPeer (site_id p) (pump p) (endpoint p)
       (filter (fun c => existsb (same_cidr c) drop = false) (cidrs p)) (index p)) (peers r)).

Definition all_cidrs (r : Router) : list (Z * Cidr) :=
  concat (map (fun p => map (fun c => (site_id p, c)) (cidrs p)) (peers r)).

(** The ranges of peer [i] against the best so far: strictly longer wins. *)
Fixpoint consider (dst : IpAddr) (i : nat) (best : option (nat * Z)) (cs : list Cidr)
  : outcome (option (nat * Z)) :=
  match cs with
  | [] => Ret best
  | c :: cs' =>
      let! inside := contains c dst in
      let better := inside && match best with None => true | Some (_, bp) => bp <? prefix c end in
      consider dst i (if better then Some (i, prefix c) else best) cs'
  end.

Fixpoint best_from (dst : IpAddr) (i : nat) (best : option (nat * Z)) (ps : list Peer)
  : outcome (option (nat * Z)) :=
  match ps with
  | [] => Ret best
  | p :: ps' =>
      let! best := consider dst i best (cidrs p) in
      best_from dst (S i) best ps'
  end.

Definition best_peer (r : Router) (dst : IpAddr) : outcome (option nat) :=
  let! best := best_from dst 0 None (peers r) in
  Ret (option_map fst best).

Definition route_target (r : Router) (dst : IpAddr) : outcome (option SocketAddr) :=
  let! best := best_peer r dst in
  match best with
  | None => Ret None
  | Some i => let! p := index_at (peers r) i in Ret (Some (endpoint p))
  end.

Section router.
Context {C : Crypto} {B : Base64}.

Definition upsert_peer (r : Router) (site : Z) (peer_pub_b64 : str) (ep : SocketAddr) (cs : list Cidr)
  : M (Router * option (bytes * SocketAddr)) :=
  match public_from_b64 peer_pub_b64 with
  | Err _ => mret (r, None)
  | Ok peer_pub =>
      let r := remove_peer r site in
      let index := r_next_index r in
      let r := mkRouter (r_secret r) (r_mtu r) (peers r) (Z.max (wadd 32 (r_next_index r) 1) 1) in
      let* pump := with_index (r_secret r) peer_pub (r_mtu r) index in
      let* (pump, init) := initiate_handshake pump in
      mret (set_peers r (peers r ++ [mkPeer site pump ep cs index]),
            option_map (fun b => (b, ep)) init)
  end.

Definition route_outbound (r : Router) (ip_pkt : bytes) : M (Router * option (bytes * SocketAddr)) :=
  match dest_ip ip_pkt with
  | None => mret (r, None)
  | Some dst =>
      let* best := mlift (best_peer r dst) in
      match best with
      | None => mret (r, None)
      | Some i =>
          let* p := mlift (index_at (peers r) i) in
          let* (x, dg) := Pump_encapsulate (pump p) ip_pkt in
          mret (set_peers r (<[i := set_pump p x]> (peers r)),
                option_map (fun b => (b, endpoint p)) dg)
      end
  end.

(** What [handle_inbound] makes of one result of the pump. *)
Definition to_out (ep : SocketAddr) (i : Inbound) : list Out :=
  match i with
  | InPacket pkt => [ToHost pkt]
  | InNetwork b => [ToNet b ep]
  | InNothing => []
  end.

Definition handle_inbound (r : Router) (datagram : bytes) : M (Router * list Out) :=
  match peer_index_of datagram with
  | None => mret (r, [])
  | Some peer_idx =>
      match list_find (fun p => index p = peer_idx) (peers r) with
      | None => mret (r, [])
      | Some (i, p) =>
          let* (x, first) := Pump_decapsulate (pump p) datagram in
          let* (x, more) := drain_loop DRAIN_FUEL x in
          mret (set_peers r (<[i := set_pump p x]> (peers r)),
                concat (map (to_out (endpoint p)) (first :: more)))
      end
  end.

Fixpoint tick_peers (ps : list Peer) : M (list Peer * list (bytes * SocketAddr)) :=
  match ps with
  | [] => mret ([], [])
  | p :: ps' =>
      let* (x, b) := Pump_update_timers (pump p) in
      let* (rest, out) := tick_peers ps' in
      mret (set_pump p x :: rest,
            match b with Some b => (b, endpoint p) :: out | None => out end)
  end.

Definition Router_tick (r : Router) : M (Router * list (bytes * SocketAddr)) :=
  let* (ps, out) := tick_peers (peers r) in
  mret (set_peers r ps, out).
End router.

(** ** Prefixes as numbers *)

Lemma from_le_bytes_app a b :
  from_le_bytes (a ++ b) = from_le_bytes a + 256 ^ Z.of_nat (length a) * from_le_bytes b.
Proof.
  induction a as [|x a IH]; cbn [app from_le_bytes length]; [rewrite Z.pow_0_r; lia|].
  rewrite IH, Nat2Z.inj_succ, Z.pow_succ_r by lia. lia.
Qed.

Lemma from_be_bytes_app a b :
  from_be_bytes (a ++ b) = from_be_bytes a * 256 ^ Z.of_nat (length b) + from_be_bytes b.
Proof. unfold from_be_bytes. rewrite rev_app_distr, from_le_bytes_app, length_rev. lia. Qed.

Lemma pow256_pow2 n : 256 ^ Z.of_nat n = 2 ^ (8 * Z.of_nat n).
Proof. rewrite Z.pow_mul_r by lia. done. Qed.

Lemma from_be_bytes_bound bs : bytes_ok bs -> 0 <= from_be_bytes bs < 256 ^ Z.of_nat (length bs).
Proof.
  intros Hb. unfold from_be_bytes. rewrite pow256_pow2, <- length_rev. apply from_le_bytes_bound.
  by apply Forall_rev.
Qed.

Lemma from_be_bytes_inj a b :
  bytes_ok a -> bytes_ok b -> length a = length b -> from_be_bytes a = from_be_bytes b -> a = b.
Proof.
  intros Ha Hb Hl E. rewrite <- (rev_involutive a), <- (rev_involutive b). f_equal. unfold from_be_bytes in E.
  rewrite <- (to_from_le_bytes (rev a)), <- (to_from_le_bytes (rev b)) by (by apply Forall_rev).
  by rewrite E, !length_rev, Hl.
Qed.

(** The first [p] bits of an address, as a number. *)
Definition prefix_bits (p : Z) (octets : bytes) : Z :=
  from_be_bytes octets / 2 ^ (8 * Z.of_nat (length octets) - p).

(** Whole bytes. *)
Lemma prefix_bits_full A R :
  bytes_ok R -> prefix_bits (8 * Z.of_nat (length A)) (A ++ R) = from_be_bytes A.
Proof.
  intros HR. unfold prefix_bits. rewrite from_be_bytes_app, length_app.
  replace (8 * Z.of_nat (length A + length R) - 8 * Z.of_nat (length A)) with (8 * Z.of_nat (length R)) by lia.
  rewrite <- pow256_pow2. pose proof (from_be_bytes_bound R HR).
  rewrite Z.div_add_l by lia. rewrite Z.div_small by lia. lia.
Qed.

(** Whole bytes and [rem] bits of the next one. *)
Lemma prefix_bits_rem A x R rem :
  byte_ok x -> bytes_ok R -> 0 < rem < 8 ->
  prefix_bits (8 * Z.of_nat (length A) + rem) (A ++ x :: R)
    = from_be_bytes A * 2 ^ rem + x / 2 ^ (8 - rem).
Proof.
  intros Hx HR Hr. unfold prefix_bits. change (x :: R) with ([x] ++ R).
  rewrite app_assoc, from_be_bytes_app, from_be_bytes_app, !length_app. cbn [length].
  replace (8 * Z.of_nat (length A + 1 + length R) - (8 * Z.of_nat (length A) + rem))
    with (8 * Z.of_nat (length R) + (8 - rem)) by lia.
  rewrite Z.pow_add_r, <- pow256_pow2 by lia. pose proof (from_be_bytes_bound R HR).
  rewrite <- Z.div_div by lia. rewrite Z.div_add_l by lia. rewrite (Z.div_small (from_be_bytes R)) by lia.
  rewrite Z.add_0_r. change (from_be_bytes [x]) with (x + 256 * 0). rewrite Z.mul_0_r, Z.add_0_r.
  change (256 ^ Z.of_nat 1) with 256.
  replace 256 with (2 ^ rem * 2 ^ (8 - rem)) by (rewrite <- Z.pow_add_r by lia; by replace (rem + (8 - rem)) with 8 by lia).
  rewrite Z.mul_assoc, Z.div_add_l by lia. done.
Qed.

(** Masking the low bits away. *)
Lemma land_mask x rem :
  byte_ok x -> 0 < rem < 8 -> Z.land x (wrap 8 (Z.shiftl 255 (8 - rem))) = x / 2 ^ (8 - rem) * 2 ^ (8 - rem).
Proof.
  unfold byte_ok. intros Hx Hr.
  assert (rem = 1 \/ rem = 2 \/ rem = 3 \/ rem = 4 \/ rem = 5 \/ rem = 6 \/ rem = 7) as Hcases by lia.
  assert (forall k, 0 <= k < 8 -> Z.land x (Z.shiftl (Z.ones (8 - k)) k) = x / 2 ^ k * 2 ^ k) as H.
  { intros k Hk. rewrite <- Z.shiftl_mul_pow2, <- Z.shiftr_div_pow2 by lia.
    apply Z.bits_inj'. intros i Hi. rewrite Z.land_spec, !Z.shiftl_spec by lia.
    destruct (Z.ltb_spec i k); [by rewrite !(Z.testbit_neg_r _ (i - k)), andb_false_r by lia|].
    rewrite Z.shiftr_spec by lia. replace (i - k + k) with i by lia.
    destruct (Z.ltb_spec (i - k) (8 - k)); [by rewrite Z.ones_spec_low, andb_true_r by lia|].
    rewrite Z.ones_spec_high, andb_false_r by lia. symmetry.
    destruct (Z.eq_dec x 0) as [->|]; [apply Z.bits_0|].
    apply Z.bits_above_log2; [lia|]. apply Z.log2_lt_pow2; [lia|].
    apply Z.lt_le_trans with (2 ^ 8); [lia|apply Z.pow_le_mono_r; lia]. }
  rewrite <- H by lia. f_equal. by destruct Hcases as [->|[->|[->|[->|[->|[->| ->]]]]]].
Qed.

(** Equality of the two parts of a prefix. *)
Lemma parts_eqb A B u v k :
  0 <= u < k -> 0 <= v < k -> (A * k + u =? B * k + v) = (A =? B) && (u =? v).
Proof.
  intros Hu Hv. apply eq_true_iff_eq. rewrite andb_true_iff, !Z.eqb_eq.
  split; [intros E|by intros [-> ->]]. assert (A = B) as ->; [|lia].
  apply (f_equal (fun z => z / k)) in E. rewrite !Z.div_add_l, !Z.div_small in E by lia. lia.
Qed.

Lemma bytes_eqb_be A B :
  bytes_ok A -> bytes_ok B -> length A = length B ->
  bytes_eqb A B = (from_be_bytes A =? from_be_bytes B).
Proof.
  intros HA HB Hl. apply eq_true_iff_eq. rewrite bytes_eqb_true, Z.eqb_eq. split; [by intros ->|].
  by apply from_be_bytes_inj.
Qed.

Lemma bits_match_spec a b p :
  bytes_ok a -> bytes_ok b -> length a = length b -> 0 <= p <= 8 * Z.of_nat (length a) ->
  bits_match a b p = Ret (prefix_bits p a =? prefix_bits p b).
Proof.
  intros Ha Hb Hl Hp. unfold bits_match, prefix_to, index_at. set (full := Z.to_nat (p / 8)).
  assert (p = 8 * Z.of_nat full + p mod 8) as Ep by (unfold full; dlia).
  assert ((full <= length a)%nat) as Hf by (unfold full; dlia).
  pose proof (Z.mod_pos_bound p 8 ltac:(lia)) as Hm. clearbody full.
  remember (p mod 8) as rem eqn:Erem. clear Erem. subst p.
  assert (exists A Ra B Rb, a = A ++ Ra /\ b = B ++ Rb /\ length A = full /\ length B = full)
    as (A & Ra & B & Rb & -> & -> & La & Lb).
  { exists (take full a), (drop full a), (take full b), (drop full b).
    rewrite !take_drop, !length_take. split_and!; (done || lia). }
  apply Forall_app in Ha as [HA HRa]. apply Forall_app in Hb as [HB HRb].
  rewrite !length_app in *. rewrite !(proj2 (Nat.ltb_ge _ _)) by lia. cbn [obind].
  rewrite !take_app_length' by done. rewrite bytes_eqb_be by (done || lia).
  destruct (Z.eqb_spec rem 0) as [->|Hr].
  - rewrite Z.add_0_r. pose proof (prefix_bits_full A Ra HRa) as E1.
    pose proof (prefix_bits_full B Rb HRb) as E2. rewrite La in E1. rewrite Lb in E2.
    rewrite E1, E2. by destruct (_ =? _).
  - destruct Ra as [|x Ra]; [cbn in *; lia|]. destruct Rb as [|y Rb]; [cbn in *; lia|].
    inversion HRa as [|? ? Hx HRa']; subst. inversion HRb as [|? ? Hy HRb']; subst.
    rewrite (prefix_bits_rem A x Ra rem) by (done || lia).
    pose proof (prefix_bits_rem B y Rb rem Hy HRb' ltac:(lia)) as E2. rewrite Lb in E2. rewrite E2.
    rewrite (list_lookup_middle A Ra x (length A) eq_refl),
      (list_lookup_middle B Rb y (length A) (eq_sym Lb)). cbn [obind].
    rewrite !land_mask by (done || lia). unfold byte_ok in *.
    assert (0 < 2 ^ (8 - rem)) by lia.
    assert (2 ^ rem * 2 ^ (8 - rem) = 256) as E
      by (rewrite <- Z.pow_add_r by lia; by replace (rem + (8 - rem)) with 8 by lia).
    rewrite parts_eqb by (split; [apply Z.div_pos; lia|apply Z.div_lt_upper_bound; lia]).
    destruct (from_be_bytes A =? from_be_bytes B); cbn [negb andb]; [|done].
    f_equal. apply eq_true_iff_eq. rewrite !Z.eqb_eq. nia.
Qed.

(** No panic as long as the prefix is within both addresses. *)
Lemma bits_match_returns a b p :
  length a = length b -> 0 <= p <= 8 * Z.of_nat (length a) -> exists x, bits_match a b p = Ret x.
Proof.
  intros Hl Hp. unfold bits_match, prefix_to, index_at.
  rewrite !(proj2 (Nat.ltb_ge _ _)) by dlia. cbn [obind]. case_match; [eauto|].
  destruct (Z.eqb_spec (p mod 8) 0) as [|Hr]; [eauto|].
  destruct (lookup_lt_is_Some_2 a (Z.to_nat (p / 8))) as [x ->]; [dlia|].
  destruct (lookup_lt_is_Some_2 b (Z.to_nat (p / 8))) as [y ->]; [dlia|]. cbn. eauto.
Qed.

(** A range as [parse] makes it: octets of the family's size, prefix in range. *)
Definition cidr_ok (c : Cidr) : Prop :=
  ip_ok (net c) /\ 0 <= prefix c <= 8 * Z.of_nat (length (octets (net c))).

Lemma cidr_parse_ok s c : Cidr_parse s = Some c -> cidr_ok c.
Proof.
  unfold Cidr_parse. intros E. set (t := trim s) in *.
  assert (forall a p net max, ip_from_str a = Some net -> (0 <= p <= U8_MAX \/ p = max) ->
    max = match net with V4 _ => 32 | V6 _ => 128 end -> max <? p = false -> cidr_ok (mkCidr net p)) as Hok.
  { intros a p net max Hn Hp -> Hm. apply ip_from_str_ok in Hn. split; [done|]. cbn [Router.net prefix].
    destruct Hn as [_ ->]. zbool. destruct net; cbn in *; lia. }
  destruct (split_once SLASH t) as [[a p]|].
  - destruct (parse_uint U8_MAX p) as [n|] eqn:En; [|done]. apply parse_uint_bound in En; [|done].
    destruct (ip_from_str a) as [net|] eqn:Ei; [|done]. cbv zeta in E. cbn [default from_option id] in E.
    match type of E with (if ?x then _ else _) = _ => destruct x eqn:Em; [done|] end. simplify_eq.
    exact (Hok a n net _ Ei (or_introl En) eq_refl Em).
  - destruct (ip_from_str t) as [net|] eqn:Ei; [|done]. cbv zeta in E. cbn [default from_option id] in E.
    match type of E with (if ?x then _ else _) = _ => destruct x eqn:Em; [done|] end. simplify_eq.
    exact (Hok t _ net _ Ei (or_intror eq_refl) eq_refl Em).
Qed.

(** A range in dotted notation. *)
Definition print_cidr4 (a b c d p : Z) : str := print_ipv4 a b c d ++ SLASH :: display_u16 p.

Lemma print_no_slash a b c d : bytes_ok [a; b; c; d] -> SLASH ∉ print_ipv4 a b c d.
Proof.
  intros Hok. unfold print_ipv4. rewrite !elem_of_app, !elem_of_cons, !elem_of_app, !elem_of_cons, elem_of_app, elem_of_cons.
  assert (forall n, byte_ok n -> SLASH ∉ to_decimal 3 n) as Hd.
  { intros n Hn Hin. apply to_decimal_digits in Hin; [unfold SLASH in Hin; lia|]. unfold byte_ok in Hn. lia. }
  inversion_clear Hok as [|? ? Ha Hok1]. inversion_clear Hok1 as [|? ? Hb Hok2].
  inversion_clear Hok2 as [|? ? Hc Hok3]. inversion_clear Hok3 as [|? ? He _].
  pose proof (Hd _ Ha). pose proof (Hd _ Hb). pose proof (Hd _ Hc). pose proof (Hd _ He).
  intros Hin. destruct_or! Hin; first [done | discriminate Hin].
Qed.

(** Printed ranges start and end with a digit. *)
Lemma print_trim a b c d suf :
  bytes_ok [a; b; c; d] /\ (suf = [] \/ exists p, 0 <= p /\ suf = SLASH :: display_u16 p) ->
  trim (print_ipv4 a b c d ++ suf) = print_ipv4 a b c d ++ suf.
Proof.
  intros [Hok Hs]. inversion_clear Hok as [|? ? Ha Hok1]. inversion_clear Hok1 as [|? ? Hb Hok2].
  inversion_clear Hok2 as [|? ? Hc Hok3]. inversion_clear Hok3 as [|? ? Hd _]. unfold byte_ok in *.
  destruct (to_decimal_nonempty 3 a ltac:(lia) ltac:(lia)) as (x & r & Ex & Hx).
  assert (exists l y, print_ipv4 a b c d ++ suf = l ++ [y] /\ 48 <= y <= 57) as (l & y & El & Hy).
  { destruct Hs as [->|(p & Hp & ->)].
    - destruct (to_decimal_last 3 d ltac:(lia) ltac:(lia)) as (l & y & El & Hy).
      exists (to_decimal 3 a ++ DOT :: to_decimal 3 b ++ DOT :: to_decimal 3 c ++ DOT :: l), y. split; [|done].
      unfold print_ipv4. rewrite El, app_nil_r. repeat (rewrite <- app_assoc; cbn [app]). done.
    - destruct (to_decimal_last 5 p ltac:(lia) Hp) as (l & y & El & Hy).
      exists (print_ipv4 a b c d ++ SLASH :: l), y. split; [|done]. unfold display_u16. rewrite El.
      by rewrite <- app_assoc. }
  apply (trim_digits _ x y); [unfold print_ipv4; by rewrite Ex|rewrite El; apply last_snoc|done..].
Qed.

(** Ranges as text. Every IPv4 range in dotted notation parses to itself, a
    bare address is the range of that one host, and whatever parses, of either
    family, has octets of the family's size and a prefix within it. *)
Theorem cidr_text a b c d p s r :
  bytes_ok [a; b; c; d] -> 0 <= p <= 32 -> Cidr_parse s = Some r ->
  Cidr_parse (print_cidr4 a b c d p) = Some (mkCidr (V4 [a; b; c; d]) p) /\
  Cidr_parse (print_ipv4 a b c d) = Some (mkCidr (V4 [a; b; c; d]) 32) /\
  cidr_ok r.
Proof.
  intros Hok Hp Hr. split_and!; [| |by eapply cidr_parse_ok].
  - unfold Cidr_parse, print_cidr4. rewrite print_trim by (split; [done|]; right; exists p; split; [lia|done]).
    rewrite split_once_app by (by apply print_no_slash).
    assert (parse_uint U8_MAX (display_u16 p) = Some p) as -> by (apply parse_display_u8; unfold U8_MAX; lia).
    unfold ip_from_str. rewrite <- (app_nil_r (print_ipv4 a b c d)), ipv4_round_trip by done.
    cbv zeta. cbn [default from_option id]. by rewrite (proj2 (Z.ltb_ge _ _)) by lia.
  - unfold Cidr_parse. rewrite <- (app_nil_r (print_ipv4 a b c d)). rewrite print_trim by (split; [done|by left]).
    rewrite app_nil_r, split_once_none by (by apply print_no_slash).
    unfold ip_from_str. rewrite <- (app_nil_r (print_ipv4 a b c d)) at 1. by rewrite ipv4_round_trip.
Qed.

Definition same_family (a b : IpAddr) : bool :=
  match a, b with V4 _, V4 _ | V6 _, V6 _ => true | _, _ => false end.

(** An address of its family's length. *)
Definition ip_sized (ip : IpAddr) : Prop := length (octets ip) = match ip with V4 _ => 4%nat | V6 _ => 16%nat end.

Lemma contains_returns c ip : cidr_ok c -> ip_sized ip -> exists x, contains c ip = Ret x.
Proof.
  intros [[_ Hn] Hp] Hi. unfold contains, ip_sized in *.
  destruct (net c) as [n|n], ip as [a|a]; cbn in *; eauto; apply bits_match_returns; lia.
Qed.

Lemma dest_ip_sized pkt dst : dest_ip pkt = Some dst -> ip_sized dst.
Proof.
  destruct pkt as [|b pkt]; [done|]. unfold dest_ip, ip_sized. set (p := b :: pkt).
  intros E. repeat case_hyp E; simplify_eq; cbn [octets];
    match goal with H : _ && (?n <=? _)%nat = true |- _ => apply andb_true_iff in H as [_ H%Nat.leb_le] end;
    by rewrite length_slice by lia.
Qed.

(** C37: a range contains exactly the addresses of its family that share its
    first [prefix] bits, read as numbers. *)
Theorem contains_prefix c ip :
  cidr_ok c -> ip_ok ip ->
  contains c ip = Ret (same_family (net c) ip &&
    (prefix_bits (prefix c) (octets (net c)) =? prefix_bits (prefix c) (octets ip))).
Proof.
  intros [[Hn Hln] Hp] [Hi Hli]. unfold contains.
  destruct (net c) as [n|n], ip as [a|a]; cbn in *; try done; apply bits_match_spec; (done || lia).
Qed.

(** ** Longest prefix *)

(** Every range of a list of peers with the number of its peer, in the order
    the router looks at them. *)
Fixpoint candidates (i : nat) (ps : list Peer) : list (nat * Cidr) :=
  match ps with
  | [] => []
  | p :: ps' => map (fun c => (i, c)) (cidrs p) ++ candidates (S i) ps'
  end.

(** [best] is the longest match among [seen], the earliest peer among equals. *)
Definition is_best (dst : IpAddr) (seen : list (nat * Cidr)) (best : option (nat * Z)) : Prop :=
  match best with
  | None => forall j c, (j, c) ∈ seen -> contains c dst = Ret false
  | Some (i, bp) =>
      (exists c, (i, c) ∈ seen /\ contains c dst = Ret true /\ prefix c = bp) /\
      forall j c, (j, c) ∈ seen -> contains c dst = Ret true ->
        prefix c <= bp /\ (prefix c = bp -> (i <= j)%nat)
  end.

Lemma in_snoc (x y : nat * Cidr) l : x ∈ l ++ [y] -> x ∈ l \/ x = y.
Proof. set_solver. Qed.

Lemma consider_best dst seen i c best inside :
  is_best dst seen best -> (forall j c', (j, c') ∈ seen -> (j <= i)%nat) -> contains c dst = Ret inside ->
  is_best dst (seen ++ [(i, c)])
    (if inside && match best with None => true | Some (_, bp) => bp <? prefix c end
     then Some (i, prefix c) else best).
Proof.
  intros Hb Hle Hc. destruct inside; cbn [andb].
  - destruct best as [[k bp]|]; [destruct (Z.ltb_spec bp (prefix c))|]; cbn [is_best] in *.
    + split; [exists c; set_solver|]. intros j c' Hin Hc'.
      apply in_snoc in Hin as [Hin|E]; [|simplify_eq; lia].
      destruct (proj2 Hb j c' Hin Hc'). split; lia.
    + destruct Hb as [(c0 & Hin0 & Hc0 & Hp0) Hmax]. split; [exists c0; set_solver|].
      intros j c' Hin Hc'. apply in_snoc in Hin as [Hin|Hin]; [by apply Hmax|].
      simplify_eq. pose proof (Hle _ _ Hin0). split; lia.
    + split; [exists c; set_solver|]. intros j c' Hin Hc'.
      apply in_snoc in Hin as [Hin|Hin]; [rewrite (Hb _ _ Hin) in Hc'; discriminate|].
      simplify_eq. lia.
  - destruct best as [[k bp]|]; cbn [is_best] in *.
    + destruct Hb as [(c0 & Hin0 & Hc0 & Hp0) Hmax]. split; [exists c0; set_solver|].
      intros j c' Hin Hc'. apply in_snoc in Hin as [Hin|Hin]; [by apply Hmax|].
      simplify_eq. congruence.
    + intros j c' Hin. apply in_snoc in Hin as [Hin|Hin]; [by eapply Hb|].
      by simplify_eq.
Qed.

Lemma consider_all dst i cs seen best best' :
  is_best dst seen best -> (forall j c', (j, c') ∈ seen -> (j <= i)%nat) ->
  consider dst i best cs = Ret best' -> is_best dst (seen ++ map (fun c => (i, c)) cs) best'.
Proof.
  revert seen best. induction cs as [|c cs IH]; intros seen best Hb Hle E; cbn in *.
  - simplify_eq. by rewrite app_nil_r.
  - apply obind_ret_inv in E as (inside & Ec & E). rewrite cons_middle, app_assoc.
    eapply IH; [by apply (consider_best _ _ _ _ _ _ Hb Hle Ec)| |exact E].
    intros j c' Hin. apply in_snoc in Hin as [Hin|Hin]; [eauto|]. simplify_eq. lia.
Qed.

Lemma best_from_best dst ps i seen best best' :
  is_best dst seen best -> (forall j c', (j, c') ∈ seen -> (j < i)%nat) ->
  best_from dst i best ps = Ret best' -> is_best dst (seen ++ candidates i ps) best'.
Proof.
  revert i seen best. induction ps as [|p ps IH]; intros i seen best Hb Hlt E; cbn in *.
  - simplify_eq. by rewrite app_nil_r.
  - apply obind_ret_inv in E as (best1 & Ec & E). rewrite app_assoc. eapply IH; [| |exact E].
    + eapply consider_all; [done| |exact Ec]. intros j c' Hin. apply Hlt in Hin. lia.
    + intros j c' Hin. apply elem_of_app in Hin as [Hin|Hin]; [apply Hlt in Hin; lia|].
      apply list_elem_of_fmap in Hin as (c0 & E0 & _). simplify_eq. lia.
Qed.

Lemma consider_returns dst i best cs :
  ip_sized dst -> Forall cidr_ok cs -> exists best', consider dst i best cs = Ret best'.
Proof.
  intros Hd Hcs. revert best. induction Hcs as [|c cs Hc _ IH]; intros best; cbn; [eauto|].
  destruct (contains_returns c dst Hc Hd) as [x ->]. apply IH.
Qed.

(** Looking for the best peer returns when every range is as parsed. *)
Lemma best_peer_returns r dst :
  ip_sized dst -> Forall (fun p => Forall cidr_ok (cidrs p)) (peers r) -> exists o, best_peer r dst = Ret o.
Proof.
  intros Hd Hps. unfold best_peer. enough (exists b, best_from dst 0 None (peers r) = Ret b) as [b ->] by (cbn; eauto).
  generalize 0%nat, (@None (nat * Z)). induction Hps as [|p ps Hp _ IH]; intros i best; cbn; [eauto|].
  destruct (consider_returns dst i best (cidrs p) Hd Hp) as [best' ->]. apply IH.
Qed.

Lemma elem_of_candidates ps i j c :
  (j, c) ∈ candidates i ps <-> exists p, ps !! (j - i)%nat = Some p /\ c ∈ cidrs p /\ (i <= j)%nat.
Proof.
  revert i. induction ps as [|p ps IH]; intros i; cbn.
  - split; [set_solver|]. intros (p & E & _). by rewrite lookup_nil in E.
  - rewrite elem_of_app, IH. split.
    + intros [Hin|(q & E & Hc & Hle)].
      * apply list_elem_of_fmap in Hin as (c0 & E & Hc). simplify_eq. exists p. by rewrite Nat.sub_diag.
      * exists q. replace (j - i)%nat with (S (j - S i)) by lia. split_and!; [done..|lia].
    + intros (q & E & Hc & Hle). destruct (decide (j = i)) as [->|].
      * left. rewrite Nat.sub_diag in E. cbn in E. simplify_eq. apply list_elem_of_fmap. eauto.
      * right. exists q. replace (j - i)%nat with (S (j - S i)) in E by lia. split_and!; [done..|lia].
Qed.

(** The chosen peer exists. *)
Lemma best_peer_best r dst o :
  best_peer r dst = Ret o ->
  match o with
  | None => forall j p c, peers r !! j = Some p -> c ∈ cidrs p -> contains c dst = Ret false
  | Some i => exists p c, peers r !! i = Some p /\ c ∈ cidrs p /\ contains c dst = Ret true /\
      forall j q c', peers r !! j = Some q -> c' ∈ cidrs q -> contains c' dst = Ret true ->
        prefix c' <= prefix c /\ (prefix c' = prefix c -> (i <= j)%nat)
  end.
Proof.
  unfold best_peer. intros E. apply obind_ret_inv in E as (best & E & Eo). simplify_eq.
  assert (is_best dst (candidates 0 (peers r)) best) as H.
  { eapply (best_from_best dst (peers r) 0 [] None); [intros ? ? ?; set_solver|set_solver|exact E]. }
  assert (forall j p c, peers r !! j = Some p -> c ∈ cidrs p -> (j, c) ∈ candidates 0 (peers r)) as Hin.
  { intros j p c Ej Hc. apply elem_of_candidates. exists p. rewrite Nat.sub_0_r. split_and!; [done..|lia]. }
  destruct best as [[i bp]|]; cbn [option_map fst] in *.
  - destruct H as [(c & Hc & Hd & <-) Hmax].
    apply elem_of_candidates in Hc as (p & Ep & Hcp & _). rewrite Nat.sub_0_r in Ep.
    exists p, c. split_and!; [done..|]. intros j q c' Eq Hc'. apply Hmax. by eapply Hin.
  - intros j p c Ej Hc. eapply H. by eapply Hin.
Qed.

(** C15: routing is longest-prefix match. The search returns for every router
    whose ranges have a prefix within their address, as [Cidr::parse] makes
    them. Whenever it returns, it finds no peer exactly when no range of any
    peer contains the destination; otherwise it picks a peer with a containing
    range of maximal length, and the earliest such peer. *)
Theorem best_peer_longest_prefix r dst :
  (ip_sized dst -> Forall (fun p => Forall cidr_ok (cidrs p)) (peers r) -> exists o, best_peer r dst = Ret o) /\
  forall o, best_peer r dst = Ret o ->
    match o with
    | None => forall j p c, peers r !! j = Some p -> c ∈ cidrs p -> contains c dst = Ret false
    | Some i => exists p c, peers r !! i = Some p /\ c ∈ cidrs p /\ contains c dst = Ret true /\
        forall j q c', peers r !! j = Some q -> c' ∈ cidrs q -> contains c' dst = Ret true ->
          prefix c' <= prefix c /\ (prefix c' = prefix c -> (i <= j)%nat)
    end.
Proof. split; [apply best_peer_returns|]. intros o. apply best_peer_best. Qed.

(** ** Every operation of the router *)

(** A peer as the router made it: its tunnel is in order and numbered by the
    lower 24 bits of its index, its scratch buffer is the router's, and its
    ranges are as parsed. *)
Record peer_ok (next : Z) (mtu : nat) (w : World) (p : Peer) : Prop := {
  po_index : 0 <= index p < next;
  po_mtu : p_mtu (pump p) = mtu;
  po_pump : pump_ok (index p mod 2 ^ 24) (pump p) w;
  po_cidrs : Forall cidr_ok (cidrs p)
}.

(** One peer per site and per index. *)
Record router_ok (r : Router) (w : World) : Prop := {
  ro_sites : NoDup (map site_id (peers r));
  ro_indices : NoDup (map index (peers r));
  ro_peers : Forall (peer_ok (r_next_index r) (r_mtu r) w) (peers r);
  ro_next : 1 <= r_next_index r < 2 ^ 32
}.

Inductive rop :=
| Upsert (site : Z) (key : str) (ep : SocketAddr) (cs : list Cidr)
| Remove (site : Z)
| SetEndpoint (site : Z) (ep : SocketAddr)
| SetCidrs (site : Z) (cs : list Cidr)
| AddCidrs (site : Z) (cs : list Cidr)
| RemoveCidrs (site : Z) (cs : list Cidr)
| Outbound (pkt : bytes)
| InboundDatagram (dg : bytes)
| TickAll.

Section router_runs.
Context {C : Crypto} {B : Base64}.

(** What an operation sends or delivers. *)
Definition run_rop (r : Router) (o : rop) : M (Router * list Out) :=
  match o with
  | Upsert site key ep cs =>
      let* (r, init) := upsert_peer r site key ep cs in
      mret (r, match init with Some (b, e) => [ToNet b e] | None => [] end)
  | Remove site => mret (remove_peer r site, [])
  | SetEndpoint site ep => mret (set_endpoint r site ep, [])
  | SetCidrs site cs => mret (set_cidrs r site cs, [])
  | AddCidrs site cs => mret (add_cidrs r site cs, [])
  | RemoveCidrs site cs => mret (remove_cidrs r site cs, [])
  | Outbound pkt =>
      let* (r, dg) := route_outbound r pkt in
      mret (r, match dg with Some (b, e) => [ToNet b e] | None => [] end)
  | InboundDatagram dg => handle_inbound r dg
  | TickAll =>
      let* (r, out) := Router_tick r in
      mret (r, map (fun '(b, e) => ToNet b e) out)
  end.

Fixpoint run_rops (r : Router) (ops : list rop) : M (Router * list (list Out)) :=
  match ops with
  | [] => mret (r, [])
  | o :: ops' =>
      let* (r, out) := run_rop r o in
      let* (r, outs) := run_rops r ops' in
      mret (r, out :: outs)
  end.

(** What the router is called with. Ranges are as [Cidr::parse] makes them (the
    fields are private), packets from the host are within the MTU, and a datagram
    fits the tunnel of each peer: within the scratch buffer and, when it
    authenticates as a data packet, with a counter below the limit of the
    replay window. *)
Definition rop_fits (r : Router) (o : rop) : Prop :=
  match o with
  | Upsert _ _ _ cs | SetCidrs _ cs | AddCidrs _ cs => Forall cidr_ok cs
  | Outbound pkt => (length pkt <= Nat.max (r_mtu r) 1500)%nat
  | InboundDatagram dg => forall p, p ∈ peers r ->
      op_fits (Nat.max (r_mtu r) 1500) (Nat.max (r_mtu r) 1500 + 32) (tun (pump p)) (Decapsulate None dg)
  | _ => True
  end.
End router_runs.

Lemma update_first_map {A} (h : Peer -> A) f g ps :
  (forall p, h (g p) = h p) -> map h (update_first f g ps) = map h ps.
Proof. intros Hg. induction ps as [|p ps IH]; cbn; [done|]. case_match; cbn; by rewrite ?Hg, ?IH. Qed.

Lemma update_first_forall (P : Peer -> Prop) f g ps :
  (forall p, P p -> P (g p)) -> Forall P ps -> Forall P (update_first f g ps).
Proof. intros Hg. induction 1 as [|p ps Hp Hps IH]; cbn; [done|]. case_match; auto. Qed.

(** Updates of one peer that keep its identity and its pump. *)
Lemma router_update_ok r w f g :
  (forall p, site_id (g p) = site_id p /\ index (g p) = index p /\ pump (g p) = pump p) ->
  (forall p, Forall cidr_ok (cidrs p) -> Forall cidr_ok (cidrs (g p))) ->
  router_ok r w -> router_ok (set_peers r (update_first f g (peers r))) w.
Proof.
  intros Hg Hcs [H1 H2 H3 H4]. constructor; cbn; rewrite ?update_first_map by apply Hg; try done.
  apply update_first_forall; [|done]. intros p [? ? ? ?].
  destruct (Hg p) as (_ & E1 & E2). constructor; rewrite ?E1, ?E2; auto.
Qed.

Lemma set_endpoint_ok r w site ep : router_ok r w -> router_ok (set_endpoint r site ep) w.
Proof. by apply router_update_ok. Qed.

Lemma set_cidrs_ok r w site cs : Forall cidr_ok cs -> router_ok r w -> router_ok (set_cidrs r site cs) w.
Proof. intros Hcs. by apply router_update_ok. Qed.

Lemma add_cidrs_ok r w site cs : Forall cidr_ok cs -> router_ok r w -> router_ok (add_cidrs r site cs) w.
Proof. intros Hcs. apply router_update_ok; [done|]. intros p Hp. by apply Forall_app. Qed.

Lemma remove_cidrs_ok r w site cs : router_ok r w -> router_ok (remove_cidrs r site cs) w.
Proof.
  apply router_update_ok; [done|]. intros p Hp. apply Forall_forall.
  intros c [_ Hin]%list_elem_of_filter. by eapply Forall_forall in Hp.
Qed.

Lemma NoDup_map_filter {A B} (h : A -> B) (P : A -> Prop) `{forall x, Decision (P x)} l :
  NoDup (map h l) -> NoDup (map h (filter P l)).
Proof.
  induction l as [|x l IH]; intros Hn; [done|]. cbn [map] in Hn. inversion Hn as [|? ? Hx Hl]; subst.
  rewrite filter_cons. case_decide; cbn [map]; [|by apply IH]. constructor; [|by apply IH].
  intros Hin. apply Hx. apply list_elem_of_fmap in Hin as (y & -> & Hy).
  apply list_elem_of_filter in Hy as [_ Hy]. by apply list_elem_of_fmap_2.
Qed.

Lemma router_remove_ok r w site : router_ok r w -> router_ok (remove_peer r site) w.
Proof.
  intros [H1 H2 H3 H4]. constructor; cbn; auto using NoDup_map_filter.
  apply Forall_forall. intros p [_ Hin]%list_elem_of_filter. by eapply Forall_forall in H3.
Qed.

(** Replacing the pump of one peer. *)
Lemma router_pump_ok r w i p x :
  router_ok r w -> peers r !! i = Some p -> p_mtu x = p_mtu (pump p) ->
  pump_ok (index p mod 2 ^ 24) x w ->
  router_ok (set_peers r (<[i := set_pump p x]> (peers r))) w.
Proof.
  intros [H1 H2 H3 H4] Hi Hm Hx.
  assert (forall A (h : Peer -> A), h (set_pump p x) = h p ->
    map h (<[i := set_pump p x]> (peers r)) = map h (peers r)) as Hmap.
  { intros A h Hh. unfold fmap in *. rewrite list_fmap_insert, Hh. apply list_insert_id.
    by rewrite list_lookup_fmap, Hi. }
  constructor; cbn; rewrite ?Hmap by done; try done.
  apply Forall_insert; [done|]. destruct (Forall_lookup_1 _ _ _ _ H3 Hi). constructor; cbn; [done|congruence|done..].
Qed.

Section router_safe.
Context {C : Crypto} {L : CryptoLaws C} {B : Base64}.

Definition router_keeps {A} (r : Router) (w' : World) (x : Router * A) : Prop :=
  router_ok (fst x) w' /\ r_mtu (fst x) = r_mtu r /\ r_next_index (fst x) <= r_next_index r + 1.

Lemma router_later r w w' :
  clock_ok (w_clock w) -> world_le w w' -> router_ok r w -> router_ok r w'.
Proof.
  intros Hc Hle [H1 H2 H3 H4]. constructor; try done. eapply Forall_impl; [exact H3|].
  intros p [? ? Hp ?]. constructor; [done|done| |done]. by eapply tunn_ok_later.
Qed.

(** A new peer takes the next index, which no other peer has. *)
Lemma router_insert_ok r w site x ep cs :
  router_ok r w -> site ∉ map site_id (peers r) -> r_next_index r + 1 < 2 ^ 32 ->
  p_mtu x = r_mtu r -> pump_ok (r_next_index r mod 2 ^ 24) x w -> Forall cidr_ok cs ->
  router_ok (mkRouter (r_secret r) (r_mtu r) (peers r ++ [mkPeer site x ep cs (r_next_index r)])
    (r_next_index r + 1)) w.
Proof.
  intros [H1 H2 H3 H4] Hs Hn Hm Hx Hcs. constructor; cbn; rewrite ?map_app; cbn [map site_id index].
  - apply NoDup_app. split_and!; [done| |apply NoDup_singleton]. intros y Hy. set_solver.
  - apply NoDup_app. split_and!; [done| |apply NoDup_singleton]. intros y Hy Hin.
    apply list_elem_of_fmap in Hy as (p & -> & Hp). apply (proj1 (Forall_forall _ _) H3) in Hp as [? _ _ _].
    set_unfold in Hin. lia.
  - apply Forall_app. split.
    + eapply Forall_impl; [exact H3|]. intros p [? ? ? ?]. constructor; cbn; [lia|done..].
    + constructor; [|done]. constructor; cbn; [lia|done..].
  - lia.
Qed.

Lemma upsert_safe r site key ep cs w :
  clock_ok (w_clock w) -> router_ok r w -> r_next_index r + 1 < 2 ^ 32 -> Forall cidr_ok cs ->
  safe (upsert_peer r site key ep cs) w (router_keeps r).
Proof.
  intros Hc Hok Hn Hcs. unfold upsert_peer.
  destruct (public_from_b64 key) as [pub|]; [|apply safe_ret; split; [done|]; cbn; lia].
  pose proof (router_remove_ok r w site Hok) as Hok1. pose proof (ro_next _ _ Hok) as Hnext.
  assert (Z.max (wadd 32 (r_next_index r) 1) 1 = r_next_index r + 1) as Hw.
  { unfold wadd. rewrite wrap_small by lia. lia. }
  apply safe_bind. eapply safe_weaken; [apply with_index_safe; [done|unfold u32; cbn; lia]|].
  intros w1 x Hle1 [Hm1 Hx1]. pose proof (world_clock _ _ Hle1 Hc) as Hc1.
  apply safe_bind. eapply safe_weaken.
  { apply (pump_op_safe _ x (Initiate false) to_network w1 Hc1 Hx1). done. }
  intros w2 [x2 init] Hle2 [Hm2 Hx2]. cbn [fst] in *. apply safe_ret. split; cbn [fst].
  - cbn [remove_peer set_peers r_next_index r_secret r_mtu peers]. rewrite Hw.
    apply (router_insert_ok (remove_peer r site) w2 site x2 ep cs); try done.
    + apply (router_later _ w1); [done..|]. by apply (router_later _ w).
    + cbn. intros Hin. apply list_elem_of_fmap in Hin as (p & E & Hp).
      apply list_elem_of_filter in Hp as [Hp _]. congruence.
    + by rewrite Hm2, Hm1.
  - cbn. split; [done|]. lia.
Qed.

Lemma outbound_safe r pkt w :
  clock_ok (w_clock w) -> router_ok r w -> (length pkt <= Nat.max (r_mtu r) 1500)%nat ->
  safe (route_outbound r pkt) w (router_keeps r).
Proof.
  intros Hc Hok Hl. unfold route_outbound.
  destruct (dest_ip pkt) as [dst|] eqn:Ed; [|apply safe_ret; split; [done|]; cbn; lia].
  destruct (best_peer_returns r dst (dest_ip_sized _ _ Ed)) as [best Eb].
  { eapply Forall_impl; [apply (ro_peers _ _ Hok)|]. by intros p [_ _ _ Hp]. }
  apply safe_bind. eapply safe_lift; [exact Eb|].
  destruct best as [i|]; [|apply safe_ret; split; [done|]; cbn; lia].
  destruct (best_peer_best _ _ _ Eb) as (p & _ & Hi & _).
  apply safe_bind. eapply safe_lift; [unfold index_at; by rewrite Hi|].
  destruct (Forall_lookup_1 _ _ _ _ (ro_peers _ _ Hok) Hi) as [_ Hm Hp _].
  apply safe_bind. eapply safe_weaken.
  { apply (pump_op_safe _ (pump p) (Encapsulate pkt) to_network w Hc Hp). cbn. by rewrite Hm. }
  intros w' [x dg] Hle [Hmx Hx]. cbn [fst] in *. apply safe_ret. split; cbn [fst]; [|cbn; lia].
  apply router_pump_ok; try done. by apply (router_later _ w).
Qed.

(** Neither direction of traffic numbers a peer. *)
Lemma outbound_index r pkt w :
  clock_ok (w_clock w) -> router_ok r w -> (length pkt <= Nat.max (r_mtu r) 1500)%nat ->
  safe (route_outbound r pkt) w (fun w' x =>
    router_ok (fst x) w' /\ r_mtu (fst x) = r_mtu r /\ r_next_index (fst x) = r_next_index r).
Proof.
  intros Hc Hok Hl. destruct (outbound_safe r pkt w Hc Hok Hl) as (w' & [r' o] & E & Hle & Hk & Hm & _).
  exists w', (r', o). split; [exact E|]. split; [done|]. split; [done|]. split; [done|]. cbn [fst] in *. unfold route_outbound in E.
  destruct (dest_ip pkt) as [dst|]; [|unfold mret in E; by simplify_eq]. apply mbind_ret_inv in E as (w1 & [i|] & _ & E);
    [|unfold mret in E; by simplify_eq]. apply mbind_ret_inv in E as (w2 & p & _ & E).
  apply mbind_ret_inv in E as (w3 & [x dg] & _ & E). unfold mret in E. by simplify_eq.
Qed.

Lemma inbound_safe r dg w :
  clock_ok (w_clock w) -> router_ok r w -> rop_fits r (InboundDatagram dg) ->
  safe (handle_inbound r dg) w (router_keeps r).
Proof.
  intros Hc Hok Hfit. unfold handle_inbound.
  assert (router_keeps r w (r, @nil Out)) as Hsame by (split; [done|]; cbn; lia).
  destruct (peer_index_of dg) as [k|]; [|by apply safe_ret].
  destruct (list_find _ (peers r)) as [[i p]|] eqn:Hf; [|by apply safe_ret].
  apply list_find_Some in Hf as (Hi & _ & _).
  destruct (Forall_lookup_1 _ _ _ _ (ro_peers _ _ Hok) Hi) as [_ Hm Hp _].
  apply safe_bind. eapply safe_weaken.
  { apply (pump_op_safe _ (pump p) (Decapsulate None dg) to_inbound w Hc Hp).
    unfold scratch. rewrite Hm. apply Hfit. by eapply list_elem_of_lookup_2. }
  intros w1 [x1 first] Hle1 [Hm1 Hx1]. cbn [fst] in *. pose proof (world_clock _ _ Hle1 Hc) as Hc1.
  apply safe_bind. eapply safe_weaken; [exact (drain_all_safe _ x1 w1 Hc1 Hx1)|].
  intros w2 [x2 out] Hle2 [Hm2 Hx2]. cbn [fst] in *. apply safe_ret.
  split; cbn [fst]; [|cbn; lia].
  apply router_pump_ok; [|done|congruence|done].
  apply (router_later _ w1); [done..|]. by apply (router_later _ w).
Qed.

Lemma inbound_index r dg w :
  clock_ok (w_clock w) -> router_ok r w -> rop_fits r (InboundDatagram dg) ->
  safe (handle_inbound r dg) w (fun w' x =>
    router_ok (fst x) w' /\ r_mtu (fst x) = r_mtu r /\ r_next_index (fst x) = r_next_index r).
Proof.
  intros Hc Hok Hl. destruct (inbound_safe r dg w Hc Hok Hl) as (w' & [r' o] & E & Hle & Hk & Hm & _).
  exists w', (r', o). split; [exact E|]. split; [done|]. split; [done|]. split; [done|]. cbn [fst] in *. unfold handle_inbound in E.
  repeat case_match; try (unfold mret in E; by simplify_eq).
  apply mbind_ret_inv in E as (w1 & [x1 first] & _ & E). apply mbind_ret_inv in E as (w2 & [x2 more] & _ & E).
  unfold mret in E. by simplify_eq.
Qed.

Lemma tick_peers_safe next mtu ps w :
  clock_ok (w_clock w) -> Forall (peer_ok next mtu w) ps ->
  safe (tick_peers ps) w (fun w' x => Forall (peer_ok next mtu w') (fst x) /\
    map site_id (fst x) = map site_id ps /\ map index (fst x) = map index ps).
Proof.
  intros Hc Hps. revert w Hc Hps. induction ps as [|p ps IH]; intros w Hc Hps; [by apply safe_ret|].
  inversion Hps as [|? ? [Hi Hm Hp Hcs] Hps']; subst. cbn [tick_peers]. apply safe_bind.
  eapply safe_weaken; [by apply (pump_op_safe _ (pump p) UpdateTimers to_network w Hc Hp)|].
  intros w1 [x b] Hle1 [Hm1 Hx1]. cbn [fst] in *. apply safe_bind.
  eapply safe_weaken; [apply IH; [by eapply world_clock|]|].
  - eapply Forall_impl; [exact Hps'|]. intros q [? ? ? ?]. constructor; [done|done| |done].
    by eapply tunn_ok_later.
  - intros w2 [rest out] Hle2 (Hf & Hs & Hx). cbn [fst] in *. apply safe_ret. cbn [fst map].
    rewrite Hs, Hx. split; [|done]. constructor; [|done]. constructor; cbn; [done|congruence| |done].
    apply (tunn_ok_later _ _ _ w1 (world_clock _ _ Hle1 Hc) Hx1 _ Hle2).
Qed.

Lemma rop_safe r o w :
  clock_ok (w_clock w) -> router_ok r w -> r_next_index r + 1 < 2 ^ 32 -> rop_fits r o ->
  safe (run_rop r o) w (router_keeps r).
Proof.
  intros Hc Hok Hn Hfit.
  assert (forall r' : Router, router_ok r' w -> r_mtu r' = r_mtu r -> r_next_index r' = r_next_index r ->
    safe (mret (r', @nil Out)) w (router_keeps r)) as Hpure.
  { intros r' H1 H2 H3. apply safe_ret. split; [done|]. cbn. lia. }
  assert (forall A (m : M (Router * A)) (k : A -> list Out), safe m w (router_keeps r) ->
    safe (let* (r, a) := m in mret (r, k a)) w (router_keeps r)) as Hpost.
  { intros A m k Hm. apply safe_bind. eapply safe_weaken; [exact Hm|].
    intros w' [r' a] _ Hk. by apply safe_ret. }
  destruct o as [site key ep cs|site|site ep|site cs|site cs|site cs|pkt|dg|]; cbn [run_rop].
  - apply (Hpost _ _ (fun init => match init with Some (b, e) => [ToNet b e] | None => [] end)).
    by apply upsert_safe.
  - apply Hpure; [by apply router_remove_ok|done..].
  - apply Hpure; [by apply set_endpoint_ok|done..].
  - apply Hpure; [by apply set_cidrs_ok|done..].
  - apply Hpure; [by apply add_cidrs_ok|done..].
  - apply Hpure; [by apply remove_cidrs_ok|done..].
  - apply (Hpost _ _ (fun dg => match dg with Some (b, e) => [ToNet b e] | None => [] end)).
    by apply outbound_safe.
  - by apply inbound_safe.
  - apply (Hpost _ _ (map (fun '(b, e) => ToNet b e))). apply safe_bind.
    eapply safe_weaken; [by apply (tick_peers_safe (r_next_index r) (r_mtu r)), Hok|].
    intros w' [ps out] _ (Hf & Hs & Hx). cbn [fst] in *. apply safe_ret. split; cbn; [|lia].
    destruct Hok. constructor; cbn; rewrite ?Hs, ?Hx; done.
Qed.
End router_safe.

(** ** Properties *)

Section properties.
Context {C : Crypto} {L : CryptoLaws C} {B : Base64}.

Lemma run_rops_safe ops r w :
  clock_ok (w_clock w) -> router_ok r w ->
  r_next_index r + Z.of_nat (length ops) < 2 ^ 32 -> along run_rop rop_fits r ops w ->
  safe (run_rops r ops) w (fun w' x => router_ok (fst x) w' /\ length (snd x) = length ops).
Proof.
  revert r w. induction ops as [|o ops IH]; intros r w Hc Hok Hn Hops; [by apply safe_ret|].
  destruct Hops as [Ho Hops]. cbn [run_rops length] in *. apply safe_bind.
  eapply safe_weaken; [apply safe_eqn, rop_safe; [done..|lia|done]|].
  intros w1 [r1 out] Hle1 (E & Hok1 & Hm1 & Hn1). cbn [fst] in *. apply safe_bind.
  eapply safe_weaken; [apply IH; [by eapply world_clock|done|lia|by eapply Hops]|].
  intros w2 [r2 outs] _ [Hok2 Hl]. apply safe_ret. cbn in *. by rewrite Hl.
Qed.

(** C16: the router is safe and keeps its tables consistent. From an empty
    router, any sequence of fewer than 2^32 - 1 peer changes, outbound packets,
    inbound datagrams and timer passes returns for every call: no slice or
    index out of range, and the drain loop always ends. Ranges are as
    [Cidr::parse] makes them, packets from the host are at most
    max(mtu, 1500) bytes, datagrams at most 48 bytes longer. Datagrams may be
    hostile, forged data packets with any counter included; only data packets
    that authenticate under the session they name are assumed to carry counters
    below 2^64 - 1024. Afterwards no two peers share a site or an index, every
    range has a prefix within its address, and the tunnel of the peer with
    index [i] is in order and numbered by [i] modulo 2^24. *)
Theorem router_never_panics sec mtu ops w :
  clock_ok (w_clock w) -> Z.of_nat (length ops) < 2 ^ 32 - 1 ->
  along run_rop rop_fits (Router_new sec mtu) ops w ->
  exists w' r outs, run_rops (Router_new sec mtu) ops w = Ret (w', (r, outs)) /\
    length outs = length ops /\ router_ok r w'.
Proof.
  intros Hc Hn Hops.
  destruct (run_rops_safe ops (Router_new sec mtu) w) as (w' & [r outs] & E & _ & H1 & H2);
    [done| |cbn; lia|done|by exists w', r, outs].
  constructor; cbn; [apply NoDup_nil_2..|done|lia].
Qed.

(** A peer is found by its index. *)
Lemma find_peer ps i p :
  NoDup (map index ps) -> ps !! i = Some p -> list_find (fun q => index q = index p) ps = Some (i, p).
Proof.
  intros Hnd Hi. apply list_find_Some. split_and!; [done..|]. intros j z Hj Hlt Heq.
  assert (j = i); [|lia]. apply (NoDup_lookup (map index ps) _ _ (index p) Hnd);
    rewrite list_lookup_fmap; [rewrite Hj; cbn; by rewrite Heq|by rewrite Hi].
Qed.

(** Inbound datagrams reach their owner. In a consistent router whose
    indices fit 24 bits, a datagram addressed to an index of peer [p] is given
    to the tunnel of [p] and to no other, and whatever has to be sent back goes
    to the endpoint of [p]. *)
Theorem inbound_reaches_owner r w i p q macs idx :
  clock_ok (w_clock w) -> router_ok r w -> peers r !! i = Some p -> index p < 2 ^ 24 ->
  packet_ok q -> length macs = macs_len q -> receiver_of q = Some idx -> own (index p) idx ->
  rop_fits r (InboundDatagram (packet_prefix q ++ macs)) ->
  exists w' x outs,
    handle_inbound r (packet_prefix q ++ macs) w
      = Ret (w', (set_peers r (<[i := set_pump p x]> (peers r)), outs)) /\
    Forall (fun o => match o with ToNet _ ep => ep = endpoint p | ToHost _ => True end) outs.
Proof.
  intros Hc Hok Hi H24 Hq Hm Hr Ho Hfit.
  destruct (inbound_safe r _ w Hc Hok Hfit) as (w' & [r' outs] & E & _). exists w'.
  unfold handle_inbound in *. rewrite (peer_index_of_packet q macs Hq Hm), Hr in *. cbn [option_map] in *.
  destruct Ho as [_ Ho]. rewrite Ho in *.
  pose proof (find_peer (peers r) i p (ro_indices _ _ Hok) Hi) as Hfind.
  rewrite Hfind in *. apply mbind_ret_inv in E as (w1 & [x1 first] & E1 & E).
  apply mbind_ret_inv in E as (w2 & [x2 more] & E2 & E). unfold mret in E. simplify_eq.
  exists x2. eexists. unfold mbind. rewrite E1. cbn [obind]. rewrite E2. cbn [obind].
  split; [reflexivity|]. apply Forall_concat, Forall_map, Forall_forall. intros o _.
  destruct o; cbn; repeat constructor.
Qed.

(** A peer whose index needs more than 24 bits is unreachable. The index
    is shifted by eight into a 32-bit number, so its top bits are lost and no
    inbound datagram is ever given to such a peer's tunnel. *)
Theorem high_index_unreachable r dg w w' r' outs i p :
  bytes_ok dg -> handle_inbound r dg w = Ret (w', (r', outs)) ->
  peers r !! i = Some p -> 2 ^ 24 <= index p -> peers r' !! i = Some p.
Proof.
  intros Hb E Hi H24. unfold handle_inbound in E.
  destruct (peer_index_of dg) as [k|] eqn:Hk; [|unfold mret in E; by simplify_eq].
  apply peer_index_bound in Hk; [|done].
  destruct (list_find _ (peers r)) as [[j p']|] eqn:Hf; [|unfold mret in E; by simplify_eq].
  apply list_find_Some in Hf as (Hj & Hpk & _).
  apply mbind_ret_inv in E as (w1 & [x1 first] & _ & E).
  apply mbind_ret_inv in E as (w2 & [x2 more] & _ & E). unfold mret in E. simplify_eq. cbn.
  rewrite list_lookup_insert_ne; [done|]. intros ->. rewrite Hj in Hi. simplify_eq. lia.
Qed.
End properties.

(** ** Witnesses *)

Definition ep1 : SocketAddr := (V4 [1; 1; 1; 1], 51820).
Definition range16 : Cidr := mkCidr (V4 [10; 0; 0; 0]) 16.
(** A forged data packet for the first peer, with the largest counter. *)
Definition forged_first : bytes := [4; 0; 0; 0; 0; 1; 0; 0] ++ replicate 8 255 ++ replicate 16 0.
Definition demo_rops : list rop :=
  [Upsert 1 (replicate 32 7) ep1 [range16]; InboundDatagram forged_first; Outbound ping4;
   InboundDatagram [4; 0; 0; 0; 1; 1; 0; 0]; TickAll].

Lemma range16_ok : cidr_ok range16.
Proof. split; [split; [repeat constructor; unfold byte_ok; lia|done]|cbn; lia]. Qed.

Lemma contains_prefix_witness :
  contains range16 (V4 [10; 0; 5; 9]) = Ret (same_family (net range16) (V4 [10; 0; 5; 9]) &&
    (prefix_bits (prefix range16) (octets (net range16)) =? prefix_bits (prefix range16) [10; 0; 5; 9])).
Proof.
  apply (contains_prefix range16 (V4 [10; 0; 5; 9])).
  - apply range16_ok.
  - split; [repeat constructor; unfold byte_ok; lia|done].
Defined.

Lemma router_never_panics_witness :
  exists w' r outs, run_rops (Router_new secret_a 1280) demo_rops (world_at 0) = Ret (w', (r, outs)) /\
    length outs = length demo_rops /\ router_ok r w'.
Proof.
  apply (router_never_panics secret_a 1280 demo_rops (world_at 0)).
  - apply world_at_ok.
  - cbn. lia.
  - split; [constructor; [apply range16_ok|done]|]. intros w1 r1 o1 E1. vm_compute in E1. injection E1 as <- <- <-.
    split.
    + intros p Hp. apply list_elem_of_singleton in Hp as ->. split; [by repeat constructor|]. split; [cbn; lia|].
      intros q Hq s Hs. vm_compute in Hq. injection Hq as <-. vm_compute in Hs. discriminate.
    + intros w2 r2 o2 E2. vm_compute in E2. injection E2 as <- <- <-. split; [cbn; lia|]. intros w3 r3 o3 _.
      split; [|intros w4 r4 o4 _; by repeat split].
      intros p _. split; [by repeat constructor|]. split; [cbn [length]; lia|].
      intros q Hq. vm_compute in Hq. discriminate.
Defined.

(** A router with one peer whose tunnel is up. *)
Definition demo_router : Router :=
  mkRouter secret_a 1280 [mkPeer 1 (mkPump up_a 1280) ep1 [range16] 1] 2.

Definition demo_data : Packet := PPacketData (mkPacketData 257 0 (replicate 16 9)).

Lemma demo_router_ok : router_ok demo_router (world_at 2).
Proof.
  constructor; cbn; [apply NoDup_singleton..| |lia].
  constructor; [|done]. constructor; [cbn; lia|done|apply up_a_ok; lia|]. constructor; [apply range16_ok|done].
Qed.

Lemma best_peer_longest_prefix_witness :
  (exists o, best_peer demo_router (V4 [10; 0; 5; 9]) = Ret o) /\
  exists p c, peers demo_router !! 0%nat = Some p /\ c ∈ cidrs p /\ contains c (V4 [10; 0; 5; 9]) = Ret true /\
    forall j q c', peers demo_router !! j = Some q -> c' ∈ cidrs q -> contains c' (V4 [10; 0; 5; 9]) = Ret true ->
      prefix c' <= prefix c /\ (prefix c' = prefix c -> (0 <= j)%nat).
Proof.
  split; [apply (proj1 (best_peer_longest_prefix demo_router (V4 [10; 0; 5; 9])))
         |apply (proj2 (best_peer_longest_prefix demo_router (V4 [10; 0; 5; 9])) (Some 0%nat))].
  - reflexivity.
  - constructor; [|done]. constructor; [apply range16_ok|done].
  - vm_compute. reflexivity.
Defined.

Lemma inbound_reaches_owner_witness :
  exists w' x outs,
    handle_inbound demo_router (packet_prefix demo_data ++ []) (world_at 2)
      = Ret (w', (set_peers demo_router
          (<[0%nat := set_pump (mkPeer 1 (mkPump up_a 1280) ep1 [range16] 1) x]> (peers demo_router)), outs)) /\
    Forall (fun o => match o with ToNet _ ep => ep = ep1 | ToHost _ => True end) outs.
Proof.
  apply (inbound_reaches_owner demo_router (world_at 2) 0 (mkPeer 1 (mkPump up_a 1280) ep1 [range16] 1)
    demo_data [] 257).
  - apply world_at_ok.
  - apply demo_router_ok.
  - reflexivity.
  - cbn; lia.
  - vm_compute. repeat split; repeat constructor; discriminate.
  - reflexivity.
  - reflexivity.
  - split; [unfold u32; cbn; lia|reflexivity].
  - intros p Hp. apply list_elem_of_singleton in Hp as ->. split; [|split].
    + vm_compute. repeat constructor; discriminate.
    + cbn; lia.
    + intros p E s _ _. vm_compute in E. simplify_eq. split; vm_compute; [discriminate|reflexivity].
Defined.

(** A router whose peer has index 2^24. *)
Definition high_peer : Peer := mkPeer 1 (mkPump up_a 1280) ep1 [range16] 16777216.
Definition high_router : Router := mkRouter secret_a 1280 [high_peer] 16777217.

Lemma high_index_unreachable_witness : peers high_router !! 0%nat = Some high_peer.
Proof.
  apply (high_index_unreachable high_router (to_le_bytes 4 4 ++ to_le_bytes 4 1) (world_at 2) (world_at 2)
    high_router [] 0 high_peer).
  - vm_compute. repeat constructor; discriminate.
  - vm_compute. reflexivity.
  - reflexivity.
  - cbn; lia.
Defined.

Lemma cidr_text_witness :
  Cidr_parse (print_cidr4 100 64 0 0 10) = Some (mkCidr (V4 [100; 64; 0; 0]) 10) /\
  Cidr_parse (print_ipv4 100 64 0 0) = Some (mkCidr (V4 [100; 64; 0; 0]) 32) /\
  cidr_ok (mkCidr (V6 [0; 0; 0; 0; 0; 0; 0; 0; 0; 0; 0; 0; 0; 0; 0; 0]) 0).
Proof.
  apply (cidr_text 100 64 0 0 10 [58; 58; 47; 48]).
  - by repeat constructor.
  - lia.
  - vm_compute. reflexivity.
Defined.
