(* ===== verification/Icmp.v ===== *)
(** The keepalive ping of the connector, [icmp_echo] and [checksum] of
    [newt/src/tunnel.rs]: an IPv4 packet with an ICMP echo request, and the
    Internet checksum of RFC 1071. *)

From S2P Require Import Prelude Time Crypto ToyCrypto Packet Session Handshake Timers Tunn TunnFacts TunnProps.

(** ** The checksum *)

(** The 16-bit words, big endian; an odd byte at the end counts as the high
    half of a word. *)
Fixpoint sum_chunks (sum : Z) (data : bytes) : Z :=
  match data with
  | [] => sum
  | [last] => wadd 32 sum (Z.shiftl last 8)
  | a :: b :: rest => sum_chunks (wadd 32 sum (from_be_bytes [a; b])) rest
  end.

(** [while (sum >> 16) != 0]: two rounds bring any 32-bit sum below 2^16. *)
Definition fold_carries (sum : Z) : outcome Z :=
  while 3 (fun s => negb (Z.shiftr s 16 =? 0))
    (fun s => wadd 32 (Z.land s 65535) (Z.shiftr s 16)) sum.

Definition checksum (data : bytes) : outcome Z :=
  let! sum := fold_carries (sum_chunks 0 data) in
  Ret (wnot 16 (wrap 16 sum)).

(** ** The packet *)

(** [b"newtping"]. *)
Definition PING_PAYLOAD : bytes := [110; 101; 119; 116; 112; 105; 110; 103].

(** Overwrite [buf[off..off+2]]. *)
Definition put_u16 (off : nat) (v : Z) (buf : bytes) : bytes :=
  take off buf ++ to_be_bytes 2 v ++ drop (off + 2) buf.

Definition icmp_echo (src dst : bytes) (ident seq : Z) : outcome bytes :=
  let icmp := [8; 0; 0; 0] ++ to_be_bytes 2 ident ++ to_be_bytes 2 seq ++ PING_PAYLOAD in
  let! c := checksum icmp in
  let icmp := put_u16 2 c icmp in
  let total := (20 + length icmp)%nat in
  let ip := [69; 0] ++ to_be_bytes 2 (wrap 16 (Z.of_nat total)) ++ [0; 0; 64; 0] ++ [64; 1; 0; 0]
              ++ src ++ dst in
  let! c := checksum ip in
  let ip := put_u16 10 c ip in
  Ret (ip ++ icmp).

(** ** What the checksum computes *)

(** The plain sum of the words of an even-length buffer. *)
Fixpoint words (data : bytes) : Z :=
  match data with
  | a :: b :: rest => a * 256 + b + words rest
  | _ => 0
  end.

(** End-around carry: a positive sum folds to its residue modulo 65535, with
    65535 standing for zero. *)
Definition folded (s : Z) : Z := if s =? 0 then 0 else (s - 1) mod 65535 + 1.

Lemma fold_carries_spec s : 0 <= s < 2 ^ 32 -> fold_carries s = Ret (folded s).
Proof.
  intros Hs. unfold fold_carries, folded.
  assert (forall x, 0 <= x < 2 ^ 32 -> Z.shiftr x 16 = x / 65536 /\ Z.land x 65535 = x mod 65536 /\
    wadd 32 (Z.land x 65535) (Z.shiftr x 16) = x mod 65536 + x / 65536) as Hx.
  { intros x Hx. rewrite Z.shiftr_div_pow2 by lia. change 65535 with (Z.ones 16). rewrite Z.land_ones by lia.
    change (2 ^ 16) with 65536. split; [done|]. split; [done|]. apply wrap_small. dlia. }
  cbn [while]. destruct (Hx s Hs) as (-> & _ & ->).
  destruct (Z.eqb_spec (s / 65536) 0) as [H0|H0]; cbn [negb].
  { f_equal. destruct (Z.eqb_spec s 0); [done|]. dlia. }
  destruct (Hx (s mod 65536 + s / 65536)) as (-> & _ & ->); [dlia|].
  set (s1 := s mod 65536 + s / 65536) in *.
  assert (0 < s1 <= 131070 /\ exists k, s = s1 + 65535 * k) as [H1 [k Hk]].
  { unfold s1. split; [dlia|]. exists (s / 65536). dlia. }
  destruct (Z.eqb_spec s 0); [dlia|].
  assert ((s - 1) mod 65535 = (s1 - 1) mod 65535) as ->.
  { rewrite Hk. replace (s1 + 65535 * k - 1) with (s1 - 1 + k * 65535) by lia. by rewrite Z_mod_plus_full. }
  destruct (Z.eqb_spec (s1 / 65536) 0) as [H2|H2]; cbn [negb]; [f_equal; dlia|].
  destruct (Hx (s1 mod 65536 + s1 / 65536)) as (-> & _ & _); [dlia|].
  destruct (Z.eqb_spec ((s1 mod 65536 + s1 / 65536) / 65536) 0) as [H3|H3]; cbn [negb]; [f_equal|]; dlia.
Qed.

Lemma words_bound data : bytes_ok data -> 0 <= words data <= 65535 * Z.of_nat (length data).
Proof.
  revert data. fix IH 1. intros data H. destruct data as [|a [|b rest]]; [cbn; lia..|].
  inversion H as [|? ? Ha H']; subst. inversion H' as [|? ? Hb Hr]; subst.
  pose proof (IH rest Hr). unfold byte_ok in *. cbn [words length]. lia.
Qed.

Lemma wnot_16 f : 0 <= f <= 65535 -> wnot 16 f = 65535 - f.
Proof.
  intros Hf. unfold wnot. assert (Z.log2 f < 16).
  { destruct (Z.eq_dec f 0) as [->|]; [done|]. apply Z.log2_lt_pow2; lia. }
  rewrite <- Z.ldiff_ones_l_low by lia. rewrite <- Z.sub_nocarry_ldiff; [done|].
  apply Z.ldiff_ones_r_low; lia.
Qed.

(** Even-length buffers of fewer than 2^16 bytes: no overflow, and the checksum
    is the complement of the folded sum. *)
Lemma checksum_spec data :
  bytes_ok data -> Nat.Even (length data) -> Z.of_nat (length data) < 65536 ->
  checksum data = Ret (65535 - folded (words data)).
Proof.
  intros Hok Hev Hlen. unfold checksum.
  assert (forall d s, bytes_ok d -> Nat.Even (length d) -> 0 <= s -> s + words d < 2 ^ 32 ->
    sum_chunks s d = s + words d) as Hsum.
  { fix IH 1. intros d s Hd He Hs Hb. destruct d as [|a [|b rest]]; [cbn; lia|destruct He; cbn in *; lia|].
    inversion Hd as [|? ? Ha Hd']; subst. inversion Hd' as [|? ? Hb' Hr]; subst.
    pose proof (words_bound rest Hr). cbn [sum_chunks words] in *. unfold byte_ok in *.
    assert (wadd 32 s (from_be_bytes [a; b]) = s + (a * 256 + b)) as ->
      by (etransitivity; [apply wrap_small|]; cbn; lia).
    rewrite IH; [lia|done| |lia|lia]. destruct He as [k Hk]. exists (pred k). cbn in Hk. lia. }
  pose proof (words_bound data Hok). rewrite Hsum by (done || lia). rewrite Z.add_0_l, fold_carries_spec by lia.
  cbn [obind]. assert (0 <= folded (words data) <= 65535) as Hf
    by (unfold folded; case_goal; [lia|]; pose proof (Z.mod_pos_bound (words data - 1) 65535); lia).
  rewrite wrap_small by lia. f_equal. by apply wnot_16.
Qed.

Lemma words_app a b : Nat.Even (length a) -> words (a ++ b) = words a + words b.
Proof.
  revert a. fix IH 1. intros a He. destruct a as [|x [|y a]]; [done|destruct He; cbn in *; lia|].
  cbn [app words]. rewrite IH; [lia|]. destruct He as [k Hk]. exists (pred k). cbn in Hk. lia.
Qed.

(** What a receiver checks: the one's complement sum of the words is 65535, that
    is, the plain sum is a positive multiple of it. *)
Definition sums_right (data : bytes) : Prop := 0 < words data /\ words data mod 65535 = 0.

(** Writing the checksum of a buffer into a zeroed even-aligned field makes the
    buffer's sum right. *)
Lemma checksum_fills a b :
  bytes_ok a -> bytes_ok b -> Nat.Even (length a) -> Nat.Even (length b) ->
  Z.of_nat (length a + length b) < 65534 -> 0 < words a + words b ->
  exists c, checksum (a ++ [0; 0] ++ b) = Ret c /\ 0 <= c < 65536 /\ sums_right (a ++ to_be_bytes 2 c ++ b).
Proof.
  intros Ha Hb Hea Heb Hl Hpos.
  assert (checksum (a ++ [0; 0] ++ b) = Ret (65535 - folded (words a + words b))) as Hck.
  { rewrite checksum_spec; [rewrite words_app by done; reflexivity| | |].
    - apply Forall_app; split; [done|]. do 2 (constructor; [done|]); done.
    - rewrite !length_app. cbn. destruct Hea as [k1 Hk1], Heb as [k2 Hk2]. exists (k1 + k2 + 1)%nat. lia.
    - rewrite !length_app. cbn. lia. }
  eexists. split; [exact Hck|]. clear Hck. set (s := words a + words b) in *.
  assert (1 <= folded s <= 65535 /\ exists k, s = folded s + 65535 * k) as [Hf [k Hk]].
  { unfold folded. destruct (Z.eqb_spec s 0); [lia|].
    pose proof (Z.mod_pos_bound (s - 1) 65535). split; [lia|]. exists ((s - 1) / 65535). dlia. }
  split; [lia|]. set (c := 65535 - folded s). change (to_be_bytes 2 c) with [c / 256 mod 256; c mod 256].
  unfold sums_right. rewrite words_app by done. cbn [app words].
  assert (0 <= c < 65536) as Hc by (unfold c; lia).
  assert (c / 256 mod 256 * 256 + c mod 256 = c) as -> by (clear - Hc; dlia).
  replace (words a + (c + words b)) with ((k + 1) * 65535) by (unfold c, s in *; lia).
  split; [lia|apply Z_mod_mult].
Qed.

(** Building the packet never fails, whatever the addresses. *)
Lemma icmp_echo_returns src dst ident seq :
  bytes_ok src -> bytes_ok dst -> length src = 4%nat -> length dst = 4%nat ->
  exists p, icmp_echo src dst ident seq = Ret p /\ length p = 36%nat.
Proof.
  intros Hs Hd Hls Hld. unfold icmp_echo.
  rewrite checksum_spec; [|repeat first [apply to_be_bytes_ok | apply Forall_app; split | by repeat constructor]
    |by exists 8%nat|done]. cbn [obind].
  assert (forall off v buf, (off + 2 <= length buf)%nat -> length (put_u16 off v buf) = length buf) as Hput
    by (intros off v buf Hb; unfold put_u16; rewrite !length_app, length_take, length_drop, length_to_be_bytes; lia).
  rewrite checksum_spec; [|repeat first [apply to_be_bytes_ok | assumption | apply Forall_app; split | by repeat constructor]
    |exists 10%nat; rewrite !length_app, Hls, Hld; done|rewrite !length_app, Hls, Hld; done].
  cbn [obind]. eexists. split; [reflexivity|]. rewrite length_app, !Hput; rewrite ?length_app, ?Hls, ?Hld; cbn; lia.
Qed.

(** ** Property *)

(** C40: the keepalive is a valid ping. For any addresses, identifier and
    sequence number, [icmp_echo] returns the 36 bytes of an IPv4 packet (no
    options, not to be fragmented, 64 hops, protocol 1) from the source to the
    destination that holds an echo request with the identifier, the number and
    the payload, both in network order; the words of the header and those of the
    message each sum to a positive multiple of 65535, which is what a receiver
    checks by RFC 1071; and the packet passes the length and address checks of
    the tunnel at the other end. *)
Theorem icmp_echo_valid src dst ident seq :
  bytes_ok src -> bytes_ok dst -> length src = 4%nat -> length dst = 4%nat ->
  0 <= ident < 65536 -> 0 <= seq < 65536 ->
  exists header_sum message_sum,
    let header := [69; 0; 0; 36; 0; 0; 64; 0; 64; 1] ++ to_be_bytes 2 header_sum ++ src ++ dst in
    let message := [8; 0] ++ to_be_bytes 2 message_sum ++ [ident / 256; ident mod 256] ++ [seq / 256; seq mod 256] ++
                   [110; 101; 119; 116; 112; 105; 110; 103] in
    icmp_echo src dst ident seq = Ret (header ++ message) /\ bytes_ok (header ++ message) /\
    sums_right header /\ sums_right message /\ ip_wf (header ++ message) /\ dst_address (header ++ message) = Some (V4 dst).
Proof.
  intros Hs Hd Hls Hld Hi Hq.
  destruct src as [|s1 [|s2 [|s3 [|s4 [|]]]]]; try discriminate.
  destruct dst as [|d1 [|d2 [|d3 [|d4 [|]]]]]; try discriminate.
  set (i := [ident / 256; ident mod 256]). set (q := [seq / 256; seq mod 256]).
  assert (to_be_bytes 2 ident = i /\ to_be_bytes 2 seq = q) as [Ei Eq].
  { unfold i, q. split; cbn -[Z.div Z.modulo]; (rewrite (Z.mod_small (_ / 256)) by dlia); reflexivity. }
  assert (bytes_ok i /\ bytes_ok q) as [Hib Hqb]
    by (rewrite <- Ei, <- Eq; split; apply to_be_bytes_ok).
  destruct (checksum_fills [8; 0] (i ++ q ++ PING_PAYLOAD)) as (c1 & E1 & Hc1 & Z1);
    [by repeat constructor|repeat (apply Forall_app; split); [done..|by repeat constructor]
    |by exists 1%nat|by exists 6%nat|done
    |cbn -[Z.div Z.modulo]; dlia|].
  destruct (checksum_fills [69; 0; 0; 36; 0; 0; 64; 0; 64; 1] ([s1; s2; s3; s4] ++ [d1; d2; d3; d4]))
    as (c2 & E2 & Hc2 & Z2);
    [by repeat constructor|by apply Forall_app|by exists 5%nat|by exists 4%nat|done
    |rewrite words_app by (by exists 2%nat); pose proof (words_bound _ Hs); pose proof (words_bound _ Hd);
     cbn [words]; cbn [words] in *; lia|].
  exists c2, c1. cbv zeta. split.
  { unfold icmp_echo. rewrite Ei, Eq.
    change ([8; 0; 0; 0] ++ i ++ q ++ PING_PAYLOAD) with ([8; 0] ++ [0; 0] ++ i ++ q ++ PING_PAYLOAD).
    rewrite E1. cbn [obind].
    change (put_u16 2 c1 ([8; 0] ++ [0; 0] ++ i ++ q ++ PING_PAYLOAD))
      with ([8; 0] ++ to_be_bytes 2 c1 ++ i ++ q ++ PING_PAYLOAD).
    match goal with |- context [checksum ?ip] =>
      change ip with ([69; 0; 0; 36; 0; 0; 64; 0; 64; 1] ++ [0; 0] ++ [s1; s2; s3; s4] ++ [d1; d2; d3; d4]) end.
    rewrite E2. reflexivity. }
  split; [repeat first [apply to_be_bytes_ok | assumption | apply Forall_app; split | by repeat constructor]|].
  split; [exact Z2|]. split; [exact Z1|]. split; [left; split; [reflexivity|split; [cbn; lia|reflexivity]]|reflexivity].
Qed.

(** ** Witness *)

Lemma icmp_echo_valid_witness :
  exists header_sum message_sum,
    let header := [69; 0; 0; 36; 0; 0; 64; 0; 64; 1] ++ to_be_bytes 2 header_sum ++ [100; 89; 128; 4] ++ [100; 89; 128; 1] in
    let message := [8; 0] ++ to_be_bytes 2 message_sum ++ [0; 1] ++ [255; 255] ++
                   [110; 101; 119; 116; 112; 105; 110; 103] in
    icmp_echo [100; 89; 128; 4] [100; 89; 128; 1] 1 65535 = Ret (header ++ message) /\ bytes_ok (header ++ message) /\
    sums_right header /\ sums_right message /\ ip_wf (header ++ message) /\
    dst_address (header ++ message) = Some (V4 [100; 89; 128; 1]).
Proof.
  apply (icmp_echo_valid [100; 89; 128; 4] [100; 89; 128; 1] 1 65535).
  - by repeat constructor.
  - by repeat constructor.
  - reflexivity.
  - reflexivity.
  - lia.
  - lia.
Defined.
