(* ===== verification/Netstack.v ===== *)
(** The userspace network stack, [newt/src/netstack.rs]: a device with an
    inbound and an outbound queue, around smoltcp. What the sources use of
    smoltcp is the class [Smoltcp]; its documented behaviour, as far as the
    code relies on it, is [SmoltcpLaws]. *)

From S2P Require Import Prelude Packet.

(** ** The device *)

Record VirtualDevice := mkDevice { rx : list bytes; tx : list bytes; dev_mtu : nat }.

Definition VirtualDevice_new (mtu : nat) : VirtualDevice := mkDevice [] [] mtu.

(** [Device::receive] takes the oldest inbound packet; the token it returns
    with it appends to [tx], as does the one of [Device::transmit]. *)
Definition receive (d : VirtualDevice) : option (VirtualDevice * bytes) :=
  match rx d with
  | [] => None
  | pkt :: rest => Some (mkDevice rest (tx d) (dev_mtu d), pkt)
  end.

Definition transmit (d : VirtualDevice) (pkt : bytes) : VirtualDevice :=
  mkDevice (rx d) (tx d ++ [pkt]) (dev_mtu d).

(** ** smoltcp *)

(** Handles are opaque; a socket set is the map from the handles in use to
    their sockets. *)
Definition SocketHandle : Type := nat.

Class Smoltcp := {
  Interface : Type;
  Socket : Type;
  iface_new : VirtualDevice -> Z -> Interface;
  iface_add_addr : Interface -> IpAddr -> Z -> Interface;
  (** Default routes through an IPv4 and an IPv6 gateway. *)
  iface_default_routes : Interface -> bytes -> bytes -> Interface;
  iface_poll : Z -> Interface -> VirtualDevice -> gmap SocketHandle Socket ->
    Interface * VirtualDevice * gmap SocketHandle Socket;
  fresh_handle : gmap SocketHandle Socket -> SocketHandle;
  tcp_new : Z -> Z -> Socket;
  tcp_listen : Socket -> Z -> Socket;
  (** Opening a connection to an address and port from a local port; the
      interface is the connection's context, nothing is an error. *)
  tcp_connect : Interface -> Socket -> IpAddr * Z -> Z -> Interface * option Socket;
  tcp_is_active : Socket -> bool;
  tcp_is_open : Socket -> bool;
  tcp_can_recv : Socket -> bool;
  tcp_can_send : Socket -> bool;
  tcp_recv : Socket -> option (Socket * bytes);
  tcp_send_slice : Socket -> bytes -> option (Socket * nat);
  tcp_close : Socket -> Socket
}.

(** A new socket gets a handle that is not in use, polling neither adds nor
    removes sockets and sends no packet above the MTU the device states, and [send_slice] takes a prefix of what it is given. *)
Class SmoltcpLaws (S : Smoltcp) := {
  fresh_unused : forall s, s !! fresh_handle s = None;
  poll_dom : forall now i d s, dom (snd (iface_poll now i d s)) = dom s;
  poll_mtu : forall now i d s i' d' s', iface_poll now i d s = (i', d', s') ->
    dev_mtu d' = dev_mtu d /\
    (Forall (fun p => length p <= dev_mtu d)%nat (tx d) -> Forall (fun p => length p <= dev_mtu d)%nat (tx d'));
  send_slice_le : forall s b s' n, tcp_send_slice s b = Some (s', n) -> (n <= length b)%nat
}.

Section stack.
Context {S : Smoltcp}.

Abbreviation SocketSet := (gmap SocketHandle Socket).

(** [SocketSet::add]. *)
Definition set_add (s : SocketSet) (x : Socket) : SocketSet * SocketHandle :=
  (<[fresh_handle s := x]> s, fresh_handle s).

Record Stack := mkStack { device : VirtualDevice; iface : Interface; sockets : SocketSet }.

Definition set_sockets (st : Stack) (s : SocketSet) : Stack := mkStack (device st) (iface st) s.

Definition Stack_new (tunnel_ip : IpAddr) (mtu : nat) (now : Z) : Stack :=
  let device := VirtualDevice_new mtu in
  let iface := iface_new device now in
  let prefix := match tunnel_ip with V4 _ => 32 | V6 _ => 128 end in
  mkStack device (iface_add_addr iface tunnel_ip prefix) ∅.

(** Drive the stack once; the outbound packets leave the device. *)
Definition poll (st : Stack) (now : Z) : Stack * list bytes :=
  let '(i, d, s) := iface_poll now (iface st) (device st) (sockets st) in
  (mkStack (mkDevice (rx d) [] (dev_mtu d)) i s, tx d).

(** [self.stack.device.rx.push_back(p)]. *)
Definition push_rx (st : Stack) (p : bytes) : Stack :=
  mkStack (mkDevice (rx (device st) ++ [p]) (tx (device st)) (dev_mtu (device st))) (iface st) (sockets st).

Definition add_default_routes (st : Stack) (gw4 gw6 : bytes) : Stack :=
  mkStack (device st) (iface_default_routes (iface st) gw4 gw6) (sockets st).

(** Originate a connection on a socket; [get_mut] panics on a handle that is not
    in the set. *)
Definition stack_connect (st : Stack) (h : SocketHandle) (remote : IpAddr * Z) (local_port : Z)
  : outcome (Stack * bool) :=
  match sockets st !! h with
  | None => Panicked
  | Some s =>
      let '(i, r) := tcp_connect (iface st) s remote local_port in
      match r with
      | Some s => Ret (mkStack (device st) i (<[h := s]> (sockets st)), true)
      | None => Ret (mkStack (device st) i (sockets st), false)
      end
  end.

Lemma poll_sockets_dom `{!SmoltcpLaws S} st now : dom (sockets (fst (poll st now))) = dom (sockets st).
Proof.
  unfold poll. pose proof (poll_dom now (iface st) (device st) (sockets st)) as H.
  by destruct (iface_poll _ _ _ _) as [[i d] s].
Qed.
End stack.

(** ** A small stack *)

(** An instance for concrete runs: a socket holds what has arrived and what it
    was given to send, sends up to eight bytes at a time, and an outside event
    (delivered by polling a packet [handle :: bytes]) makes a listening socket
    active. *)
Record ToySocket := mkToySocket {
  ts_port : Z; ts_active : bool; ts_open : bool; ts_in : bytes; ts_out : bytes
}.

Definition toy_deliver (s : gmap nat ToySocket) (pkt : bytes) : gmap nat ToySocket :=
  match pkt with
  | [] => s
  | h :: data =>
      alter (fun x => mkToySocket (ts_port x) true true (ts_in x ++ data) (ts_out x)) (Z.to_nat h) s
  end.

Definition toy_fresh (s : gmap nat ToySocket) : nat := S (max_list (elements (dom s))).

Lemma toy_fresh_unused s : s !! toy_fresh s = None.
Proof.
  apply not_elem_of_dom. intros Hin%elem_of_elements%max_list_elem_of_le. unfold toy_fresh in Hin. lia.
Qed.

#[export] Instance ToySmoltcp : Smoltcp := {|
  Interface := unit;
  Socket := ToySocket;
  iface_new _ _ := tt;
  iface_add_addr i _ _ := i;
  iface_default_routes i _ _ := i;
  iface_poll _ i d s := (i, mkDevice [] (tx d) (dev_mtu d), foldl toy_deliver s (rx d));
  fresh_handle := toy_fresh;
  tcp_new _ _ := mkToySocket 0 false false [] [];
  tcp_connect i x r p := (i, Some (mkToySocket p true true (ts_in x) (ts_out x)));
  tcp_listen x p := mkToySocket p (ts_active x) true (ts_in x) (ts_out x);
  tcp_is_active := ts_active;
  tcp_is_open := ts_open;
  tcp_can_recv x := negb (bool_decide (ts_in x = []));
  tcp_can_send := ts_open;
  tcp_recv x := Some (mkToySocket (ts_port x) (ts_active x) (ts_open x) [] (ts_out x), ts_in x);
  tcp_send_slice x b :=
    Some (mkToySocket (ts_port x) (ts_active x) (ts_open x) (ts_in x) (ts_out x ++ take 8 b), length (take 8 b));
  tcp_close x := mkToySocket (ts_port x) false false (ts_in x) (ts_out x)
|}.

#[export] Instance ToySmoltcpLaws : SmoltcpLaws ToySmoltcp.
Proof.
  constructor.
  - exact toy_fresh_unused.
  - intros now i d s. cbn. revert s. induction (rx d) as [|[|h x] l IH]; intros s; [done|apply IH|].
    cbn [foldl]. rewrite IH. cbn [toy_deliver]. apply dom_alter_L.
  - intros now i d s i' d' s' [= <- <- <-]. done.
  - intros s b s' n [= _ <-]. rewrite length_take. lia.
Qed.
