(* ===== verification/Bridge.v ===== *)
(** One bridged connection: the channels and the task of [newt/src/proxy.rs],
    and what [DataPlane::shuttle] of [newt/src/tunnel.rs] does for it. *)

From S2P Require Import Prelude Packet Netstack Text.

(** ** Channels *)

(** A bounded [tokio::sync::mpsc] channel: what waits in it, and whether the
    other end is still there. *)
Record Chan := mkChan { ch_queue : list bytes; ch_open : bool }.

Definition CHANNEL_DEPTH : nat := 16.

Definition chan_new : Chan := mkChan [] true.
Definition chan_push (c : Chan) (b : bytes) : Chan := mkChan (ch_queue c ++ [b]) (ch_open c).
Definition chan_close (c : Chan) : Chan := mkChan (ch_queue c) false.

(** [Sender::try_reserve]. *)
Definition try_reserve (c : Chan) : bool := ch_open c && (length (ch_queue c) <? CHANNEL_DEPTH)%nat.

Inductive TryRecv : Type :=
| Received (b : bytes)
| Empty
| Disconnected.

(** [Receiver::try_recv]: a closed channel is drained before it reports the
    disconnection. *)
Definition try_recv (c : Chan) : Chan * TryRecv :=
  match ch_queue c with
  | b :: q => (mkChan q (ch_open c), Received b)
  | [] => (c, if ch_open c then Empty else Disconnected)
  end.

(** Where the spawned task is: dialling its target, waiting for either side,
    writing a chunk to the target (what is left of it), waiting for room to
    forward a chunk it has read, or over. *)
Inductive Task : Type :=
| Dialling
| Idle
| Writing (rest : bytes)
| Sending (chunk : bytes)
| Over.

(** The ends the loop owns, with the task at the other ends; [c_target] is the
    address the task dials. *)
Record Conn := mkConn { c_target : str; to_target : Chan; from_target : Chan; c_task : Task }.

Definition with_task (c : Conn) (t : Task) : Conn := mkConn (c_target c) (to_target c) (from_target c) t.

Definition spawn_tcp (target : str) : Conn := mkConn target chan_new chan_new Dialling.

(** The same around a connection that was accepted: there is no target to dial. *)
Definition bridge_stream : Conn := mkConn [] chan_new chan_new Idle.

Record Bridge := mkBridge { conn : Conn; pending : bytes; target_done : bool }.

Definition Bridge_new (c : Conn) : Bridge := mkBridge c [] false.

(** ** Servicing a connection *)

(** What a pass moves between the socket and the bridge: bytes taken from the
    socket, bytes given to it. *)
Record Moved := mkMoved { taken : bytes; given : bytes }.

Section service.
Context {S : Smoltcp}.

(** socket -> target: as long as the channel has room and bytes are there. Each
    round that goes on fills a slot of the channel. *)
Fixpoint pull (fuel : nat) (s : Socket) (ch : Chan) : outcome (Socket * Chan * bytes) :=
  match fuel with
  | O => Diverged
  | Datatypes.S fuel' =>
      if negb (try_reserve ch) then Ret (s, ch, [])
      else if negb (tcp_can_recv s) then Ret (s, ch, [])
      else
        let '(s, chunk) := default (s, []) (tcp_recv s) in
        match chunk with
        | [] => Ret (s, ch, [])
        | _ :: _ =>
            let! (s, ch, more) := pull fuel' s (chan_push ch chunk) in
            Ret (s, ch, chunk ++ more)
        end
  end.

Definition PULL_FUEL : nat := CHANNEL_DEPTH + 1.

(** target -> socket: fetch a chunk when none is left over. *)
Definition fetch (b : Bridge) : Bridge :=
  match pending b with
  | _ :: _ => b
  | [] =>
      let '(ch, r) := try_recv (from_target (conn b)) in
      let c := mkConn (c_target (conn b)) (to_target (conn b)) ch (c_task (conn b)) in
      match r with
      | Received d => mkBridge c d (target_done b)
      | Empty => b
      | Disconnected => mkBridge (conn b) (pending b) true
      end
  end.

(** Give the socket what it takes of the pending chunk; [Vec::drain] panics on
    a count past the end. *)
Definition flush (s : Socket) (b : Bridge) : outcome (Socket * Bridge * bytes) :=
  match pending b with
  | [] => Ret (s, b, [])
  | _ :: _ =>
      if tcp_can_send s then
        let '(s, sent) := default (s, 0%nat) (tcp_send_slice s (pending b)) in
        if (length (pending b) <? sent)%nat then Panicked
        else Ret (s, mkBridge (conn b) (drop sent (pending b)) (target_done b), take sent (pending b))
      else Ret (s, b, [])
  end.

(** The body of [shuttle]'s loop over the connections: the socket and the
    bridge afterwards, no bridge when the connection is reaped. *)
Definition service (s : Socket) (b : Bridge) : outcome (Socket * option Bridge * Moved) :=
  let! (s, ch, up) := pull PULL_FUEL s (to_target (conn b)) in
  let b := mkBridge (mkConn (c_target (conn b)) ch (from_target (conn b)) (c_task (conn b))) (pending b) (target_done b) in
  let b := fetch b in
  let! (s, b, down) := flush s b in
  let s := if target_done b && bool_decide (pending b = []) && tcp_is_open s then tcp_close s else s in
  Ret (s, if tcp_is_open s then Some b else None, mkMoved up down).

(** ** The task *)

(** What happens to the task: its connection is there; it takes the next chunk
    for the target; the target takes [n] bytes of what is left of it; it reads a
    chunk of at most 8192 bytes; the channel takes that chunk; it ends, on an
    error or at the end of the target's stream, dropping its ends of the
    channels. *)
Inductive TaskEvent : Type :=
| Dialled
| Took
| Wrote (n : nat)
| Read (b : bytes)
| Forwarded
| Ended.

(** [write_all] is done when nothing is left. *)
Definition writing (rest : bytes) : Task := match rest with [] => Idle | _ => Writing rest end.

(** The task after an event, if it can happen: while a chunk is written or
    waits for room, the other side is not looked at, and a task that waits for
    room only ends when the loop has dropped the connection. *)
Definition task_step (c : Conn) (ev : TaskEvent) : option Conn :=
  match ev, c_task c with
  | Dialled, Dialling => Some (with_task c Idle)
  | Took, Idle =>
      match ch_queue (to_target c) with
      | b :: q => Some (mkConn (c_target c) (mkChan q (ch_open (to_target c))) (from_target c) (writing b))
      | [] => None
      end
  | Wrote n, Writing rest =>
      if (0 <? n)%nat && (n <=? length rest)%nat then Some (with_task c (writing (drop n rest))) else None
  | Read b, Idle =>
      if (0 <? length b)%nat && (Z.of_nat (length b) <=? 8192) then Some (with_task c (Sending b)) else None
  | Forwarded, Sending b =>
      if try_reserve (from_target c)
      then Some (mkConn (c_target c) (to_target c) (chan_push (from_target c) b) Idle) else None
  | Ended, (Dialling | Idle | Writing _) =>
      Some (mkConn (c_target c) (mkChan [] false) (chan_close (from_target c)) Over)
  | _, _ => None
  end.

(** The bytes that reach the target and those that come from it with an event. *)
Definition written_by (c : Conn) (ev : TaskEvent) : bytes :=
  match ev, c_task c with Wrote n, Writing rest => take n rest | _, _ => [] end.
Definition read_by (ev : TaskEvent) : bytes := match ev with Read b => b | _ => [] end.

(** What the task holds of either stream. *)
Definition hand_up (c : Conn) : bytes := match c_task c with Writing rest => rest | _ => [] end.
Definition hand_down (c : Conn) : bytes := match c_task c with Sending b => b | _ => [] end.

(** ** A connection over time *)

(** The connection with the bytes that have passed each of its four ends: taken
    from the socket, written to the target, read from the target, given to the
    socket. *)
Record Link := mkLink {
  l_socket : Socket;
  l_bridge : Bridge;
  l_taken : bytes;
  l_written : bytes;
  l_read : bytes;
  l_given : bytes
}.

Definition with_conn (b : Bridge) (c : Conn) : Bridge := mkBridge c (pending b) (target_done b).

(** The loop services the connection, the task runs, the network changes the
    socket, in any order. *)
Inductive link_step : Link -> Link -> Prop :=
| LinkService s b tk wr rd gv s' b' m :
    service s b = Ret (s', Some b', m) ->
    link_step (mkLink s b tk wr rd gv) (mkLink s' b' (tk ++ taken m) wr rd (gv ++ given m))
| LinkTask s b tk wr rd gv c ev :
    task_step (conn b) ev = Some c ->
    link_step (mkLink s b tk wr rd gv)
      (mkLink s (with_conn b c) tk (wr ++ written_by (conn b) ev) (rd ++ read_by ev) gv)
| LinkNetwork s b tk wr rd gv s' :
    link_step (mkLink s b tk wr rd gv) (mkLink s' b tk wr rd gv).

Definition link_new (s : Socket) (target : str) : Link :=
  mkLink s (Bridge_new (spawn_tcp target)) [] [] [] [].

Record link_ok (l : Link) : Prop := {
  lo_down : l_read l = l_given l ++ pending (l_bridge l) ++ concat (ch_queue (from_target (conn (l_bridge l)))) ++
                       hand_down (conn (l_bridge l));
  lo_up : if ch_open (to_target (conn (l_bridge l)))
          then l_taken l = l_written l ++ hand_up (conn (l_bridge l)) ++ concat (ch_queue (to_target (conn (l_bridge l))))
          else l_written l `prefix_of` l_taken l;
  lo_to_len : (length (ch_queue (to_target (conn (l_bridge l)))) <= CHANNEL_DEPTH)%nat;
  lo_from_len : (length (ch_queue (from_target (conn (l_bridge l)))) <= CHANNEL_DEPTH)%nat;
  lo_chunks : Forall (fun b => Z.of_nat (length b) <= 8192)
                (pending (l_bridge l) :: ch_queue (from_target (conn (l_bridge l))));
  lo_hand : Z.of_nat (length (hand_down (conn (l_bridge l)))) <= 8192;
  lo_done : target_done (l_bridge l) = true -> from_target (conn (l_bridge l)) = mkChan [] false;
  lo_over : c_task (conn (l_bridge l)) = Over <-> ch_open (from_target (conn (l_bridge l))) = false;
  lo_closed : c_task (conn (l_bridge l)) = Over <-> ch_open (to_target (conn (l_bridge l))) = false
}.

(** ** What a pass does *)

Lemma pull_spec fuel s q o :
  (length q <= CHANNEL_DEPTH)%nat -> (CHANNEL_DEPTH - length q < fuel)%nat ->
  exists s' chunks, pull fuel s (mkChan q o) = Ret (s', mkChan (q ++ chunks) o, concat chunks) /\
    (length (q ++ chunks) <= CHANNEL_DEPTH)%nat /\ (o = false -> chunks = []).
Proof.
  revert s q. induction fuel as [|fuel IH]; intros s q Hq Hf; [lia|]. cbn [pull].
  assert (exists s' chunks, Ret (s, mkChan q o, @nil Z) = Ret (s', mkChan (q ++ chunks) o, concat chunks) /\
    (length (q ++ chunks) <= CHANNEL_DEPTH)%nat /\ (o = false -> chunks = [])) as Hstop.
  { exists s, []. by rewrite app_nil_r. }
  unfold try_reserve. cbn [ch_open ch_queue].
  destruct o; cbn [andb negb]; [|exact Hstop].
  destruct (Nat.ltb_spec (length q) CHANNEL_DEPTH) as [Hlt|]; cbn [negb]; [|exact Hstop].
  destruct (tcp_can_recv s); cbn [negb]; [|exact Hstop].
  destruct (default (s, []) (tcp_recv s)) as [s1 [|x chunk]];
    [exists s1, []; by rewrite app_nil_r|].
  unfold chan_push. cbn [ch_queue ch_open].
  match goal with |- context [mkChan (q ++ ?x) _] => set (added := x) end.
  destruct (IH s1 (q ++ added)) as (s2 & chunks & -> & Hl & _);
    [rewrite length_app; unfold added; cbn [length]; lia..|].
  cbn [obind]. exists s2, ((x :: chunk) :: chunks). unfold added in *. rewrite <- app_assoc in Hl |- *.
  split; [reflexivity|]. split; [exact Hl|done].
Qed.

Lemma flush_spec `{!SmoltcpLaws S} s b :
  exists s' sent rest, flush s b = Ret (s', mkBridge (conn b) rest (target_done b), sent) /\
    pending b = sent ++ rest.
Proof.
  unfold flush. destruct b as [c [|x p] d]; cbn [pending conn target_done]; [by exists s, [], []|].
  destruct (tcp_can_send s); [|by exists s, [], (x :: p)].
  destruct (tcp_send_slice s (x :: p)) as [[s' n]|] eqn:E; cbn [default from_option id].
  - apply send_slice_le in E. destruct (Nat.ltb_spec (length (x :: p)) n); [lia|].
    eexists _, _, _. split; [reflexivity|]. by rewrite take_drop.
  - by exists s, [], (x :: p).
Qed.

(** Fetching moves the oldest chunk from the channel to the pending bytes. *)
Lemma fetch_spec b :
  fetch b = mkBridge (mkConn (c_target (conn b)) (to_target (conn b)) (from_target (conn (fetch b))) (c_task (conn b)))
              (pending (fetch b)) (target_done (fetch b)) /\
  ch_open (from_target (conn (fetch b))) = ch_open (from_target (conn b)) /\
  pending (fetch b) ++ concat (ch_queue (from_target (conn (fetch b))))
    = pending b ++ concat (ch_queue (from_target (conn b))) /\
  (length (ch_queue (from_target (conn (fetch b)))) <= length (ch_queue (from_target (conn b))))%nat /\
  (forall P : bytes -> Prop, P [] -> Forall P (pending b :: ch_queue (from_target (conn b))) ->
     Forall P (pending (fetch b) :: ch_queue (from_target (conn (fetch b))))) /\
  ((target_done b = true -> from_target (conn b) = mkChan [] false) ->
   target_done (fetch b) = true -> from_target (conn (fetch b)) = mkChan [] false).
Proof.
  destruct b as [[t to [q o] tk] [|x p] d]; unfold fetch, try_recv;
    cbn [pending conn from_target to_target c_target c_task ch_queue ch_open target_done]; [|done].
  destruct q as [|c q]; cbn [pending conn from_target ch_queue ch_open target_done app].
  - destruct o; cbn [pending conn from_target ch_queue ch_open target_done]; split_and!; try done; try lia; auto.
  - split_and!; try done; [cbn; lia| |].
    + intros P Hnil H. by inversion H.
    + intros Hd Ht. by specialize (Hd Ht).
Qed.

Lemma service_ok `{!SmoltcpLaws S} s b tk wr rd gv :
  link_ok (mkLink s b tk wr rd gv) ->
  exists s' ob m, service s b = Ret (s', ob, m) /\
    (ob = None <-> tcp_is_open s' = false) /\
    forall b', ob = Some b' -> link_ok (mkLink s' b' (tk ++ taken m) wr rd (gv ++ given m)).
Proof.
  intros [Hdown Hup Htl Hfl Hch Hhand Hdone Hover Hcl]. cbn [l_socket l_bridge l_taken l_written l_read l_given] in *.
  unfold service. destruct b as [[t [q o] from tt] p d].
  cbn [conn to_target from_target c_target c_task pending target_done ch_queue ch_open] in *.
  destruct (pull_spec PULL_FUEL s q o) as (s1 & chunks & -> & Hl1 & Ho); [done|unfold PULL_FUEL; lia|].
  cbn [obind]. match goal with |- context [fetch ?x] => set (b1 := x) end.
  destruct (fetch_spec b1) as (Hf1 & Hf0 & Hf2 & Hf3 & Hf4 & Hf5). set (b2 := fetch b1) in *.
  destruct (flush_spec s1 b2) as (s2 & sent & rest & -> & Hp). cbn [obind].
  match goal with |- context [if ?c then tcp_close s2 else s2] => set (s3 := if c then tcp_close s2 else s2) end.
  eexists s3, _, _. split; [reflexivity|].
  split; [by destruct (tcp_is_open s3)|]. intros b' Hb'. destruct (tcp_is_open s3); [|done].
  injection Hb' as <-.
  pose proof (f_equal (fun b => c_task (conn b)) Hf1) as Ht.
  pose proof (f_equal (fun b => to_target (conn b)) Hf1) as Hto. cbn [conn c_task to_target b1] in Ht, Hto.
  assert (hand_up (conn b2) = hand_up (mkConn t (mkChan q o) from tt) /\
    hand_down (conn b2) = hand_down (mkConn t (mkChan q o) from tt)) as [Hu Hd]
    by (unfold hand_up, hand_down; rewrite Ht; by split).
  unfold b1 in Hf0, Hf2, Hf3, Hf4, Hf5. cbn [conn from_target pending target_done] in *.
  constructor; cbn [l_socket l_bridge l_taken l_written l_read l_given conn pending target_done taken given];
    rewrite ?Hu, ?Hd, ?Ht, ?Hf0, ?Hto; cbn [ch_open ch_queue]; try done.
  - rewrite Hdown. rewrite (app_assoc p), <- Hf2, Hp. by rewrite <- !app_assoc.
  - destruct o.
    + rewrite concat_app, Hup. by rewrite <- !app_assoc.
    + rewrite (Ho eq_refl). cbn. by rewrite app_nil_r.
  - lia.
  - apply (Hf4 (fun b => Z.of_nat (length b) <= 8192) ltac:(done)) in Hch. apply Forall_cons in Hch as [Hp1 Hp2].
    constructor; [|done]. rewrite Hp, length_app in Hp1. cbv beta in *. lia.
  - auto.
Qed.

(** The channel to the task never holds more than its depth. *)
Definition bridge_ok (b : Bridge) : Prop := (length (ch_queue (to_target (conn b))) <= CHANNEL_DEPTH)%nat.

Lemma service_bounded `{!SmoltcpLaws S} s b :
  bridge_ok b -> exists s' ob m, service s b = Ret (s', ob, m) /\ forall b', ob = Some b' -> bridge_ok b'.
Proof.
  unfold bridge_ok. destruct b as [[t [q o] from tt] p d]. cbn [conn to_target ch_queue]. intros Hq.
  unfold service. cbn [conn to_target].
  destruct (pull_spec PULL_FUEL s q o) as (s1 & chunks & -> & Hl1 & _); [done|unfold PULL_FUEL; lia|].
  cbn [obind]. match goal with |- context [fetch ?x] => destruct (fetch_spec x) as (Hf & _); set (b1 := x) in * end.
  destruct (flush_spec s1 (fetch b1)) as (s2 & sent & rest & -> & _). cbn [obind].
  do 3 eexists. split; [reflexivity|]. intros b' Hb'. case_match; [|done]. injection Hb' as <-.
  cbn [conn]. rewrite Hf. exact Hl1.
Qed.

(** An event that cannot happen changes nothing. *)
Definition task_run (ev : TaskEvent) (c : Conn) : Conn := default c (task_step c ev).

Lemma task_run_ok b ev : bridge_ok b -> bridge_ok (with_conn b (task_run ev (conn b))).
Proof.
  unfold bridge_ok, with_conn, task_run. cbn [conn]. intros Hq.
  destruct (task_step (conn b) ev) as [c|] eqn:E; [|exact Hq]. cbn [default]. unfold task_step in E.
  destruct (conn b) as [t [q o] f k]. cbn [c_task to_target from_target ch_queue ch_open c_target] in *.
  repeat case_hyp E; simplify_eq; cbn in *; lia.
Qed.

Lemma writing_hand rest c : hand_up (with_task c (writing rest)) = rest /\ hand_down (with_task c (writing rest)) = [].
Proof. by destruct rest. Qed.

Lemma writing_not_over rest : writing rest <> Over.
Proof. by destruct rest. Qed.

(** A task that is not over has both channels open. *)
Lemma open_of s b tk wr rd gv :
  link_ok (mkLink s b tk wr rd gv) -> c_task (conn b) <> Over ->
  ch_open (to_target (conn b)) = true /\ ch_open (from_target (conn b)) = true.
Proof.
  intros [_ _ _ _ _ _ _ Hover Hcl] Ht. cbn [l_bridge] in *.
  destruct (ch_open (to_target (conn b))); [|by destruct Ht; apply Hcl].
  destruct (ch_open (from_target (conn b))); [done|by destruct Ht; apply Hover].
Qed.

(** A step of a task that goes on: both channels stay open, and what it takes
    from one place it holds or has handed on. *)
Lemma task_goes_on s b tk wr rd gv c wr' rd' :
  link_ok (mkLink s b tk wr rd gv) -> c_task (conn b) <> Over -> c_task c <> Over ->
  ch_open (to_target c) = true -> ch_open (from_target c) = true ->
  wr' ++ hand_up c ++ concat (ch_queue (to_target c)) = wr ++ hand_up (conn b) ++ concat (ch_queue (to_target (conn b))) ->
  (forall pre, pre ++ concat (ch_queue (from_target (conn b))) ++ hand_down (conn b) = rd ->
     pre ++ concat (ch_queue (from_target c)) ++ hand_down c = rd') ->
  (length (ch_queue (to_target c)) <= length (ch_queue (to_target (conn b))))%nat ->
  (length (ch_queue (from_target c)) <= CHANNEL_DEPTH)%nat ->
  Forall (fun b => Z.of_nat (length b) <= 8192) (ch_queue (from_target c)) ->
  Z.of_nat (length (hand_down c)) <= 8192 ->
  link_ok (mkLink s (with_conn b c) tk wr' rd' gv).
Proof.
  intros Hok Hb Hc Hto Hfo Hup Hdown Htl Hfl Hch Hhand.
  destruct (open_of _ _ _ _ _ _ Hok Hb) as [Hbt Hbf].
  destruct Hok as [Kdown Kup Ktl _ Kch _ Kdone _ _]. cbn [l_bridge l_taken l_written l_read l_given] in *.
  rewrite Hbt in Kup.
  constructor; cbn [with_conn l_bridge l_taken l_written l_read l_given conn pending target_done];
    rewrite ?Hto, ?Hfo; try done.
  - rewrite app_assoc. symmetry. apply Hdown. by rewrite <- app_assoc.
  - by rewrite Hup.
  - lia.
  - inversion Kch. by constructor.
  - intros Hd. specialize (Kdone Hd). rewrite Kdone in Hbf. done.
Qed.

(** A task that ends with no chunk on the way from the target loses only what
    it has not written. *)
Lemma task_ends b s tk wr rd gv :
  link_ok (mkLink s b tk wr rd gv) -> c_task (conn b) <> Over -> hand_down (conn b) = [] ->
  link_ok (mkLink s (with_conn b (mkConn (c_target (conn b)) (mkChan [] false) (chan_close (from_target (conn b))) Over))
             tk (wr ++ []) (rd ++ []) gv).
Proof.
  intros Hok Hb Hh. destruct (open_of _ _ _ _ _ _ Hok Hb) as [Hbt Hbf].
  destruct Hok as [Kdown Kup _ Kfl Kch _ Kdone _ _]. cbn [l_bridge l_taken l_written l_read l_given] in *.
  rewrite Hbt in Kup. rewrite Hh in Kdown. rewrite !app_nil_r in *.
  constructor; cbn [with_conn chan_close l_bridge l_taken l_written l_read l_given conn pending target_done to_target
    from_target c_task ch_queue ch_open]; try done.
  - unfold hand_down. cbn. by rewrite app_nil_r.
  - rewrite Kup. by eexists.
  - cbn. lia.
  - intros Hd. unfold chan_close. by rewrite (Kdone Hd).
Qed.

Lemma task_ok s b tk wr rd gv c ev :
  link_ok (mkLink s b tk wr rd gv) -> task_step (conn b) ev = Some c ->
  link_ok (mkLink s (with_conn b c) tk (wr ++ written_by (conn b) ev) (rd ++ read_by ev) gv).
Proof.
  intros Hok Hs.
  assert (c_task (conn b) <> Over) as Hno by (intros E; destruct ev; unfold task_step in Hs; rewrite E in Hs; done).
  pose proof (task_goes_on _ _ _ _ _ _ c (wr ++ written_by (conn b) ev) (rd ++ read_by ev) Hok Hno) as Hgo.
  destruct (open_of _ _ _ _ _ _ Hok Hno) as [Hto Hfo]. pose proof Hok as Hk.
  destruct Hok as [Hdown Hup Htl Hfl Hch Hhand Hdone _ _]. cbn [l_bridge l_taken l_written l_read l_given] in *.
  apply Forall_cons in Hch as [Hpend Hq].
  destruct b as [[t [qt ot] [qf of_] k] p d].
  cbn [conn pending target_done to_target from_target ch_queue ch_open c_task] in *. subst ot of_.
  destruct ev as [| |n|x| |], k as [| |r|y|]; cbn [task_step c_task to_target from_target ch_queue with_task] in Hs;
    try discriminate.
  all: unfold written_by, read_by, hand_up, hand_down in *;
    cbn [c_task conn to_target from_target ch_queue ch_open pending target_done] in *.
  - simplify_eq. by apply Hgo; cbn; rewrite ?app_nil_r.
  - destruct qt as [|x qt]; [done|]. simplify_eq.
    destruct (writing_hand x (mkConn t (mkChan qt true) (mkChan qf true) Idle)) as [Hu Hd].
    unfold hand_up, hand_down in Hu, Hd. cbn [with_task c_task] in Hu, Hd.
    apply Hgo; cbn [c_task to_target from_target ch_queue ch_open length]; rewrite ?Hu, ?Hd, ?app_nil_r; try done;
      solve [apply writing_not_over|lia].
  - destruct (Nat.ltb_spec 0 n) as [Hn|]; [|done]. destruct (Nat.leb_spec n (length r)) as [Hl|]; [|done]. cbn in Hs.
    simplify_eq. destruct (writing_hand (drop n r) (mkConn t (mkChan qt true) (mkChan qf true) Idle)) as [Hu Hd].
    unfold hand_up, hand_down in Hu, Hd. cbn [with_task c_task] in Hu, Hd.
    apply Hgo; cbn [with_task c_task to_target from_target ch_queue ch_open]; rewrite ?Hu, ?Hd, ?app_nil_r; try done;
      [apply writing_not_over|].
    rewrite <- app_assoc. f_equal. by rewrite app_assoc, take_drop.
  - destruct (Nat.ltb_spec 0 (length x)); [|done]. destruct (Z.leb_spec (Z.of_nat (length x)) 8192); [|done]. cbn in Hs.
    simplify_eq. apply Hgo; cbn [with_task c_task to_target from_target ch_queue ch_open]; rewrite ?app_nil_r; try done.
    intros pre <-. by rewrite ?app_nil_r, <- app_assoc.
  - unfold try_reserve in Hs. cbn [ch_open ch_queue andb] in Hs.
    destruct (Nat.ltb_spec (length qf) CHANNEL_DEPTH); [|done]. simplify_eq.
    apply Hgo; cbn [chan_push c_task to_target from_target ch_queue ch_open]; rewrite ?app_nil_r; try done;
      [|rewrite length_app; cbn; lia|by apply Forall_app; split; [|constructor]].
    intros pre <-. rewrite concat_app. cbn. by rewrite app_nil_r.
  - injection Hs as <-. by apply (task_ends (mkBridge (mkConn t (mkChan qt true) (mkChan qf true) Dialling) p d)).
  - injection Hs as <-. by apply (task_ends (mkBridge (mkConn t (mkChan qt true) (mkChan qf true) Idle) p d)).
  - injection Hs as <-. by apply (task_ends (mkBridge (mkConn t (mkChan qt true) (mkChan qf true) (Writing r)) p d)).
Qed.

Lemma link_run_ok `{!SmoltcpLaws S} l l' : link_ok l -> rtc link_step l l' -> link_ok l'.
Proof.
  intros Hok Hrun. induction Hrun as [|l1 l2 l3 Hstep _ IH]; [done|]. apply IH. clear IH.
  destruct Hstep as [s b tk wr rd gv s' b' m E|s b tk wr rd gv c ev Ht|s b tk wr rd gv s'].
  - destruct (service_ok _ _ _ _ _ _ Hok) as (s1 & ob & m1 & E1 & _ & H). rewrite E in E1.
    injection E1 as <- <- <-. by apply H.
  - by apply task_ok.
  - destruct Hok. by constructor.
Qed.

Lemma link_new_ok s target : link_ok (link_new s target).
Proof. constructor; cbn; try done; [unfold CHANNEL_DEPTH; lia..|]. repeat constructor; cbn; lia. Qed.

(** C24: a bridged connection loses, repeats and reorders nothing. Over any
    interleaving of the loop's passes, the task's steps (a chunk taken from the
    channel is written piece by piece, a chunk read waits in the task's hands
    for room in the channel) and the network: the bytes read from the target are
    those given to the socket, then the pending chunk, the channel and the chunk
    in the task's hands; as long as the task runs, the bytes taken from the
    socket are those written to the target, then what is left of the chunk in
    the task's hands and the channel; once it has ended, what was written is a
    prefix of what was taken. When the target is done and nothing is pending,
    everything read from it has been given. At most sixteen chunks wait in
    either channel, the chunks on the way from the target hold at most 8192
    bytes, and every pass of the loop returns. *)
Theorem bridge_streams_in_order `{!SmoltcpLaws S} s target l :
  rtc link_step (link_new s target) l ->
  let b := l_bridge l in
  l_read l = l_given l ++ pending b ++ concat (ch_queue (from_target (conn b))) ++ hand_down (conn b) /\
  (if ch_open (to_target (conn b))
   then l_taken l = l_written l ++ hand_up (conn b) ++ concat (ch_queue (to_target (conn b)))
   else l_written l `prefix_of` l_taken l) /\
  (c_task (conn b) = Over <-> ch_open (to_target (conn b)) = false) /\
  (target_done b = true -> pending b = [] -> l_given l = l_read l) /\
  (length (ch_queue (to_target (conn b))) <= CHANNEL_DEPTH)%nat /\
  (length (ch_queue (from_target (conn b))) <= CHANNEL_DEPTH)%nat /\
  Forall (fun chunk => Z.of_nat (length chunk) <= 8192)
    (pending b :: hand_down (conn b) :: ch_queue (from_target (conn b))) /\
  exists s' ob m, service (l_socket l) b = Ret (s', ob, m) /\ (ob = None <-> tcp_is_open s' = false).
Proof.
  intros Hrun. pose proof (link_run_ok _ _ (link_new_ok s target) Hrun) as Hok.
  destruct l as [s1 b tk wr rd gv]. pose proof (service_ok _ _ _ _ _ _ Hok) as (s' & ob & m & E & Hn & _).
  destruct Hok as [Hdown Hup Htl Hfl Hch Hhand Hdone Hover Hcl].
  cbn [l_socket l_bridge l_taken l_written l_read l_given] in *.
  split_and!; try done.
  - intros Hd Hp. pose proof (proj2 Hover ltac:(by rewrite (Hdone Hd))) as Ht.
    by rewrite Hdown, Hp, (Hdone Hd); unfold hand_down; rewrite Ht; cbn; rewrite app_nil_r.
  - inversion Hch. by repeat constructor.
  - eauto.
Qed.

(** A pass over an idle connection: the socket has nothing to read, nothing has
    come from the target. *)
Lemma service_idle s t q k :
  tcp_can_recv s = false -> tcp_is_open s = true ->
  let b := mkBridge (mkConn t (mkChan q true) chan_new k) [] false in
  service s b = Ret (s, Some b, mkMoved [] []).
Proof.
  intros Hr Ho b. unfold service, b, PULL_FUEL. rewrite Nat.add_1_r. cbn [pull conn to_target].
  rewrite Hr. cbn [negb]. destruct (negb (try_reserve (mkChan q true))); cbn; by rewrite Ho.
Qed.

(** The end of the client's stream is not passed on: while the target is silent
    and the socket stays open without anything left to read, as in the state
    after the client has sent its FIN, any number of passes leaves the
    connection as it is, so the task never learns that the client is done. *)
Theorem half_close_not_forwarded s t q k n :
  tcp_can_recv s = false -> tcp_is_open s = true ->
  let b := mkBridge (mkConn t (mkChan q true) chan_new k) [] false in
  Nat.iter n (fun r => let! (s, ob, _) := r in
                       match ob with Some b => service s b | None => r end)
    (Ret (s, Some b, mkMoved [] [])) = Ret (s, Some b, mkMoved [] []).
Proof.
  intros Hr Ho b. induction n as [|n IH]; [done|]. cbn [Nat.iter nat_rect]. unfold Nat.iter in IH. rewrite IH.
  cbn [obind]. by apply service_idle.
Qed.
End service.

(** ** Witness *)

Definition toy_socket (i : bytes) : ToySocket := mkToySocket 80 true true i [].
Definition link0 : Link := link_new (toy_socket [1; 2; 3]) [].
Definition on_way (q : list bytes) (k : Task) : Bridge := mkBridge (mkConn [] (mkChan q true) chan_new k) [] false.
Definition link1 : Link := mkLink (toy_socket []) (on_way [[1; 2; 3]] Dialling) [1; 2; 3] [] [] [].
Definition link2 : Link := mkLink (toy_socket []) (on_way [[1; 2; 3]] Idle) [1; 2; 3] [] [] [].
Definition link3 : Link := mkLink (toy_socket []) (on_way [] (Writing [1; 2; 3])) [1; 2; 3] [] [] [].
Definition link4 : Link := mkLink (toy_socket []) (on_way [] (Writing [3])) [1; 2; 3] [1; 2] [] [].

Lemma bridge_streams_in_order_witness :
  let b := l_bridge link4 in
  l_read link4 = l_given link4 ++ pending b ++ concat (ch_queue (from_target (conn b))) ++ hand_down (conn b) /\
  (if ch_open (to_target (conn b))
   then l_taken link4 = l_written link4 ++ hand_up (conn b) ++ concat (ch_queue (to_target (conn b)))
   else l_written link4 `prefix_of` l_taken link4) /\
  (c_task (conn b) = Over <-> ch_open (to_target (conn b)) = false) /\
  (target_done b = true -> pending b = [] -> l_given link4 = l_read link4) /\
  (length (ch_queue (to_target (conn b))) <= CHANNEL_DEPTH)%nat /\
  (length (ch_queue (from_target (conn b))) <= CHANNEL_DEPTH)%nat /\
  Forall (fun chunk => Z.of_nat (length chunk) <= 8192)
    (pending b :: hand_down (conn b) :: ch_queue (from_target (conn b))) /\
  exists s' ob m, service (l_socket link4) b = Ret (s', ob, m) /\ (ob = None <-> tcp_is_open s' = false).
Proof.
  apply (bridge_streams_in_order (S := ToySmoltcp) (toy_socket [1; 2; 3]) [] link4).
  apply (rtc_l _ _ link1).
  { exact (LinkService (S := ToySmoltcp) (toy_socket [1; 2; 3]) (Bridge_new (spawn_tcp [])) [] [] [] [] (toy_socket [])
      (on_way [[1; 2; 3]] Dialling) (mkMoved [1; 2; 3] []) eq_refl). }
  apply (rtc_l _ _ link2).
  { exact (LinkTask (S := ToySmoltcp) (toy_socket []) (on_way [[1; 2; 3]] Dialling) [1; 2; 3] [] [] []
      (conn (on_way [[1; 2; 3]] Idle)) Dialled eq_refl). }
  apply (rtc_l _ _ link3).
  { exact (LinkTask (S := ToySmoltcp) (toy_socket []) (on_way [[1; 2; 3]] Idle) [1; 2; 3] [] [] []
      (conn (on_way [] (Writing [1; 2; 3]))) Took eq_refl). }
  apply (rtc_l _ _ link4); [|apply rtc_refl].
  exact (LinkTask (S := ToySmoltcp) (toy_socket []) (on_way [] (Writing [1; 2; 3])) [1; 2; 3] [] [] []
    (conn (on_way [] (Writing [3]))) (Wrote 2) eq_refl).
Defined.
