(* ===== verification/DataPlane.v ===== *)
(** The data plane of the connector, [DataPlane] of [newt/src/tunnel.rs]: the
    listener table, the bridged connections, the pump and the network stack. *)

From Stdlib Require Import String Sorted.
From S2P Require Import Prelude Time Errors Replay Crypto ToyCrypto Packet Session.
From S2P Require Import Handshake HandshakeFacts RateLimiter Timers Tunn TunnFacts TunnProps Text.
From S2P Require Import Wg Target Netstack Bridge Icmp.

Record Listener := mkListener { port : Z; target : str; handle : SocketHandle }.

Definition TCP_RX : Z := 4096.
Definition TCP_TX : Z := 4096.

(** ** Vectors *)

(** [Iterator::position]. *)
Fixpoint position {A} (p : A -> bool) (l : list A) : option nat :=
  match l with
  | [] => None
  | x :: l' => if p x then Some 0%nat else S <$> position p l'
  end.

(** [Vec::swap_remove]: the last element takes the place of the removed one;
    out of range it panics. *)
Definition swap_remove {A} (i : nat) (l : list A) : outcome (A * list A) :=
  let n := pred (length l) in
  match l !! i, l !! n with
  | Some x, Some last => Ret (x, take n (<[i := last]> l))
  | _, _ => Panicked
  end.

(** [format!("{}:{}", host, port)]. *)
Definition dest_of (t : Target) : str := host t ++ COLON :: display_u16 (target_port t).

Section plane.
Context {S : Smoltcp}.

(** ** Sockets *)

(** [SocketSet::get] and [SocketSet::remove] panic on a handle that is not in
    the set. *)
Definition get_socket (st : Stack) (h : SocketHandle) : outcome Socket :=
  match sockets st !! h with Some s => Ret s | None => Panicked end.

Definition remove_socket (st : Stack) (h : SocketHandle) : outcome Stack :=
  let! _ := get_socket st h in
  Ret (set_sockets st (delete h (sockets st))).

Definition add_listener (st : Stack) (p : Z) : Stack * SocketHandle :=
  let '(set, h) := set_add (sockets st) (tcp_new TCP_RX TCP_TX) in
  (set_sockets st (alter (fun s => tcp_listen s p) h set), h).

(** ** The listener table *)

(** Start listening for a target: push its entry. *)
Definition push_listener (st : Stack) (ls : list Listener) (t : Target) : Stack * list Listener :=
  let '(st, h) := add_listener st (listen_port t) in
  (st, ls ++ [mkListener (listen_port t) (dest_of t) h]).

(** Targets that do not parse are skipped, and so are ports already served. *)
Definition add_target (acc : Stack * list Listener) (spec : str) : Stack * list Listener :=
  let '(st, ls) := acc in
  match Target_parse spec with
  | None => (st, ls)
  | Some t => if existsb (fun l => port l =? listen_port t) ls then (st, ls) else push_listener st ls t
  end.

Definition add_targets (st : Stack) (ls : list Listener) (specs : list str) : Stack * list Listener :=
  foldl add_target (st, ls) specs.

(** [while let Some(i) = position(..)]: drop every listener of a port. Each
    round shortens the table. *)
Fixpoint remove_port (fuel : nat) (p : Z) (st : Stack) (ls : list Listener)
  : outcome (Stack * list Listener) :=
  match fuel with
  | O => Diverged
  | Datatypes.S fuel' =>
      match position (fun l => port l =? p) ls with
      | None => Ret (st, ls)
      | Some i =>
          let! (l, ls) := swap_remove i ls in
          let! st := remove_socket st (handle l) in
          remove_port fuel' p st ls
      end
  end.

Definition drop_port (p : Z) (st : Stack) (ls : list Listener) : outcome (Stack * list Listener) :=
  remove_port (length ls + 1) p st ls.

Fixpoint drop_ports (ps : list Z) (st : Stack) (ls : list Listener) : outcome (Stack * list Listener) :=
  match ps with
  | [] => Ret (st, ls)
  | p :: ps' => let! (st, ls) := drop_port p st ls in drop_ports ps' st ls
  end.

Definition remove_targets (st : Stack) (ls : list Listener) (specs : list str)
  : outcome (Stack * list Listener) :=
  drop_ports (map listen_port (omap Target_parse specs)) st ls.

(** Change the destination of the first listener of the target's port, or add
    one. *)
Definition upsert_target (acc : Stack * list Listener) (t : Target) : Stack * list Listener :=
  let '(st, ls) := acc in
  match position (fun l => port l =? listen_port t) ls with
  | Some i => (st, alter (fun l => mkListener (port l) (dest_of t) (handle l)) i ls)
  | None => push_listener st ls t
  end.

Definition reconcile_targets (st : Stack) (ls : list Listener) (specs : list str)
  : outcome (Stack * list Listener) :=
  let desired := omap Target_parse specs in
  let keep := map listen_port desired in
  let gone := filter (fun p => p ∉ keep) (map port ls) in
  let! (st, ls) := drop_ports gone st ls in
  Ret (foldl upsert_target (st, ls) desired).

(** ** Connections *)

Abbreviation Conns := (gmap SocketHandle Bridge).

(** The listeners whose socket became active and has no bridge: their indices
    and ports. *)
Fixpoint promoted (st : Stack) (conns : Conns) (i : nat) (ls : list Listener) : outcome (list (nat * Z)) :=
  match ls with
  | [] => Ret []
  | l :: ls' =>
      let! s := get_socket st (handle l) in
      let! rest := promoted st conns (i + 1) ls' in
      Ret (if tcp_is_active s && negb (bool_decide (is_Some (conns !! handle l))) then (i, port l) :: rest else rest)
  end.

(** The listening socket becomes the connection's; a fresh one on the port that
    was noted takes its place in the table. *)
Fixpoint promote (idx : list (nat * Z)) (st : Stack) (ls : list Listener) (conns : Conns)
  : outcome (Stack * list Listener * Conns) :=
  match idx with
  | [] => Ret (st, ls, conns)
  | (i, p) :: idx' =>
      let! (l, ls) := swap_remove i ls in
      let conns := <[handle l := Bridge_new (spawn_tcp (target l))]> conns in
      let '(st, h) := add_listener st p in
      promote idx' st (ls ++ [mkListener p (target l) h]) conns
  end.

Definition accept_new (st : Stack) (ls : list Listener) (conns : Conns)
  : outcome (Stack * list Listener * Conns) :=
  let! idx := promoted st conns 0 ls in
  promote (rev idx) st ls conns.

(** The body of [shuttle]'s loop. *)
Definition shuttle_one (st : Stack) (conns : Conns) (h : SocketHandle) : outcome (Stack * Conns) :=
  let! s := get_socket st h in
  match conns !! h with
  | Some b =>
      let! (s, ob, _) := service s b in
      match ob with
      | Some b => Ret (set_sockets st (<[h := s]> (sockets st)), <[h := b]> conns)
      | None => Ret (set_sockets st (delete h (sockets st)), delete h conns)
      end
  | None =>
      if tcp_is_open s then Ret (st, conns)
      else Ret (set_sockets st (delete h (sockets st)), conns)
  end.

(** [order] is the order in which the hash map yields its keys. *)
Fixpoint shuttle (order : list SocketHandle) (st : Stack) (conns : Conns) : outcome (Stack * Conns) :=
  match order with
  | [] => Ret (st, conns)
  | h :: order' => let! (st, conns) := shuttle_one st conns h in shuttle order' st conns
  end.

(** ** Invariant *)

(** Every socket in the set is a listener's or a connection's, never both, and
    no two listeners share one: no handle dangles and no socket leaks. *)
Record plane_ok (st : Stack) (ls : list Listener) (conns : Conns) : Prop := {
  po_sockets : dom (sockets st) = list_to_set (map handle ls) ∪ dom conns;
  po_handles : NoDup (map handle ls);
  po_disjoint : forall l, l ∈ ls -> conns !! handle l = None
}.

Definition one_per_port (ls : list Listener) : Prop := NoDup (map port ls).

(** The destination of each port. *)
Definition routes (ls : list Listener) : gmap Z str := list_to_map (map (fun l => (port l, target l)) ls).

(** The table a list of targets asks for; later targets win. *)
Definition wanted (ts : list Target) : gmap Z str :=
  foldl (fun m t => <[listen_port t := dest_of t]> m) ∅ ts.
End plane.

(** ** Vectors *)

Lemma swap_remove_spec {A} i (l : list A) x :
  l !! i = Some x ->
  exists l', swap_remove i l = Ret (x, l') /\ l ≡ₚ x :: l' /\
    (forall k, (k < i)%nat -> l' !! k = l !! k) /\ length l = Datatypes.S (length l').
Proof.
  intros Hx. apply list_elem_of_split_length in Hx as (l1 & l2 & -> & ->). unfold swap_remove.
  rewrite list_lookup_middle by done. destruct l2 as [|y m _] using rev_ind.
  - rewrite length_app, Nat.add_1_r. cbn [pred]. rewrite list_lookup_middle by done.
    rewrite list_insert_id by (by rewrite list_lookup_middle). rewrite take_app_length.
    exists l1. split; [done|]. split; [by rewrite Permutation_app_comm|].
    split; [|rewrite ?length_app; cbn; lia]. intros k Hk. by rewrite lookup_app_l.
  - assert (pred (length (l1 ++ x :: m ++ [y])) = length (l1 ++ x :: m)) as ->
      by (rewrite !length_app; cbn; rewrite length_app; cbn; lia).
    assert (l1 ++ x :: m ++ [y] = (l1 ++ x :: m) ++ [y]) as E by (by rewrite <- app_assoc).
    assert ((l1 ++ x :: m ++ [y]) !! length (l1 ++ x :: m) = Some y) as Hlast
      by (rewrite E; by apply list_lookup_middle).
    cbv zeta. rewrite Hlast.
    rewrite insert_app_r_alt by done. rewrite Nat.sub_diag. cbn [insert list_insert].
    exists (l1 ++ y :: m). split.
    { f_equal. f_equal. rewrite app_comm_cons, app_assoc.
      replace (length (l1 ++ x :: m)) with (length (l1 ++ y :: m)) by (by rewrite !length_app).
      apply take_app_length. }
    split; [rewrite E; solve_Permutation|]. split; [|rewrite !length_app; cbn; rewrite length_app; cbn; lia].
    intros k Hk. by rewrite !lookup_app_l.
Qed.

Lemma position_some {A} (p : A -> bool) l i :
  position p l = Some i -> exists x, l !! i = Some x /\ p x = true /\
    forall j y, (j < i)%nat -> l !! j = Some y -> p y = false.
Proof.
  revert i. induction l as [|a l IH]; intros i H; [done|]. cbn [position] in H.
  destruct (p a) eqn:Ea.
  - simplify_eq. exists a. split_and!; [done..|]. intros j y Hj. lia.
  - apply fmap_Some in H as (j & Hj & ->). destruct (IH j Hj) as (x & ? & ? & Hf).
    exists x. split_and!; [done..|]. intros [|k] y Hk Hy; cbn in Hy; [by simplify_eq|].
    eapply Hf; [|done]. lia.
Qed.

Lemma position_none {A} (p : A -> bool) l : position p l = None -> forall x, x ∈ l -> p x = false.
Proof.
  induction l as [|a l IH]; intros H x Hx; [by apply not_elem_of_nil in Hx|]. cbn [position] in H.
  destruct (p a) eqn:Ea; [done|]. apply fmap_None in H.
  apply elem_of_cons in Hx as [->|Hx]; auto.
Qed.

Lemma elem_of_rev {A} (x : A) l : x ∈ rev l <-> x ∈ l.
Proof. by rewrite !list_elem_of_In, <- in_rev. Qed.

Lemma sorted_rev l : StronglySorted lt l -> StronglySorted gt (rev l).
Proof.
  assert (forall a k, StronglySorted gt k -> Forall (fun x => x > a)%nat k -> StronglySorted gt (k ++ [a])) as Hsnoc.
  { intros a k. induction 1 as [|x k Hk IH Hx]; intros Hf; [constructor; constructor|].
    inversion Hf; subst. cbn. constructor; [by apply IH|]. apply Forall_app. by rewrite Forall_singleton. }
  induction 1 as [|a l Hl IH Ha]; [constructor|]. cbn. apply Hsnoc; [done|].
  apply Forall_forall. intros x Hx. rewrite elem_of_rev in Hx. rewrite Forall_forall in Ha. apply Ha in Hx. lia.
Qed.

(** ** The table *)

Section table.
Context {S : Smoltcp} {L : SmoltcpLaws S}.

#[export] Instance plane_ok_proper : Proper ((=) ==> (≡ₚ) ==> (=) ==> iff) plane_ok.
Proof.
  intros st ? <- ls ls' Hp conns ? <-.
  enough (forall a b, a ≡ₚ b -> plane_ok st a conns -> plane_ok st b conns) as H
    by (split; apply H; [done|by symmetry]).
  intros a b Hab [H1 H2 H3]. constructor.
  - rewrite H1. f_equal. apply list_to_set_perm_L. by rewrite Hab.
  - by rewrite <- Hab.
  - intros l Hl. apply H3. by rewrite Hab.
Qed.

#[export] Instance one_per_port_proper : Proper ((≡ₚ) ==> iff) one_per_port.
Proof. intros a b Hab. unfold one_per_port. by rewrite Hab. Qed.

Lemma routes_perm a b : one_per_port a -> a ≡ₚ b -> routes a = routes b.
Proof.
  intros Hn Hab. unfold routes. apply list_to_map_proper; [|by rewrite Hab].
  by rewrite <- list_fmap_compose.
Qed.

Lemma plane_get st ls conns l :
  plane_ok st ls conns -> l ∈ ls -> exists s, sockets st !! handle l = Some s.
Proof.
  intros [H1 _ _] Hl. apply (elem_of_dom (D := gset SocketHandle)). rewrite H1. apply elem_of_union_l, elem_of_list_to_set.
  by apply (list_elem_of_fmap_2 handle).
Qed.

(** Taking a listener out of the table and its socket out of the set. *)
Lemma plane_drop st l ls conns :
  plane_ok st (l :: ls) conns ->
  exists st', remove_socket st (handle l) = Ret st' /\ plane_ok st' ls conns /\
    device st' = device st /\ iface st' = iface st /\ sockets st' = delete (handle l) (sockets st).
Proof.
  intros Hok. destruct (plane_get _ _ _ l Hok) as [s Hs]; [by left|].
  unfold remove_socket, get_socket. rewrite Hs. cbn [obind].
  eexists. split; [reflexivity|]. split; [|done]. destruct Hok as [H1 H2 H3].
  cbn [map] in H2. apply NoDup_cons in H2 as [Hni H2]. constructor; [|done|intros x Hx; apply H3; by right].
  cbn [sockets set_sockets]. rewrite dom_delete_L, H1. cbn [map list_to_set].
  assert (handle l ∉ dom conns) by (apply not_elem_of_dom, H3; by left).
  assert (handle l ∉ (list_to_set (map handle ls) : gset nat)) by (by rewrite elem_of_list_to_set).
  set_solver.
Qed.

(** Adding a listener with a fresh socket. *)
Lemma plane_add st ls conns p t :
  plane_ok st ls conns ->
  exists st' h s, add_listener st p = (st', h) /\ plane_ok st' (ls ++ [mkListener p t h]) conns /\
    device st' = device st /\ iface st' = iface st /\
    sockets st !! h = None /\ sockets st' = <[h := s]> (sockets st).
Proof.
  intros [H1 H2 H3]. unfold add_listener, set_add. pose proof (fresh_unused (sockets st)) as Hf.
  set (h := fresh_handle (sockets st)) in *.
  exists (set_sockets st (<[h := tcp_listen (tcp_new TCP_RX TCP_TX) p]> (sockets st))), h,
    (tcp_listen (tcp_new TCP_RX TCP_TX) p).
  split; [by rewrite alter_insert_eq|]. split; [|done].
  assert (h ∉ dom (sockets st)) as Hd by (by apply not_elem_of_dom). rewrite H1 in Hd.
  apply not_elem_of_union in Hd as [Hd1 Hd2]. rewrite elem_of_list_to_set in Hd1.
  constructor.
  - cbn [sockets set_sockets]. rewrite dom_insert_L, H1, map_app, list_to_set_app_L. cbn. set_solver.
  - rewrite map_app. apply NoDup_app. split; [done|]. split; [|apply NoDup_singleton].
    intros x Hx Hx'. cbn in Hx'. apply list_elem_of_singleton in Hx' as ->. done.
  - intros l [Hl|Hl]%elem_of_app; [by apply H3|]. apply list_elem_of_singleton in Hl as ->.
    by apply not_elem_of_dom.
Qed.

Lemma remove_port_spec fuel p st ls conns :
  plane_ok st ls conns -> (length ls < fuel)%nat ->
  exists st' ls', remove_port fuel p st ls = Ret (st', ls') /\ plane_ok st' ls' conns /\
    ls' ≡ₚ filter (fun l => port l <> p) ls /\ device st' = device st /\ iface st' = iface st /\
    sockets st' ⊆ sockets st.
Proof.
  revert st ls. induction fuel as [|fuel IH]; intros st ls Hok Hf; [lia|]. cbn [remove_port].
  destruct (position _ ls) as [i|] eqn:Ep.
  - apply position_some in Ep as (l & Hl & Hp & _). apply Z.eqb_eq in Hp.
    destruct (swap_remove_spec i ls l Hl) as (ls1 & -> & Hperm & _ & Hlen). cbn [obind].
    rewrite Hperm in Hok. destruct (plane_drop _ _ _ _ Hok) as (st1 & -> & Hok1 & Hd & Hi & Hs). cbn [obind].
    destruct (IH st1 ls1 Hok1 ltac:(lia)) as (st' & ls' & E & Hok' & Hf' & Hd' & Hi' & Hs').
    exists st', ls'. split; [exact E|]. split; [done|]. split.
    { rewrite Hf', Hperm, filter_cons_False by (by intros ?). done. }
    split; [congruence|]. split; [congruence|]. rewrite Hs in Hs'. etransitivity; [exact Hs'|apply delete_subseteq].
  - exists st, ls. split; [done|]. split; [done|]. split; [|done].
    assert (forall x, x ∈ ls -> port x <> p) as Hall
      by (intros x Hx; apply (position_none _ _ Ep) in Hx; by apply Z.eqb_neq in Hx).
    clear - Hall. induction ls as [|l ls IH]; [done|]. rewrite filter_cons_True by (apply Hall; by left).
    f_equiv. apply IH. intros x Hx. apply Hall. by right.
Qed.

Lemma drop_ports_spec ps st ls conns :
  plane_ok st ls conns ->
  exists st' ls', drop_ports ps st ls = Ret (st', ls') /\ plane_ok st' ls' conns /\
    ls' ≡ₚ filter (fun l => port l ∉ ps) ls /\ device st' = device st /\ iface st' = iface st /\
    sockets st' ⊆ sockets st.
Proof.
  revert st ls. induction ps as [|p ps IH]; intros st ls Hok; cbn [drop_ports].
  - exists st, ls. split_and!; try done. clear Hok. induction ls as [|l ls IH]; [done|].
    rewrite filter_cons_True by apply not_elem_of_nil. by f_equiv.
  - destruct (remove_port_spec (length ls + 1) p st ls conns Hok ltac:(lia))
      as (st1 & ls1 & E1 & Hok1 & Hf1 & Hd1 & Hi1 & Hs1). unfold drop_port. rewrite E1. cbn [obind].
    destruct (IH st1 ls1 Hok1) as (st' & ls' & E & Hok' & Hf' & Hd' & Hi' & Hs').
    exists st', ls'. split; [exact E|]. split; [done|]. split; [|split_and!; try congruence; by etransitivity].
    rewrite Hf', Hf1. rewrite list_filter_filter. erewrite list_filter_iff; [reflexivity|].
    intros l. cbv beta. rewrite not_elem_of_cons. tauto.
Qed.

Lemma plane_ok_handles st ls ls' conns :
  map handle ls = map handle ls' -> plane_ok st ls conns -> plane_ok st ls' conns.
Proof.
  intros E [H1 H2 H3]. constructor; rewrite <- ?E; [done..|]. intros l Hl.
  apply (list_elem_of_fmap_2 handle) in Hl. change (handle <$> ls') with (map handle ls') in Hl.
  rewrite <- E in Hl. apply list_elem_of_fmap in Hl as (x & -> & Hx). by apply H3.
Qed.

(** The listeners of [ls] are still there, on the same ports and sockets. *)
Definition keeps_sockets (ls ls' : list Listener) : Prop :=
  forall l, l ∈ ls -> exists l', l' ∈ ls' /\ port l' = port l /\ handle l' = handle l.

Lemma keeps_refl ls : keeps_sockets ls ls.
Proof. intros l Hl. eauto. Qed.

Lemma keeps_trans a b c : keeps_sockets a b -> keeps_sockets b c -> keeps_sockets a c.
Proof.
  intros Hab Hbc l Hl. destruct (Hab l Hl) as (l1 & Hl1 & ? & ?). destruct (Hbc l1 Hl1) as (l2 & Hl2 & ? & ?).
  exists l2. split_and!; [done|congruence..].
Qed.

Lemma push_listener_spec st ls conns t st' ls' :
  plane_ok st ls conns -> one_per_port ls -> (forall l, l ∈ ls -> port l <> listen_port t) ->
  push_listener st ls t = (st', ls') ->
  plane_ok st' ls' conns /\ one_per_port ls' /\ keeps_sockets ls ls' /\
  routes ls' = <[listen_port t := dest_of t]> (routes ls) /\ device st' = device st.
Proof.
  intros Hok Hone Hnew E. unfold push_listener in E.
  destruct (plane_add st ls conns (listen_port t) (dest_of t) Hok) as (st1 & h & s & E1 & Hok1 & Hd & _).
  rewrite E1 in E. injection E as <- <-. split; [done|].
  set (new := mkListener (listen_port t) (dest_of t) h).
  assert (one_per_port (new :: ls)) as Hone'.
  { unfold one_per_port. cbn [map]. apply NoDup_cons. split; [|done].
    intros (l & Hp & Hl)%list_elem_of_fmap. by apply (Hnew l Hl). }
  assert (new :: ls ≡ₚ ls ++ [new]) as Hperm by (by rewrite Permutation_app_comm).
  split; [by rewrite <- Hperm|]. split; [intros l Hl; exists l; split; [by apply elem_of_app; left|done]|].
  split; [|done]. by rewrite <- (routes_perm _ _ Hone' Hperm).
Qed.

Lemma upsert_target_spec st ls conns t st' ls' :
  plane_ok st ls conns -> one_per_port ls -> upsert_target (st, ls) t = (st', ls') ->
  plane_ok st' ls' conns /\ one_per_port ls' /\ keeps_sockets ls ls' /\
  routes ls' = <[listen_port t := dest_of t]> (routes ls) /\ device st' = device st.
Proof.
  intros Hok Hone E. cbn [upsert_target] in E. destruct (position _ ls) as [i|] eqn:Ep.
  - injection E as <- <-. apply position_some in Ep as (l & Hl & Hp & _). apply Z.eqb_eq in Hp.
    apply list_elem_of_split_length in Hl as (l1 & l2 & -> & ->).
    rewrite alter_app_r_alt by done. rewrite Nat.sub_diag. cbn [alter list_alter].
    set (new := mkListener (port l) (dest_of t) (handle l)).
    assert (map handle (l1 ++ l :: l2) = map handle (l1 ++ new :: l2)) as Hh by (by rewrite !map_app).
    assert (map port (l1 ++ l :: l2) = map port (l1 ++ new :: l2)) as Hpt by (by rewrite !map_app).
    split; [by eapply plane_ok_handles|].
    assert (one_per_port (l1 ++ new :: l2)) as Hone' by (unfold one_per_port; by rewrite <- Hpt).
    split; [done|]. split.
    { intros x [Hx|[->|Hx]%elem_of_cons]%elem_of_app.
      - exists x. split; [|done]. apply elem_of_app. by left.
      - exists new. split; [|done]. apply elem_of_app. right. by left.
      - exists x. split; [|done]. apply elem_of_app. right. by right. }
    split; [|done]. rewrite (routes_perm (l1 ++ l :: l2) (l :: l1 ++ l2)), (routes_perm (l1 ++ new :: l2) (new :: l1 ++ l2));
      [|done|solve_Permutation|done|solve_Permutation].
    unfold routes, new. cbn [map list_to_map foldr port target fst snd]. by rewrite Hp, insert_insert_eq.
  - eapply push_listener_spec; [done..| |exact E]. intros l Hl. apply (position_none _ _ Ep) in Hl.
    by apply Z.eqb_neq in Hl.
Qed.

Lemma upsert_targets_spec ts st ls conns st' ls' :
  plane_ok st ls conns -> one_per_port ls -> foldl upsert_target (st, ls) ts = (st', ls') ->
  plane_ok st' ls' conns /\ one_per_port ls' /\ keeps_sockets ls ls' /\
  routes ls' = foldl (fun m t => <[listen_port t := dest_of t]> m) (routes ls) ts /\ device st' = device st.
Proof.
  revert st ls. induction ts as [|t ts IH]; intros st ls Hok Hone E; cbn [foldl] in E |- *.
  - injection E as <- <-. split_and!; try done. apply keeps_refl.
  - destruct (upsert_target (st, ls) t) as [st1 ls1] eqn:E1.
    destruct (upsert_target_spec _ _ _ _ _ _ Hok Hone E1) as (Hok1 & Hone1 & Hk1 & Hr1 & Hd1).
    destruct (IH _ _ Hok1 Hone1 E) as (Hok' & Hone' & Hk' & Hr' & Hd').
    split_and!; [done|done|by eapply keeps_trans| |congruence]. by rewrite Hr', Hr1.
Qed.

(** Overwriting all the ports of a map leaves nothing of it. *)
Lemma wanted_fold ts (m1 m2 : gmap Z str) :
  (forall k, k ∉ map listen_port ts -> m1 !! k = m2 !! k) ->
  foldl (fun m t => <[listen_port t := dest_of t]> m) m1 ts
  = foldl (fun m t => <[listen_port t := dest_of t]> m) m2 ts.
Proof.
  revert m1 m2. induction ts as [|t ts IH]; intros m1 m2 H; cbn [foldl map] in *.
  - apply map_eq. intros k. apply H. apply not_elem_of_nil.
  - apply IH. intros k Hk. destruct (decide (k = listen_port t)) as [->|Hne].
    + by rewrite !lookup_insert_eq.
    + rewrite !lookup_insert_ne by done. apply H. by apply not_elem_of_cons.
Qed.

Lemma one_per_port_filter (P : Listener -> Prop) `{!forall l, Decision (P l)} ls :
  one_per_port ls -> one_per_port (filter P ls).
Proof.
  unfold one_per_port. induction ls as [|l ls IH]; [done|]. cbn [map]. intros [Hn Hone]%NoDup_cons.
  rewrite filter_cons. case_decide; [|auto]. cbn [map]. apply NoDup_cons. split; [|auto].
  intros (x & Hx & [_ Hin]%list_elem_of_filter)%list_elem_of_fmap. apply Hn. rewrite Hx.
  by apply (list_elem_of_fmap_2 port).
Qed.

Lemma routes_none ls k : k ∉ map port ls -> routes ls !! k = None.
Proof.
  intros Hk. apply not_elem_of_list_to_map_1. by rewrite <- list_fmap_compose.
Qed.

Lemma plane_empty st : sockets st = ∅ -> plane_ok st [] ∅.
Proof. intros E. constructor; [by rewrite E, !dom_empty_L|constructor|by intros ? ?%not_elem_of_nil]. Qed.

(** A table whose sockets have only been polled is as consistent as before. *)
Lemma plane_ok_dom st st' ls conns :
  dom (sockets st') = dom (sockets st) -> plane_ok st ls conns -> plane_ok st' ls conns.
Proof. intros E [H1 H2 H3]. constructor; [by rewrite E|done..]. Qed.

Lemma add_targets_spec specs st ls conns st' ls' :
  plane_ok st ls conns -> one_per_port ls -> add_targets st ls specs = (st', ls') ->
  plane_ok st' ls' conns /\ one_per_port ls' /\ keeps_sockets ls ls' /\ device st' = device st.
Proof.
  unfold add_targets. revert st ls. induction specs as [|spec specs IH]; intros st ls Hok Hone E; cbn [foldl] in E.
  { injection E as <- <-. split_and!; [done..|apply keeps_refl|done]. }
  unfold add_target at 2 in E. destruct (Target_parse spec) as [t|]; [|by apply IH].
  destruct (existsb _ ls) eqn:Ex; [by apply IH|].
  destruct (push_listener st ls t) as [st1 ls1] eqn:E1.
  destruct (push_listener_spec st ls conns t st1 ls1) as (Hok1 & Hone1 & Hk1 & _ & Hd1); [done..| |done|].
  { intros l Hl Hp. apply not_true_iff_false in Ex. apply Ex, existsb_exists. exists l.
    rewrite <- list_elem_of_In. split; [done|by apply Z.eqb_eq]. }
  destruct (IH st1 ls1 Hok1 Hone1 E) as (? & ? & ? & ?). split_and!; [done..|by eapply keeps_trans|congruence].
Qed.

Lemma remove_targets_spec specs st ls conns :
  plane_ok st ls conns -> one_per_port ls ->
  exists st' ls', remove_targets st ls specs = Ret (st', ls') /\ plane_ok st' ls' conns /\ one_per_port ls' /\
    ls' ≡ₚ filter (fun l => port l ∉ map listen_port (omap Target_parse specs)) ls /\ device st' = device st.
Proof.
  intros Hok Hone. unfold remove_targets.
  destruct (drop_ports_spec (map listen_port (omap Target_parse specs)) st ls conns Hok)
    as (st' & ls' & E & Hok' & Hp & Hd & _).
  exists st', ls'. split_and!; [done..| |done|done]. rewrite Hp. by apply one_per_port_filter.
Qed.

(** Consistency alone does not need one listener per port. *)
Lemma push_listener_plane st ls conns t st' ls' :
  plane_ok st ls conns -> push_listener st ls t = (st', ls') ->
  plane_ok st' ls' conns /\ device st' = device st.
Proof.
  intros Hok E. unfold push_listener in E.
  destruct (plane_add st ls conns (listen_port t) (dest_of t) Hok) as (st1 & h & s & E1 & Hok1 & Hd & _).
  rewrite E1 in E. by injection E as <- <-.
Qed.

Lemma fold_plane {A} (f : Stack * list Listener -> A -> Stack * list Listener) conns xs st ls st' ls' :
  (forall st ls x st' ls', plane_ok st ls conns -> f (st, ls) x = (st', ls') ->
     plane_ok st' ls' conns /\ device st' = device st) ->
  plane_ok st ls conns -> foldl f (st, ls) xs = (st', ls') -> plane_ok st' ls' conns /\ device st' = device st.
Proof.
  intros Hf. revert st ls. induction xs as [|x xs IH]; intros st ls Hok E; cbn [foldl] in E.
  - by injection E as <- <-.
  - destruct (f (st, ls) x) as [st1 ls1] eqn:E1. destruct (Hf _ _ _ _ _ Hok E1) as [Hok1 Hd1].
    destruct (IH _ _ Hok1 E) as [? ?]. split; [done|congruence].
Qed.

Lemma add_target_plane st ls conns spec st' ls' :
  plane_ok st ls conns -> add_target (st, ls) spec = (st', ls') -> plane_ok st' ls' conns /\ device st' = device st.
Proof.
  intros Hok E. cbn [add_target] in E. destruct (Target_parse spec); [|by injection E as <- <-].
  case_match; [by injection E as <- <-|]. by eapply push_listener_plane.
Qed.

Lemma upsert_target_plane st ls conns t st' ls' :
  plane_ok st ls conns -> upsert_target (st, ls) t = (st', ls') -> plane_ok st' ls' conns /\ device st' = device st.
Proof.
  intros Hok E. cbn [upsert_target] in E. destruct (position _ ls) as [i|] eqn:Ep; [|by eapply push_listener_plane].
  injection E as <- <-. split; [|done]. eapply plane_ok_handles; [|done].
  apply position_some in Ep as (l & Hl & _). apply list_elem_of_split_length in Hl as (l1 & l2 & -> & ->).
  rewrite alter_app_r_alt by done. rewrite Nat.sub_diag. cbn [alter list_alter]. by rewrite !map_app.
Qed.

Lemma reconcile_plane st ls conns specs :
  plane_ok st ls conns ->
  exists st' ls', reconcile_targets st ls specs = Ret (st', ls') /\ plane_ok st' ls' conns /\ device st' = device st.
Proof.
  intros Hok. unfold reconcile_targets.
  match goal with |- context [drop_ports ?g _ _] =>
    destruct (drop_ports_spec g st ls conns Hok) as (st1 & ls1 & -> & Hok1 & _ & Hd1 & _) end. cbn [obind].
  destruct (foldl upsert_target _ _) as [st' ls'] eqn:E.
  destruct (fold_plane upsert_target conns _ _ _ _ _ ltac:(intros; by eapply upsert_target_plane) Hok1 E).
  exists st', ls'. split_and!; [done..|congruence].
Qed.

(** C22: a sync makes the listener table what was asked for. From a consistent
    table with one listener per port, [reconcile_targets] returns; afterwards
    the table maps exactly the ports of the parsable targets to their
    destinations (the last one where a port is named twice), it is consistent,
    with one listener per port, the listeners of ports that stay keep their
    sockets, and the sockets of ports that go are gone. *)
Theorem reconcile_exact st ls conns specs :
  plane_ok st ls conns -> one_per_port ls ->
  exists st' ls', reconcile_targets st ls specs = Ret (st', ls') /\
    plane_ok st' ls' conns /\ one_per_port ls' /\ routes ls' = wanted (omap Target_parse specs) /\
    (forall l, l ∈ ls -> port l ∈ map listen_port (omap Target_parse specs) ->
       exists l', l' ∈ ls' /\ port l' = port l /\ handle l' = handle l).
Proof.
  intros Hok Hone. unfold reconcile_targets. set (ts := omap Target_parse specs).
  set (gone := filter (fun p => p ∉ map listen_port ts) (map port ls)).
  destruct (drop_ports_spec gone st ls conns Hok) as (st1 & ls1 & -> & Hok1 & Hp1 & _). cbn [obind].
  assert (one_per_port ls1) as Hone1.
  { rewrite Hp1. by apply one_per_port_filter. }
  destruct (foldl upsert_target (st1, ls1) ts) as [st' ls'] eqn:E.
  destruct (upsert_targets_spec _ _ _ _ _ _ Hok1 Hone1 E) as (Hok' & Hone' & Hk & Hr & _).
  exists st', ls'. split; [done|]. split; [done|]. split; [done|]. split.
  - rewrite Hr. apply wanted_fold. intros k Hk'. rewrite lookup_empty. apply routes_none.
    rewrite Hp1. intros (x & -> & [Hng Hx]%list_elem_of_filter)%list_elem_of_fmap. apply Hng.
    apply list_elem_of_filter. split; [done|]. by apply (list_elem_of_fmap_2 port).
  - intros l Hl Hin. apply Hk. rewrite Hp1. apply list_elem_of_filter. split; [|done].
    intros [Hn _]%list_elem_of_filter. done.
Qed.
End table.

(** ** Accepting connections *)

Section accepting.
Context {S : Smoltcp} {L : SmoltcpLaws S}.

(** Port and destination of a listener. *)
Definition entry (l : Listener) : Z * str := (port l, target l).

(** The bridges promotion adds, one per listed listener. *)
Definition add_bridge (ls : list Listener) (conns : gmap SocketHandle Bridge) (i : nat) : gmap SocketHandle Bridge :=
  match ls !! i with
  | Some l => <[handle l := Bridge_new (spawn_tcp (target l))]> conns
  | None => conns
  end.

Lemma plane_promote st l ls conns b :
  plane_ok st (l :: ls) conns -> plane_ok st ls (<[handle l := b]> conns).
Proof.
  intros [H1 H2 H3]. cbn [map] in H2. apply NoDup_cons in H2 as [Hn H2]. constructor; [|done|].
  - rewrite H1, dom_insert_L. cbn [map list_to_set]. set_solver.
  - intros x Hx. rewrite lookup_insert_ne; [apply H3; by right|]. intros E. apply Hn. rewrite E.
    by apply (list_elem_of_fmap_2 handle).
Qed.

(** What was noted of a listener is still true of the table. *)
Definition noted (ls : list Listener) (x : nat * Z) : Prop := exists l, ls !! fst x = Some l /\ port l = snd x.

Lemma promote_spec ps st ls conns :
  plane_ok st ls conns -> StronglySorted gt (map fst ps) -> Forall (noted ls) ps ->
  exists st' ls', promote ps st ls conns = Ret (st', ls', foldl (add_bridge ls) conns (map fst ps)) /\
    plane_ok st' ls' (foldl (add_bridge ls) conns (map fst ps)) /\ map entry ls' ≡ₚ map entry ls /\
    sockets st ⊆ sockets st' /\ device st' = device st.
Proof.
  revert st ls conns. induction ps as [|[i p] ps IH]; intros st ls conns Hok Hs Hb; cbn [promote map fst foldl] in *.
  { exists st, ls. by split_and!. }
  apply StronglySorted_inv in Hs as [Hs' Hlt]. apply Forall_cons in Hb as [(l & Hl & Hport) Hb'].
  cbn [fst snd] in *. subst p.
  pose proof (lookup_lt_Some _ _ _ Hl) as Hi.
  destruct (swap_remove_spec i ls l Hl) as (ls1 & -> & Hperm & Hlow & Hlen). cbn [obind].
  set (b := Bridge_new (spawn_tcp (target l))).
  assert (plane_ok st ls1 (<[handle l := b]> conns)) as Hok1 by (apply plane_promote; by rewrite <- Hperm).
  destruct (plane_add st ls1 _ (port l) (target l) Hok1) as (st1 & h & s & -> & Hok2 & Hd & _ & Hf & Hs2).
  set (ls2 := ls1 ++ [mkListener (port l) (target l) h]) in *.
  assert (forall k, (k < i)%nat -> ls2 !! k = ls !! k) as Hsame
    by (intros k Hk; unfold ls2; rewrite lookup_app_l by lia; by apply Hlow).
  destruct (IH st1 ls2 (<[handle l := b]> conns) Hok2 Hs') as (st' & ls' & E & Hok' & Hp' & Hsub & Hd').
  { apply Forall_forall. intros x Hx. rewrite Forall_forall in Hb'. unfold noted.
    rewrite Hsame; [by apply Hb'|]. rewrite Forall_forall in Hlt. by apply Hlt, list_elem_of_fmap_2. }
  assert (foldl (add_bridge ls2) (<[handle l := b]> conns) (map fst ps)
    = foldl (add_bridge ls) (add_bridge ls conns i) (map fst ps)) as Hfold.
  { unfold add_bridge at 3. rewrite Hl. fold b. generalize (<[handle l := b]> conns). clear - Hlt Hsame.
    induction (map fst ps) as [|k idx IH]; intros m; [done|]. apply Forall_cons in Hlt as [Hk Hlt'].
    cbn [foldl]. rewrite IH by done. f_equal. unfold add_bridge. by rewrite Hsame. }
  rewrite Hfold in *. exists st', ls'. split; [exact E|]. split; [done|]. split.
  - rewrite Hp'. unfold ls2. rewrite Hperm, map_app. cbn [map entry port target]. by rewrite Permutation_app_comm.
  - split; [|congruence]. etransitivity; [|exact Hsub]. rewrite Hs2. by apply insert_subseteq.
Qed.

Lemma promoted_spec st conns all ls n :
  plane_ok st all conns -> (forall l, l ∈ ls -> l ∈ all) ->
  exists ps, promoted st conns n ls = Ret ps /\ StronglySorted lt (map fst ps) /\
    Forall (fun x => exists k, fst x = (n + k)%nat /\ noted ls (k, snd x)) ps /\
    forall i, i ∈ map fst ps <-> exists k l s, i = (n + k)%nat /\ ls !! k = Some l /\
      sockets st !! handle l = Some s /\ tcp_is_active s = true.
Proof.
  intros Hok. revert n. induction ls as [|l ls IH]; intros n Hin; cbn [promoted].
  { exists []. split_and!; [done|constructor|constructor|]. intros i. split; [by intros ?%not_elem_of_nil|].
    by intros (k & l & s & _ & ? & _). }
  destruct (plane_get _ _ _ l Hok) as [s Hs]; [apply Hin; by left|].
  unfold get_socket. rewrite Hs. cbn [obind].
  destruct (IH (n + 1)%nat) as (ps & -> & Hsort & Hnote & Hidx); [intros x Hx; apply Hin; by right|]. cbn [obind].
  rewrite bool_decide_eq_false_2
    by (rewrite (po_disjoint _ _ _ Hok l ltac:(apply Hin; by left)); apply is_Some_None). cbn [negb].
  rewrite andb_true_r. eexists. split; [reflexivity|].
  assert (Forall (lt n) (map fst ps)) as Hgt.
  { apply Forall_forall. intros i Hi. apply Hidx in Hi as (k & ? & ? & -> & _). lia. }
  split; [destruct (tcp_is_active s); [by constructor|done]|]. split.
  { assert (Forall (fun x => exists k, fst x = (n + k)%nat /\ noted (l :: ls) (k, snd x)) ps) as Hps.
    { eapply Forall_impl; [exact Hnote|]. intros x (k & -> & Hk). exists (Datatypes.S k). split; [lia|exact Hk]. }
    destruct (tcp_is_active s); [|exact Hps]. constructor; [|exact Hps]. exists 0%nat. split; [cbn; lia|]. by exists l. }
  intros i. split.
  - intros Hi. assert (i = n /\ tcp_is_active s = true \/ i ∈ map fst ps) as [[-> Ha]|Hi']
      by (destruct (tcp_is_active s); [apply elem_of_cons in Hi as [->|]|]; auto).
    + exists 0%nat, l, s. split_and!; [lia|done..].
    + apply Hidx in Hi' as (k & l' & s' & -> & ? & ? & ?). exists (Datatypes.S k), l', s'. split_and!; [lia|done..].
  - intros ([|k] & l' & s' & -> & Hl & Hs' & Ha); cbn in Hl.
    + simplify_eq. rewrite Ha, Nat.add_0_r. by left.
    + assert (n + Datatypes.S k ∈ map fst ps)%nat as H by (apply Hidx; exists k, l', s'; split_and!; [lia|done..]).
      destruct (tcp_is_active s); [by right|done].
Qed.

(** Promotion from a consistent table. *)
Lemma accept_new_spec st ls conns :
  plane_ok st ls conns ->
  exists st' ls' idx, accept_new st ls conns = Ret (st', ls', foldl (add_bridge ls) conns (rev idx)) /\
    plane_ok st' ls' (foldl (add_bridge ls) conns (rev idx)) /\ map entry ls' ≡ₚ map entry ls /\
    sockets st ⊆ sockets st' /\ device st' = device st /\
    forall i, i ∈ idx <-> exists l s, ls !! i = Some l /\ sockets st !! handle l = Some s /\ tcp_is_active s = true.
Proof.
  intros Hok. destruct (promoted_spec st conns ls ls 0 Hok ltac:(done)) as (ps & E & Hsort & Hnote & Hidx).
  unfold accept_new. rewrite E. cbn [obind].
  destruct (promote_spec (rev ps) st ls conns Hok) as (st' & ls' & -> & Hok' & Hrest).
  { rewrite map_rev. by apply sorted_rev. }
  { apply Forall_rev. eapply Forall_impl; [exact Hnote|]. intros x (k & Hk & Hx). unfold noted. by rewrite Hk. }
  rewrite map_rev in *. exists st', ls', (map fst ps). split_and!; try apply Hrest; [done..|].
  intros i. rewrite Hidx. split; [intros (k & l & s & -> & H); by exists l, s|intros (l & s & H); by exists i, l, s].
Qed.

Lemma add_bridge_lookup ls idx conns h b :
  NoDup (map handle ls) ->
  foldl (add_bridge ls) conns idx !! h = Some b <->
  (exists i l, i ∈ idx /\ ls !! i = Some l /\ handle l = h /\ b = Bridge_new (spawn_tcp (target l))) \/
  (conns !! h = Some b /\ forall i l, i ∈ idx -> ls !! i = Some l -> handle l <> h).
Proof.
  intros Hnd. revert conns. induction idx as [|i idx IH]; intros conns; cbn [foldl].
  { split; [intros H; right; split; [done|by intros ? ? ?%not_elem_of_nil]|].
    by intros [(? & ? & ?%not_elem_of_nil & _)|[? _]]. }
  rewrite IH. clear IH. unfold add_bridge. setoid_rewrite elem_of_cons.
  destruct (ls !! i) as [l|] eqn:Hl; [|naive_solver].
  assert (forall j l', ls !! j = Some l' -> handle l' = handle l -> j = i) as Huniq.
  { intros j l' Hj Hh. apply (NoDup_lookup _ _ _ (handle l) Hnd);
      change (map handle ls) with (handle <$> ls); rewrite list_lookup_fmap; [by rewrite Hj, <- Hh|by rewrite Hl]. }
  destruct (decide (handle l = h)) as [<-|Hne].
  - rewrite lookup_insert_eq. split.
    + intros [(j & l' & ? & ? & ? & ->)|[[= <-] _]]; left; [exists j, l'; auto|exists i, l; auto].
    + intros [(j & l' & Hj & Hl' & Hh & ->)|[_ Hno]]; [|destruct (Hno i l); auto].
      pose proof (Huniq j l' Hl' Hh) as ->. assert (l' = l) as -> by congruence.
      destruct (decide (i ∈ idx)) as [Hi|Hi]; [left; exists i, l; auto|right; split; [done|]].
      intros k l' Hk Hl'' Hh'. by rewrite (Huniq k l' Hl'' Hh') in Hk.
  - rewrite lookup_insert_ne by done. split.
    + intros [(j & l' & ? & ? & ? & ->)|[Hb Hno]]; [left; exists j, l'; auto|right; split; [done|]].
      intros k l' [->|Hk] Hk'; [congruence|by eapply Hno].
    + intros [(j & l' & [->|Hj] & Hl' & Hh & ->)|[Hb Hno]]; [congruence|left; exists j, l'; auto|].
      right. split; [done|]. intros k l' Hk Hk'. eapply Hno; eauto.
Qed.

(** C23: new connections are handed to their targets. From a consistent table,
    [accept_new] returns; every listener whose socket became active has exactly
    then a bridge to its own destination, the old bridges and all sockets stay
    as they were, and the table still serves the same ports with the same
    destinations, on sockets of their own. *)
Theorem accept_new_hands_over st ls conns :
  plane_ok st ls conns ->
  exists st' ls' conns', accept_new st ls conns = Ret (st', ls', conns') /\
    plane_ok st' ls' conns' /\ map entry ls' ≡ₚ map entry ls /\ sockets st ⊆ sockets st' /\
    forall h b, conns' !! h = Some b <->
      conns !! h = Some b \/
      exists l s, l ∈ ls /\ handle l = h /\ sockets st !! h = Some s /\ tcp_is_active s = true /\
        b = Bridge_new (spawn_tcp (target l)).
Proof.
  intros Hok. destruct (accept_new_spec st ls conns Hok) as (st' & ls' & idx & -> & Hok' & Hp & Hs & _ & Hidx).
  do 3 eexists. split; [reflexivity|]. split_and!; [done..|]. intros h b.
  rewrite add_bridge_lookup by apply Hok. setoid_rewrite elem_of_rev. setoid_rewrite Hidx. split.
  - intros [(i & l & (l1 & s & Hl1 & Hs1 & Ha) & Hl & <- & ->)|[Hb _]]; [right|by left].
    simplify_eq. exists l1, s. split_and!; try done. by eapply list_elem_of_lookup_2.
  - intros [Hb|(l & s & [k Hl]%list_elem_of_lookup_1 & <- & Hs1 & Ha & ->)].
    + right. split; [done|]. intros i l _ Hl Hh. apply list_elem_of_lookup_2 in Hl.
      apply (po_disjoint _ _ _ Hok) in Hl. congruence.
    + left. exists k, l. split_and!; try done. by exists l, s.
Qed.
End accepting.

(** ** Moving bytes *)

Section moving.
Context {S : Smoltcp} {L : SmoltcpLaws S}.

Definition bridges_ok (conns : gmap SocketHandle Bridge) : Prop := map_Forall (fun _ b => bridge_ok b) conns.

(** A step of a connection's task keeps the bridges in order. *)
Lemma bridges_alter_ok conns h ev :
  bridges_ok conns -> bridges_ok (alter (fun b => with_conn b (task_run ev (conn b))) h conns).
Proof.
  intros Hb k b Hk. destruct (decide (h = k)) as [->|Hne].
  - rewrite lookup_alter_eq in Hk. apply fmap_Some in Hk as (b0 & Hb0 & ->). by apply task_run_ok, (Hb k).
  - rewrite lookup_alter_ne in Hk by done. by apply (Hb k).
Qed.

Lemma shuttle_one_spec st ls conns h :
  plane_ok st ls conns -> bridges_ok conns -> h ∈ dom conns ->
  exists st' conns', shuttle_one st conns h = Ret (st', conns') /\ plane_ok st' ls conns' /\ bridges_ok conns' /\
    device st' = device st /\ (forall k, k <> h -> conns' !! k = conns !! k) /\
    (forall l, l ∈ ls -> sockets st' !! handle l = sockets st !! handle l).
Proof.
  intros [H1 H2 H3] Hb Hh. unfold shuttle_one, get_socket.
  assert (is_Some (sockets st !! h)) as [s Hs].
  { apply (elem_of_dom (D := gset SocketHandle)). rewrite H1. set_solver. }
  rewrite Hs. cbn [obind]. apply elem_of_dom in Hh as [b Hbh]. rewrite Hbh.
  destruct (service_bounded s b) as (s' & ob & m & -> & Hob); [by apply (Hb h)|]. cbn [obind].
  assert (forall l, l ∈ ls -> handle l <> h) as Hne by (intros l Hl <-; apply H3 in Hl; congruence).
  destruct ob as [b'|]; do 2 eexists; (split; [reflexivity|]); split.
  - constructor; [|done|].
    + cbn [sockets set_sockets]. rewrite !dom_insert_lookup_L by eauto. done.
    + intros l Hl. rewrite lookup_insert_ne by (symmetry; by apply Hne). by apply H3.
  - split; [apply map_Forall_insert_2; [by apply Hob|done]|]. split; [done|].
    split; [intros k Hk; by rewrite lookup_insert_ne|]. intros l Hl. cbn. by rewrite lookup_insert_ne by (symmetry; by apply Hne).
  - constructor; [|done|].
    + cbn [sockets set_sockets]. rewrite !dom_delete_L, H1.
      assert (h ∉ (list_to_set (map handle ls) : gset nat)); [|set_solver].
      rewrite elem_of_list_to_set. intros (l & E & Hl)%list_elem_of_fmap. by apply (Hne l Hl).
    + intros l Hl. rewrite lookup_delete_ne by (symmetry; by apply Hne). by apply H3.
  - split; [by apply map_Forall_delete|]. split; [done|].
    split; [intros k Hk; by rewrite lookup_delete_ne|]. intros l Hl. cbn. by rewrite lookup_delete_ne by (symmetry; by apply Hne).
Qed.

(** The bridges accepting adds are fresh. *)
Lemma accept_bridges st ls conns :
  plane_ok st ls conns -> bridges_ok conns ->
  exists st' ls' conns', accept_new st ls conns = Ret (st', ls', conns') /\ plane_ok st' ls' conns' /\
    bridges_ok conns' /\ device st' = device st.
Proof.
  intros Hok Hb. destruct (accept_new_spec st ls conns Hok) as (st' & ls' & idx & -> & Hok' & _ & _ & Hd & _).
  do 3 eexists. split_and!; [reflexivity|done| |done]. intros h b Hhb.
  apply add_bridge_lookup in Hhb as [(i & l & _ & _ & _ & ->)|[Hhb _]]; [|by apply (Hb h)|apply Hok].
  unfold bridge_ok, CHANNEL_DEPTH. cbn. lia.
Qed.

Lemma shuttle_spec order st ls conns :
  plane_ok st ls conns -> bridges_ok conns -> NoDup order -> (forall h, h ∈ order -> h ∈ dom conns) ->
  exists st' conns', shuttle order st conns = Ret (st', conns') /\ plane_ok st' ls conns' /\ bridges_ok conns' /\
    device st' = device st /\ (forall l, l ∈ ls -> sockets st' !! handle l = sockets st !! handle l).
Proof.
  revert st conns. induction order as [|h order IH]; intros st conns Hok Hb Hnd Hin; cbn [shuttle].
  { exists st, conns. by split_and!. }
  apply NoDup_cons in Hnd as [Hn Hnd].
  destruct (shuttle_one_spec st ls conns h Hok Hb) as (st1 & c1 & -> & Hok1 & Hb1 & Hd1 & Hc1 & Hl1);
    [apply Hin; by left|]. cbn [obind].
  destruct (IH st1 c1 Hok1 Hb1 Hnd) as (st' & c' & E & Hok' & Hb' & Hd' & Hl').
  { intros k Hk. apply elem_of_dom. rewrite Hc1 by (by intros ->). apply elem_of_dom, Hin. by right. }
  exists st', c'. split_and!; [done..|congruence|]. intros l Hl. by rewrite Hl', Hl1.
Qed.
End moving.

(** ** Witnesses *)

Definition demo_stack0 : Stack (S := ToySmoltcp) := Stack_new (V4 [100; 89; 128; 4]) 1280 0.
Definition demo_specs : list str := [lit "80:10.0.0.1:8080"; lit "443:[::1]:8443"].
Definition demo_table : Stack (S := ToySmoltcp) * list Listener := add_targets demo_stack0 [] demo_specs.

Lemma demo_table_ok : plane_ok (fst demo_table) (snd demo_table) ∅ /\ one_per_port (snd demo_table).
Proof.
  destruct (add_targets_spec (S := ToySmoltcp) demo_specs demo_stack0 [] ∅ (fst demo_table) (snd demo_table))
    as (H1 & H2 & _); [by apply plane_empty|apply NoDup_nil_2|exact (surjective_pairing demo_table)|done].
Qed.

Lemma reconcile_exact_witness :
  exists st' ls', reconcile_targets (fst demo_table) (snd demo_table) [lit "443:10.0.0.2:8443"; lit "22:h:22"] = Ret (st', ls') /\
    plane_ok st' ls' ∅ /\ one_per_port ls' /\
    routes ls' = wanted (omap Target_parse [lit "443:10.0.0.2:8443"; lit "22:h:22"]) /\
    (forall l, l ∈ snd demo_table ->
       port l ∈ map listen_port (omap Target_parse [lit "443:10.0.0.2:8443"; lit "22:h:22"]) ->
       exists l', l' ∈ ls' /\ port l' = port l /\ handle l' = handle l).
Proof.
  apply (reconcile_exact (S := ToySmoltcp) (fst demo_table) (snd demo_table) ∅).
  - apply demo_table_ok.
  - apply demo_table_ok.
Defined.

(** The second listener's socket gets a connection with three bytes. *)
Definition demo_active : Stack (S := ToySmoltcp) := fst (poll (push_rx (fst demo_table) [2; 7; 8; 9]) 0).

Lemma accept_new_hands_over_witness :
  exists st' ls' conns', accept_new demo_active (snd demo_table) ∅ = Ret (st', ls', conns') /\
    plane_ok st' ls' conns' /\ map entry ls' ≡ₚ map entry (snd demo_table) /\ sockets demo_active ⊆ sockets st' /\
    forall h b, conns' !! h = Some b <->
      (∅ : gmap SocketHandle Bridge) !! h = Some b \/
      exists l s, l ∈ snd demo_table /\ handle l = h /\ sockets demo_active !! h = Some s /\ tcp_is_active s = true /\
        b = Bridge_new (spawn_tcp (target l)).
Proof.
  apply (accept_new_hands_over (S := ToySmoltcp) demo_active (snd demo_table) ∅).
  apply (plane_ok_dom (fst demo_table)); [|apply demo_table_ok].
  vm_compute. reflexivity.
Defined.
