(* ===== verification/Plane.v ===== *)
(** The data plane as a whole, [DataPlane] of [newt/src/tunnel.rs]: bringing it
    up, its keepalive ping, changes of the targets, and a turn of its I/O. *)

From Stdlib Require Import String.
From S2P Require Import Prelude Time Errors Replay Crypto ToyCrypto Packet Session.
From S2P Require Import Handshake HandshakeFacts RateLimiter Timers Tunn TunnFacts TunnProps Text Ip.
From S2P Require Import Json Proto Token Config Wg Holepunch Target Netstack Bridge Icmp DataPlane.

(** What the network answers while a data plane is brought up: the resolved
    address of the exit node, whether the UDP socket could be bound and whether
    the first datagram could be sent. *)
Record NetAnswers := mkNetAnswers { na_resolved : option SocketAddr; na_bound : bool; na_sent : bool }.

(** The order in which a hash map yields its keys. *)
Class HashOrder := { keys_of : gmap SocketHandle Bridge -> list SocketHandle }.
Class HashOrderLaws (H : HashOrder) := {
  keys_nodup : forall m, NoDup (keys_of m);
  keys_dom : forall m h, h ∈ keys_of m <-> h ∈ dom m
}.

Section plane.
Context {C : Crypto} {B : Base64} {S : Smoltcp} {H : HashOrder}.

Record DataPlane := mkDataPlane {
  pump : Pump;
  stack : Stack;
  listeners : list Listener;
  conns : gmap SocketHandle Bridge;
  endpoint : SocketAddr;
  relay_addr : SocketAddr;
  server_ip : bytes;
  tunnel_ip4 : bytes;
  ping_seq : Z;
  newt_id : str;
  token : str;
  newt_pub : str;
  server_pub : str
}.

Definition with_pump (d : DataPlane) (p : Pump) : DataPlane :=
  mkDataPlane p (stack d) (listeners d) (conns d) (endpoint d) (relay_addr d) (server_ip d) (tunnel_ip4 d)
    (ping_seq d) (newt_id d) (token d) (newt_pub d) (server_pub d).
Definition with_seq (d : DataPlane) (n : Z) : DataPlane :=
  mkDataPlane (pump d) (stack d) (listeners d) (conns d) (endpoint d) (relay_addr d) (server_ip d) (tunnel_ip4 d)
    n (newt_id d) (token d) (newt_pub d) (server_pub d).
Definition with_net (d : DataPlane) (st : Stack) (ls : list Listener) (cs : gmap SocketHandle Bridge) : DataPlane :=
  mkDataPlane (pump d) st ls cs (endpoint d) (relay_addr d) (server_ip d) (tunnel_ip4 d)
    (ping_seq d) (newt_id d) (token d) (newt_pub d) (server_pub d).

(** ** Bringing it up *)

(** One listening socket per target of the configuration. *)
Definition first_listeners (st : Stack) (ts : list Target) : Stack * list Listener :=
  foldl (fun acc t => push_listener (fst acc) (snd acc) t) (st, []) ts.

Definition endpoint_host_port (s : str) : option (str * Z) :=
  match rsplit_once COLON s with
  | Some (h, p) => match parse_uint U16_MAX p with Some p => Some (h, p) | None => None end
  | None => None
  end.

(** The datagrams sent on the way, and the data plane or the error.
    [smol_ip] is smoltcp's address parser. *)
Definition bring_up (smol_ip : str -> option IpAddr) (net : NetAnswers) (wg : WgData) (cfg : SiteRun)
    (keys : Keys) (tok : str) : M (list bytes * Result str DataPlane) :=
  match endpoint_host_port (wg_endpoint wg) with
  | None => mret ([], Err (lit "bad endpoint"))
  | Some _ =>
      match na_resolved net with
      | None => mret ([], Err (lit "resolve endpoint"))
      | Some endpoint =>
          let relay_port := if wg_relay_port wg =? 0 then 21820 else wg_relay_port wg in
          let relay_addr := (fst endpoint, relay_port) in
          if negb (na_bound net) then mret ([], Err (lit "bind"))
          else
            match public_from_b64 (wg_public_key wg) with
            | Err e => mret ([], Err e)
            | Ok peer_pub =>
                let* p := Pump_new (secret keys) peer_pub (cfg_mtu cfg) in
                let* (p, init) := initiate_handshake p in
                let sent := match init with Some dg => [dg] | None => [] end in
                if negb (bool_decide (init = None)) && negb (na_sent net) then mret ([], Err (lit "send"))
                else
                  match smol_ip (wg_tunnel_ip wg) with
                  | None => mret (sent, Err (lit "bad tunnelIP"))
                  | Some tunnel_ip =>
                      let st := Stack_new tunnel_ip (cfg_mtu cfg) 0 in
                      let '(st, ls) := first_listeners st (omap Target_parse (tcp (wg_targets wg))) in
                      match ipv4_from_str (wg_server_ip wg), ipv4_from_str (wg_tunnel_ip wg) with
                      | None, _ => mret (sent, Err (lit "bad serverIP"))
                      | Some _, None => mret (sent, Err (lit "bad tunnelIP"))
                      | Some server, Some tunnel =>
                          mret (sent, Ok (mkDataPlane p st ls ∅ endpoint relay_addr server tunnel 0
                                            (cfg_id cfg) tok (public_b64 keys) (wg_public_key wg)))
                      end
                  end
            end
      end
  end.

(** ** Its operations *)

(** Keepalive: an echo request to the exit node through the tunnel. *)
Definition send_ping (d : DataPlane) : M (DataPlane * list bytes) :=
  let d := with_seq d (wadd 16 (ping_seq d) 1) in
  let* pkt := mlift (icmp_echo (tunnel_ip4 d) (server_ip d) 1 (ping_seq d)) in
  let* (p, dg) := Pump_encapsulate (pump d) pkt in
  mret (with_pump d p, match dg with Some b => [b] | None => [] end).

(** The hole punch, for the exit node's relay; nothing without a usable key. *)
Definition send_holepunch {F : Float} {J : JsonText} (d : DataPlane) : M (option bytes) :=
  build (lit "newtId") (newt_id d) (token d) (newt_pub d) (server_pub d).

Definition dp_add_targets (d : DataPlane) (specs : list str) : DataPlane :=
  let '(st, ls) := add_targets (stack d) (listeners d) specs in
  with_net d st ls (conns d).

Definition dp_remove_targets (d : DataPlane) (specs : list str) : outcome DataPlane :=
  let! (st, ls) := remove_targets (stack d) (listeners d) specs in
  Ret (with_net d st ls (conns d)).

Definition dp_reconcile_targets (d : DataPlane) (specs : list str) : outcome DataPlane :=
  let! (st, ls) := reconcile_targets (stack d) (listeners d) specs in
  Ret (with_net d st ls (conns d)).

(** Packets for the stack and datagrams for the exit node, in order. *)
Definition deliver (st : Stack) (i : Inbound) : Stack * list bytes :=
  match i with
  | InPacket p => (push_rx st p, [])
  | InNetwork b => (st, [b])
  | InNothing => (st, [])
  end.

Fixpoint deliver_all (st : Stack) (ins : list Inbound) : Stack * list bytes :=
  match ins with
  | [] => (st, [])
  | i :: ins' =>
      let '(st, a) := deliver st i in
      let '(st, b) := deliver_all st ins' in
      (st, a ++ b)
  end.

(** Encrypt what the stack wants to send. *)
Fixpoint send_all (p : Pump) (pkts : list bytes) : M (Pump * list bytes) :=
  match pkts with
  | [] => mret (p, [])
  | pkt :: pkts' =>
      let* (p, dg) := Pump_encapsulate p pkt in
      let* (p, rest) := send_all p pkts' in
      mret (p, match dg with Some b => [b] | None => [] end ++ rest)
  end.

(** The first part of a turn: a datagram, if one arrived before the timeout. *)
Definition receive_datagram (d : DataPlane) (recv : option bytes) : M (DataPlane * list bytes) :=
  match recv with
  | None => mret (d, [])
  | Some datagram =>
      let* (p, i) := Pump_decapsulate (pump d) datagram in
      let '(st, a) := deliver (stack d) i in
      let* (p, more) := drain_loop DRAIN_FUEL p in
      let '(st, b) := deliver_all st more in
      mret (with_net (with_pump d p) st (listeners d) (conns d), a ++ b)
  end.

(** One turn; it returns the datagrams for the exit node, which are sent
    without looking at errors. The stack is polled at time zero. *)
Definition step_io (d : DataPlane) (recv : option bytes) : M (DataPlane * list bytes) :=
  let* (d, out1) := receive_datagram d recv in
  let '(st, outbound) := poll (stack d) 0 in
  let* (p, out2) := send_all (pump d) outbound in
  let* (p, dg) := Pump_update_timers p in
  let out3 := match dg with Some b => [b] | None => [] end in
  let* (st, ls, cs) := mlift (accept_new st (listeners d) (conns d)) in
  let* (st, cs) := mlift (shuttle (keys_of cs) st cs) in
  mret (with_net (with_pump d p) st ls cs, out1 ++ out2 ++ out3).

(** ** Runs *)

(** What can happen to a data plane, the tasks of its connections included. *)
Inductive plane_op : Type :=
| AddTargets (specs : list str)
| RemoveTargets (specs : list str)
| Reconcile (specs : list str)
| SendPing
| StepIo (recv : option bytes)
| Task (h : SocketHandle) (ev : TaskEvent).

Definition run_plane_op (d : DataPlane) (o : plane_op) : M (DataPlane * list bytes) :=
  match o with
  | AddTargets specs => mret (dp_add_targets d specs, [])
  | RemoveTargets specs => let* d := mlift (dp_remove_targets d specs) in mret (d, [])
  | Reconcile specs => let* d := mlift (dp_reconcile_targets d specs) in mret (d, [])
  | SendPing => send_ping d
  | StepIo recv => step_io d recv
  | Task h ev =>
      mret (with_net d (stack d) (listeners d)
              (alter (fun b => with_conn b (task_run ev (conn b))) h (conns d)), [])
  end.

Fixpoint run_plane (d : DataPlane) (ops : list plane_op) : M (DataPlane * list (list bytes)) :=
  match ops with
  | [] => mret (d, [])
  | o :: ops' =>
      let* (d, out) := run_plane_op d o in
      let* (d, rest) := run_plane d ops' in
      mret (d, out :: rest)
  end.

(** Datagrams that fit the scratch buffer of the tunnel they find and, when they
    authenticate as data packets, carry a counter below the limit of the replay
    window. *)
Definition plane_op_fits (d : DataPlane) (o : plane_op) : Prop :=
  match o with
  | StepIo (Some dg) =>
      op_fits (Nat.max (p_mtu (pump d)) 1500) (scratch (pump d)) (tun (pump d)) (Decapsulate None dg)
  | _ => True
  end.

(** ** Invariant *)

Record dp_ok (mtu : nat) (d : DataPlane) (w : World) : Prop := {
  do_plane : plane_ok (stack d) (listeners d) (conns d);
  do_bridges : bridges_ok (conns d);
  do_pump : pump_ok 0 (pump d) w;
  do_mtu : p_mtu (pump d) = mtu;
  do_dev : dev_mtu (device (stack d)) = mtu;
  do_tx : tx (device (stack d)) = [];
  do_server : bytes_ok (server_ip d) /\ length (server_ip d) = 4%nat;
  do_tunnel : bytes_ok (tunnel_ip4 d) /\ length (tunnel_ip4 d) = 4%nat
}.
End plane.

(** ** Safety *)

Section safety.
Context {C : Crypto} {LC : CryptoLaws C} {B : Base64} {S : Smoltcp} {LS : SmoltcpLaws S}.
Context {H : HashOrder} {LH : HashOrderLaws H} (mtu : nat).

(** What every operation promises. *)
Definition dp_keeps {A} (w' : World) (r : DataPlane * A) : Prop := dp_ok mtu (fst r) w'.

Lemma dp_later d w w' : clock_ok (w_clock w) -> dp_ok mtu d w -> world_le w w' -> dp_ok mtu d w'.
Proof. intros Hc [? ? Hp ? ? ? ? ?] Hle. constructor; try done. by eapply tunn_ok_later. Qed.

Lemma dp_net_ok d w st ls cs :
  dp_ok mtu d w -> plane_ok st ls cs -> bridges_ok cs -> dev_mtu (device st) = mtu -> tx (device st) = [] ->
  dp_ok mtu (with_net d st ls cs) w.
Proof. by intros [? ? ? ? ? ? ? ?]. Qed.

Lemma dp_pump_ok d w w' p :
  dp_ok mtu d w -> pump_keeps 0 (pump d) w' (p, tt) -> dp_ok mtu (with_pump d p) w'.
Proof. intros [? ? ? ? ? ? ? ?] [? ?]. constructor; try done. cbn in *. congruence. Qed.

Lemma dp_add_targets_ok d w specs : dp_ok mtu d w -> dp_ok mtu (dp_add_targets d specs) w.
Proof.
  intros Hok. unfold dp_add_targets. destruct (add_targets _ _ specs) as [st ls] eqn:E.
  destruct (fold_plane add_target (conns d) specs _ _ _ _ ltac:(intros; by eapply add_target_plane) (do_plane _ _ _ Hok) E)
    as [Hp Hd].
  apply dp_net_ok; [done..|apply Hok|rewrite Hd; apply Hok|rewrite Hd; apply Hok].
Qed.

Lemma dp_remove_targets_ok d w specs :
  dp_ok mtu d w -> exists d', dp_remove_targets d specs = Ret d' /\ dp_ok mtu d' w.
Proof.
  intros Hok. unfold dp_remove_targets, remove_targets.
  match goal with |- context [drop_ports ?g _ _] =>
    destruct (drop_ports_spec g _ _ _ (do_plane _ _ _ Hok)) as (st & ls & -> & Hp & _ & Hd & _) end.
  eexists. split; [reflexivity|]. apply dp_net_ok; [done..|apply Hok|rewrite Hd; apply Hok|rewrite Hd; apply Hok].
Qed.

Lemma dp_reconcile_ok d w specs :
  dp_ok mtu d w -> exists d', dp_reconcile_targets d specs = Ret d' /\ dp_ok mtu d' w.
Proof.
  intros Hok. unfold dp_reconcile_targets.
  destruct (reconcile_plane _ _ _ specs (do_plane _ _ _ Hok)) as (st & ls & -> & Hp & Hd).
  eexists. split; [reflexivity|]. apply dp_net_ok; [done..|apply Hok|rewrite Hd; apply Hok|rewrite Hd; apply Hok].
Qed.

Lemma send_ping_safe d w :
  clock_ok (w_clock w) -> dp_ok mtu d w -> safe (send_ping d) w dp_keeps.
Proof.
  intros Hc Hok. unfold send_ping.
  destruct (icmp_echo_returns (tunnel_ip4 d) (server_ip d) 1 (wadd 16 (ping_seq d) 1)) as (pkt & E & Hl);
    [apply Hok..|].
  apply safe_bind. eapply safe_lift; [exact E|]. apply safe_bind.
  eapply safe_weaken; [apply (pump_op_safe 0 (pump d) (Encapsulate pkt) to_network w Hc (do_pump _ _ _ Hok)); cbn; lia|].
  intros w1 [p dg] _ Hk. apply safe_ret. apply (dp_pump_ok (with_seq d _) w w1 p); [by destruct Hok|exact Hk].
Qed.

Lemma deliver_ok st i ls cs :
  plane_ok st ls cs -> plane_ok (fst (deliver st i)) ls cs /\
  tx (device (fst (deliver st i))) = tx (device st) /\ dev_mtu (device (fst (deliver st i))) = dev_mtu (device st).
Proof. intros Hp. destruct i; cbn; split_and!; try done. by apply (plane_ok_dom st). Qed.

Lemma deliver_all_ok ins st ls cs :
  plane_ok st ls cs -> plane_ok (fst (deliver_all st ins)) ls cs /\
  tx (device (fst (deliver_all st ins))) = tx (device st) /\
  dev_mtu (device (fst (deliver_all st ins))) = dev_mtu (device st).
Proof.
  revert st. induction ins as [|i ins IH]; intros st Hp; [done|]. cbn [deliver_all].
  destruct (deliver_ok st i ls cs Hp) as (Hp1 & Ht1 & Hm1). destruct (deliver st i) as [st1 a].
  cbn [fst] in *. destruct (IH st1 Hp1) as (Hp2 & Ht2 & Hm2). destruct (deliver_all st1 ins) as [st2 b].
  cbn [fst] in *. split_and!; [done|congruence..].
Qed.

Lemma receive_datagram_safe d recv w :
  clock_ok (w_clock w) -> dp_ok mtu d w -> plane_op_fits d (StepIo recv) ->
  safe (receive_datagram d recv) w dp_keeps.
Proof.
  intros Hc Hok Hfit. destruct recv as [dg|]; [|by apply safe_ret]. cbn [receive_datagram].
  apply safe_bind. eapply safe_weaken.
  { exact (pump_op_safe 0 (pump d) (Decapsulate None dg) to_inbound w Hc (do_pump _ _ _ Hok) Hfit). }
  intros w1 [p1 i] Hle1 [Hm1 Hp1]. cbn [fst] in *. pose proof (world_clock _ _ Hle1 Hc) as Hc1.
  destruct (deliver_ok (stack d) i _ _ (do_plane _ _ _ Hok)) as (Hq1 & Ht1 & Hd1).
  destruct (deliver (stack d) i) as [st1 a]. cbn [fst] in *.
  apply safe_bind. eapply safe_weaken; [exact (drain_all_safe 0 p1 w1 Hc1 Hp1)|].
  intros w2 [p2 more] Hle2 [Hm2 Hp2]. cbn [fst] in *.
  destruct (deliver_all_ok more st1 _ _ Hq1) as (Hq2 & Ht2 & Hd2). destruct (deliver_all st1 more) as [st2 b].
  cbn [fst] in *. apply safe_ret. destruct Hok. constructor; try done; cbn; congruence.
Qed.

Lemma send_all_safe pkts p w :
  clock_ok (w_clock w) -> pump_ok 0 p w -> Forall (fun x => (length x <= Nat.max (p_mtu p) 1500)%nat) pkts ->
  safe (send_all p pkts) w (fun w' r => pump_keeps 0 p w' (fst r, tt)).
Proof.
  revert p w. induction pkts as [|x pkts IH]; intros p w Hc Hp Hf; cbn [send_all]; [by apply safe_ret|].
  inversion Hf as [|? ? Hx Hf']; subst. apply safe_bind.
  eapply safe_weaken; [by apply (pump_op_safe 0 p (Encapsulate x) to_network w Hc Hp)|].
  intros w1 [p1 dg] Hle1 [Hm1 Hp1]. cbn [fst] in *. apply safe_bind.
  eapply safe_weaken; [apply IH; [by eapply world_clock|done|by rewrite Hm1]|].
  intros w2 [p2 rest] _ [Hm2 Hp2]. cbn [fst] in *. apply safe_ret. split; cbn; [congruence|done].
Qed.

Lemma step_io_safe d recv w :
  clock_ok (w_clock w) -> dp_ok mtu d w -> plane_op_fits d (StepIo recv) -> safe (step_io d recv) w dp_keeps.
Proof.
  intros Hc Hok Hfit. unfold step_io. apply safe_bind.
  eapply safe_weaken; [by apply receive_datagram_safe|]. clear d Hok Hfit.
  intros w1 [d out1] Hle1 Hok. unfold dp_keeps in Hok. cbn [fst] in Hok. pose proof (world_clock _ _ Hle1 Hc) as Hc1.
  destruct (poll (stack d) 0) as [st outbound] eqn:Ep.
  assert (plane_ok st (listeners d) (conns d) /\ dev_mtu (device st) = mtu /\ tx (device st) = [] /\
    Forall (fun x => (length x <= Nat.max mtu 1500)%nat) outbound) as (Hq & Hd & Ht & Hout).
  { split; [apply (plane_ok_dom (stack d)); [|apply Hok]; rewrite <- (poll_sockets_dom (stack d) 0); by rewrite Ep|].
    unfold poll in Ep. destruct (iface_poll _ _ _ _) as [[i dev] s] eqn:Ei. injection Ep as <- <-.
    apply poll_mtu in Ei as [Hm Htx]. rewrite (do_dev _ _ _ Hok) in Hm, Htx. split_and!; [done..|].
    eapply Forall_impl; [apply Htx; rewrite (do_tx _ _ _ Hok); constructor|]. cbn. intros. lia. }
  apply safe_bind. eapply safe_weaken.
  { apply send_all_safe; [done|apply Hok|by rewrite (do_mtu _ _ _ Hok)]. }
  intros w2 [p2 out2] Hle2 [Hm2 Hp2]. cbn [fst] in *. pose proof (world_clock _ _ Hle2 Hc1) as Hc2.
  apply safe_bind. eapply safe_weaken; [by apply (pump_op_safe 0 p2 UpdateTimers to_network w2 Hc2 Hp2)|].
  intros w3 [p3 dg] Hle3 [Hm3 Hp3]. cbn [fst] in *.
  destruct (accept_bridges st (listeners d) (conns d) Hq (do_bridges _ _ _ Hok))
    as (st3 & ls3 & cs3 & E3 & Hq3 & Hb3 & Hd3).
  apply safe_bind. eapply safe_lift; [exact E3|].
  destruct (shuttle_spec (keys_of cs3) st3 ls3 cs3 Hq3 Hb3 (keys_nodup cs3) (fun h => proj1 (keys_dom cs3 h)))
    as (st4 & cs4 & E4 & Hq4 & Hb4 & Hd4 & _).
  apply safe_bind. eapply safe_lift; [exact E4|]. apply safe_ret.
  destruct Hok. constructor; try done; cbn; congruence.
Qed.

Lemma plane_op_safe d o w :
  clock_ok (w_clock w) -> dp_ok mtu d w -> plane_op_fits d o -> safe (run_plane_op d o) w dp_keeps.
Proof.
  intros Hc Hok Hfit. destruct o as [specs|specs|specs| |recv|h ev]; cbn [run_plane_op].
  - apply safe_ret. by apply dp_add_targets_ok.
  - destruct (dp_remove_targets_ok d w specs Hok) as (d' & E & Hok'). apply safe_bind.
    eapply safe_lift; [exact E|]. by apply safe_ret.
  - destruct (dp_reconcile_ok d w specs Hok) as (d' & E & Hok'). apply safe_bind.
    eapply safe_lift; [exact E|]. by apply safe_ret.
  - by apply send_ping_safe.
  - by apply step_io_safe.
  - apply safe_ret. apply dp_net_ok; [done| | |apply Hok|apply Hok].
    + destruct (do_plane _ _ _ Hok) as [H1 H2 H3]. constructor; [by rewrite dom_alter_L|done|].
      intros l Hl. destruct (decide (h = handle l)) as [->|Hne]; [by rewrite lookup_alter_eq, H3|].
      rewrite lookup_alter_ne by done. by apply H3.
    + by apply bridges_alter_ok, Hok.
Qed.

Lemma run_plane_safe ops d w :
  clock_ok (w_clock w) -> dp_ok mtu d w -> along run_plane_op plane_op_fits d ops w ->
  safe (run_plane d ops) w (fun w' r => dp_keeps w' r /\ length (snd r) = length ops).
Proof.
  revert d w. induction ops as [|o ops IH]; intros d w Hc Hok Hf; cbn [run_plane]; [by apply safe_ret|].
  destruct Hf as [Ho Hf']. apply safe_bind. eapply safe_weaken; [by apply safe_eqn, plane_op_safe|].
  intros w1 [d1 out] Hle1 [E Hok1]. unfold dp_keeps in Hok1. cbn [fst] in Hok1. apply safe_bind.
  eapply safe_weaken; [apply IH; [by eapply world_clock|done|by eapply Hf']|].
  intros w2 [d2 rest] _ [Hok2 Hl]. apply safe_ret. cbn in *. split; [done|lia].
Qed.

End safety.

Section bringing_up.
Context {C : Crypto} {LC : CryptoLaws C} {B : Base64} {S : Smoltcp} {LS : SmoltcpLaws S}.
Context {H : HashOrder} {LH : HashOrderLaws H}.

Lemma first_listeners_ok st ts st' ls :
  sockets st = ∅ -> first_listeners st ts = (st', ls) -> plane_ok st' ls ∅ /\ device st' = device st.
Proof.
  intros Hs E. unfold first_listeners in E. refine (fold_plane _ ∅ ts st [] st' ls _ _ E); [|by apply plane_empty].
  intros st0 ls0 t st1 ls1 Hok E1. by eapply push_listener_plane.
Qed.

(** A data plane that was brought up is in order. *)
Lemma bring_up_safe smol_ip net wg cfg keys tok w :
  clock_ok (w_clock w) ->
  safe (bring_up smol_ip net wg cfg keys tok) w
    (fun w' r => forall d, snd r = Ok d -> dp_ok (cfg_mtu cfg) d w').
Proof.
  intros Hc. unfold bring_up.
  assert (forall out e, safe (mret (out, Err e)) w (fun w' (r : list bytes * Result str DataPlane) =>
    forall d, snd r = Ok d -> dp_ok (cfg_mtu cfg) d w')) as Herr by (intros; by apply safe_ret).
  destruct (endpoint_host_port _); [|apply Herr]. destruct (na_resolved net) as [ep|]; [|apply Herr].
  destruct (na_bound net); cbn [negb]; [|apply Herr]. destruct (public_from_b64 _) as [pub|e]; [|apply Herr].
  clear Herr. apply safe_bind. eapply safe_weaken; [by apply (with_index_safe (secret keys) pub (cfg_mtu cfg) 0 w)|].
  intros w1 p1 Hle1 [Hm1 Hp1]. pose proof (world_clock _ _ Hle1 Hc) as Hc1. apply safe_bind.
  eapply safe_weaken; [by apply (pump_op_safe 0 p1 (Initiate false) to_network w1 Hc1 Hp1)|].
  intros w2 [p2 init] Hle2 [Hm2 Hp2]. cbn [fst] in *.
  match goal with |- context [if ?c then _ else _] => destruct c end; [by apply safe_ret|].
  destruct (smol_ip _) as [ip|]; [|by apply safe_ret].
  destruct (first_listeners _ _) as [st ls] eqn:El.
  apply first_listeners_ok in El as [Hpl Hd]; [|done].
  destruct (ipv4_from_str (wg_server_ip wg)) as [srv|] eqn:Es; [|by apply safe_ret].
  destruct (ipv4_from_str (wg_tunnel_ip wg)) as [tun|] eqn:Et; [|by apply safe_ret].
  apply safe_ret. intros d [= <-]. apply ipv4_from_str_ok in Es, Et.
  constructor; cbn; try done; [congruence|by rewrite Hd|by rewrite Hd].
Qed.

(** C18: the data plane is safe and leaks nothing. Bringing one up returns
    whatever the server and the network answer, and when it succeeds, any
    sequence of target changes, pings, I/O turns and progress of the connections'
    tasks returns for every call: no dangling socket handle, no index out of
    range, no endless loop. Datagrams are at most 48 bytes longer than
    max(mtu, 1500) and may be hostile, forged data packets with any counter
    included; only data packets that authenticate under the session they name,
    which are the exit node's own, are assumed to carry counters below
    2^64 - 1024. Afterwards the socket set holds exactly the sockets of the
    listeners and of the connections, and the tunnel is in order. *)
Theorem data_plane_never_panics smol_ip net wg cfg keys tok ops w :
  clock_ok (w_clock w) ->
  exists w1 sent r, bring_up smol_ip net wg cfg keys tok w = Ret (w1, (sent, r)) /\
    forall d, r = Ok d -> along run_plane_op plane_op_fits d ops w1 ->
      exists w' d' outs, run_plane d ops w1 = Ret (w', (d', outs)) /\ length outs = length ops /\
        dom (sockets (stack d')) = list_to_set (map handle (listeners d')) ∪ dom (conns d') /\
        dp_ok (cfg_mtu cfg) d' w'.
Proof.
  intros Hc. destruct (bring_up_safe smol_ip net wg cfg keys tok w Hc) as (w1 & [sent r] & E & Hle & Hr).
  exists w1, sent, r. split; [exact E|]. intros d -> Hf. specialize (Hr d eq_refl).
  destruct (run_plane_safe (cfg_mtu cfg) ops d w1 (world_clock _ _ Hle Hc) Hr Hf) as (w' & [d' outs] & E' & _ & Hok & Hl).
  exists w', d', outs. split_and!; [done..|apply Hok|exact Hok].
Qed.
End bringing_up.

(** ** Witness *)

#[export] Instance ToyOrder : HashOrder := {| keys_of m := elements (dom m : gset SocketHandle) |}.
#[export] Instance ToyOrderLaws : HashOrderLaws ToyOrder.
Proof.
  constructor.
  - intros m. change (NoDup (elements (dom m : gset SocketHandle))). apply NoDup_elements.
  - intros m h. change (h ∈ elements (dom m : gset SocketHandle) <-> h ∈ (dom m : gset SocketHandle)).
    apply elem_of_elements.
Qed.

Definition demo_site : SiteRun :=
  mkSiteRun (lit "https://app.example.com") (lit "site") (lit "secret") 1280 false (from_secs 90).
Definition demo_up : WgData :=
  mkWgData (lit "203.0.113.5:51820") (replicate 32 7) (lit "100.89.128.1") (lit "100.89.128.4") 0
    (mkTargets [lit "80:10.0.0.1:8080"] []) [].
Definition demo_net : NetAnswers := mkNetAnswers (Some (V4 [203; 0; 113; 5], 51820)) true true.
(** A forged data packet for the tunnel's first index, with the largest counter. *)
Definition forged_zero : bytes := [4; 0; 0; 0; 0; 0; 0; 0] ++ replicate 8 255 ++ replicate 16 0.
Definition demo_plane_ops : list plane_op :=
  [StepIo (Some forged_zero); SendPing; StepIo (Some [4; 0; 0; 0; 1; 1; 0; 0]); Reconcile [lit "81:h:1"]; StepIo None;
   Task 3%nat Ended].

Lemma data_plane_never_panics_witness :
  exists w1 sent d,
    bring_up (S := ToySmoltcp) ip_from_str demo_net demo_up demo_site (mkKeys secret_a []) [] (world_at 0)
      = Ret (w1, (sent, Ok d)) /\
    exists w' d' outs, run_plane d demo_plane_ops w1 = Ret (w', (d', outs)) /\ length outs = length demo_plane_ops /\
        dom (sockets (stack d')) = list_to_set (map handle (listeners d')) ∪ dom (conns d') /\
        dp_ok (cfg_mtu demo_site) d' w'.
Proof.
  destruct (data_plane_never_panics (S := ToySmoltcp) ip_from_str demo_net demo_up demo_site (mkKeys secret_a []) []
    demo_plane_ops (world_at 0) (world_at_ok 0)) as (w1 & sent & r & E & H).
  destruct r as [d|e]; [|exfalso; vm_compute in E; discriminate]. exists w1, sent, d. split; [exact E|].
  apply (H d eq_refl). vm_compute in E. injection E as <- <- <-. split.
  - split; [by repeat constructor|]. split; [cbn; lia|].
    intros p Hp s Hs. vm_compute in Hp. injection Hp as <-. vm_compute in Hs. discriminate.
  - intros w2 d2 r2 _. apply along_always.
    repeat first [apply Forall_nil_2 | apply Forall_cons_2]; intros d0; try exact I.
    split; [by repeat constructor|]. split; [cbn [length]; lia|]. intros p Hp. vm_compute in Hp. discriminate.
Defined.

(** The run really comes up: the bring-up succeeds, with one listener. *)
Example demo_comes_up :
  match bring_up (S := ToySmoltcp) ip_from_str demo_net demo_up demo_site (mkKeys secret_a []) [] (world_at 0) with
  | Ret (_, ([_], Ok d)) => map port (listeners d)
  | _ => []
  end = [80].
Proof. vm_compute. reflexivity. Qed.
