(* ===== verification/EndToEnd.v ===== *)
(** The roles against a peer: a tunnel at the other end of the channel sends a
    packet into a role and gets its answers back. This composes the tunnels of
    [Channel] with the pump, the data plane of the site role and the router of
    the client role. *)

From S2P Require Import Prelude Time Errors Replay Crypto ToyCrypto Packet Session.
From S2P Require Import Handshake HandshakeFacts RateLimiter Timers Tunn TunnFacts TunnProps Channel Text Ip.
From S2P Require Import Json Config Wg Router Netstack Bridge DataPlane Plane.

Section ends.
Context {C : Crypto} {L : CryptoLaws C}.

(** One packet from end to end. *)
Lemma linked_one ta tb sa sb wa wb pkt da db w1 w2 addr :
  linked ta tb sa sb wa wb -> sending_key_counter sa < COUNTER_LIMIT ->
  ip_wf pkt -> (length pkt + 32 <= da)%nat -> (length pkt + 16 <= db)%nat ->
  exists ta' tb' sa' sb' wb' r,
    encapsulate ta pkt da w1 = Ret (w1, (ta', WriteToNetwork (sealed sa (sending_key_counter sa) pkt))) /\
    decapsulate tb addr (sealed sa (sending_key_counter sa) pkt) db w2 = Ret (w2, (tb', r)) /\
    tunnel_payload r = Some pkt /\ linked ta' tb' sa' sb' wa wb' /\
    packet_queue ta' = packet_queue ta /\ packet_queue tb' = packet_queue tb /\
    sending_key_counter sa' = sending_key_counter sa + 1 /\ sending_key_counter sb' = sending_key_counter sb /\
    receiving_index sa' = receiving_index sa /\ receiving_index sb' = receiving_index sb.
Proof.
  intros Hl Hc Hwf Hda Hdb.
  destruct (linked_batch ta tb sa sb wa wb [pkt] da db w1 w2 addr Hl ltac:(cbn; lia) ltac:(by apply Forall_singleton))
    as (ta' & tb' & sa' & sb' & wb' & rs & Ea & Eb & Hrs & Hl' & Hrest).
  cbn in Ea, Eb. rewrite Z.add_0_r in *.
  apply mbind_ret_inv in Ea as (x1 & [t1 r1] & Ea & E). unfold mbind, mret in E. simplify_eq/=.
  apply mbind_ret_inv in Eb as (x2 & [t2 r2] & Eb & E). unfold mbind, mret in E. simplify_eq/=.
  exists ta', tb', sa', sb', wb', r2. split_and!; naive_solver.
Qed.

Lemma payload_inbound r pkt : tunnel_payload r = Some pkt -> to_inbound r = InPacket pkt.
Proof. destruct r; cbn; intros; by simplify_eq. Qed.

Lemma drain_loop_empty n p w : packet_queue (tun p) = [] -> drain_loop (Datatypes.S n) p w = Ret (w, (p, [])).
Proof. intros Hq. cbn [drain_loop]. unfold mbind at 1. by rewrite drain_empty. Qed.

Lemma drain_fuel_succ : exists n, DRAIN_FUEL = Datatypes.S n.
Proof. exists (MAX_QUEUE_DEPTH + 1)%nat. unfold DRAIN_FUEL. lia. Qed.

(** The datagrams of the other end are acceptable input. *)
Lemma sealed_fits s c pkt mtu t :
  u32 (sending_index s) -> counter_ok c -> bytes_ok pkt -> (length pkt <= mtu)%nat ->
  op_fits mtu (mtu + 32) t (Decapsulate None (sealed s c pkt)).
Proof.
  intros Hu Hc Hb Hl. unfold sealed. set (e := chacha_encrypt _ _ _ _).
  assert (length (fst e ++ snd e) = (length pkt + 16)%nat) as He.
  { rewrite length_app. unfold e. by rewrite (aead_ct_len _ _ chacha_laws), (aead_tag_len _ _ chacha_laws). }
  set (p := mkPacketData (sending_index s) c (fst e ++ snd e)).
  assert (packet_ok (PPacketData p)) as Hp.
  { unfold counter_ok, COUNTER_LIMIT, N_BITS, WORD_SIZE, N_WORDS in Hc.
    split_and!; [done|unfold u64; cbn; lia|cbn; lia]. }
  pose proof (length_packet (PPacketData p) [] Hp eq_refl) as Hlen. rewrite app_nil_r in Hlen.
  split; [|split; [rewrite Hlen; cbn; lia|intros q E x _ _; rewrite parse_serialize_data in E by done; by simplify_eq]].
  assert (bytes_ok (fst e ++ snd e)) as Hee by (by apply (aead_bytes _ _ chacha_laws)). clearbody e.
  cbn [packet_prefix]. repeat (apply Forall_app_2; [apply to_le_bytes_ok|]). exact Hee.
Qed.

(** Encrypting what a role wants to send is giving its packets to the tunnel. *)
Lemma send_all_encapsulates p pkts w w' t wires :
  encapsulate_all (tun p) pkts (scratch p) w = Ret (w', (t, map WriteToNetwork wires)) ->
  send_all p pkts w = Ret (w', (set_tun p t, wires)).
Proof.
  revert p w wires. induction pkts as [|pkt pkts IH]; intros p w wires E; cbn [encapsulate_all send_all] in *.
  { unfold mret in *. destruct wires; [|done]. simplify_eq. by destruct p. }
  apply mbind_ret_inv in E as (w1 & [t1 r] & E1 & E). apply mbind_ret_inv in E as (w2 & [t2 rs] & E2 & E).
  unfold mret in E. destruct wires as [|wire wires]; simplify_eq/=.
  unfold Pump_encapsulate, mbind. rewrite E1. cbn [obind mret].
  rewrite (IH (set_tun p t1) w1 wires E2). done.
Qed.
End ends.

(** ** The site role *)

Section site.
Context {C : Crypto} {LC : CryptoLaws C} {B : Base64} {S : Smoltcp} {LS : SmoltcpLaws S}.
Context {H : HashOrder} {LH : HashOrderLaws H} (mtu : nat).

(** A packet from the exit node is put on the device of the stack. *)
Lemma datagram_reaches_stack te d se sd we wd pkt de w1 w2 :
  linked te (tun (pump d)) se sd we wd -> packet_queue (tun (pump d)) = [] ->
  p_mtu (pump d) = mtu -> sending_key_counter se < COUNTER_LIMIT ->
  ip_wf pkt -> (length pkt + 32 <= de)%nat -> (length pkt <= Nat.max mtu 1500)%nat ->
  exists te' p' se' sd' wd',
    encapsulate te pkt de w1 = Ret (w1, (te', WriteToNetwork (sealed se (sending_key_counter se) pkt))) /\
    receive_datagram d (Some (sealed se (sending_key_counter se) pkt)) w2 =
      Ret (w2, (with_net (with_pump d p') (push_rx (stack d) pkt) (listeners d) (conns d), [])) /\
    linked te' (tun p') se' sd' we wd' /\ p_mtu p' = mtu /\ sending_key_counter sd' = sending_key_counter sd.
Proof.
  intros Hl Hq Hm Hc Hwf Hde Hlen.
  destruct (linked_one te (tun (pump d)) se sd we wd pkt de (scratch (pump d)) w1 w2 None Hl Hc Hwf Hde)
    as (te' & t' & se' & sd' & wd' & r & E1 & E2 & Hr & Hl' & _ & Hq' & _ & Hcnt & _); [unfold scratch; lia|].
  exists te', (set_tun (pump d) t'), se', sd', wd'. split; [exact E1|]. split; [|done].
  cbn [receive_datagram]. unfold Pump_decapsulate, mbind at 1 2. rewrite E2. cbn [obind mret].
  rewrite (payload_inbound r pkt Hr). cbn [deliver]. unfold mbind.
  destruct drain_fuel_succ as [n ->]. rewrite drain_loop_empty by (cbn; congruence). done.
Qed.

(** C21: a turn of the site role is a faithful exchange of packets. The exit
    node seals a packet and the role takes its datagram in one turn: the packet
    is put on the stack's device unchanged, and whatever IP packets the stack
    then emits come back in as many datagrams, in order, from which the exit
    node's tunnel gets exactly those packets; at most one more datagram is sent,
    for the timers. *)
Theorem site_turn_exchanges te d se sd we wd pkt st out de w1 w2 w3 addr :
  clock_ok (w_clock w2) -> dp_ok mtu d w2 -> linked te (tun (pump d)) se sd we wd ->
  packet_queue (tun (pump d)) = [] ->
  ip_wf pkt -> bytes_ok pkt -> (length pkt <= Nat.max mtu 1500)%nat -> (Nat.max mtu 1500 + 32 <= de)%nat ->
  poll (push_rx (stack d) pkt) 0 = (st, out) -> Forall ip_wf out ->
  sending_key_counter se < COUNTER_LIMIT ->
  sending_key_counter sd + Z.of_nat (length out) <= COUNTER_LIMIT ->
  exists te1 wire w' d' answers timer te2 rs,
    encapsulate te pkt de w1 = Ret (w1, (te1, WriteToNetwork wire)) /\
    step_io d (Some wire) w2 = Ret (w', (d', answers ++ timer)) /\ (length timer <= 1)%nat /\
    length answers = length out /\
    decapsulate_all te1 addr answers de w3 = Ret (w3, (te2, rs)) /\ map tunnel_payload rs = map Some out.
Proof.
  intros Hclk Hok Hl Hq Hwf Hb Hlen Hde Hpoll Hout Hce Hcd.
  destruct (datagram_reaches_stack te d se sd we wd pkt de w1 w2 Hl Hq (do_mtu _ _ _ Hok) Hce Hwf ltac:(lia) Hlen)
    as (te1 & p1 & se1 & sd1 & wd1 & E1 & E2 & Hl1 & Hm1 & Hcnt).
  assert (Forall (fun x => (length x <= mtu)%nat) out) as Hmtu.
  { unfold poll in Hpoll. destruct (iface_poll _ _ _ _) as [[i dev] s] eqn:Ei. injection Hpoll as <- <-.
    apply poll_mtu in Ei as [_ Htx]. cbn [push_rx device tx dev_mtu] in Htx.
    rewrite (do_dev _ _ _ Hok), (do_tx _ _ _ Hok) in Htx. by apply Htx. }
  destruct (linked_batch (tun p1) te1 sd1 se1 wd1 we out (scratch p1) de w2 w3 addr (linked_sym _ _ _ _ _ _ Hl1))
    as (t2 & te2 & sd2 & se2 & we2 & rs & E3 & E4 & Hrs & _); [by rewrite Hcnt| |].
  { apply Forall_forall. intros x Hx. rewrite Forall_forall in Hout, Hmtu. specialize (Hmtu x Hx).
    split; [by apply Hout|]. unfold scratch. rewrite Hm1. lia. }
  cbn zeta in E3, E4. set (answers := imap _ out) in E3, E4. apply send_all_encapsulates in E3.
  destruct (step_io_safe mtu d (Some (sealed se (sending_key_counter se) pkt)) w2 Hclk Hok)
    as (w' & [d' outs] & E0 & _).
  { cbn [plane_op_fits]. unfold scratch. rewrite (do_mtu _ _ _ Hok). apply sealed_fits; [apply (pair_index_u32 _ _ (ln_ab _ _ _ _ _ _ Hl))|split; [|done]|done..].
    pose proof (ln_fa _ _ _ _ _ _ Hl). lia. }
  pose proof E0 as E. unfold step_io, mbind at 1 in E. rewrite E2 in E. cbn [obind] in E. cbn [stack with_net] in E. rewrite Hpoll in E.
  unfold mbind at 1 in E. cbn [pump with_net with_pump] in E. rewrite E3 in E. cbn [obind] in E.
  apply mbind_ret_inv in E as (w4 & [p4 dg] & E5 & E). apply mbind_ret_inv in E as (w5 & [[st5 ls5] cs5] & E6 & E).
  apply mbind_ret_inv in E as (w6 & [st6 cs6] & E7 & E). unfold mret in E. cbn [app] in E. injection E as <- <- <-.
  exists te1, (sealed se (sending_key_counter se) pkt), w6. do 2 eexists.
  exists (match dg with Some b => [b] | None => [] end), te2, rs.
  split_and!; [exact E1|exact E0|by destruct dg; cbn; lia|apply length_imap|exact E4|done].
Qed.
End site.

(** ** The client role *)

Section client.
Context {C : Crypto} {LC : CryptoLaws C} {B : Base64}.

(** The demultiplexer reads the peer's number off a datagram of its channel. *)
Lemma sealed_index s c pkt peer :
  own peer (sending_index s) -> counter_ok c -> peer_index_of (sealed s c pkt) = Some peer.
Proof.
  intros [Hu Ho] Hc. unfold sealed. set (e := chacha_encrypt _ _ _ _).
  set (p := mkPacketData (sending_index s) c (fst e ++ snd e)).
  rewrite <- (app_nil_r (packet_prefix _)), peer_index_of_packet; [cbn; by rewrite Ho| |done].
  unfold counter_ok, COUNTER_LIMIT, N_BITS, WORD_SIZE, N_WORDS in Hc. split_and!; [done|unfold u64; cbn; lia|].
  cbn. rewrite length_app. unfold e. rewrite (aead_tag_len _ _ chacha_laws). lia.
Qed.

(** C20: a client's packet reaches its site and the answer comes back, for a
    peer whose index is below 2^24 (the others get no datagrams at all,
    [Router.high_index_unreachable]). A packet of the host whose destination has a route goes to the endpoint of the peer
    with the longest prefix, in one datagram from which the site's tunnel gets
    exactly that packet; the datagram of the site's answer finds the same peer
    among all others and hands the answer to the host unchanged, with nothing
    else sent. *)
Theorem client_exchanges r w i p ts sa sb wa wb pkt reply dst ds w1 w2 w3 w4 addr :
  router_ok r w -> peers r !! i = Some p -> index p < 2 ^ 24 ->
  dest_ip pkt = Some dst -> best_peer r dst = Ret (Some i) ->
  linked (tun (Router.pump p)) ts sa sb wa wb -> packet_queue (tun (Router.pump p)) = [] ->
  ip_wf pkt -> ip_wf reply -> (length pkt <= Nat.max (r_mtu r) 1500)%nat -> (length reply <= Nat.max (r_mtu r) 1500)%nat ->
  (Nat.max (r_mtu r) 1500 + 32 <= ds)%nat ->
  sending_key_counter sa < COUNTER_LIMIT -> sending_key_counter sb < COUNTER_LIMIT ->
  exists r1 wire ts1 res ts2 wire' r2,
    route_outbound r pkt w1 = Ret (w1, (r1, Some (wire, Router.endpoint p))) /\
    decapsulate ts addr wire ds w2 = Ret (w2, (ts1, res)) /\ tunnel_payload res = Some pkt /\
    encapsulate ts1 reply ds w3 = Ret (w3, (ts2, WriteToNetwork wire')) /\
    handle_inbound r1 wire' w4 = Ret (w4, (r2, [ToHost reply])).
Proof.
  intros Hok Hi H24 Hdst Hbest Hl Hq Hwf Hwf' Hlen Hlen' Hds Hca Hcb.
  destruct (Forall_lookup_1 _ _ _ _ (ro_peers _ _ Hok) Hi) as [Hix Hm Hpump _].
  assert (own (index p) (receiving_index sa)) as Hown.
  { pose proof (ln_a _ _ _ _ _ _ Hl) as Hs. unfold session_at in Hs.
    destruct (sessions _ !! slot _) as [[s|]|] eqn:E; cbn in Hs; [|done..]. injection Hs as ->.
    destruct (tk_sessions _ _ _ _ Hpump _ _ E) as [_ [Ho _]]. by rewrite Z.mod_small in Ho by lia. }
  destruct (linked_one _ ts sa sb wa wb pkt (scratch (Router.pump p)) ds w1 w2 addr Hl Hca Hwf)
    as (t1 & ts1 & sa1 & sb1 & wb1 & res & E1 & E2 & Hres & Hl1 & Hq1 & _ & _ & Hcnt & Hri & _);
    [unfold scratch; rewrite Hm; lia|lia|].
  destruct (linked_one ts1 t1 sb1 sa1 wb1 wa reply ds (scratch (Router.pump p)) w3 w4 None (linked_sym _ _ _ _ _ _ Hl1))
    as (ts2 & t2 & sb2 & sa2 & wa2 & res2 & E3 & E4 & Hres2 & _ & _ & Hq2 & _);
    [by rewrite Hcnt|done|lia|unfold scratch; rewrite Hm; lia|].
  set (p1 := set_pump p (set_tun (Router.pump p) t1)).
  assert (<[i := p1]> (peers r) !! i = Some p1) as Hi1 by (by apply list_lookup_insert_eq; eapply lookup_lt_Some).
  do 7 eexists. split_and!; [|exact E2|done|exact E3|].
  - unfold route_outbound. rewrite Hdst, Hbest. unfold mlift, index_at, Pump_encapsulate, mbind. cbn [obind].
    rewrite Hi. cbn [obind]. rewrite E1. reflexivity.
  - unfold handle_inbound. rewrite (sealed_index sb1 _ reply (index p)).
    + cbn [peers set_peers]. change (index p) with (index p1). fold p1. rewrite (find_peer _ i p1).
      * unfold Pump_decapsulate, mbind. cbn [Router.pump p1 set_pump tun set_tun scratch p_mtu].
        change (scratch (set_tun (Router.pump p) t1)) with (scratch (Router.pump p)). rewrite E4. cbn [obind mret].
        rewrite (payload_inbound res2 reply Hres2). destruct drain_fuel_succ as [n ->].
        rewrite drain_loop_empty by (cbn; congruence). reflexivity.
      * rewrite list_fmap_insert. change (index p1) with (index p). rewrite list_insert_id; [apply Hok|].
        rewrite list_lookup_fmap. by rewrite Hi.
      * exact Hi1.
    + rewrite (pair_index _ _ (ln_ba _ _ _ _ _ _ Hl1)), Hri. exact Hown.
    + split; [|by rewrite Hcnt]. pose proof (ln_fb _ _ _ _ _ _ Hl1). lia.
Qed.
End client.

(** ** Witnesses *)

(** A stack that sends every packet back. *)
#[export] Instance EchoSmoltcp : Smoltcp := {|
  Interface := unit;
  Socket := ToySocket;
  iface_new _ _ := tt;
  iface_add_addr i _ _ := i;
  iface_default_routes i _ _ := i;
  iface_poll _ i d s :=
    (i, mkDevice [] (tx d ++ List.filter (fun p => length p <=? dev_mtu d)%nat (rx d)) (dev_mtu d), s);
  fresh_handle := toy_fresh;
  tcp_new := @tcp_new ToySmoltcp;
  tcp_connect := @tcp_connect ToySmoltcp;
  tcp_listen := @tcp_listen ToySmoltcp;
  tcp_is_active := ts_active;
  tcp_is_open := ts_open;
  tcp_can_recv := @tcp_can_recv ToySmoltcp;
  tcp_can_send := ts_open;
  tcp_recv := @tcp_recv ToySmoltcp;
  tcp_send_slice := @tcp_send_slice ToySmoltcp;
  tcp_close := @tcp_close ToySmoltcp
|}.

#[export] Instance EchoSmoltcpLaws : SmoltcpLaws EchoSmoltcp.
Proof.
  constructor; [exact toy_fresh_unused|done| |apply (@send_slice_le ToySmoltcp _)].
  intros now i d s i' d' s' [= <- <- <-]. cbn. split; [done|]. intros Ht. apply Forall_app. split; [done|].
  apply Forall_forall. intros p Hp%list_elem_of_In%filter_In. destruct Hp as [_ Hp]. by apply Nat.leb_le.
Qed.

(** The exit node and the site, with a session between them. *)
Definition exit_session : Session := Session_new 257 1 key_ba key_ab.
Definition site_session : Session := Session_new 1 257 key_ab key_ba.
Definition exit_node : Tunn := set_current (demo_tunn peer_a secret_a (ring exit_session) (demo_timers true (from_secs 1))) 257.
Definition site_tunnel : Tunn :=
  set_current (demo_tunn (demo_peer secret_b secret_a 0) secret_b (ring site_session) (demo_timers false 0)) 1.
Definition demo_plane : DataPlane (S := EchoSmoltcp) :=
  mkDataPlane (S := EchoSmoltcp) (mkPump site_tunnel 1280) (mkStack (S := EchoSmoltcp) (VirtualDevice_new 1280) tt ∅) [] ∅
    (V4 [203; 0; 113; 5], 51820) (V4 [203; 0; 113; 5], 21820) [100; 89; 128; 1] [100; 89; 128; 4] 0 [] [] [] [].

Lemma demo_plane_ok : dp_ok 1280 demo_plane (world_at 2).
Proof.
  constructor; try done.
  - constructor; [done|constructor|]. intros l Hl. by apply elem_of_nil in Hl.
  - apply (demo_ok 0 (demo_peer secret_b secret_a 0) secret_b (ring site_session) false 0 2 1).
    + apply hs_ok_demo; [unfold u32; cbn; lia|done..].
    + right. exists site_session. split; [done|]. split; [done|]. split; [|exists window_init; by apply session_window_init].
      split; [unfold u32; cbn; lia|done].
    + unfold from_secs, NANOSECOND. lia.
  - split; [|done]. repeat constructor; unfold byte_ok; lia.
  - split; [|done]. repeat constructor; unfold byte_ok; lia.
Qed.

Lemma ping4_wf : ip_wf ping4.
Proof. left. vm_compute. repeat split; repeat constructor. Qed.

Lemma site_turn_exchanges_witness :
  exists te1 wire w' d' answers timer te2 rs,
    encapsulate exit_node ping4 1532 (world_at 2) = Ret (world_at 2, (te1, WriteToNetwork wire)) /\
    step_io demo_plane (Some wire) (world_at 2) = Ret (w', (d', answers ++ timer)) /\ (length timer <= 1)%nat /\
    length answers = 1%nat /\
    decapsulate_all te1 None answers 1532 (world_at 2) = Ret (world_at 2, (te2, rs)) /\
    map tunnel_payload rs = [Some ping4].
Proof.
  apply (site_turn_exchanges (S := EchoSmoltcp) 1280 exit_node demo_plane exit_session site_session window_init
    window_init ping4 (mkStack (S := EchoSmoltcp) (VirtualDevice_new 1280) tt ∅) [ping4] 1532 (world_at 2) (world_at 2)
    (world_at 2) None).
  - apply world_at_ok.
  - apply demo_plane_ok.
  - apply session_linked; (reflexivity || (constructor; [reflexivity..|unfold u32; cbn; lia])).
  - reflexivity.
  - apply ping4_wf.
  - unfold ping4. repeat constructor; unfold byte_ok; lia.
  - cbn; lia.
  - cbn; lia.
  - reflexivity.
  - apply Forall_singleton, ping4_wf.
  - vm_compute. reflexivity.
  - vm_compute. discriminate.
Defined.

Lemma client_exchanges_witness :
  exists r1 wire ts1 res ts2 wire' r2,
    route_outbound demo_router ping4 (world_at 2) = Ret (world_at 2, (r1, Some (wire, ep1))) /\
    decapsulate up_b None wire 1532 (world_at 2) = Ret (world_at 2, (ts1, res)) /\ tunnel_payload res = Some ping4 /\
    encapsulate ts1 ping4' 1532 (world_at 2) = Ret (world_at 2, (ts2, WriteToNetwork wire')) /\
    handle_inbound r1 wire' (world_at 2) = Ret (world_at 2, (r2, [ToHost ping4'])).
Proof.
  apply (client_exchanges demo_router (world_at 2) 0 (mkPeer 1 (mkPump up_a 1280) ep1 [range16] 1) up_b session_a
    session_b window_init window_init ping4 ping4' (V4 [10; 0; 0; 2]) 1532 (world_at 2) (world_at 2) (world_at 2)
    (world_at 2) None).
  - apply demo_router_ok.
  - reflexivity.
  - cbn; lia.
  - reflexivity.
  - reflexivity.
  - apply session_linked; (reflexivity || (constructor; [reflexivity..|unfold u32; cbn; lia])).
  - reflexivity.
  - apply ping4_wf.
  - left. vm_compute. repeat split; repeat constructor.
  - cbn; lia.
  - cbn; lia.
  - cbn; lia.
  - vm_compute. reflexivity.
  - vm_compute. reflexivity.
Defined.
