(* ===== verification/Connector.v ===== *)
(** The site role, [run] and [session] of [newt/src/tunnel.rs]: the loop that
    feeds the state machine, carries out its actions, keeps the data plane and
    sends the heartbeat. *)

From Stdlib Require Import String.
From S2P Require Import Prelude Time Errors Replay Crypto ToyCrypto Packet Session.
From S2P Require Import Handshake HandshakeFacts RateLimiter Timers Tunn TunnFacts TunnProps Text Ip.
From S2P Require Import Json Proto Token Config Wg Holepunch Ws Sm Target Netstack Bridge Icmp DataPlane Plane.

(** ** The surroundings *)

(** What the network answers during a turn: whether the control channel takes
    what is written, how a bring-up goes, and whether the keepalive and the hole
    punch can be sent. *)
Record Answers := mkAnswers { an_ws : bool; an_net : NetAnswers; an_ping : bool; an_punch : bool }.

Section connector.
Context {C : Crypto} {B : Base64} {S : Smoltcp} {H : HashOrder} {F : Float} {J : JsonText}.

(** What leaves the program. *)
Inductive Output : Type :=
| ToServer (m : WsMessage)
| ToExitNode (b : bytes)
| ToRelay (b : bytes).

(** How a turn ends. *)
Inductive Ending : Type :=
| Continue
| Ended (r : Result str unit).

(** The variables of a session. *)
Record Running := mkRunning {
  rn_sm : Sm;
  rn_data : option DataPlane;
  rn_version : option Z;
  rn_ping_ticks : Z
}.

Definition with_data (s : Running) (d : option DataPlane) : Running :=
  mkRunning (rn_sm s) d (rn_version s) (rn_ping_ticks s).
Definition with_sm (s : Running) (m : Sm) : Running := mkRunning m (rn_data s) (rn_version s) (rn_ping_ticks s).
Definition with_version (s : Running) (v : option Z) : Running :=
  mkRunning (rn_sm s) (rn_data s) v (rn_ping_ticks s).
Definition with_ticks (s : Running) (n : Z) : Running := mkRunning (rn_sm s) (rn_data s) (rn_version s) n.

(** ** Actions *)

Section session.
Variables (smol_ip : str -> option IpAddr) (cfg : SiteRun) (keys : Keys) (tok : str).

(** One action: the data plane after it, what was sent, and the error that ends
    the session. *)
Definition exec (an : Answers) (data : option DataPlane) (act : Action)
  : M (option DataPlane * list Output * Ending) :=
  match act with
  | Send m =>
      if an_ws an then mret (data, [ToServer m], Continue) else mret (data, [], Ended (Err (lit "write")))
  | BringUp wg =>
      let* (sent, r) := bring_up smol_ip (an_net an) wg cfg keys tok in
      match r with
      | Ok d => mret (Some d, map ToExitNode sent, Continue)
      | Err e => mret (data, map ToExitNode sent, Ended (Err e))
      end
  | Teardown => mret (None, [], Continue)
  | Stop => mret (data, [], Ended (Err (lit "terminated by server")))
  end.

(** The actions of a step, up to the first error. *)
Fixpoint exec_all (an : Answers) (data : option DataPlane) (acts : list Action)
  : M (option DataPlane * list Output * Ending) :=
  match acts with
  | [] => mret (data, [], Continue)
  | act :: acts' =>
      let* (data, out, e) := exec an data act in
      match e with
      | Continue =>
          let* (data, out', e) := exec_all an data acts' in
          mret (data, out ++ out', e)
      | _ => mret (data, out, e)
      end
  end.

Definition feed (an : Answers) (s : Running) (ev : Event) : M (Running * list Output * Ending) :=
  let '(sm, acts) := step (rn_sm s) ev in
  let* (data, out, e) := exec_all an (rn_data s) acts in
  mret (with_sm (with_data s data) sm, out, e).

(** ** Messages *)

Definition to_event (m : WsMessage) : option Event :=
  if bytes_eqb (typ m) topic.PING_EXIT_NODES then option_map ExitNodes (dec_ExitNodeData (data m))
  else if bytes_eqb (typ m) topic.WG_CONNECT then option_map WgConnect (dec_WgData (data m))
  else if bytes_eqb (typ m) topic.WG_RECONNECT then Some Reconnect
  else if bytes_eqb (typ m) topic.WG_TERMINATE then Some Terminate
  else None.

(** The strings of an array, if it is one. *)
Definition strings_of (v : option json) : list str :=
  match v with Some (JArr l) => omap as_str l | _ => [] end.

(** Applied to the data plane when there is one. *)
Definition on_data (s : Running) (f : DataPlane -> outcome DataPlane) : M (Running * list Output * Ending) :=
  match rn_data s with
  | None => mret (s, [], Continue)
  | Some d => let* d := mlift (f d) in mret (with_data s (Some d), [], Continue)
  end.

Definition on_message (an : Answers) (s : Running) (m : WsMessage) : M (Running * list Output * Ending) :=
  let s := match config_version m with Some v => with_version s (Some v) | None => s end in
  if bytes_eqb (typ m) topic.TCP_ADD then
    on_data s (fun d => Ret (dp_add_targets d (strings_of (get (lit "targets") (data m)))))
  else if bytes_eqb (typ m) topic.TCP_REMOVE then
    on_data s (fun d => dp_remove_targets d (strings_of (get (lit "targets") (data m))))
  else if bytes_eqb (typ m) topic.SYNC then
    let tcp := match get (lit "proxyTargets") (data m) with Some p => get (lit "tcp") p | None => None end in
    on_data s (fun d => dp_reconcile_targets d (strings_of tcp))
  else
    match to_event m with
    | Some ev => feed an s ev
    | None => mret (s, [], Continue)
    end.

(** ** The clock *)

Definition heartbeat (s : Running) : WsMessage := mkWsMessage topic.PING (JObj []) (rn_version s).

(** The keepalive and the hole punch of a tunnel that is up. *)
Definition keep_alive (an : Answers) (s : Running) : M (Running * list Output * Ending) :=
  match rn_data s with
  | None => mret (s, [], Continue)
  | Some d =>
      let* (d, sent) := send_ping d in
      let s := with_data s (Some d) in
      if negb (match sent with [] => true | _ => an_ping an end) then mret (s, [], Ended (Err (lit "send")))
      else
        let* punch := send_holepunch d in
        match punch with
        | None => mret (s, map ToExitNode sent, Continue)
        | Some p =>
            if an_punch an then mret (s, map ToExitNode sent ++ [ToRelay p], Continue)
            else mret (s, map ToExitNode sent, Ended (Err (lit "send")))
        end
  end.

Definition beat (an : Answers) (s : Running) : M (Running * list Output * Ending) :=
  let s := with_ticks s (wadd 32 (rn_ping_ticks s) 1) in
  if 10 <=? rn_ping_ticks s then
    let s := with_ticks s 0 in
    if an_ws an then mret (s, [ToServer (heartbeat s)], Continue) else mret (s, [], Ended (Err (lit "write")))
  else mret (s, [], Continue).

(** Two stages of a turn, the second unless the first ended the session. *)
Definition andthen (m : M (Running * list Output * Ending)) (k : Running -> M (Running * list Output * Ending))
  : M (Running * list Output * Ending) :=
  let* (s, out, e) := m in
  match e with
  | Continue => let* (s, out', e) := k s in mret (s, out ++ out', e)
  | _ => mret (s, out, e)
  end.

Definition on_tick (an : Answers) (s : Running) : M (Running * list Output * Ending) :=
  andthen (andthen (feed an s (Tick 1000)) (keep_alive an)) (beat an).

(** ** The loop *)

(** The branches of the loop's [select!]. *)
Inductive Turn : Type :=
| Received (m : WsMessage)
| Closed
| Broken (e : str)
| Ticked
| Driven (recv : Result str (option bytes)).

(** What a call to [recv] makes the loop do; a waiting call does nothing. *)
Definition received (r : Io (option WsMessage)) : option Turn :=
  match r with
  | Got (Some m) _ => Some (Received m)
  | Got None _ => Some Closed
  | Failed e => Some (Broken e)
  | Waiting => None
  end.

(** The branch of the data plane is only armed with a tunnel. *)
Definition turn (an : Answers) (s : Running) (t : Turn) : M (Running * list Output * Ending) :=
  match t with
  | Received m => on_message an s m
  | Closed => mret (s, [], Ended (Ok tt))
  | Broken e => mret (s, [], Ended (Err e))
  | Ticked => on_tick an s
  | Driven r =>
      match rn_data s, r with
      | None, _ => mret (s, [], Continue)
      | Some _, Err e => mret (s, [], Ended (Err e))
      | Some d, Ok recv =>
          let* (d, out) := step_io d recv in
          mret (with_data s (Some d), map ToExitNode out, Continue)
      end
  end.

Fixpoint turns (s : Running) (ts : list (Answers * Turn)) : M (Running * list Output * Ending) :=
  match ts with
  | [] => mret (s, [], Continue)
  | (an, t) :: ts' => andthen (turn an s t) (fun s => turns s ts')
  end.

(** A session over a connected channel: the first request, then the loop. *)
Definition serve (an : Answers) (sm : Sm) (ts : list (Answers * Turn)) : M (Running * list Output * Ending) :=
  andthen (feed an (mkRunning sm None None 0) WsConnected) (fun s => turns s ts).
End session.

(** How the server is reached: its answer to the token request, and whether the
    channel opens with that token. *)
Record Dial := mkDial { di_exchange : Endpoint -> str -> Result str bytes; di_channel : str -> Result str unit }.

Definition site_credentials (cfg : SiteRun) : json :=
  jobj [(lit "newtId", JStr (cfg_id cfg)); (lit "secret", JStr (cfg_secret cfg))].

Definition session (smol_ip : str -> option IpAddr) (cfg : SiteRun) (keys : Keys) (di : Dial) (an : Answers) (sm : Sm)
    (ts : list (Answers * Turn)) : M (Running * list Output * Ending) :=
  match get_token (di_exchange di) (cfg_endpoint cfg) (lit "newt") (site_credentials cfg) with
  | Err e => mret (mkRunning sm None None 0, [], Ended (Err e))
  | Ok jwt =>
      match di_channel di jwt with
      | Err e => mret (mkRunning sm None None 0, [], Ended (Err e))
      | Ok _ => serve smol_ip cfg keys jwt an sm ts
      end
  end.

(** The role: sessions one after another, each with a new machine and no
    tunnel, under the same keys. What each session sent and how it ended, and the
    result of the loop once it has one: the loop has no [return] or [break], and
    an error of a session is only logged, so a session that ended either way is
    followed by the next; a session that goes on, or the end of what happened
    so far, leaves the loop running. *)
Definition Script : Type := Dial * Answers * list (Answers * Turn).

Fixpoint run_sessions (smol_ip : str -> option IpAddr) (cfg : SiteRun) (keys : Keys) (version : str) (sm : Sm)
    (scripts : list Script) : M (list (list Output * Ending) * option (Result str unit)) :=
  match scripts with
  | [] => mret ([], None)
  | (di, an, ts) :: scripts' =>
      let* (s, out, e) := session smol_ip cfg keys di an sm ts in
      match e with
      | Continue => mret ([(out, Continue)], None)
      | Ended r =>
          let* (rest, result) :=
            run_sessions smol_ip cfg keys version (Sm_new (public_b64 keys) version false) scripts' in
          mret ((out, Ended r) :: rest, result)
      end
  end.

Definition run (smol_ip : str -> option IpAddr) (cfg : SiteRun) (version : str) (scripts : list Script)
  : M (list (list Output * Ending) * option (Result str unit)) :=
  let* keys := generate_keys in
  run_sessions smol_ip cfg keys version (Sm_new (public_b64 keys) version false) scripts.
End connector.

(** ** Invariant *)

(** Whether a tunnel is up. *)
Definition up {A} (data : option A) : bool := match data with Some _ => true | None => false end.

Definition is_beat {F : Float} (o : Output) : bool :=
  match o with ToServer m => bytes_eqb (typ m) topic.PING | _ => false end.

(** The heartbeats among what was sent. *)
Definition beats {F : Float} (out : list Output) : Z := Z.of_nat (length (List.filter is_beat out)).

Lemma beats_app {F : Float} a b : beats (a ++ b) = beats a + beats b.
Proof. unfold beats. rewrite List.filter_app, length_app. lia. Qed.

Lemma beats_none {F : Float} {A} (f : A -> Output) l : (forall x, is_beat (f x) = false) -> beats (map f l) = 0.
Proof. intros Hf. unfold beats. induction l as [|x l IH]; [done|]. cbn. by rewrite Hf. Qed.

(** The machine's own messages are no heartbeats. *)
Lemma step_no_beat {F : Float} sm ev m : Send m ∈ snd (step sm ev) -> bytes_eqb (typ m) topic.PING = false.
Proof.
  destruct ev; cbn [step]; repeat case_match; cbn [snd app];
    rewrite ?elem_of_cons, ?elem_of_nil; intros; destruct_or?; simplify_eq; (done || reflexivity).
Qed.

Section invariant.
Context {C : Crypto} {LC : CryptoLaws C} {B : Base64} {S : Smoltcp} {LS : SmoltcpLaws S}.
Context {H : HashOrder} {LH : HashOrderLaws H} {F : Float} {J : JsonText}.
Variables (smol_ip : str -> option IpAddr) (cfg : SiteRun) (keys : Keys) (tok : str).

Record rn_ok (s : Running) (w : World) : Prop := {
  ro_sm : sm_ok (rn_sm s);
  ro_track : up (rn_data s) = connected (rn_sm s);
  ro_data : forall d, rn_data s = Some d -> dp_ok (cfg_mtu cfg) d w;
  ro_ticks : 0 <= rn_ping_ticks s < 10
}.

(** What a stage of a turn promises when the session goes on: the invariant, the
    count of ticks and heartbeats, and the version it knows. *)
Definition stage (s : Running) (ticks : Z) (version : option Z -> option Z) (w' : World)
    (r : Running * list Output * Ending) : Prop :=
  let '(s', out, e) := r in
  e = Continue ->
  rn_ok s' w' /\ 10 * beats out + rn_ping_ticks s' = rn_ping_ticks s + ticks /\
  rn_version s' = version (rn_version s).

Lemma rn_later s w w' : clock_ok (w_clock w) -> rn_ok s w -> world_le w w' -> rn_ok s w'.
Proof. intros Hc [? ? Hd ?] Hle. constructor; try done. intros d Hx. eapply dp_later; eauto. Qed.

Lemma stage_ended s ticks v w s' out r : safe (mret (s', out, Ended r)) w (stage s ticks v).
Proof. by apply safe_ret. Qed.

Lemma stage_id s w : rn_ok s w -> safe (mret (s, [], Continue)) w (stage s 0 id).
Proof. intros Hok. apply safe_ret. intros _. split; [done|]. split; [change (beats []) with 0; lia|done]. Qed.

Lemma andthen_stage m k s w t1 t2 v1 v2 :
  clock_ok (w_clock w) -> safe m w (stage s t1 v1) ->
  (forall s' w' out, m w = Ret (w', (s', out, Continue)) -> clock_ok (w_clock w') -> rn_ok s' w' ->
     safe (k s') w' (stage s' t2 v2)) ->
  safe (andthen m k) w (stage s (t1 + t2) (fun v => v2 (v1 v))).
Proof.
  intros Hc Hm Hk. unfold andthen. apply safe_bind. eapply safe_weaken; [by apply safe_eqn|].
  intros w1 [[s1 out1] [|r]] Hle [E Hs]; [|by apply safe_ret]. destruct (Hs eq_refl) as (Hok & Hb & Hv).
  apply safe_bind. eapply safe_weaken; [eapply Hk; [exact E|by eapply world_clock|done]|].
  intros w2 [[s2 out2] e2] _ Hs2. apply safe_ret. intros He. destruct (Hs2 He) as (Hok2 & Hb2 & Hv2).
  split; [done|]. rewrite beats_app, Hv2, Hv. split; [lia|done].
Qed.

Lemma exec_safe an data act w :
  clock_ok (w_clock w) -> (forall d, data = Some d -> dp_ok (cfg_mtu cfg) d w) ->
  (forall m, act = Send m -> bytes_eqb (typ m) topic.PING = false) ->
  safe (exec smol_ip cfg keys tok an data act) w (fun w' r =>
    (forall d, fst (fst r) = Some d -> dp_ok (cfg_mtu cfg) d w') /\ beats (snd (fst r)) = 0 /\
    (snd r = Continue -> forall b, track (Some (up data)) act = Some b -> up (fst (fst r)) = b)).
Proof.
  intros Hc Hd Hm. destruct act as [m|wg| |]; cbn [exec].
  - destruct (an_ws an); apply safe_ret; cbn [fst snd]; split_and!; try done.
    + unfold beats. cbn [List.filter is_beat]. by rewrite (Hm m eq_refl).
    + intros _ b E. destruct data; cbn in *; congruence.
  - apply safe_bind. eapply safe_weaken; [by apply bring_up_safe|].
    intros w1 [sent [d|e]] Hle Hr; apply safe_ret; cbn; split_and!; try (by apply beats_none); try done.
    + intros d' [= <-]. by apply Hr.
    + intros _ b E. destruct data; cbn in *; congruence.
    + intros d E. eapply dp_later; eauto.
  - apply safe_ret. cbn. split_and!; try done. intros _ b E. destruct data; cbn in *; congruence.
  - apply safe_ret. by cbn.
Qed.

Lemma track_none acts : foldl track None acts = None.
Proof. induction acts as [|a acts IH]; [done|]. exact IH. Qed.

Lemma exec_all_safe an acts data w :
  clock_ok (w_clock w) -> (forall d, data = Some d -> dp_ok (cfg_mtu cfg) d w) ->
  (forall m, Send m ∈ acts -> bytes_eqb (typ m) topic.PING = false) ->
  safe (exec_all smol_ip cfg keys tok an data acts) w (fun w' r =>
    (forall d, fst (fst r) = Some d -> dp_ok (cfg_mtu cfg) d w') /\ beats (snd (fst r)) = 0 /\
    (snd r = Continue -> forall b, foldl track (Some (up data)) acts = Some b -> up (fst (fst r)) = b)).
Proof.
  revert data w. induction acts as [|act acts IH]; intros data w Hc Hd Hm; cbn [exec_all foldl].
  { apply safe_ret. cbn. split_and!; try done. intros _ b E. by simplify_eq. }
  apply safe_bind. eapply safe_weaken; [apply exec_safe; [done|done|intros m ->; apply Hm; by left]|].
  intros w1 [[data1 out1] e1] Hle (Hd1 & Hb1 & Ht1). cbn [fst snd] in *.
  destruct e1; [|by apply safe_ret]. apply safe_bind. eapply safe_weaken.
  { apply IH; [by eapply world_clock|done|intros m Hin; apply Hm; by right]. }
  intros w2 [[data2 out2] e2] _ (Hd2 & Hb2 & Ht2). apply safe_ret. cbn [fst snd] in *. split; [done|].
  split; [rewrite beats_app; lia|]. intros He b E. apply (Ht2 He).
  destruct (track (Some (up data)) act) as [b1|]; [|by rewrite track_none in E].
  by rewrite (Ht1 eq_refl b1 eq_refl).
Qed.

(** Feeding the machine; at the start it is disconnected. *)
Lemma feed_safe an s ev w :
  clock_ok (w_clock w) -> rn_ok s w -> event_ok ev -> (is_ws_connected ev = true -> sm_state (rn_sm s) = Sm.Disconnected) ->
  safe (feed smol_ip cfg keys tok an s ev) w (stage s 0 id).
Proof.
  intros Hc [Hsm Ht Hd Hn] Hev Hws. unfold feed. pose proof (step_ok _ _ Hsm Hev) as Hsm'.
  pose proof (step_tracks _ _ Hws) as Htr. pose proof (fun m => step_no_beat (rn_sm s) ev m) as Hnb.
  destruct (step (rn_sm s) ev) as [sm acts]. cbn [fst snd] in *. apply safe_bind.
  eapply safe_weaken; [by apply exec_all_safe|]. intros w1 [[data out] e] _ (Hd1 & Hb & Hu). cbn [fst snd] in *.
  apply safe_ret. intros He. split; [|split; [rewrite Hb; cbn [with_sm with_data rn_ping_ticks]; lia|done]].
  constructor; cbn; try done. apply (Hu He). by rewrite Ht, Htr.
Qed.

Lemma on_data_safe s f w :
  rn_ok s w -> (forall d, dp_ok (cfg_mtu cfg) d w -> exists d', f d = Ret d' /\ dp_ok (cfg_mtu cfg) d' w) ->
  safe (on_data s f) w (stage s 0 id).
Proof.
  intros Hok Hf. unfold on_data. destruct (rn_data s) as [d|] eqn:Ed; [|by apply stage_id].
  destruct (Hf d (ro_data _ _ Hok d Ed)) as (d' & E & Hd'). apply safe_bind. eapply safe_lift; [exact E|].
  apply safe_ret. intros _. destruct Hok as [Hsm Ht Hd Hn].
  split; [|split; [change (beats []) with 0; cbn [with_data rn_ping_ticks]; lia|done]].
  constructor; try done; cbn; [by rewrite Ed in Ht|]. intros x [= <-]. done.
Qed.

(** The version after a message. *)
Definition latest (m : WsMessage) (v : option Z) : option Z :=
  match config_version m with Some x => Some x | None => v end.

Lemma on_message_safe an s m w :
  clock_ok (w_clock w) -> rn_ok s w ->
  safe (on_message smol_ip cfg keys tok an s m) w (stage s 0 (latest m)).
Proof.
  intros Hc Hok. unfold on_message.
  set (s1 := match config_version m with Some v => with_version s (Some v) | None => s end).
  assert (rn_ok s1 w /\ rn_ping_ticks s1 = rn_ping_ticks s /\ rn_version s1 = latest m (rn_version s)) as (Hok1 & Hn1 & Hv1).
  { unfold s1, latest. destruct (config_version m); [|done]. by destruct Hok. }
  assert (forall M0, safe M0 w (stage s1 0 id) -> safe M0 w (stage s 0 (latest m))) as Hcarry.
  { intros M0 Hs. eapply safe_weaken; [exact Hs|]. intros w' [[s' out] e] _ Hst He.
    destruct (Hst He) as (? & ? & ->). unfold id. split_and!; [done|lia|done]. }
  clearbody s1. repeat case_match; apply Hcarry.
  - apply on_data_safe; [done|]. intros d Hd. eexists. split; [reflexivity|]. by apply dp_add_targets_ok.
  - apply on_data_safe; [done|]. intros d Hd. by apply dp_remove_targets_ok.
  - apply on_data_safe; [done|]. intros d Hd. by apply dp_reconcile_ok.
  - apply on_data_safe; [done|]. intros d Hd. by apply dp_reconcile_ok.
  - match goal with E : to_event m = Some ?ev |- _ => apply feed_safe; [done|done|..] end;
      match goal with E : to_event m = Some ?ev |- _ => unfold to_event in E end;
      repeat case_match; try (by simplify_eq);
      repeat match goal with E : option_map _ ?x = Some _ |- _ => destruct x; cbn in E; simplify_eq end; done.
  - by apply stage_id.
Qed.

Lemma keep_alive_safe an s w :
  clock_ok (w_clock w) -> rn_ok s w -> safe (keep_alive an s) w (stage s 0 id).
Proof.
  intros Hc Hok. unfold keep_alive. destruct (rn_data s) as [d|] eqn:Ed; [|by apply stage_id].
  apply safe_bind. eapply safe_weaken; [apply (send_ping_safe (cfg_mtu cfg)); [done|by apply Hok]|].
  intros w1 [d1 sent] Hle1 Hd1. unfold dp_keeps in Hd1. cbn [fst] in Hd1.
  match goal with |- context [if ?c then _ else _] => destruct c end; [by apply stage_ended|].
  assert (forall w2 outs, world_le w1 w2 -> beats outs = 0 ->
    safe (mret (with_data s (Some d1), outs, Continue)) w2 (stage s 0 id)) as Hdone.
  { intros w2 outs Hle2 Hb. apply safe_ret. intros _. destruct Hok as [Hsm Ht Hd Hn].
    split; [|split; [cbn [with_data rn_ping_ticks]; lia|done]].
    constructor; try done; cbn; [by rewrite Ed in Ht|]. intros x [= <-].
    eapply dp_later; [|exact Hd1|exact Hle2]. by eapply world_clock. }
  apply safe_bind. eapply safe_weaken; [apply build_safe|]. intros w2 [p|] Hle2 _.
  - destruct (an_punch an); [|by apply stage_ended]. apply Hdone; [done|].
    rewrite beats_app, (beats_none ToExitNode) by done. done.
  - apply Hdone; [done|]. by apply beats_none.
Qed.

Lemma beat_safe an s w : rn_ok s w -> safe (beat an s) w (stage s 1 id).
Proof.
  intros [Hsm Ht Hd Hn]. unfold beat. cbn [with_ticks rn_ping_ticks].
  assert (wadd 32 (rn_ping_ticks s) 1 = rn_ping_ticks s + 1) as ->
    by (unfold wadd; apply wrap_small; change (2 ^ 32) with 4294967296; lia).
  destruct (Z.leb_spec 10 (rn_ping_ticks s + 1)) as [Hl|Hl].
  - destruct (an_ws an); [|by apply stage_ended]. apply safe_ret. intros _.
    split; [constructor; cbn; (done || lia)|]. split; [|done].
    change (beats [ToServer _]) with 1. cbn [with_ticks rn_ping_ticks]. lia.
  - apply safe_ret. intros _. split; [constructor; cbn; (done || lia)|]. split; [|done].
    change (beats []) with 0. cbn [with_ticks rn_ping_ticks]. lia.
Qed.

Lemma on_tick_safe an s w :
  clock_ok (w_clock w) -> rn_ok s w -> safe (on_tick smol_ip cfg keys tok an s) w (stage s 1 id).
Proof.
  intros Hc Hok. unfold on_tick. apply (andthen_stage _ _ s w 0 1 id id Hc).
  - apply (andthen_stage _ _ s w 0 0 id id Hc).
    + by apply feed_safe; [..|cbn; lia|].
    + intros. by apply keep_alive_safe.
  - intros. by apply beat_safe.
Qed.

(** A datagram fits the data plane it finds. *)
Definition turn_fits (s : Running) (t : Turn) : Prop :=
  match t, rn_data s with
  | Driven (Ok recv), Some d => plane_op_fits d (StepIo recv)
  | _, _ => True
  end.

(** Every turn of a session that goes on fits what it finds. *)
Fixpoint turns_fit (s : Running) (ts : list (Answers * Turn)) (w : World) : Prop :=
  match ts with
  | [] => True
  | (an, t) :: ts' =>
      turn_fits s t /\
      forall w' s' out, turn smol_ip cfg keys tok an s t w = Ret (w', (s', out, Continue)) -> turns_fit s' ts' w'
  end.

Lemma turns_fit_always ts :
  Forall (fun t => forall s, turn_fits s (snd t)) ts -> forall s w, turns_fit s ts w.
Proof. induction 1 as [|[an t] ts Ht _ IH]; intros s w; cbn; auto. Qed.

Definition ticked (t : Turn) : Z := match t with Ticked => 1 | _ => 0 end.
Definition seen (t : Turn) (v : option Z) : option Z := match t with Received m => latest m v | _ => v end.

Lemma turn_safe an s t w :
  clock_ok (w_clock w) -> rn_ok s w -> turn_fits s t ->
  safe (turn smol_ip cfg keys tok an s t) w (stage s (ticked t) (seen t)).
Proof.
  intros Hc Hok Hf. destruct t as [m| |e| |recv]; cbn [turn ticked].
  - by apply on_message_safe.
  - by apply stage_ended.
  - by apply stage_ended.
  - by apply on_tick_safe.
  - unfold turn_fits in Hf. destruct (rn_data s) as [d|] eqn:Ed; [|by apply stage_id].
    destruct recv as [recv|e]; [|by apply stage_ended]. apply safe_bind. eapply safe_weaken; [apply (step_io_safe (cfg_mtu cfg)); [done|by apply Hok|done]|].
    intros w1 [d1 out] _ Hd1. unfold dp_keeps in Hd1. apply safe_ret. intros _. destruct Hok as [Hsm Ht Hd Hn].
    split; [|split; [rewrite (beats_none ToExitNode) by done; cbn [with_data rn_ping_ticks]; lia|done]].
    constructor; try done; cbn; [by rewrite Ed in Ht|]. by intros x [= <-].
Qed.

(** The ticks of a script, and the version it leaves. *)
Definition ticks_in (ts : list (Answers * Turn)) : Z := foldr (fun t n => ticked (snd t) + n) 0 ts.
Definition version_after (ts : list (Answers * Turn)) (v : option Z) : option Z :=
  foldl (fun v t => seen (snd t) v) v ts.

Lemma turns_safe ts s w :
  clock_ok (w_clock w) -> rn_ok s w -> turns_fit s ts w ->
  safe (turns smol_ip cfg keys tok s ts) w (stage s (ticks_in ts) (version_after ts)).
Proof.
  revert s w. induction ts as [|[an t] ts IH]; intros s w Hc Hok Hf; cbn [turns]; [by apply stage_id|].
  destruct Hf as [Ht Hf'].
  apply (andthen_stage _ _ s w (ticked t) (ticks_in ts) (seen t) (version_after ts) Hc); [by apply turn_safe|].
  intros. apply IH; [done..|]. by eapply Hf'.
Qed.

(** The same for a session: the first request, then the turns. *)
Definition serve_fits (an : Answers) (sm : Sm) (ts : list (Answers * Turn)) (w : World) : Prop :=
  forall w' s out, feed smol_ip cfg keys tok an (mkRunning sm None None 0) WsConnected w = Ret (w', (s, out, Continue)) ->
    turns_fit s ts w'.

Lemma serve_safe an key version cloud ts w :
  clock_ok (w_clock w) -> serve_fits an (Sm_new key version cloud) ts w ->
  safe (serve smol_ip cfg keys tok an (Sm_new key version cloud) ts) w
    (stage (mkRunning (Sm_new key version cloud) None None 0) (ticks_in ts) (version_after ts)).
Proof.
  intros Hc Hf. unfold serve. apply (andthen_stage _ _ _ w 0 (ticks_in ts) id (version_after ts) Hc).
  - apply feed_safe; [done| |done|done]. constructor; cbn; [apply sm_new_ok|done|done|lia].
  - intros. apply turns_safe; [done..|]. by eapply Hf.
Qed.

End invariant.

Section sessions.
Context {C : Crypto} {LC : CryptoLaws C} {B : Base64} {S : Smoltcp} {LS : SmoltcpLaws S}.
Context {H : HashOrder} {LH : HashOrderLaws H} {F : Float} {J : JsonText}.
Variables (smol_ip : str -> option IpAddr) (cfg : SiteRun).

(** Whatever token the server hands out. *)
Definition session_fits (keys : Keys) (di : Dial) (an : Answers) (sm : Sm) (ts : list (Answers * Turn)) (w : World) : Prop :=
  forall jwt, get_token (di_exchange di) (cfg_endpoint cfg) (lit "newt") (site_credentials cfg) = Ok jwt ->
    serve_fits smol_ip cfg keys jwt an sm ts w.

Lemma session_fits_always keys di an sm ts w :
  Forall (fun t => forall s, turn_fits s (snd t)) ts -> session_fits keys di an sm ts w.
Proof. intros Hf jwt _ w' s out _. by apply turns_fit_always. Qed.

Lemma session_safe keys di an key version cloud ts w :
  clock_ok (w_clock w) -> session_fits keys di an (Sm_new key version cloud) ts w ->
  safe (session smol_ip cfg keys di an (Sm_new key version cloud) ts) w
    (stage cfg (mkRunning (Sm_new key version cloud) None None 0) (ticks_in ts) (version_after ts)).
Proof.
  intros Hc Hf. unfold session. unfold session_fits in Hf.
  destruct (get_token _ _ _ _) as [jwt|e]; [|by apply safe_ret].
  destruct (di_channel di jwt) as [[]|e]; [apply serve_safe; [done|by apply Hf]|by apply safe_ret].
Qed.

(** C17: the connector is safe and its tunnel follows the protocol. Whatever
    messages, ticks and datagrams a session sees, and however the network
    answers, every turn returns: nothing panics or hangs. Datagrams are at most
    48 bytes longer than max(mtu, 1500) and may be hostile, forged data packets
    with any counter included; only data packets that authenticate under the
    session they name, which are the exit node's own, are assumed to carry
    counters below 2^64 - 1024. While the session goes on, a tunnel is up exactly when the state machine is
    connected, it is in order, and the machine's resend timer is armed exactly
    while it waits for an answer. *)
Theorem connector_session_safe keys di an key version cloud ts w :
  clock_ok (w_clock w) -> session_fits keys di an (Sm_new key version cloud) ts w ->
  exists w' s out e,
    session smol_ip cfg keys di an (Sm_new key version cloud) ts w = Ret (w', (s, out, e)) /\
    (e = Continue ->
     (is_Some (rn_data s) <-> sm_state (rn_sm s) = Connected) /\ sm_ok (rn_sm s) /\
     (forall d, rn_data s = Some d -> dp_ok (cfg_mtu cfg) d w')).
Proof.
  intros Hc Hf. destruct (session_safe keys di an key version cloud ts w Hc Hf) as (w' & [[s out] e] & E & _ & Hst).
  exists w', s, out, e. split; [exact E|]. intros He. destruct (Hst He) as ([Hsm Ht Hd _] & _ & _).
  split_and!; [|done|done]. unfold up, connected in Ht. rewrite is_Some_alt.
  destruct (rn_data s); symmetry in Ht; [apply bool_decide_eq_true in Ht|apply bool_decide_eq_false in Ht]; by split.
Qed.

(** The heartbeat keeps its pace. In a session that goes on, whatever else
    happens in it, one heartbeat goes out per ten ticks of the clock, counted
    from the start, and the session knows the last configuration version the
    server sent, which the heartbeat carries. *)
Theorem heartbeat_rate keys di an key version cloud ts w w' s out :
  clock_ok (w_clock w) -> session_fits keys di an (Sm_new key version cloud) ts w ->
  session smol_ip cfg keys di an (Sm_new key version cloud) ts w = Ret (w', (s, out, Continue)) ->
  beats out = ticks_in ts / 10 /\ rn_ping_ticks s = ticks_in ts mod 10 /\
  rn_version s = version_after ts None /\ config_version (heartbeat s) = rn_version s.
Proof.
  intros Hc Hf E. destruct (safe_run _ _ _ _ _ (session_safe keys di an key version cloud ts w Hc Hf) E) as [_ Hst].
  destruct (Hst eq_refl) as (Hok & Hb & Hv). cbn [rn_ping_ticks rn_version] in *.
  pose proof (ro_ticks _ _ _ Hok) as Hn. split_and!; [..|done|done]; dlia.
Qed.

(** Along the sessions of a role. *)
Fixpoint scripts_fit (keys : Keys) (version : str) (sm : Sm) (scripts : list Script) (w : World) : Prop :=
  match scripts with
  | [] => True
  | (di, an, ts) :: scripts' =>
      session_fits keys di an sm ts w /\
      forall w' s out r, session smol_ip cfg keys di an sm ts w = Ret (w', (s, out, Ended r)) ->
        scripts_fit keys version (Sm_new (public_b64 keys) version false) scripts' w'
  end.

Definition run_fits (version : str) (scripts : list Script) (w : World) : Prop :=
  forall w' keys, generate_keys w = Ret (w', keys) ->
    scripts_fit keys version (Sm_new (public_b64 keys) version false) scripts w'.

Lemma scripts_fit_always keys version scripts :
  Forall (fun x : Script => Forall (fun t => forall s, turn_fits s (snd t)) (snd x)) scripts ->
  forall sm w, scripts_fit keys version sm scripts w.
Proof.
  induction 1 as [|[[di an] ts] scripts Hx _ IH]; intros sm w; cbn; [done|].
  split; [by apply session_fits_always|]. intros. apply IH.
Qed.

(** The sessions that were served: one for each script, or up to one that goes
    on. *)
Definition all_served {A B} (scripts : list A) (outs : list (B * Ending)) : Prop :=
  length outs = length scripts \/ exists o, last outs = Some (o, Continue).

Lemma run_sessions_safe keys key version cloud scripts w :
  clock_ok (w_clock w) -> scripts_fit keys version (Sm_new key version cloud) scripts w ->
  safe (run_sessions smol_ip cfg keys version (Sm_new key version cloud) scripts) w
    (fun _ x => all_served scripts (fst x) /\ snd x = None).
Proof.
  revert key cloud w. induction scripts as [|[[di an] ts] scripts IH]; intros key cloud w Hc Hf; cbn [run_sessions].
  { apply safe_ret. split; [by left|done]. }
  destruct Hf as [Ht Hf']. apply safe_bind. eapply safe_weaken; [by apply safe_eqn, session_safe|].
  intros w1 [[s out] [|r]] Hle [E _]; [apply safe_ret; split; [right; by exists out|done]|].
  apply safe_bind. eapply safe_weaken; [apply IH; [by eapply world_clock|by eapply Hf']|].
  intros w2 [outs res] _ [Hl Hr]. apply safe_ret. split; [|exact Hr]. cbn [fst] in *.
  destruct Hl as [Hl|[o Ho]]; [left; cbn; by rewrite Hl|right]. exists o. by destruct outs.
Qed.

Lemma run_safe version scripts w :
  clock_ok (w_clock w) -> run_fits version scripts w ->
  safe (run smol_ip cfg version scripts) w (fun _ x => all_served scripts (fst x) /\ snd x = None).
Proof.
  intros Hc Hf. unfold run. apply safe_bind. eapply safe_weaken; [apply safe_eqn, generate_keys_safe|].
  intros w1 keys Hle [E _]. apply run_sessions_safe; [by eapply world_clock|by apply Hf].
Qed.
End sessions.

(** ** Witnesses *)

Import ToyJson.

Definition yes : Answers := mkAnswers true demo_net true true.

(** A server that hands out a token. *)
Definition demo_answer : bytes :=
  lit "HTTP/1.1 200 OK" ++ CRLF2 ++ json_print (jobj [(lit "data", jobj [(lit "token", JStr (lit "jwt"))])]).
Definition demo_dial : Dial := mkDial (fun _ _ => Ok demo_answer) (fun _ => Ok tt).

Definition demo_connect : WsMessage :=
  mkWsMessage topic.WG_CONNECT
    (jobj [(lit "endpoint", JStr (lit "203.0.113.5:51820")); (lit "publicKey", JStr (replicate 32 7));
           (lit "serverIP", JStr (lit "100.89.128.1")); (lit "tunnelIP", JStr (lit "100.89.128.4"));
           (lit "targets", jobj [(lit "tcp", JArr [JStr (lit "80:10.0.0.1:8080")])])]) (Some 4).
Definition demo_sync : WsMessage :=
  mkWsMessage topic.SYNC
    (jobj [(lit "proxyTargets", jobj [(lit "tcp", JArr [JStr (lit "81:10.0.0.2:81"); JNull])])]) (Some 5).

(** Twelve ticks, in which the tunnel comes up and its targets change. *)
Definition demo_script : list (Answers * Turn) :=
  replicate 11 (yes, Ticked) ++
  [(yes, Received demo_connect); (yes, Driven (Ok None)); (yes, Driven (Ok (Some [4; 0; 0; 0; 1; 1; 0; 0])));
   (yes, Received demo_sync); (yes, Ticked)].

Definition demo_session : M (Running * list Output * Ending) :=
  session (S := ToySmoltcp) ip_from_str demo_site (mkKeys secret_a []) demo_dial yes (Sm_new [] (lit "v") false) demo_script.

(** A datagram that is no data packet fits every data plane. *)
Lemma short_datagram_fits (s : Running (S := ToySmoltcp)) : turn_fits s (Driven (Ok (Some [4; 0; 0; 0; 1; 1; 0; 0]))).
Proof.
  cbn. destruct (rn_data s) as [d|]; [|done]. split; [by repeat constructor|]. split; [unfold scratch; cbn [length]; lia|].
  intros p Hp. vm_compute in Hp. discriminate.
Qed.

Lemma demo_script_fits : Forall (fun t => forall s : Running (S := ToySmoltcp), turn_fits s (snd t)) demo_script.
Proof.
  repeat first [apply Forall_nil_2 | apply Forall_cons_2]; intros s; try exact I;
    [unfold turn_fits; cbn; by destruct (rn_data s)|apply short_datagram_fits].
Qed.

Lemma connector_session_safe_witness :
  exists w' s out e,
    demo_session (world_at 0) = Ret (w', (s, out, e)) /\
    (e = Continue ->
     (is_Some (rn_data s) <-> sm_state (rn_sm s) = Connected) /\ sm_ok (rn_sm s) /\
     (forall d, rn_data s = Some d -> dp_ok (cfg_mtu demo_site) d w')).
Proof.
  apply (connector_session_safe (S := ToySmoltcp) ip_from_str demo_site (mkKeys secret_a []) demo_dial yes [] (lit "v") false
    demo_script (world_at 0)).
  - apply world_at_ok.
  - apply session_fits_always, demo_script_fits.
Defined.

(** What the session leaves: the result of the run, kept apart from its proof. *)
Definition demo_end : option (World * (Running * list Output * Ending)) :=
  match demo_session (world_at 0) with Ret r => Some r | _ => None end.

Example demo_session_goes_on :
  match demo_end with
  | Some (_, (s, out, Continue)) =>
      (match rn_data s with Some d => map port (listeners d) | None => [] end, beats out, rn_ping_ticks s, rn_version s)
  | _ => ([], 0, 0, None)
  end = ([81], 1, 2, Some 5).
Proof. vm_compute. reflexivity. Qed.

(** Twenty-three ticks without an answer from the server, and a message. *)
Definition demo_waiting_script : list (Answers * Turn) :=
  (yes, Received demo_sync) :: replicate 23 (yes, Ticked).
Definition demo_wait : M (Running * list Output * Ending) :=
  session (S := ToySmoltcp) ip_from_str demo_site (mkKeys secret_a []) demo_dial yes (Sm_new [] (lit "v") false) demo_waiting_script.
Definition demo_result : Running * list Output :=
  match demo_wait (world_at 0) with
  | Ret (_, (s, out, _)) => (s, out)
  | _ => (mkRunning (Sm_new [] [] false) None None 0, [])
  end.

Lemma heartbeat_rate_witness :
  beats (snd demo_result) = ticks_in demo_waiting_script / 10 /\
  rn_ping_ticks (fst demo_result) = ticks_in demo_waiting_script mod 10 /\
  rn_version (fst demo_result) = version_after demo_waiting_script None /\
  config_version (heartbeat (fst demo_result)) = rn_version (fst demo_result).
Proof.
  apply (heartbeat_rate (S := ToySmoltcp) ip_from_str demo_site (mkKeys secret_a []) demo_dial yes [] (lit "v") false
    demo_waiting_script (world_at 0) (world_at 0) (fst demo_result) (snd demo_result)).
  - apply world_at_ok.
  - apply session_fits_always. repeat first [apply Forall_nil_2 | apply Forall_cons_2]; intros s; exact I.
  - vm_compute. reflexivity.
Defined.
