(* ===== verification/Userspace.v ===== *)
(** The userspace backend of the client, [newt/src/olm/userspace.rs]: local
    listeners whose connections are opened through the tunnel. *)

From Stdlib Require Import String.
From S2P Require Import Prelude Time Text Ip Packet Config Netstack Bridge DataPlane Plane.

Definition US_TCP_RX : Z := 8192.
Definition US_TCP_TX : Z := 8192.

(** Where the connections of a local listener go; the listener itself belongs
    to the operating system. *)
Record ForwardListener := mkForwardListener { fl_dest : IpAddr; fl_dest_port : Z }.

Definition FIRST_PORT : Z := 20000.
Definition LAST_PORT : Z := 60000.

Section userspace.
Context {S : Smoltcp} {H : HashOrder}.

(** A bridge is the site's, with the local application at its far end. *)
Record UserspaceBackend := mkUserspace {
  us_stack : Stack;
  us_forwards : list ForwardListener;
  us_conns : gmap SocketHandle Bridge;
  us_next_port : Z;
  us_start : Instant
}.

Definition us_with (u : UserspaceBackend) (st : Stack) (cs : gmap SocketHandle Bridge) : UserspaceBackend :=
  mkUserspace st (us_forwards u) cs (us_next_port u) (us_start u).

(** The listeners, in order; [bound] says which ports the system lets us bind. *)
Fixpoint bind_forwards (bound : Z -> bool) (fs : list Forward) : Result str (list ForwardListener) :=
  match fs with
  | [] => Ok []
  | f :: fs' =>
      match ip_from_str (f_dest_host f) with
      | None => Err (lit "forward dest must be an IP address: " ++ f_dest_host f)
      | Some dest =>
          if bound (f_listen_port f) then
            match bind_forwards bound fs' with
            | Ok ls => Ok (mkForwardListener dest (f_dest_port f) :: ls)
            | Err e => Err e
            end
          else Err (lit "bind")
      end
  end.

Definition Userspace_new (bound : Z -> bool) (tunnel_ip : IpAddr) (mtu : nat) (forwards : list Forward)
  : M (Result str UserspaceBackend) :=
  let st := Stack_new tunnel_ip mtu 0 in
  let st := add_default_routes st [0; 0; 0; 1] (replicate 15 0 ++ [1]) in
  match bind_forwards bound forwards with
  | Err e => mret (Err e)
  | Ok fl => let* start := Instant_now in mret (Ok (mkUserspace st fl ∅ FIRST_PORT start))
  end.

(** The stack's time: milliseconds since the start. *)
Definition us_now (u : UserspaceBackend) : M Z :=
  let* d := elapsed (us_start u) in mret (as_millis d).

Definition us_deliver_inbound (u : UserspaceBackend) (pkt : bytes) : UserspaceBackend :=
  us_with u (push_rx (us_stack u) pkt) (us_conns u).

Definition alloc_port (u : UserspaceBackend) : UserspaceBackend * Z :=
  let p := us_next_port u in
  let next := if LAST_PORT <=? p then FIRST_PORT else p + 1 in
  (mkUserspace (us_stack u) (us_forwards u) (us_conns u) next (us_start u), p).

Definition open_outgoing (u : UserspaceBackend) (dest : IpAddr) (dest_port : Z) : outcome UserspaceBackend :=
  let '(u, local_port) := alloc_port u in
  let st := us_stack u in
  let '(set, h) := set_add (sockets st) (tcp_new US_TCP_RX US_TCP_TX) in
  let! (st, connected) := stack_connect (set_sockets st set) h (dest, dest_port) local_port in
  if connected then Ret (us_with u st (<[h := Bridge_new bridge_stream]> (us_conns u)))
  else let! st := remove_socket st h in Ret (us_with u st (us_conns u)).

(** What the listeners answer within 20 ms: the index of the one that accepted a
    connection, none, or an error. *)
Definition Accepted : Type := Result str (option nat).

Definition next_accept (u : UserspaceBackend) (a : Accepted) : outcome (Result str (option (IpAddr * Z))) :=
  match us_forwards u with
  | [] => Ret (Ok None)
  | _ =>
      match a with
      | Err e => Ret (Err e)
      | Ok None => Ret (Ok None)
      | Ok (Some i) =>
          match us_forwards u !! i with
          | Some f => Ret (Ok (Some (fl_dest f, fl_dest_port f)))
          | None => Panicked
          end
      end
  end.

(** The byte shuttle is line for line the site's, with [app_done] for
    [target_done]. *)
Definition us_shuttle (u : UserspaceBackend) (st : Stack) : outcome UserspaceBackend :=
  let! (st, cs) := shuttle (keys_of (us_conns u)) st (us_conns u) in
  Ret (us_with u st cs).

(** One turn: the packets for the tunnel, or the error that ends the session. *)
Definition us_drive (u : UserspaceBackend) (a : Accepted) : M (UserspaceBackend * Result str (list bytes)) :=
  let* acc := mlift (next_accept u a) in
  match acc with
  | Err e => mret (u, Err e)
  | Ok acc =>
      let* u := mlift (match acc with
                       | Some (dest, port) => open_outgoing u dest port
                       | None => Ret u
                       end) in
      let* now := us_now u in
      let '(st, out) := poll (us_stack u) now in
      let* u := mlift (us_shuttle u st) in
      mret (u, Ok out)
  end.

(** What can happen to a backend, the tasks of its connections included. *)
Inductive us_op : Type :=
| UsDrive (a : Accepted)
| UsDeliver (pkt : bytes)
| UsTask (h : SocketHandle) (ev : TaskEvent).

Definition us_run_op (u : UserspaceBackend) (o : us_op) : M (UserspaceBackend * Result str (list bytes)) :=
  match o with
  | UsDrive a => us_drive u a
  | UsDeliver pkt => mret (us_deliver_inbound u pkt, Ok [])
  | UsTask h ev =>
      mret (us_with u (us_stack u) (alter (fun b => with_conn b (task_run ev (conn b))) h (us_conns u)), Ok [])
  end.

Fixpoint us_run (u : UserspaceBackend) (ops : list us_op) : M (UserspaceBackend * list (Result str (list bytes))) :=
  match ops with
  | [] => mret (u, [])
  | o :: ops' =>
      let* (u, r) := us_run_op u o in
      let* (u, rest) := us_run u ops' in
      mret (u, r :: rest)
  end.

(** The system names a listener there is. *)
Definition us_op_fits (forwards : nat) (o : us_op) : Prop :=
  match o with UsDrive (Ok (Some i)) => (i < forwards)%nat | _ => True end.

(** ** Invariant *)

Record us_ok (mtu : nat) (u : UserspaceBackend) : Prop := {
  uo_plane : plane_ok (us_stack u) [] (us_conns u);
  uo_bridges : bridges_ok (us_conns u);
  uo_port : FIRST_PORT <= us_next_port u <= LAST_PORT;
  uo_dev : dev_mtu (device (us_stack u)) = mtu;
  uo_tx : tx (device (us_stack u)) = []
}.
End userspace.

Section safety.
Context {S : Smoltcp} {LS : SmoltcpLaws S} {H : HashOrder} {LH : HashOrderLaws H} (mtu : nat).

Lemma no_listeners st cs : plane_ok st [] cs <-> dom (sockets st) = dom cs.
Proof.
  split; [intros [H1 _ _]; cbn in H1; set_solver|]. intros Hd. constructor; cbn; [set_solver|constructor|].
  intros l Hl. by apply not_elem_of_nil in Hl.
Qed.

Lemma open_outgoing_ok u dest p :
  us_ok mtu u -> exists u', open_outgoing u dest p = Ret u' /\ us_ok mtu u' /\ us_forwards u' = us_forwards u.
Proof.
  intros [Hp Hb Hport Hdev Htx]. apply no_listeners in Hp. unfold open_outgoing, alloc_port.
  cbn [us_stack set_add us_conns]. set (h := fresh_handle (sockets (us_stack u))).
  assert (sockets (us_stack u) !! h = None) as Hfree by apply fresh_unused.
  assert (us_conns u !! h = None) as Hc.
  { apply (not_elem_of_dom (D := gset SocketHandle)). rewrite <- Hp. by apply not_elem_of_dom. }
  assert (FIRST_PORT <= (if LAST_PORT <=? us_next_port u then FIRST_PORT else us_next_port u + 1) <= LAST_PORT) as Hnext
    by (unfold FIRST_PORT, LAST_PORT in *; destruct (Z.leb_spec 60000 (us_next_port u)); lia).
  unfold stack_connect, set_sockets. cbn [sockets iface device]. rewrite lookup_insert_eq.
  destruct (tcp_connect _ _ _ _) as [i [s|]]; cbn [obind].
  - eexists. split; [reflexivity|]. split; [|done]. constructor; try done; cbn.
    + apply no_listeners. cbn. rewrite insert_insert_eq, !dom_insert_L. by rewrite Hp.
    + apply map_Forall_insert_2; [|done]. unfold bridge_ok, CHANNEL_DEPTH. cbn. lia.
  - unfold remove_socket, get_socket. cbn [sockets]. rewrite lookup_insert_eq. cbn [obind].
    eexists. split; [reflexivity|]. split; [|done]. constructor; try done; cbn.
    apply no_listeners. cbn. rewrite delete_insert_id by done. done.
Qed.

(** Polling, then moving bytes. *)
Lemma poll_shuttle_ok u now st out :
  us_ok mtu u -> poll (us_stack u) now = (st, out) ->
  Forall (fun x => (length x <= mtu)%nat) out /\
  exists u', us_shuttle u st = Ret u' /\ us_ok mtu u' /\ us_forwards u' = us_forwards u.
Proof.
  intros [Hp Hb Hport Hdev Htx] Ep. apply no_listeners in Hp.
  pose proof (poll_sockets_dom (us_stack u) now) as Hd. rewrite Ep in Hd. cbn [fst] in Hd.
  unfold poll in Ep. destruct (iface_poll _ _ _ _) as [[i dev] s] eqn:Ei. injection Ep as <- <-.
  apply poll_mtu in Ei as [Hm Hall]. rewrite Hdev in Hm, Hall. rewrite Htx in Hall. split; [apply Hall; constructor|].
  unfold us_shuttle.
  destruct (shuttle_spec (keys_of (us_conns u)) (mkStack (mkDevice (rx dev) [] (dev_mtu dev)) i s) [] (us_conns u))
    as (st' & cs' & -> & Hp' & Hb' & Hd' & _);
    [apply no_listeners; by rewrite Hd|done|apply keys_nodup|intros h; apply keys_dom|].
  eexists. split; [reflexivity|]. split; [|done]. constructor; cbn; [done..| |]; by rewrite Hd'.
Qed.

Definition us_keeps (n : list ForwardListener) (w' : World) (r : UserspaceBackend * Result str (list bytes)) : Prop :=
  us_ok mtu (fst r) /\ us_forwards (fst r) = n /\
  forall out, snd r = Ok out -> Forall (fun x => (length x <= mtu)%nat) out.

Lemma us_op_safe u o w :
  us_ok mtu u -> us_op_fits (length (us_forwards u)) o -> safe (us_run_op u o) w (us_keeps (us_forwards u)).
Proof.
  intros Hok Hfit. destruct o as [a|pkt|h ev]; cbn [us_run_op].
  - unfold us_drive, next_accept.
    assert (exists acc, (match us_forwards u with
      | [] => Ret (Ok None)
      | _ => match a with
             | Err e => Ret (Err e)
             | Ok None => Ret (Ok None)
             | Ok (Some i) => match us_forwards u !! i with
                              | Some f => Ret (Ok (Some (fl_dest f, fl_dest_port f)))
                              | None => Panicked
                              end
             end
      end) = Ret acc) as [acc Eacc].
    { destruct a as [[i|]|e]; cbn in Hfit; [|by destruct (us_forwards u); eauto..].
      destruct (lookup_lt_is_Some_2 _ _ Hfit) as [f ->]. destruct (us_forwards u); eauto. }
    apply safe_bind. eapply safe_lift; [exact Eacc|]. destruct acc as [acc|e]; [|by apply safe_ret].
    assert (exists u1, (match acc with Some (dest, port) => open_outgoing u dest port | None => Ret u end) = Ret u1 /\
      us_ok mtu u1 /\ us_forwards u1 = us_forwards u) as (u1 & E1 & Hok1 & Hf1)
      by (destruct acc as [[dest p]|]; [by apply open_outgoing_ok|eauto]).
    apply safe_bind. eapply safe_lift; [exact E1|]. unfold us_now, elapsed. apply safe_bind, safe_bind, safe_bind.
    apply safe_now. intros w1 Hle1 _. apply safe_ret. apply safe_ret.
    destruct (poll (us_stack u1) _) as [st out] eqn:Ep.
    destruct (poll_shuttle_ok u1 _ st out Hok1 Ep) as (Hout & u2 & E2 & Hok2 & Hf2).
    apply safe_bind. eapply safe_lift; [exact E2|]. apply safe_ret. split_and!; cbn; [done|congruence|].
    by intros ? [= <-].
  - apply safe_ret. split_and!; cbn; [|done|by intros ? [= <-]]. destruct Hok as [Hp Hb Hport Hdev Htx].
    constructor; try done. apply no_listeners. by apply no_listeners in Hp.
  - apply safe_ret. split_and!; cbn; [|done|by intros ? [= <-]]. destruct Hok as [Hp Hb Hport Hdev Htx].
    constructor; try done; cbn.
    + apply no_listeners. rewrite dom_alter_L. by apply no_listeners in Hp.
    + by apply bridges_alter_ok.
Qed.
Lemma us_run_safe ops u w :
  us_ok mtu u -> Forall (us_op_fits (length (us_forwards u))) ops ->
  safe (us_run u ops) w (fun _ r => us_ok mtu (fst r) /\ length (snd r) = length ops /\
    Forall (fun x => forall out, x = Ok out -> Forall (fun p => (length p <= mtu)%nat) out) (snd r)).
Proof.
  revert u w. induction ops as [|o ops IH]; intros u w Hok Hf; cbn [us_run]; [by apply safe_ret|].
  inversion Hf as [|? ? Ho Hf']; subst. apply safe_bind. eapply safe_weaken; [by apply us_op_safe|].
  intros w1 [u1 r1] _ (Hok1 & Hf1 & Hr1). cbn [fst snd] in *. apply safe_bind.
  eapply safe_weaken; [apply IH; [done|by rewrite Hf1]|]. intros w2 [u2 rest] _ (Hok2 & Hl & Hrest).
  apply safe_ret. cbn in *. split_and!; [done|lia|by constructor].
Qed.

Lemma Userspace_new_ok bound ip forwards w :
  exists w' r, Userspace_new bound ip mtu forwards w = Ret (w', r) /\ forall u, r = Ok u -> us_ok mtu u.
Proof.
  unfold Userspace_new. destruct (bind_forwards bound forwards) as [fl|e]; [|by do 2 eexists].
  unfold mbind, Instant_now, mret. cbn [obind]. do 2 eexists. split; [reflexivity|]. intros u [= <-].
  constructor; try done. by apply no_listeners.
Qed.

(** The userspace backend is safe and leaks nothing. A backend that could be
    set up handles any sequence of accepted connections, deliveries, turns and
    progress of its tasks: every call returns, the stack holds exactly the
    sockets of its connections (a connection that cannot be opened leaves none
    behind), and no packet it emits is above the MTU. *)
Theorem userspace_never_panics bound ip forwards ops w :
  exists w1 r, Userspace_new bound ip mtu forwards w = Ret (w1, r) /\
    forall u, r = Ok u -> Forall (us_op_fits (length (us_forwards u))) ops ->
      exists w' u' outs, us_run u ops w1 = Ret (w', (u', outs)) /\ length outs = length ops /\
        dom (sockets (us_stack u')) = dom (us_conns u') /\
        Forall (fun x => forall out, x = Ok out -> Forall (fun p => (length p <= mtu)%nat) out) outs.
Proof.
  destruct (Userspace_new_ok bound ip forwards w) as (w1 & r & E & Hr). exists w1, r. split; [exact E|].
  intros u Hu Hf. destruct (us_run_safe ops u w1 (Hr u Hu) Hf) as (w' & [u' outs] & E' & _ & Hok & Hl & Hout).
  exists w', u', outs. split_and!; [done..| |done]. by apply no_listeners, Hok.
Qed.
End safety.

(** ** Local ports *)

(** The ports of the next [n] connections. *)
Fixpoint alloc_ports {S : Smoltcp} (n : nat) (u : UserspaceBackend) : list Z :=
  match n with
  | O => []
  | Datatypes.S n' => let '(u, p) := alloc_port u in p :: alloc_ports n' u
  end.

Lemma alloc_ports_nth {S : Smoltcp} n u i :
  FIRST_PORT <= us_next_port u <= LAST_PORT -> (i < n)%nat ->
  alloc_ports n u !! i =
    Some (FIRST_PORT + (us_next_port u - FIRST_PORT + Z.of_nat i) mod (LAST_PORT - FIRST_PORT + 1)).
Proof.
  revert u i. induction n as [|n IH]; intros u i Hp Hi; [lia|]. cbn [alloc_ports alloc_port].
  unfold FIRST_PORT, LAST_PORT in *. destruct i as [|i].
  { cbn. f_equal. rewrite Z.mod_small by lia. lia. }
  cbn [lookup list_lookup]. rewrite IH; cbn [us_next_port]; [|destruct (Z.leb_spec 60000 (us_next_port u)); lia|lia].
  f_equal. f_equal. destruct (Z.leb_spec 60000 (us_next_port u)).
  - replace (us_next_port u) with 60000 by lia.
    replace (60000 - 20000 + Z.of_nat (Datatypes.S i)) with (20000 - 20000 + Z.of_nat i + 1 * (60000 - 20000 + 1)) by lia.
    by rewrite Z_mod_plus_full.
  - f_equal. lia.
Qed.

(** Local ports are used in turn. Successive connections get the ports from
    20000 to 60000 round robin, so any 40001 connections in a row have
    different ports. *)
Theorem local_ports_cycle {S : Smoltcp} n u :
  FIRST_PORT <= us_next_port u <= LAST_PORT -> Z.of_nat n <= 40001 ->
  NoDup (alloc_ports n u) /\ Forall (fun p => FIRST_PORT <= p <= LAST_PORT) (alloc_ports n u) /\
  length (alloc_ports n u) = n.
Proof.
  intros Hp Hn. assert (length (alloc_ports n u) = n) as Hlen.
  { clear. revert u. induction n as [|n IH]; intros u; cbn; [done|]. by rewrite IH. }
  split_and!; [| |done].
  - apply NoDup_alt. intros i j x Hi Hj. pose proof (lookup_lt_Some _ _ _ Hi). pose proof (lookup_lt_Some _ _ _ Hj).
    rewrite alloc_ports_nth in Hi, Hj by (done || lia). unfold FIRST_PORT, LAST_PORT in *. apply Nat2Z.inj.
    injection Hi as Hi. injection Hj as Hj. dlia.
  - apply Forall_lookup. intros i x Hi. pose proof (lookup_lt_Some _ _ _ Hi).
    rewrite alloc_ports_nth in Hi by (done || lia). simplify_eq. unfold FIRST_PORT, LAST_PORT in *. dlia.
Qed.

(** ** Witnesses *)

Definition demo_forwards : list Forward := [mkForward 8080 (lit "10.0.0.5") 80].
Definition demo_us_ops : list us_op :=
  [UsDrive (Ok (Some 0%nat)); UsTask 1%nat (Read [104; 105]); UsTask 1%nat Forwarded; UsDrive (Ok None); UsDeliver [1; 7]; UsDrive (Ok None)].

Lemma userspace_never_panics_witness :
  exists w1 r, Userspace_new (S := ToySmoltcp) (fun _ => true) (V4 [100; 90; 0; 2]) 1280 demo_forwards
      (mkWorld (fun _ => mkInstant 0 0) (fun _ => 0) (fun _ _ => 0) 0 0 0) = Ret (w1, r) /\
    forall u, r = Ok u -> Forall (us_op_fits (length (us_forwards u))) demo_us_ops ->
      exists w' u' outs, us_run u demo_us_ops w1 = Ret (w', (u', outs)) /\ length outs = length demo_us_ops /\
        dom (sockets (us_stack u')) = dom (us_conns u') /\
        Forall (fun x => forall out, x = Ok out -> Forall (fun p => (length p <= 1280)%nat) out) outs.
Proof.
  exact (userspace_never_panics (S := ToySmoltcp) 1280 (fun _ => true) (V4 [100; 90; 0; 2]) demo_forwards demo_us_ops
    (mkWorld (fun _ => mkInstant 0 0) (fun _ => 0) (fun _ _ => 0) 0 0 0)).
Defined.

(** The run has a connection, which gave the stack the application's bytes. *)
Example demo_us_runs :
  match Userspace_new (S := ToySmoltcp) (fun _ => true) (V4 [100; 90; 0; 2]) 1280 demo_forwards
      (mkWorld (fun _ => mkInstant 0 0) (fun _ => 0) (fun _ _ => 0) 0 0 0) with
  | Ret (w1, Ok u) =>
      match us_run u demo_us_ops w1 with
      | Ret (_, (u', _)) => map (fun s => (ts_port s, ts_out s)) (map snd (map_to_list (sockets (us_stack u'))))
      | _ => []
      end
  | _ => []
  end = [(20000, [104; 105])].
Proof. vm_compute. reflexivity. Qed.

Lemma local_ports_cycle_witness :
  NoDup (alloc_ports 5 (mkUserspace (S := ToySmoltcp) (Stack_new (V4 []) 0 0) [] ∅ 59998 (mkInstant 0 0))) /\
  Forall (fun p => FIRST_PORT <= p <= LAST_PORT)
    (alloc_ports 5 (mkUserspace (S := ToySmoltcp) (Stack_new (V4 []) 0 0) [] ∅ 59998 (mkInstant 0 0))) /\
  length (alloc_ports 5 (mkUserspace (S := ToySmoltcp) (Stack_new (V4 []) 0 0) [] ∅ 59998 (mkInstant 0 0))) = 5%nat.
Proof.
  apply (local_ports_cycle 5 (mkUserspace (S := ToySmoltcp) (Stack_new (V4 []) 0 0) [] ∅ 59998 (mkInstant 0 0))).
  - unfold FIRST_PORT, LAST_PORT. cbn. lia.
  - lia.
Defined.
