(* ===== verification/Tun.v ===== *)
(** The TUN device, [newt/src/olm/tun.rs]: creating the interface, and reading
    and writing packets on a descriptor that does not block. The system calls
    and the readiness of the descriptor are inputs. *)

From Stdlib Require Import String.
From S2P Require Import Prelude Text.

Definition IFF_TUN : Z := 1.
Definition IFF_NO_PI : Z := 4096.
Definition O_NONBLOCK : Z := 2048.

(** ** Creating the interface *)

(** The request of [TUNSETIFF]. *)
Record IfReq := mkIfReq { ifr_name : bytes; ifr_flags : Z; ifr_pad : bytes }.

(** What the system answers while the device is opened: opening the file, the
    ioctl (a result code and the request as the kernel leaves it), the flags of
    the descriptor, setting them, and registering the descriptor. *)
Record TunSys := mkTunSys {
  ts_open : Result str unit;
  ts_ioctl : IfReq -> Z * IfReq;
  ts_getfl : Z;
  ts_setfl : Z -> Z;
  ts_register : Result str unit
}.

Record Tun := mkTun { tun_name : str }.

(** The name field of the request: at most fifteen bytes, then zeroes. *)
Definition name_field (name : str) : bytes :=
  let n := Nat.min (length name) 15 in take n name ++ replicate (16 - n) 0.

(** The name the kernel filled in, up to its first zero. *)
Fixpoint name_of (field : bytes) : str :=
  match field with
  | [] => []
  | c :: field' => if c =? 0 then [] else c :: name_of field'
  end.

Definition set_nonblocking (sys : TunSys) : Result str unit :=
  let flags := ts_getfl sys in
  if flags <? 0 then Err (lit "os error")
  else if ts_setfl sys (Z.lor flags O_NONBLOCK) <? 0 then Err (lit "os error")
  else Ok tt.

Definition Tun_open (sys : TunSys) (name : str) : Result str Tun :=
  match ts_open sys with
  | Err e => Err e
  | Ok _ =>
      let req := mkIfReq (name_field name) (Z.lor IFF_TUN IFF_NO_PI) (replicate 22 0) in
      let '(rc, req) := ts_ioctl sys req in
      if rc <? 0 then Err (lit "os error")
      else
        let real := name_of (ifr_name req) in
        match set_nonblocking sys with
        | Err e => Err e
        | Ok _ => match ts_register sys with Err e => Err e | Ok _ => Ok (mkTun real) end
        end
  end.

(** ** Packets *)

(** What a system call on the descriptor comes to. *)
Inductive Sys (A : Type) : Type :=
| Done (a : A)
| Interrupted
| WouldBlock
| Failed (e : str).
Arguments Done {A} a.
Arguments Interrupted {A}.
Arguments WouldBlock {A}.
Arguments Failed {A} e.

(** One wait for the descriptor: the wait may fail; when it does not, the read
    that follows sees one packet or has to wait again. *)
Definition ReadTurn : Type := Result str (Sys bytes).

(** The packet cut to the buffer, as the kernel cuts it. Nothing while the
    waiting goes on. An interrupted read is an error for the caller. *)
Fixpoint read_packet (buf : nat) (turns : list ReadTurn) : option (Result str bytes) :=
  match turns with
  | [] => None
  | Err e :: _ => Some (Err e)
  | Ok WouldBlock :: turns' => read_packet buf turns'
  | Ok (Done p) :: _ => Some (Ok (take buf p))
  | Ok Interrupted :: _ => Some (Err (lit "interrupted"))
  | Ok (Failed e) :: _ => Some (Err e)
  end.

(** [write_all]: writes until everything is taken; the answers are the sizes
    taken. What went out so far comes with the result; nothing when the answers
    run out. *)
Fixpoint write_all (pkt : bytes) (answers : list (Sys nat)) : option (bytes * Sys unit) :=
  match pkt with
  | [] => Some ([], Done tt)
  | _ :: _ =>
      match answers with
      | [] => None
      | Done O :: _ => Some ([], Failed (lit "failed to write whole buffer"))
      | Done n :: answers' =>
          match write_all (drop n pkt) answers' with
          | Some (out, r) => Some (take n pkt ++ out, r)
          | None => None
          end
      | Interrupted :: answers' => write_all pkt answers'
      | WouldBlock :: _ => Some ([], WouldBlock)
      | Failed e :: _ => Some ([], Failed e)
      end
  end.

(** One wait for the descriptor and the answers of the writes after it. *)
Definition WriteTurn : Type := Result str (list (Sys nat)).

(** The bytes that went out, and the result; nothing while the waiting goes on.
    A write that would block starts over with the whole packet. *)
Fixpoint write_packet (pkt : bytes) (turns : list WriteTurn) : bytes * option (Result str unit) :=
  match turns with
  | [] => ([], None)
  | Err e :: _ => ([], Some (Err e))
  | Ok answers :: turns' =>
      match write_all pkt answers with
      | None => ([], None)
      | Some (out, Done _) => (out, Some (Ok tt))
      | Some (out, WouldBlock) => let '(out', r) := write_packet pkt turns' in (out ++ out', r)
      | Some (out, Failed e) => (out, Some (Err e))
      | Some (out, Interrupted) => (out, Some (Err (lit "interrupted")))
      end
  end.

(** ** Properties *)

(** Interface names. A name of at most fifteen bytes is asked for as it is,
    a longer one by its first fifteen bytes, and either is what the field says. *)
Lemma interface_name name :
  0 ∉ name -> length (name_field name) = 16%nat /\ name_of (name_field name) = take 15 name.
Proof.
  intros Hz. unfold name_field. split; [rewrite length_app, length_take, length_replicate; lia|].
  assert (take (Nat.min (length name) 15) name = take 15 name) as ->.
  { destruct (Nat.le_ge_cases (length name) 15); [|by rewrite Nat.min_r].
    rewrite Nat.min_l by done. by rewrite !take_ge by lia. }
  destruct (16 - Nat.min (length name) 15)%nat as [|k] eqn:Ek; [lia|].
  assert (0 ∉ take 15 name) as Ht by (intros Hx%elem_of_take; destruct Hx as (i & Hi & _); apply Hz; by eapply list_elem_of_lookup_2).
  clear Hz Ek. induction (take 15 name) as [|c l IH]; [done|]. apply not_elem_of_cons in Ht as [Hc Ht]. cbn [app name_of].
  rewrite (proj2 (Z.eqb_neq _ _)) by done. by rewrite IH.
Qed.

Lemma name_of_no_zero field : 0 ∉ name_of field.
Proof.
  induction field as [|c field IH]; cbn; [by apply not_elem_of_nil|].
  destruct (Z.eqb_spec c 0); [by apply not_elem_of_nil|]. apply not_elem_of_cons. by split.
Qed.

Lemma write_all_done pkt answers out : write_all pkt answers = Some (out, Done tt) -> out = pkt.
Proof.
  revert pkt out. induction answers as [|a answers IH]; intros [|b pkt] out E; cbn [write_all] in E; try (by simplify_eq).
  destruct a as [[|n]| | |e]; [by simplify_eq| |by apply IH|by simplify_eq|by simplify_eq].
  destruct (write_all (drop (S n) (b :: pkt)) answers) as [[out' r]|] eqn:E1; [|done]. simplify_eq.
  apply IH in E1 as ->. exact (take_drop (S n) (b :: pkt)).
Qed.

(** What is on the wire before a successful write are whole attempts that broke
    off. *)
Lemma write_packet_ends pkt turns out :
  write_packet pkt turns = (out, Some (Ok tt)) -> exists broken, out = broken ++ pkt.
Proof.
  revert out. induction turns as [|[answers|e] turns IH]; intros out E; cbn [write_packet] in E; [done| |done].
  destruct (write_all pkt answers) as [[o [[]| | |e]]|] eqn:Ew; simplify_eq.
  - apply write_all_done in Ew as ->. by exists [].
  - destruct (write_packet pkt turns) as [out' r]. simplify_eq.
    destruct (IH out' eq_refl) as [broken ->]. exists (o ++ broken). by rewrite app_assoc.
Qed.

(** A device that takes packets whole or not at all. *)
Definition takes_whole (pkt : bytes) (turn : WriteTurn) : Prop :=
  match turn with
  | Ok answers => Forall (fun a => match a with Done n => n = length pkt | _ => True end) answers
  | Err _ => True
  end.

Lemma write_all_whole pkt answers out r :
  pkt <> [] -> takes_whole pkt (Ok answers) -> write_all pkt answers = Some (out, r) ->
  out = [] /\ r <> Done tt \/ out = pkt /\ r = Done tt.
Proof.
  intros Hne. revert out r. induction answers as [|a answers IH]; intros out r Hf E.
  { destruct pkt; [done|]. cbn in E. done. }
  inversion Hf as [|? ? Ha Hf']; subst. destruct pkt as [|b pk]; [done|]. cbn [write_all] in E.
  destruct a as [n| | |e]; [|by apply IH|simplify_eq; by left|simplify_eq; by left].
  subst n. change (length (b :: pk)) with (S (length pk)) in E. cbv beta iota in E.
  rewrite drop_ge, take_ge in E by (cbn; lia).
  replace (write_all [] answers) with (Some (@nil Z, Done tt)) in E by (by destruct answers).
  rewrite app_nil_r in E. simplify_eq. by right.
Qed.

(** Packets reach the interface whole. On a device that takes packets
    whole, as a TUN device does, writing a packet puts it there exactly once if
    the call succeeds and not at all otherwise, however often the descriptor has
    to be waited for and the calls are interrupted. *)
Theorem packet_written_once pkt turns out r :
  pkt <> [] -> Forall (takes_whole pkt) turns -> write_packet pkt turns = (out, r) ->
  match r with Some (Ok _) => out = pkt | _ => out = [] end.
Proof.
  intros Hne Hf. revert out r. induction Hf as [|turn turns Ht _ IH]; intros out r E; [by simplify_eq/=|].
  destruct turn as [answers|e]; [|by simplify_eq/=]. cbn [write_packet] in E.
  destruct (write_all pkt answers) as [[o x]|] eqn:Ew; [|by simplify_eq/=].
  destruct (write_all_whole pkt answers o x Hne Ht Ew) as [[-> Hx]|[-> ->]]; [|by simplify_eq/=].
  destruct x as [[]| | |e]; [done|by simplify_eq/=| |by simplify_eq/=].
  destruct (write_packet pkt turns) as [out' r']. simplify_eq/=. by apply IH.
Qed.

(** A successful read is the first packet that came, cut to the buffer. *)
Theorem packet_read buf turns p :
  read_packet buf turns = Some (Ok p) ->
  exists n q, p = take buf q /\ turns !! n = Some (Ok (Done q)) /\
    forall m, (m < n)%nat -> turns !! m = Some (Ok WouldBlock).
Proof.
  induction turns as [|[[q| | |e]|e] turns IH]; cbn; intros E; simplify_eq.
  - by exists 0%nat, q; split_and!; [done..|lia].
  - destruct (IH E) as (n & q & -> & Hn & Hm). exists (S n), q. split_and!; [done..|].
    intros [|m] Hl; [done|]. apply Hm. lia.
Qed.

(** ** Witnesses *)

Lemma packet_written_once_witness : fst (write_packet [1; 2; 3] [Ok [WouldBlock]; Ok [Interrupted; Done 3%nat]]) = [1; 2; 3].
Proof.
  apply (packet_written_once [1; 2; 3] [Ok [WouldBlock]; Ok [Interrupted; Done 3%nat]] [1; 2; 3] (Some (Ok tt)));
    [done|by repeat constructor|reflexivity].
Defined.

(** Starting over after a partial write repeats bytes; a TUN device takes no
    partial writes. *)
Example partial_write_repeats :
  write_packet [1; 2; 3] [Ok [Done 1%nat; WouldBlock]; Ok [Done 3%nat]] = ([1; 1; 2; 3], Some (Ok tt)).
Proof. reflexivity. Qed.
