(* ===== verification/Netlink.v ===== *)
(** The kernel side of the client, [newt/src/olm/netlink.rs], [tun.rs] and
    [kernel.rs]: rtnetlink requests and acknowledgements, the name of the TUN
    interface, and the backend made of them. The kernel is a parameter: what it
    answers to a request, what the interface reads. *)

From Stdlib Require Import String.
From S2P Require Import Prelude Text Ip Packet Tun.

(** ** Constants *)

Definition RTM_NEWLINK : Z := 16.
Definition RTM_NEWADDR : Z := 20.
Definition RTM_NEWROUTE : Z := 24.
Definition NLM_F_REQUEST : Z := 1.
Definition NLM_F_ACK : Z := 4.
Definition NLM_F_REPLACE : Z := 256.
Definition NLM_F_CREATE : Z := 1024.
Definition IFA_ADDRESS : Z := 1.
Definition IFA_LOCAL : Z := 2.
Definition RTA_DST : Z := 1.
Definition RTA_OIF : Z := 4.
Definition IFLA_MTU : Z := 4.
Definition RT_TABLE_MAIN : Z := 254.
Definition RT_SCOPE_UNIVERSE : Z := 0.
Definition RT_SCOPE_LINK : Z := 253.
Definition RTPROT_BOOT : Z := 3.
Definition RTN_UNICAST : Z := 1.
Definition IFF_UP : Z := 1.
Definition NLMSG_ERROR : Z := 2.
(** From [libc]. *)
Definition AF_UNSPEC : Z := 0.
Definition AF_INET : Z := 2.
Definition AF_INET6 : Z := 10.

Section netlink.
(** The byte order of the machine: the sources write native-endian integers. *)
Variable little : bool.

Definition to_ne_bytes (n : nat) (z : Z) : bytes := if little then to_le_bytes n z else to_be_bytes n z.
Definition from_ne_bytes (b : bytes) : Z := if little then from_le_bytes b else from_be_bytes b.

(** ** Messages *)

Definition align4 (n : Z) : Z := Z.land (n + 3) (Z.lnot 3).

(** Zeroes up to a multiple of four; three are enough. *)
Fixpoint pad (fuel : nat) (buf : bytes) : bytes :=
  match fuel with
  | O => buf
  | S fuel' => if (length buf mod 4 =? 0)%nat then buf else pad fuel' (buf ++ [0])
  end.

Definition push_attr (buf : bytes) (attr_type : Z) (data : bytes) : bytes :=
  let len := 4 + Z.of_nat (length data) in
  pad 3 (buf ++ to_ne_bytes 2 (wrap 16 len) ++ to_ne_bytes 2 attr_type ++ data).

Definition fam_bytes (ip : IpAddr) : Z * bytes :=
  match ip with V4 a => (AF_INET, a) | V6 a => (AF_INET6, a) end.

(** The payloads of the requests, field by field: [struct ifinfomsg] (family,
    pad, type, index, flags, change), [struct ifaddrmsg], [struct rtmsg], and
    their attributes. *)
Definition mtu_payload (ifindex mtu : Z) : bytes :=
  let payload := [AF_UNSPEC] ++ [0] ++ to_ne_bytes 2 0 ++ to_ne_bytes 4 ifindex ++ to_ne_bytes 4 0 ++ to_ne_bytes 4 0 in
  push_attr payload IFLA_MTU (to_ne_bytes 4 mtu).

Definition up_payload (ifindex : Z) : bytes :=
  [AF_UNSPEC] ++ [0] ++ to_ne_bytes 2 0 ++ to_ne_bytes 4 ifindex ++ to_ne_bytes 4 IFF_UP ++ to_ne_bytes 4 IFF_UP.

Definition addr_payload (ifindex : Z) (ip : IpAddr) (prefix : Z) : bytes :=
  let '(family, addr) := fam_bytes ip in
  let payload := [family; prefix; 0; RT_SCOPE_UNIVERSE] ++ to_ne_bytes 4 ifindex in
  push_attr (push_attr payload IFA_LOCAL addr) IFA_ADDRESS addr.

Definition route_payload (ifindex : Z) (dst : IpAddr) (prefix : Z) : bytes :=
  let '(family, addr) := fam_bytes dst in
  let payload := [family; prefix; 0; 0; RT_TABLE_MAIN; RTPROT_BOOT; RT_SCOPE_LINK; RTN_UNICAST] ++ to_ne_bytes 4 0 in
  push_attr (push_attr payload RTA_DST addr) RTA_OIF (to_ne_bytes 4 ifindex).

(** [struct nlmsghdr] and the payload. *)
Definition message (seq msg_type flags : Z) (payload : bytes) : bytes :=
  to_ne_bytes 4 (wrap 32 (16 + Z.of_nat (length payload))) ++ to_ne_bytes 2 msg_type ++ to_ne_bytes 2 flags ++
  to_ne_bytes 4 seq ++ to_ne_bytes 4 0 ++ payload.

(** ** Requests *)

(** What the kernel does with a request: an error of the calls, or the bytes of
    its answer (at most the 4096 of the buffer). *)
Variable kernel : bytes -> Result str bytes.

(** The acknowledgement: the error number is a signed 32-bit integer. *)
Definition read_ack (answer : bytes) : Result str unit :=
  if (length answer <? 20)%nat then Err (lit "short netlink ack")
  else
    let msg_type := from_ne_bytes (slice 4 6 answer) in
    if msg_type =? NLMSG_ERROR then
      if from_ne_bytes (slice 16 20 answer) =? 0 then Ok tt else Err (lit "os error")
    else Ok tt.

(** The socket's only state is its sequence number. *)
Definition request (seq : Z) (msg_type flags : Z) (payload : bytes) : Z * Result str unit :=
  (wadd 32 seq 1,
   match kernel (message seq msg_type flags payload) with
   | Err e => Err e
   | Ok answer => read_ack answer
   end).

Definition REQUEST_ACK : Z := Z.lor NLM_F_REQUEST NLM_F_ACK.
Definition REQUEST_NEW : Z := Z.lor (Z.lor (Z.lor NLM_F_REQUEST NLM_F_ACK) NLM_F_CREATE) NLM_F_REPLACE.

Definition set_mtu (seq ifindex mtu : Z) : Z * Result str unit :=
  request seq RTM_NEWLINK REQUEST_ACK (mtu_payload ifindex mtu).
Definition link_up (seq ifindex : Z) : Z * Result str unit :=
  request seq RTM_NEWLINK REQUEST_ACK (up_payload ifindex).
Definition add_addr (seq ifindex : Z) (ip : IpAddr) (prefix : Z) : Z * Result str unit :=
  request seq RTM_NEWADDR REQUEST_NEW (addr_payload ifindex ip prefix).
Definition add_route (seq ifindex : Z) (dst : IpAddr) (prefix : Z) : Z * Result str unit :=
  request seq RTM_NEWROUTE REQUEST_NEW (route_payload ifindex dst prefix).

(** ** The socket and the index of an interface *)

(** A fresh socket starts numbering its requests at one; [raw] is the descriptor
    or a negative number. *)
Definition Netlink_open (raw : Z) : Result str Z :=
  if raw <? 0 then Err (lit "os error") else Ok 1.

(** A name with a zero byte is refused; index zero means there is none. *)
Definition if_index (nametoindex : str -> Z) (name : str) : Result str Z :=
  if existsb (fun c => c =? 0) name then Err (lit "bad ifname")
  else
    let idx := nametoindex name in
    if idx =? 0 then Err (lit "os error") else Ok idx.

(** ** The backend *)

Record KernelBackend := mkKernel { kb_seq : Z; kb_ifindex : Z; kb_buf : nat }.

(** Host prefix of an interface address. *)
Definition host_prefix (ip : IpAddr) : Z := match ip with V4 _ => 32 | V6 _ => 128 end.

(** [sys] is what the system answers while the device is opened, [nametoindex]
    the index of a name, [raw] the descriptor of the netlink socket. *)
Definition Kernel_new (sys : TunSys) (nametoindex : str -> Z) (raw : Z)
    (interface : str) (tunnel_ip : IpAddr) (mtu : nat) : Result str KernelBackend :=
  match Tun_open sys interface with
  | Err e => Err e
  | Ok tun =>
      match if_index nametoindex (tun_name tun) with
      | Err e => Err e
      | Ok ifindex =>
          match Netlink_open raw with
          | Err e => Err e
          | Ok seq =>
            let '(seq, r) := set_mtu seq ifindex (wrap 32 (Z.of_nat mtu)) in
            match r with
            | Err e => Err e
            | Ok _ =>
                let '(seq, r) := add_addr seq ifindex tunnel_ip (host_prefix tunnel_ip) in
                match r with
                | Err e => Err e
                | Ok _ =>
                    let '(seq, r) := link_up seq ifindex in
                    match r with
                    | Err e => Err e
                    | Ok _ => Ok (mkKernel seq ifindex (Nat.max mtu 1500 + 64))
                    end
                end
            end
          end
      end
  end.

(** A route that cannot be added is logged and skipped. *)
Fixpoint k_add_routes (k : KernelBackend) (parts : list (IpAddr * Z)) : KernelBackend :=
  match parts with
  | [] => k
  | (net, prefix) :: parts' =>
      let '(seq, _) := add_route (kb_seq k) (kb_ifindex k) net prefix in
      k_add_routes (mkKernel seq (kb_ifindex k) (kb_buf k)) parts'
  end.

(** One read of the interface: the packet, cut to the buffer. *)
Definition k_drive (k : KernelBackend) (read : Result str bytes) : Result str (list bytes) :=
  match read with
  | Err e => Err e
  | Ok b => match take (kb_buf k) b with [] => Ok [] | pkt => Ok [pkt] end
  end.

(** A packet for the host: the bytes the interface took, and whether the write
    succeeded. [turns] is what the descriptor does until the write ends. *)
Definition k_deliver (pkt : bytes) (turns : list WriteTurn) : bytes * bool :=
  let '(out, r) := write_packet pkt turns in (out, match r with Some (Ok _) => true | _ => false end).
End netlink.

(** ** The kernel's reading *)

Section reading.
Variable little : bool.
Notation from_ne := (from_ne_bytes little).
Notation to_ne := (to_ne_bytes little).

(** Attributes as rtnetlink reads them: a length, a type, the data, and padding
    to a multiple of four. *)
Fixpoint parse_attrs (fuel : nat) (b : bytes) : option (list (Z * bytes)) :=
  match fuel, b with
  | _, [] => Some []
  | O, _ => None
  | S fuel', _ =>
      let len := Z.to_nat (from_ne (slice 0 2 b)) in
      if (len <? 4)%nat || (length b <? len)%nat then None
      else
        match parse_attrs fuel' (drop (Z.to_nat (align4 (Z.of_nat len))) b) with
        | Some rest => Some ((from_ne (slice 2 4 b), slice 4 len b) :: rest)
        | None => None
        end
  end.

Record Parsed := mkParsed { p_type : Z; p_flags : Z; p_seq : Z; p_fixed : bytes; p_attrs : list (Z * bytes) }.

(** A message: its length field is its length; after the header come [fixed]
    bytes of the request's structure and the attributes. *)
Definition parse_message (fixed : nat) (msg : bytes) : option Parsed :=
  if (length msg <? 16 + fixed)%nat || negb (from_ne (slice 0 4 msg) =? Z.of_nat (length msg)) then None
  else
    match parse_attrs (length msg) (drop (16 + fixed) msg) with
    | Some attrs =>
        Some (mkParsed (from_ne (slice 4 6 msg)) (from_ne (slice 6 8 msg)) (from_ne (slice 8 12 msg))
                (slice 16 (16 + fixed) msg) attrs)
    | None => None
    end.

Lemma length_to_ne n z : length (to_ne n z) = n.
Proof. unfold to_ne_bytes. destruct little; [apply length_to_le_bytes|apply length_to_be_bytes]. Qed.

Lemma from_to_ne n z : 0 <= z < 2 ^ (8 * Z.of_nat n) -> from_ne (to_ne n z) = z.
Proof. intros. unfold from_ne_bytes, to_ne_bytes. destruct little; [by apply from_to_le_id|by apply from_to_be_id]. Qed.

Lemma align4_spec n : 0 <= n -> align4 n = (n + 3) / 4 * 4.
Proof.
  intros Hn. unfold align4. change 3 with (Z.ones 2) at 2. rewrite <- Z.ldiff_land, Z.ldiff_ones_r by lia.
  rewrite Z.shiftl_mul_pow2, Z.shiftr_div_pow2 by lia. done.
Qed.

(** Padding to a multiple of four. *)
Definition padding (n : nat) : nat := (4 - n mod 4) mod 4.

Lemma padding_spec n :
  ((n + padding n) mod 4 = 0 /\ padding n <= 3 /\ (padding n = 0 <-> n mod 4 = 0) /\
   (n mod 4 <> 0 -> padding n = S (padding (n + 1))))%nat.
Proof.
  unfold padding. rewrite (Nat.Div0.add_mod n 1). pose proof (Nat.mod_upper_bound n 4).
  rewrite (Nat.Div0.add_mod n).
  destruct (n mod 4)%nat as [|[|[|[|?]]]]; cbn; repeat split; try lia; done.
Qed.

Lemma align4_padding n : Z.to_nat (align4 (Z.of_nat n)) = (n + padding n)%nat.
Proof.
  destruct (padding_spec n) as (H0 & H3 & _). rewrite align4_spec by lia.
  pose proof (Nat.div_mod_eq (n + padding n) 4) as Hd. rewrite H0 in Hd.
  set (q := ((n + padding n) / 4)%nat) in *. clearbody q. dlia.
Qed.

Lemma pad_spec fuel b : (padding (length b) <= fuel)%nat -> pad fuel b = b ++ replicate (padding (length b)) 0.
Proof.
  revert b. induction fuel as [|fuel IH]; intros b Hf; destruct (padding_spec (length b)) as (_ & _ & Hz & Hs); cbn [pad].
  { replace (padding (length b)) with 0%nat by lia. by rewrite app_nil_r. }
  destruct (Nat.eqb_spec (length b mod 4) 0) as [E|E].
  - rewrite (proj2 Hz E). by rewrite app_nil_r.
  - rewrite (Hs E) in *. rewrite IH by (rewrite length_app; cbn [length]; lia).
    rewrite length_app. cbn [length replicate]. by rewrite <- app_assoc.
Qed.

(** ** Attributes *)

Definition attr_bytes (a : Z * bytes) : bytes :=
  to_ne 2 (4 + Z.of_nat (length (snd a))) ++ to_ne 2 (fst a) ++ snd a ++ replicate (padding (length (snd a))) 0.

Definition attr_ok (a : Z * bytes) : Prop := 0 <= fst a < 65536 /\ 4 + Z.of_nat (length (snd a)) < 65536.

Lemma push_attr_spec buf a :
  (length buf mod 4 = 0)%nat -> attr_ok a -> push_attr little buf (fst a) (snd a) = buf ++ attr_bytes a.
Proof.
  intros Hb [Ha Hl]. unfold push_attr, attr_bytes. rewrite wrap_small by (change (2 ^ 16) with 65536; lia).
  assert (padding (length (buf ++ to_ne 2 (4 + Z.of_nat (length (snd a))) ++ to_ne 2 (fst a) ++ snd a)) =
          padding (length (snd a))) as Hp.
  { unfold padding. rewrite !length_app, !length_to_ne. f_equal. f_equal.
    rewrite (Nat.Div0.add_mod (length buf)), Hb, Nat.add_0_l, Nat.Div0.mod_mod.
    replace (2 + (2 + length (snd a)))%nat with (length (snd a) + 1 * 4)%nat by lia. apply Nat.Div0.mod_add. }
  rewrite pad_spec; rewrite Hp; [by rewrite <- !app_assoc|]. apply padding_spec.
Qed.

Lemma attr_bytes_len a : length (attr_bytes a) = (4 + length (snd a) + padding (length (snd a)))%nat.
Proof. unfold attr_bytes. rewrite !length_app, !length_to_ne, length_replicate. lia. Qed.

Lemma attr_bytes_aligned a : (length (attr_bytes a) mod 4 = 0)%nat.
Proof.
  rewrite attr_bytes_len. destruct (padding_spec (length (snd a))) as (H & _).
  replace (4 + length (snd a) + padding (length (snd a)))%nat with (length (snd a) + padding (length (snd a)) + 1 * 4)%nat by lia.
  by rewrite Nat.Div0.mod_add.
Qed.

Lemma parse_attr a rest fuel :
  attr_ok a ->
  parse_attrs (S fuel) (attr_bytes a ++ rest) =
    match parse_attrs fuel rest with Some l => Some (a :: l) | None => None end.
Proof.
  intros [Ha Hl]. destruct a as [t d]. cbn [fst snd] in *. cbn [parse_attrs].
  assert (attr_bytes (t, d) ++ rest = to_ne 2 (4 + Z.of_nat (length d)) ++ to_ne 2 t ++ d ++ replicate (padding (length d)) 0 ++ rest)
    as Eb by (unfold attr_bytes; cbn [fst snd]; by rewrite <- !app_assoc).
  assert (slice 0 2 (attr_bytes (t, d) ++ rest) = to_ne 2 (4 + Z.of_nat (length d))) as E0
    by (rewrite Eb; apply slice_head, length_to_ne).
  assert (slice 2 4 (attr_bytes (t, d) ++ rest) = to_ne 2 t) as E1
    by (rewrite Eb; apply slice_mid; rewrite length_to_ne; done).
  assert (slice 4 (4 + length d) (attr_bytes (t, d) ++ rest) = d) as E2.
  { rewrite Eb, app_assoc. apply slice_mid; rewrite ?length_app, ?length_to_ne; lia. }
  assert (exists x y, attr_bytes (t, d) ++ rest = x :: y) as (x & y & Exy).
  { pose proof (attr_bytes_len (t, d)) as Hlen. destruct (attr_bytes (t, d)); [cbn in Hlen; lia|by do 2 eexists]. }
  rewrite Exy in *. rewrite E0, E1, from_to_ne, from_to_ne by (change (2 ^ (8 * Z.of_nat 2)) with 65536; lia).
  replace (Z.to_nat (4 + Z.of_nat (length d))) with (4 + length d)%nat by lia.
  rewrite (proj2 (Nat.ltb_ge _ _)) by lia. rewrite <- Exy, E2 in *.
  rewrite (proj2 (Nat.ltb_ge _ _)) by (rewrite length_app, attr_bytes_len; cbn [snd]; lia). cbn [orb].
  replace (drop _ (attr_bytes (t, d) ++ rest)) with rest; [done|].
  rewrite align4_padding. rewrite drop_app_length'; [done|]. rewrite attr_bytes_len. cbn [snd].
  unfold padding. replace (4 + length d)%nat with (length d + 1 * 4)%nat at 2 by lia. rewrite Nat.Div0.mod_add. lia.
Qed.

Lemma parse_attrs_concat attrs fuel :
  Forall attr_ok attrs -> (length attrs <= fuel)%nat -> parse_attrs fuel (concat (map attr_bytes attrs)) = Some attrs.
Proof.
  intros Ha. revert fuel. induction Ha as [|a attrs Hx _ IH]; intros fuel Hf; [by destruct fuel|].
  cbn in Hf. destruct fuel as [|fuel]; [lia|]. cbn [map concat]. rewrite parse_attr by done. by rewrite IH by lia.
Qed.

(** A request made of a fixed part and attributes reads as what it was made of. *)
Lemma parse_message_spec seq ty fl fixed attrs :
  0 <= seq < 2 ^ 32 -> 0 <= ty < 65536 -> 0 <= fl < 65536 -> Forall attr_ok attrs ->
  16 + Z.of_nat (length (fixed ++ concat (map attr_bytes attrs))) < 2 ^ 32 ->
  parse_message (length fixed) (message little seq ty fl (fixed ++ concat (map attr_bytes attrs))) =
    Some (mkParsed ty fl seq fixed attrs).
Proof.
  intros Hs Ht Hf Ha Hlen. set (body := concat (map attr_bytes attrs)) in *. unfold message.
  rewrite wrap_small by lia. set (len := to_ne 4 _).
  assert (length len = 4%nat) as Hl0 by apply length_to_ne. set (tyb := to_ne 2 ty). set (flb := to_ne 2 fl).
  set (sqb := to_ne 4 seq). set (pid := to_ne 4 0). set (msg := len ++ tyb ++ flb ++ sqb ++ pid ++ fixed ++ body).
  assert (length tyb = 2%nat /\ length flb = 2%nat /\ length sqb = 4%nat /\ length pid = 4%nat)
    as (Hl1 & Hl2 & Hl3 & Hl4) by (unfold tyb, flb, sqb, pid; by rewrite !length_to_ne).
  assert (length msg = (16 + length fixed + length body)%nat) as Hmsg by (unfold msg; rewrite !length_app; lia).
  unfold parse_message. rewrite Hmsg, (proj2 (Nat.ltb_ge _ _)) by lia.
  assert (slice 0 4 msg = len) as -> by (by apply slice_head).
  assert (slice 4 6 msg = tyb) as -> by (apply slice_mid; lia).
  assert (slice 6 8 msg = flb) as -> by (unfold msg; rewrite app_assoc; apply slice_mid; rewrite ?length_app; lia).
  assert (slice 8 12 msg = sqb) as ->
    by (unfold msg; rewrite !app_assoc, <- (app_assoc _ sqb), <- !app_assoc, (app_assoc len), (app_assoc (len ++ tyb)); apply slice_mid; rewrite ?length_app; lia).
  assert (msg = (len ++ tyb ++ flb ++ sqb ++ pid) ++ fixed ++ body) as Em by (unfold msg; by rewrite <- !app_assoc).
  assert (slice 16 (16 + length fixed) msg = fixed) as -> by (rewrite Em; apply slice_mid; rewrite ?length_app; lia).
  assert (drop (16 + length fixed) msg = body) as ->.
  { rewrite Em, app_assoc. apply drop_app_length'. rewrite !length_app. lia. }
  unfold len, tyb, flb, sqb. rewrite length_app in Hlen |- *.
  rewrite !from_to_ne by (change (2 ^ (8 * Z.of_nat 4)) with (2 ^ 32); change (2 ^ (8 * Z.of_nat 2)) with 65536; lia).
  rewrite (proj2 (Z.eqb_eq _ _)) by lia. cbn [orb negb]. unfold body. rewrite parse_attrs_concat; [done|done|].
  assert (length attrs <= length (concat (map attr_bytes attrs)))%nat; [|unfold body; lia].
  clear. induction attrs as [|a attrs IH]; cbn; [lia|]. rewrite length_app, attr_bytes_len. lia.
Qed.

Definition u32_ok (z : Z) : Prop := 0 <= z < 2 ^ 32.

Lemma ip_attr_ok t ip : ip_ok ip -> 0 <= t < 65536 -> attr_ok (t, octets ip).
Proof. intros [_ Hl] Ht. split; [done|]. cbn [snd]. rewrite Hl. destruct ip; lia. Qed.

Lemma ne4_attr_ok t z : 0 <= t < 65536 -> attr_ok (t, to_ne 4 z).
Proof. intros Ht. split; [done|]. cbn [snd]. rewrite length_to_ne. lia. Qed.

Lemma one_attr fixed t d :
  (length fixed mod 4 = 0)%nat -> attr_ok (t, d) -> push_attr little fixed t d = fixed ++ concat (map attr_bytes [(t, d)]).
Proof.
  intros Hf Ha. cbn [map concat]. rewrite app_nil_r. exact (push_attr_spec fixed (t, d) Hf Ha).
Qed.

Lemma two_attrs fixed t d t' d' :
  (length fixed mod 4 = 0)%nat -> attr_ok (t, d) -> attr_ok (t', d') ->
  push_attr little (push_attr little fixed t d) t' d' = fixed ++ concat (map attr_bytes [(t, d); (t', d')]).
Proof.
  intros Hf Ha Hb. rewrite (one_attr fixed t d), one_attr by (done || (cbn [map concat];
    rewrite app_nil_r, length_app, Nat.Div0.add_mod, Hf, attr_bytes_aligned; done)).
  cbn [map concat]. by rewrite !app_nil_r, <- app_assoc.
Qed.

Lemma small_attr_len t d : (length d <= 16)%nat -> (length (attr_bytes (t, d)) <= 23)%nat.
Proof. intros Hd. rewrite attr_bytes_len. cbn [snd]. destruct (padding_spec (length d)) as (_ & ? & _). lia. Qed.

Lemma octets_len ip : ip_ok ip -> (length (octets ip) <= 16)%nat.
Proof. intros [_ ->]. destruct ip; lia. Qed.

Lemma small_request seq ty fl n fixed attrs :
  u32_ok seq -> 0 <= ty < 65536 -> 0 <= fl < 65536 -> length fixed = n -> (n <= 16)%nat -> (length attrs <= 2)%nat ->
  Forall (fun a => attr_ok a /\ (length (snd a) <= 16)%nat) attrs ->
  parse_message n (message little seq ty fl (fixed ++ concat (map attr_bytes attrs))) = Some (mkParsed ty fl seq fixed attrs).
Proof.
  intros Hs Ht Hf <- Hn Ha2 Ha. apply parse_message_spec; [done..|by eapply Forall_impl; [exact Ha|]; intros ? []|].
  assert (length (concat (map attr_bytes attrs)) <= length attrs * 23)%nat as Hl.
  { clear Ha2. induction Ha as [|[t d] attrs [_ Hd] _ IH]; cbn [map concat length]; [lia|].
    rewrite length_app. etransitivity; [apply Nat.add_le_mono; [by apply small_attr_len|exact IH]|lia]. }
  rewrite length_app. change (2 ^ 32) with 4294967296. lia.
Qed.

Definition family (ip : IpAddr) : Z := match ip with V4 _ => AF_INET | V6 _ => AF_INET6 end.

Lemma fam_bytes_eq ip : fam_bytes ip = (family ip, octets ip).
Proof. by destruct ip. Qed.

(** The side conditions of a small request, from facts about its parts. *)
Ltac request_fits Hi Hz Hinfo :=
  first [done | apply Hinfo | rewrite length_app, length_to_ne; done | cbn; lia
        |repeat apply Forall_cons_2; first [apply Forall_nil_2 | apply Hz; lia | apply Hi; lia]].

(** C35: the requests say what they mean to the kernel. Read by rtnetlink's rules
    (length field, header, fixed structure, padded attributes), on a machine of
    either byte order, each request is well formed and carries exactly: the
    interface and the MTU; the interface, to be brought up; the interface, the
    address and its prefix; the destination, its prefix and the interface, in
    the main table. *)
Theorem netlink_requests_read seq ifindex ip prefix mtu :
  u32_ok seq -> ip_ok ip ->
  parse_message 16 (message little seq RTM_NEWLINK REQUEST_ACK (mtu_payload little ifindex mtu)) =
    Some (mkParsed RTM_NEWLINK REQUEST_ACK seq ([0; 0; 0; 0] ++ to_ne 4 ifindex ++ [0; 0; 0; 0] ++ [0; 0; 0; 0])
      [(IFLA_MTU, to_ne 4 mtu)]) /\
  parse_message 16 (message little seq RTM_NEWLINK REQUEST_ACK (up_payload little ifindex)) =
    Some (mkParsed RTM_NEWLINK REQUEST_ACK seq ([0; 0; 0; 0] ++ to_ne 4 ifindex ++ to_ne 4 1 ++ to_ne 4 1) []) /\
  parse_message 8 (message little seq RTM_NEWADDR REQUEST_NEW (addr_payload little ifindex ip prefix)) =
    Some (mkParsed RTM_NEWADDR REQUEST_NEW seq ([family ip; prefix; 0; RT_SCOPE_UNIVERSE] ++ to_ne 4 ifindex)
      [(IFA_LOCAL, octets ip); (IFA_ADDRESS, octets ip)]) /\
  parse_message 12 (message little seq RTM_NEWROUTE REQUEST_NEW (route_payload little ifindex ip prefix)) =
    Some (mkParsed RTM_NEWROUTE REQUEST_NEW seq
      ([family ip; prefix; 0; 0; RT_TABLE_MAIN; RTPROT_BOOT; RT_SCOPE_LINK; RTN_UNICAST] ++ to_ne 4 0)
      [(RTA_DST, octets ip); (RTA_OIF, to_ne 4 ifindex)]).
Proof.
  intros Hs Hip. unfold mtu_payload, up_payload, addr_payload, route_payload. rewrite fam_bytes_eq.
  assert (forall t, 0 <= t < 65536 -> attr_ok (t, octets ip) /\ (length (octets ip) <= 16)%nat) as Hi
    by (intros; split; [by apply ip_attr_ok|by apply octets_len]).
  assert (forall t z, 0 <= t < 65536 -> attr_ok (t, to_ne 4 z) /\ (length (to_ne 4 z) <= 16)%nat) as Hz
    by (intros; split; [by apply ne4_attr_ok|rewrite length_to_ne; lia]).
  assert (forall a b c, length ([AF_UNSPEC] ++ [0] ++ to_ne 2 0 ++ to_ne 4 a ++ to_ne 4 b ++ to_ne 4 c) = 16%nat) as Hinfo
    by (intros; rewrite !length_app, !length_to_ne; done).
  assert (to_ne 2 0 = [0; 0] /\ to_ne 4 0 = [0; 0; 0; 0]) as [Z2 Z4] by (unfold to_ne_bytes; by destruct little).
  unfold IFLA_MTU, IFA_LOCAL, IFA_ADDRESS, RTA_DST, RTA_OIF. split_and!.
  - rewrite one_attr by (rewrite ?Hinfo; (done || by apply Hz)).
    rewrite small_request by request_fits Hi Hz Hinfo. by rewrite Z2, Z4.
  - match goal with |- context [message _ _ _ _ ?x] => rewrite <- (app_nil_r x) end.
    rewrite (small_request _ _ _ 16 _ []) by request_fits Hi Hz Hinfo. by rewrite Z2.
  - rewrite two_attrs by (rewrite ?length_app, ?length_to_ne; (done || by apply Hi)).
    apply small_request; request_fits Hi Hz Hinfo.
  - rewrite two_attrs by (rewrite ?length_app, ?length_to_ne; (done || by apply Hi || by apply Hz)).
    apply small_request; request_fits Hi Hz Hinfo.
Qed.
End reading.

(** ** Witnesses *)

Lemma netlink_requests_read_witness :
  parse_message false 12 (message false 3 RTM_NEWROUTE REQUEST_NEW (route_payload false 9 (V4 [10; 0; 0; 0]) 24)) =
    Some (mkParsed RTM_NEWROUTE REQUEST_NEW 3
      ([AF_INET; 24; 0; 0; RT_TABLE_MAIN; RTPROT_BOOT; RT_SCOPE_LINK; RTN_UNICAST] ++ [0; 0; 0; 0])
      [(RTA_DST, [10; 0; 0; 0]); (RTA_OIF, [0; 0; 0; 9])]).
Proof.
  apply (netlink_requests_read false 3 9 (V4 [10; 0; 0; 0]) 24 1280).
  - unfold u32_ok. lia.
  - split; [|done]. cbn [octets]. repeat (apply Forall_cons_2; [unfold byte_ok; lia|]). apply Forall_nil_2.
Defined.
