(* ===== verification/OlmProto.v ===== *)
(** The messages of the client's control channel, [newt/src/olm/proto.rs]. *)

From Stdlib Require Import String.
From S2P Require Import Prelude Text Json Proto.

Module olm_topic.
Definition REGISTER : str := lit "olm/wg/register".
Definition DISCONNECTING : str := lit "olm/disconnecting".
Definition PING : str := lit "olm/ping".
Definition CONNECT : str := lit "olm/wg/connect".
Definition ERROR : str := lit "olm/error".
Definition TERMINATE : str := lit "olm/terminate".
Definition PEER_ADD : str := lit "olm/wg/peer/add".
Definition PEER_REMOVE : str := lit "olm/wg/peer/remove".
Definition PEER_UPDATE : str := lit "olm/wg/peer/update".
Definition PEER_RELAY : str := lit "olm/wg/peer/relay".
Definition PEER_UNRELAY : str := lit "olm/wg/peer/unrelay".
Definition PEER_DATA_ADD : str := lit "olm/wg/peer/data/add".
Definition PEER_DATA_REMOVE : str := lit "olm/wg/peer/data/remove".
Definition PEER_DATA_UPDATE : str := lit "olm/wg/peer/data/update".
Definition SYNC : str := lit "olm/sync".
End olm_topic.

Record SiteConfig := mkSiteConfig {
  sc_site_id : Z;
  sc_name : str;
  sc_endpoint : str;
  sc_relay_endpoint : str;
  sc_public_key : str;
  sc_server_ip : str;
  sc_server_port : Z;
  sc_remote_subnets : list str;
  sc_allowed_ips : list str
}.

(** The relay endpoint when there is one. *)
Definition site_wg_endpoint (s : SiteConfig) : str :=
  match sc_relay_endpoint s with [] => sc_endpoint s | e => e end.

Definition routed_cidrs (s : SiteConfig) : list str := sc_remote_subnets s ++ sc_allowed_ips s.

Record OlmWgData := mkOlmWgData { ow_sites : list SiteConfig; ow_tunnel_ip : str; ow_utility_subnet : str }.
Record PeerRelay := mkPeerRelay { pr_site : Z; pr_relay_endpoint : str }.
Record PeerUnrelay := mkPeerUnrelay { pu_site : Z; pu_endpoint : str }.
Record PeerData := mkPeerData { pd_site : Z; pd_remote_subnets : list str }.
Record PeerDataUpdate := mkPeerDataUpdate { pdu_site : Z; pdu_old : list str; pdu_new : list str }.
Record ErrorData := mkErrorData { er_code : str; er_message : str }.

(** The derived [Default]s. *)
Definition OlmWgData_default : OlmWgData := mkOlmWgData [] [] [].
Definition ErrorData_default : ErrorData := mkErrorData [] [].

Section decoding.
Context {F : Float}.

Definition dec_strings : json -> option (list str) := dec_vec dec_str.

Definition dec_SiteConfig : json -> option SiteConfig :=
  dec_struct (
    let? id := required (lit "siteId") dec_i64 in
    let? name := defaulted (lit "name") dec_str [] in
    let? endpoint := defaulted (lit "endpoint") dec_str [] in
    let? relay := defaulted (lit "relayEndpoint") dec_str [] in
    let? key := defaulted (lit "publicKey") dec_str [] in
    let? server_ip := defaulted (lit "serverIP") dec_str [] in
    let? server_port := defaulted (lit "serverPort") dec_u16 0 in
    let? subnets := defaulted (lit "remoteSubnets") dec_strings [] in
    let? allowed := defaulted (lit "allowedIps") dec_strings [] in
    dret (mkSiteConfig id name endpoint relay key server_ip server_port subnets allowed)).

Definition dec_OlmWgData : json -> option OlmWgData :=
  dec_struct (
    let? sites := defaulted (lit "sites") (dec_vec dec_SiteConfig) [] in
    let? tunnel_ip := defaulted (lit "tunnelIP") dec_str [] in
    let? utility := defaulted (lit "utilitySubnet") dec_str [] in
    dret (mkOlmWgData sites tunnel_ip utility)).

(** [PeerRemove] has one field, the site. *)
Definition dec_PeerRemove : json -> option Z := dec_struct (required (lit "siteId") dec_i64).

Definition dec_PeerRelay : json -> option PeerRelay :=
  dec_struct (
    let? id := required (lit "siteId") dec_i64 in
    let? relay := required (lit "relayEndpoint") dec_str in
    dret (mkPeerRelay id relay)).

Definition dec_PeerUnrelay : json -> option PeerUnrelay :=
  dec_struct (
    let? id := required (lit "siteId") dec_i64 in
    let? endpoint := required (lit "endpoint") dec_str in
    dret (mkPeerUnrelay id endpoint)).

Definition dec_PeerData : json -> option PeerData :=
  dec_struct (
    let? id := required (lit "siteId") dec_i64 in
    let? subnets := defaulted (lit "remoteSubnets") dec_strings [] in
    dret (mkPeerData id subnets)).

Definition dec_PeerDataUpdate : json -> option PeerDataUpdate :=
  dec_struct (
    let? id := required (lit "siteId") dec_i64 in
    let? old := defaulted (lit "oldRemoteSubnets") dec_strings [] in
    let? new := defaulted (lit "newRemoteSubnets") dec_strings [] in
    dret (mkPeerDataUpdate id old new)).

Definition dec_ErrorData : json -> option ErrorData :=
  dec_struct (
    let? code := defaulted (lit "code") dec_str [] in
    let? message := defaulted (lit "message") dec_str [] in
    dret (mkErrorData code message)).

(** [SyncData] has one field, the sites. *)
Definition dec_SyncData : json -> option (list SiteConfig) :=
  dec_struct (defaulted (lit "sites") (dec_vec dec_SiteConfig) []).
End decoding.
