(* ===== verification/Olm.v ===== *)
(** The client role, [newt/src/olm/mod.rs] over [newt/src/olm/backend.rs]: the
    control messages, the data plane they build, and the session loop. *)

From Stdlib Require Import String.
From S2P Require Import Prelude Time Errors Replay Crypto ToyCrypto Packet Session.
From S2P Require Import Handshake HandshakeFacts RateLimiter Timers Tunn TunnFacts TunnProps Text Ip.
From S2P Require Import Json Proto Token Config Wg Holepunch Ws Netstack Bridge DataPlane Plane Userspace Tun Netlink.
From S2P Require Import OlmProto Router.

(** ** The machine *)

(** What the operating system answers: which local ports can be bound, opening
    the TUN interface, the index of an interface, the netlink socket, requests
    to the kernel, and the byte order. *)
Record Machine := mkMachine {
  ma_bound : Z -> bool;
  ma_tun : TunSys;
  ma_index_of : str -> Z;
  ma_socket : Z;
  ma_kernel : bytes -> Result str bytes;
  ma_little : bool
}.

(** What the surroundings answer during a turn: name resolution, whether the
    control channel takes what is written, whether the UDP socket takes a
    datagram for an address, and what the descriptor of the interface does until
    a packet written to it is dealt with. *)
Record NetTurn := mkNetTurn {
  nt_resolve : str -> option SocketAddr;
  nt_ws : bool;
  nt_udp : bytes * SocketAddr -> bool;
  nt_tun : bytes -> list WriteTurn
}.

Definition VERSION : str := lit "rust-0.2.2".

Section olm.
Context {C : Crypto} {B : Base64} {S : Smoltcp} {H : HashOrder} {F : Float} {J : JsonText}.
Variable ma : Machine.

(** ** Backends *)

Inductive Backend : Type :=
| BUserspace (b : UserspaceBackend)
| BKernel (b : KernelBackend).

Definition Backend_new (cfg : ClientRun) (tunnel_ip : IpAddr) : M (Result str Backend) :=
  match cl_access cfg with
  | Userspace =>
      match cl_socks_port cfg with
      | Some _ => mret (Err (lit "OLM_SOCKS_PORT is reserved and not yet implemented; use OLM_FORWARDS"))
      | None =>
          let* r := Userspace_new (ma_bound ma) tunnel_ip (cl_mtu cfg) (cl_forwards cfg) in
          mret (match r with Ok b => Ok (BUserspace b) | Err e => Err e end)
      end
  | Kernel =>
      mret (match Kernel_new (ma_little ma) (ma_kernel ma) (ma_tun ma) (ma_index_of ma) (ma_socket ma)
                    (cl_interface cfg) tunnel_ip (cl_mtu cfg) with
            | Ok b => Ok (BKernel b)
            | Err e => Err e
            end)
  end.

(** What the host has for the tunnel: an accepted connection, or a packet read
    from the interface. *)
Record HostTurn := mkHostTurn { ht_accept : Accepted; ht_read : Result str bytes }.

Definition Backend_drive (b : Backend) (h : HostTurn) : M (Backend * Result str (list bytes)) :=
  match b with
  | BUserspace u => let* (u, r) := us_drive u (ht_accept h) in mret (BUserspace u, r)
  | BKernel k => mret (BKernel k, k_drive k (ht_read h))
  end.

(** The bytes written to the interface come with the result. *)
Definition Backend_deliver (n : NetTurn) (b : Backend) (pkt : bytes) : Backend * bytes * bool :=
  match b with
  | BUserspace u => (BUserspace (us_deliver_inbound u pkt), [], true)
  | BKernel k => let '(out, good) := k_deliver pkt (nt_tun n pkt) in (BKernel k, out, good)
  end.

Definition Backend_add_routes (b : Backend) (cs : list Cidr) : Backend :=
  match b with
  | BUserspace u => BUserspace u
  | BKernel k => BKernel (k_add_routes (ma_little ma) (ma_kernel ma) k (map parts cs))
  end.

(** ** The data plane *)

Record ClientPlane := mkClientPlane { cp_router : Router; cp_backend : Backend }.

Definition parse_cidrs (specs : list str) : list Cidr := omap Cidr_parse specs.

Definition site_cidrs (s : SiteConfig) : list Cidr := parse_cidrs (routed_cidrs s).

(** The sites of the first configuration, one after another; a site without a
    key or an address that resolves is skipped. *)
Fixpoint install_sites (n : NetTurn) (r : Router) (sites : list SiteConfig)
  : M (Router * list (bytes * SocketAddr) * list Cidr) :=
  match sites with
  | [] => mret (r, [], [])
  | s :: sites' =>
      match sc_public_key s, nt_resolve n (site_wg_endpoint s) with
      | _ :: _, Some ep =>
          let* (r, init) := upsert_peer r (sc_site_id s) (sc_public_key s) ep (site_cidrs s) in
          let* (r, inits, cs) := install_sites n r sites' in
          mret (r, match init with Some i => [i] | None => [] end ++ inits, site_cidrs s ++ cs)
      | _, _ => install_sites n r sites'
      end
  end.

Definition build_dataplane (n : NetTurn) (cfg : ClientRun) (keys : Keys) (wg : OlmWgData)
  : M (Result str (ClientPlane * list (bytes * SocketAddr))) :=
  let addr := match split_once SLASH (ow_tunnel_ip wg) with Some (a, _) => a | None => ow_tunnel_ip wg end in
  match ip_from_str addr with
  | None => mret (Err (lit "bad olm tunnelIP"))
  | Some tunnel_ip =>
      let r := Router_new (secret keys) (cl_mtu cfg) in
      let* b := Backend_new cfg tunnel_ip in
      match b with
      | Err e => mret (Err e)
      | Ok b =>
          let* (r, inits, cs) := install_sites n r (ow_sites wg) in
          mret (Ok (mkClientPlane r (Backend_add_routes b cs), inits))
      end
  end.

(** Add or update a site of a running data plane. *)
Definition upsert_site (n : NetTurn) (d : ClientPlane) (s : SiteConfig)
  : M (ClientPlane * option (bytes * SocketAddr)) :=
  match sc_public_key s, nt_resolve n (site_wg_endpoint s) with
  | _ :: _, Some ep =>
      let* (r, init) := upsert_peer (cp_router d) (sc_site_id s) (sc_public_key s) ep (site_cidrs s) in
      mret (mkClientPlane r (Backend_add_routes (cp_backend d) (site_cidrs s)), init)
  | _, _ => mret (d, None)
  end.

(** ** Messages *)

Definition register_msg (cfg : ClientRun) (public_key_b64 : str) : WsMessage :=
  mkWsMessage olm_topic.REGISTER
    (jobj [(lit "publicKey", JStr public_key_b64); (lit "relay", JBool true); (lit "olmVersion", JStr VERSION);
           (lit "olmAgent", JStr (lit "newt-rust")); (lit "orgId", JStr (cl_org_id cfg));
           (lit "userToken", JStr (cl_user_token cfg)); (lit "fingerprint", jobj []); (lit "postures", jobj [])]) None.

Definition ping_msg (cfg : ClientRun) : WsMessage :=
  mkWsMessage olm_topic.PING
    (jobj [(lit "userToken", JStr (cl_user_token cfg)); (lit "fingerprint", jobj []); (lit "postures", jobj [])]) None.

(** What leaves the client. *)
Inductive ClientOut : Type :=
| ToControl (m : WsMessage)
| ToPeer (b : bytes) (ep : SocketAddr)
| ToInterface (b : bytes).

Inductive ClientEnd : Type :=
| GoOn
| Over (r : Result str unit).

(** The result of a stage: the new state, what was sent, and how it ended. *)
Definition St (A : Type) : Type := A * list ClientOut * ClientEnd.

(** Datagrams are sent one after another; the first that fails ends the
    session, with those before it sent. *)
Fixpoint send_udp (n : NetTurn) (dgs : list (bytes * SocketAddr)) : list ClientOut * ClientEnd :=
  match dgs with
  | [] => ([], GoOn)
  | (b, ep) :: dgs' =>
      if nt_udp n (b, ep) then let '(out, e) := send_udp n dgs' in (ToPeer b ep :: out, e)
      else ([], Over (Err (lit "send")))
  end.

Definition opt_list {A} (o : option A) : list A := match o with Some a => [a] | None => [] end.

(** Every site of a sync, each initiation sent before the next site. *)
Fixpoint sync_sites (n : NetTurn) (d : ClientPlane) (sites : list SiteConfig) : M (St ClientPlane) :=
  match sites with
  | [] => mret (d, [], GoOn)
  | s :: sites' =>
      let* (d, init) := upsert_site n d s in
      let '(out, e) := send_udp n (opt_list init) in
      match e with
      | GoOn => let* (d, out', e) := sync_sites n d sites' in mret (d, out ++ out', e)
      | Over r => mret (d, out, Over r)
      end
  end.

Definition with_router (d : ClientPlane) (r : Router) : ClientPlane := mkClientPlane r (cp_backend d).

(** A change of a data plane that is there, from a payload that decodes. *)
Definition on_plane {A} (dp : option ClientPlane) (payload : option A) (k : ClientPlane -> A -> M (St ClientPlane))
  : M (St (option ClientPlane)) :=
  match dp, payload with
  | Some d, Some a => let* (d, out, e) := k d a in mret (Some d, out, e)
  | _, _ => mret (dp, [], GoOn)
  end.

Definition handle_message (n : NetTurn) (cfg : ClientRun) (keys : Keys) (dp : option ClientPlane) (m : WsMessage)
  : M (St (option ClientPlane)) :=
  let is_ t := bytes_eqb (typ m) t in
  if is_ olm_topic.CONNECT then
    let wg := default OlmWgData_default (dec_OlmWgData (data m)) in
    let* r := build_dataplane n cfg keys wg in
    match r with
    | Err e => mret (dp, [], Over (Err e))
    | Ok (d, inits) =>
        let '(out, e) := send_udp n inits in
        mret (match e with GoOn => Some d | Over _ => dp end, out, e)
    end
  else if is_ olm_topic.PEER_ADD || is_ olm_topic.PEER_UPDATE then
    on_plane dp (dec_SiteConfig (data m)) (fun d s => sync_sites n d [s])
  else if is_ olm_topic.PEER_REMOVE then
    on_plane dp (dec_PeerRemove (data m)) (fun d site => mret (with_router d (remove_peer (cp_router d) site), [], GoOn))
  else if is_ olm_topic.PEER_RELAY then
    on_plane dp (dec_PeerRelay (data m)) (fun d r =>
      mret (match nt_resolve n (pr_relay_endpoint r) with
            | Some ep => with_router d (set_endpoint (cp_router d) (pr_site r) ep)
            | None => d
            end, [], GoOn))
  else if is_ olm_topic.PEER_UNRELAY then
    on_plane dp (dec_PeerUnrelay (data m)) (fun d r =>
      mret (match nt_resolve n (pu_endpoint r) with
            | Some ep => with_router d (set_endpoint (cp_router d) (pu_site r) ep)
            | None => d
            end, [], GoOn))
  else if is_ olm_topic.PEER_DATA_ADD then
    on_plane dp (dec_PeerData (data m)) (fun d r =>
      let cs := parse_cidrs (pd_remote_subnets r) in
      mret (mkClientPlane (add_cidrs (cp_router d) (pd_site r) cs) (Backend_add_routes (cp_backend d) cs), [], GoOn))
  else if is_ olm_topic.PEER_DATA_REMOVE then
    on_plane dp (dec_PeerData (data m)) (fun d r =>
      mret (with_router d (remove_cidrs (cp_router d) (pd_site r) (parse_cidrs (pd_remote_subnets r))), [], GoOn))
  else if is_ olm_topic.SYNC then
    on_plane dp (dec_SyncData (data m)) (fun d sites => sync_sites n d sites)
  else if is_ olm_topic.TERMINATE then mret (dp, [], Over (Ok tt))
  else mret (dp, [], GoOn).

(** ** Exit nodes *)

(** The nodes of the token's answer; [lookup] resolves a host and port. A port
    is cut to sixteen bits, zero means the default. *)
Fixpoint exit_nodes_of (lookup : str -> Z -> option SocketAddr) (nodes : list json) : list PunchNode :=
  match nodes with
  | [] => []
  | n :: nodes' =>
      let text k := default [] (as_str (Json.index k n)) in
      let server_pub := text (lit "publicKey") in
      let relay_port := wrap 16 (default 0 (as_u64 (Json.index (lit "relayPort") n))) in
      let relay_port := if relay_port =? 0 then 21820 else relay_port in
      let host := match rsplit_once COLON (text (lit "endpoint")) with Some (h, _) => h | None => text (lit "endpoint") end in
      let rest := exit_nodes_of lookup nodes' in
      if is_empty host || is_empty server_pub then rest
      else match lookup host relay_port with Some addr => mkPunchNode addr server_pub :: rest | None => rest end
  end.

Definition parse_exit_nodes (lookup : str -> Z -> option SocketAddr) (data : json) : list PunchNode :=
  match as_array (Json.index (lit "exitNodes") data) with
  | Some l => exit_nodes_of lookup l
  | None => []
  end.

(** ** The session *)

Record Client := mkClient { ct_dp : option ClientPlane; ct_hp : HolePunch; ct_ping_ticks : Z }.

Definition ct_with (c : Client) (dp : option ClientPlane) : Client := mkClient dp (ct_hp c) (ct_ping_ticks c).

(** Two stages, the second unless the first ended the session. *)
Definition ct_andthen (m : M (St Client)) (k : Client -> M (St Client)) : M (St Client) :=
  let* (c, out, e) := m in
  match e with
  | GoOn => let* (c, out', e) := k c in mret (c, out ++ out', e)
  | Over r => mret (c, out, Over r)
  end.

Definition control (n : NetTurn) (c : Client) (m : WsMessage) : St Client :=
  if nt_ws n then (c, [ToControl m], GoOn) else (c, [], Over (Err (lit "write"))).

Section session.
Variables (cfg : ClientRun) (keys : Keys).

(** Register until there is a data plane. *)
Definition tick_register (n : NetTurn) (c : Client) : M (St Client) :=
  match ct_dp c with
  | None => mret (control n c (register_msg cfg (public_b64 keys)))
  | Some _ => mret (c, [], GoOn)
  end.

Definition tick_punch (n : NetTurn) (c : Client) : M (St Client) :=
  let* dgs := datagrams (ct_hp c) in
  let '(out, e) := send_udp n dgs in
  mret (c, out, e).

Definition tick_router (n : NetTurn) (c : Client) : M (St Client) :=
  match ct_dp c with
  | None => mret (c, [], GoOn)
  | Some d =>
      let* (r, dgs) := Router_tick (cp_router d) in
      let '(out, e) := send_udp n dgs in
      mret (ct_with c (Some (with_router d r)), out, e)
  end.

Definition tick_ping (n : NetTurn) (c : Client) : M (St Client) :=
  let ticks := wadd 32 (ct_ping_ticks c) 1 in
  if 10 <=? ticks then mret (control n (mkClient (ct_dp c) (ct_hp c) 0) (ping_msg cfg))
  else mret (mkClient (ct_dp c) (ct_hp c) ticks, [], GoOn).

Definition ct_tick (n : NetTurn) (c : Client) : M (St Client) :=
  ct_andthen (ct_andthen (ct_andthen (tick_register n c) (tick_punch n)) (tick_router n)) (tick_ping n).

(** The results of a datagram, in order: packets for the host, answers for the
    network. *)
Fixpoint dispatch (n : NetTurn) (b : Backend) (outs : list Out) : St Backend :=
  match outs with
  | [] => (b, [], GoOn)
  | o :: outs' =>
      let '(b, out, e) :=
        match o with
        | ToHost p => let '(b, written, good) := Backend_deliver n b p in
                      (b, match written with [] => [] | _ => [ToInterface written] end,
                       if good then GoOn else Over (Err (lit "write")))
        | ToNet dg ep => let '(out, e) := send_udp n [(dg, ep)] in (b, out, e)
        end in
      match e with
      | GoOn => let '(b, out', e) := dispatch n b outs' in (b, out ++ out', e)
      | Over r => (b, out, Over r)
      end
  end.

Definition ct_datagram (n : NetTurn) (c : Client) (dg : bytes) : M (St Client) :=
  match ct_dp c with
  | None => mret (c, [], GoOn)
  | Some d =>
      let* (r, outs) := handle_inbound (cp_router d) dg in
      let '(b, out, e) := dispatch n (cp_backend d) outs in
      mret (ct_with c (Some (mkClientPlane r b)), out, e)
  end.

(** Packets of the host, encrypted and sent one after another. *)
Fixpoint route_all (n : NetTurn) (r : Router) (pkts : list bytes) : M (St Router) :=
  match pkts with
  | [] => mret (r, [], GoOn)
  | pkt :: pkts' =>
      let* (r, dg) := route_outbound r pkt in
      let '(out, e) := send_udp n (opt_list dg) in
      match e with
      | GoOn => let* (r, out', e) := route_all n r pkts' in mret (r, out ++ out', e)
      | Over x => mret (r, out, Over x)
      end
  end.

Definition ct_drive (n : NetTurn) (c : Client) (h : HostTurn) : M (St Client) :=
  match ct_dp c with
  | None => mret (c, [], GoOn)
  | Some d =>
      let* (b, r) := Backend_drive (cp_backend d) h in
      match r with
      | Err e => mret (ct_with c (Some (mkClientPlane (cp_router d) b)), [], Over (Err e))
      | Ok pkts =>
          let* (r, out, e) := route_all n (cp_router d) pkts in
          mret (ct_with c (Some (mkClientPlane r b)), out, e)
      end
  end.

(** The branches of the loop. *)
Inductive ClientTurn : Type :=
| CReceived (m : WsMessage)
| CClosed
| CBroken (e : str)
| CTicked
| CDatagram (r : Result str bytes)
| CDriven (h : HostTurn).

Definition ct_turn (n : NetTurn) (c : Client) (t : ClientTurn) : M (St Client) :=
  match t with
  | CReceived m =>
      let* (dp, out, e) := handle_message n cfg keys (ct_dp c) m in
      mret (ct_with c dp, out, e)
  | CClosed => mret (c, [], Over (Ok tt))
  | CBroken e => mret (c, [], Over (Err e))
  | CTicked => ct_tick n c
  | CDatagram (Err e) => mret (c, [], Over (Err e))
  | CDatagram (Ok dg) => ct_datagram n c dg
  | CDriven h => ct_drive n c h
  end.

Fixpoint ct_turns (c : Client) (ts : list (NetTurn * ClientTurn)) : M (St Client) :=
  match ts with
  | [] => mret (c, [], GoOn)
  | (n, t) :: ts' => ct_andthen (ct_turn n c t) (fun c => ct_turns c ts')
  end.

(** How the server is reached: its answer to the token request, whether the
    channel opens with the token, whether the socket for the tunnel can be
    bound, and how the names of exit nodes resolve. *)
Record ClientDial := mkClientDial {
  cd_exchange : Endpoint -> str -> Result str bytes;
  cd_channel : str -> Result str unit;
  cd_bind : Result str unit;
  cd_lookup : str -> Z -> option SocketAddr
}.

Definition client_credentials : json :=
  jobj [(lit "olmId", JStr (cl_id cfg)); (lit "secret", JStr (cl_secret cfg));
        (lit "userToken", JStr (cl_user_token cfg)); (lit "orgId", JStr (cl_org_id cfg))].

(** A session: the token and the exit nodes, the channel, the registration,
    then the loop. *)
Definition olm_session (cd : ClientDial) (n : NetTurn) (ts : list (NetTurn * ClientTurn))
  : M (list ClientOut * ClientEnd) :=
  match get_token_data (cd_exchange cd) (cl_endpoint cfg) (lit "olm") client_credentials with
  | Err e => mret ([], Over (Err e))
  | Ok data =>
      match as_str (Json.index (lit "token") data) with
      | None => mret ([], Over (Err (lit "no token in olm get-token response")))
      | Some tok =>
          let exit_nodes := parse_exit_nodes (cd_lookup cd) data in
          match cd_channel cd tok with
          | Err e => mret ([], Over (Err e))
          | Ok _ =>
              match cd_bind cd with
              | Err e => mret ([], Over (Err e))
              | Ok _ =>
                  let hp := set_nodes (HolePunch_new (cl_id cfg) (public_b64 keys) tok) exit_nodes in
                  let* (c, out, e) :=
                    ct_andthen (mret (control n (mkClient None hp 0) (register_msg cfg (public_b64 keys))))
                      (fun c => ct_turns c ts) in
                  mret (out, e)
              end
          end
      end
  end.

(** Sessions one after another, under the same keys: what each sent and how it
    ended, and the result of the loop once it has one. The loop has no [return]
    or [break] and only logs the error of a session, so a session that ended
    either way is followed by the next; a session that goes on, or the end of
    what happened so far, leaves the loop running. *)
Fixpoint olm_sessions (scripts : list (ClientDial * NetTurn * list (NetTurn * ClientTurn)))
  : M (list (list ClientOut * ClientEnd) * option (Result str unit)) :=
  match scripts with
  | [] => mret ([], None)
  | (cd, n, ts) :: scripts' =>
      let* (out, e) := olm_session cd n ts in
      match e with
      | GoOn => mret ([(out, GoOn)], None)
      | Over r =>
          let* (rest, result) := olm_sessions scripts' in
          mret ((out, Over r) :: rest, result)
      end
  end.
End session.

Definition olm_run (cfg : ClientRun) (scripts : list (ClientDial * NetTurn * list (NetTurn * ClientTurn)))
  : M (list (list ClientOut * ClientEnd) * option (Result str unit)) :=
  let* keys := generate_keys in olm_sessions cfg keys scripts.
End olm.
