(* ===== verification/OlmFacts.v ===== *)
(** Facts about the client role: no turn of its loop panics, its interface gets
    the packets, and what each control message does to the table of sites. *)

From Stdlib Require Import String.
From S2P Require Import Prelude Time Errors Replay Crypto ToyCrypto Packet Session.
From S2P Require Import Handshake HandshakeFacts RateLimiter Timers Tunn TunnFacts TunnProps Text Ip.
From S2P Require Import Json Proto Token Config Wg Holepunch Ws Netstack Bridge DataPlane Plane Userspace Tun Netlink.
From S2P Require Import OlmProto Router Olm.

(** ** The table the server asks for *)

(** A site, the address its traffic goes to, the ranges routed to it. *)
Definition Entry : Type := Z * SocketAddr * list Cidr.
Definition Table : Type := list Entry.

Definition e_site (e : Entry) : Z := fst (fst e).

(** A site is replaced by its new entry, at the end. *)
Definition t_upsert (site : Z) (ep : SocketAddr) (cs : list Cidr) (t : Table) : Table :=
  filter (fun e => e_site e <> site) t ++ [(site, ep, cs)].

(** The first entry of a site is changed. *)
Fixpoint t_update (site : Z) (f : Entry -> Entry) (t : Table) : Table :=
  match t with
  | [] => []
  | e :: t' => if e_site e =? site then f e :: t' else e :: t_update site f t'
  end.

Section table.
Context {C : Crypto} {B : Base64} {S : Smoltcp} {H : HashOrder} {F : Float} {J : JsonText}.

(** A site counts when it has a valid key and its address resolves. *)
Definition t_site (n : NetTurn) (t : Table) (s : SiteConfig) : Table :=
  match sc_public_key s, nt_resolve n (site_wg_endpoint s), public_from_b64 (sc_public_key s) with
  | _ :: _, Some ep, Ok _ => t_upsert (sc_site_id s) ep (site_cidrs s) t
  | _, _, _ => t
  end.

(** What a message does to the table; without one, only a connect does anything. *)
Definition t_change {A} (t : option Table) (payload : option A) (f : Table -> A -> Table) : option Table :=
  match t, payload with Some t, Some a => Some (f t a) | _, _ => t end.

Definition t_endpoint (n : NetTurn) (t : Table) (site : Z) (host : str) : Table :=
  match nt_resolve n host with
  | Some ep => t_update site (fun e => (fst (fst e), ep, snd e)) t
  | None => t
  end.

Definition table_step (n : NetTurn) (t : option Table) (m : WsMessage) : option Table :=
  let is_ x := bytes_eqb (typ m) x in
  if is_ olm_topic.CONNECT then
    Some (foldl (t_site n) [] (ow_sites (default OlmWgData_default (dec_OlmWgData (data m)))))
  else if is_ olm_topic.PEER_ADD || is_ olm_topic.PEER_UPDATE then
    t_change t (dec_SiteConfig (data m)) (t_site n)
  else if is_ olm_topic.PEER_REMOVE then
    t_change t (dec_PeerRemove (data m)) (fun t site => filter (fun e => e_site e <> site) t)
  else if is_ olm_topic.PEER_RELAY then
    t_change t (dec_PeerRelay (data m)) (fun t r => t_endpoint n t (pr_site r) (pr_relay_endpoint r))
  else if is_ olm_topic.PEER_UNRELAY then
    t_change t (dec_PeerUnrelay (data m)) (fun t r => t_endpoint n t (pu_site r) (pu_endpoint r))
  else if is_ olm_topic.PEER_DATA_ADD then
    t_change t (dec_PeerData (data m)) (fun t r =>
      t_update (pd_site r) (fun e => (fst e, snd e ++ parse_cidrs (pd_remote_subnets r))) t)
  else if is_ olm_topic.PEER_DATA_REMOVE then
    t_change t (dec_PeerData (data m)) (fun t r =>
      t_update (pd_site r) (fun e => (fst e,
        filter (fun c => existsb (same_cidr c) (parse_cidrs (pd_remote_subnets r)) = false) (snd e))) t)
  else if is_ olm_topic.SYNC then
    t_change t (dec_SyncData (data m)) (foldl (t_site n))
  else t.

(** The table of a router. *)
Definition entry_of (p : Peer) : Entry := (site_id p, endpoint p, cidrs p).
Definition table (r : Router) : Table := map entry_of (peers r).
Definition plane_table (dp : option ClientPlane) : option Table := option_map (fun d => table (cp_router d)) dp.

Lemma remove_table r site : table (remove_peer r site) = filter (fun e => e_site e <> site) (table r).
Proof.
  unfold table. cbn [remove_peer set_peers peers]. induction (peers r) as [|p ps IH]; [done|].
  change (map entry_of (p :: ps)) with (entry_of p :: map entry_of ps). rewrite filter_cons. symmetry.
  case_decide as Hp; [etransitivity; [by apply (filter_cons_True (fun e => e_site e <> site))|]
                     |etransitivity; [by apply (filter_cons_False (fun e => e_site e <> site)); intros []|]];
    cbn [map]; by rewrite IH.
Qed.

Lemma update_table r site f g :
  (forall p, entry_of (g p) = f (entry_of p)) ->
  table (set_peers r (update_first (is_site site) g (peers r))) = t_update site f (table r).
Proof.
  intros Hg. unfold table. cbn. induction (peers r) as [|p ps IH]; [done|]. cbn [update_first map t_update].
  change (e_site (entry_of p)) with (site_id p). unfold is_site at 1. destruct (site_id p =? site); cbn [map].
  - by rewrite Hg.
  - by rewrite IH.
Qed.

Lemma upsert_table r site key ep cs w w' r' init :
  upsert_peer r site key ep cs w = Ret (w', (r', init)) ->
  table r' = match public_from_b64 key with Ok _ => t_upsert site ep cs (table r) | Err _ => table r end.
Proof.
  unfold upsert_peer. destruct (public_from_b64 key) as [pub|e]; [|intros E; unfold mret in E; by simplify_eq].
  intros E. apply mbind_ret_inv in E as (w1 & x & _ & E). apply mbind_ret_inv in E as (w2 & [x' i] & _ & E).
  unfold mret in E. simplify_eq. unfold t_upsert. rewrite <- remove_table. unfold table. cbn. by rewrite map_app.
Qed.

Lemma install_table n sites r w w' r' inits cs :
  install_sites n r sites w = Ret (w', (r', inits, cs)) -> table r' = foldl (t_site n) (table r) sites.
Proof.
  revert r w inits cs. induction sites as [|s sites IH]; intros r w inits cs E; cbn [install_sites foldl] in *.
  { unfold mret in E. by simplify_eq. }
  unfold t_site at 2.
  destruct (sc_public_key s) as [|k key] eqn:Ek; [by eapply IH|].
  destruct (nt_resolve n (site_wg_endpoint s)) as [ep|]; [|by eapply IH]. rewrite <- Ek in *.
  apply mbind_ret_inv in E as (w1 & [r1 i] & E1 & E). apply mbind_ret_inv in E as (w2 & [[r2 inits2] c] & E2 & E).
  unfold mret in E. simplify_eq. apply IH in E2. rewrite E2. apply upsert_table in E1. rewrite E1.
  by destruct (public_from_b64 (sc_public_key s)).
Qed.

Lemma upsert_site_table ma n d s w w' d' init :
  upsert_site ma n d s w = Ret (w', (d', init)) -> table (cp_router d') = t_site n (table (cp_router d)) s.
Proof.
  unfold upsert_site, t_site. intros E. destruct (sc_public_key s) as [|k key] eqn:Ek; [unfold mret in E; by simplify_eq|].
  destruct (nt_resolve n (site_wg_endpoint s)) as [ep|]; [|unfold mret in E; by simplify_eq]. rewrite <- Ek in *.
  apply mbind_ret_inv in E as (w1 & [r1 i] & E1 & E). unfold mret in E. simplify_eq. cbn.
  apply upsert_table in E1. rewrite E1. by destruct (public_from_b64 (sc_public_key s)).
Qed.

Lemma sync_table ma n sites d w w' d' out :
  sync_sites ma n d sites w = Ret (w', (d', out, GoOn)) ->
  table (cp_router d') = foldl (t_site n) (table (cp_router d)) sites.
Proof.
  revert d w out. induction sites as [|s sites IH]; intros d w out E; cbn [sync_sites foldl] in *.
  { unfold mret in E. by simplify_eq. }
  apply mbind_ret_inv in E as (w1 & [d1 init] & E1 & E). apply upsert_site_table in E1.
  destruct (send_udp n (opt_list init)) as [o [|r]]; [|unfold mret in E; by simplify_eq].
  apply mbind_ret_inv in E as (w2 & [[d2 o2] e2] & E2 & E). unfold mret in E. simplify_eq.
  apply IH in E2. by rewrite E2, E1.
Qed.

(** A change on a plane follows one on its table. *)
Lemma on_plane_table {A} dp (payload : option A) k f w w' dp' out :
  (forall d a w w' d' out, k d a w = Ret (w', (d', out, GoOn)) -> table (cp_router d') = f (table (cp_router d)) a) ->
  on_plane dp payload k w = Ret (w', (dp', out, GoOn)) ->
  plane_table dp' = t_change (plane_table dp) payload f.
Proof.
  intros Hk E. unfold on_plane in E. destruct dp as [d|], payload as [a|]; try (unfold mret in E; by simplify_eq).
  apply mbind_ret_inv in E as (w1 & [[d1 o] e] & E1 & E). unfold mret in E. simplify_eq. cbn.
  by rewrite (Hk _ _ _ _ _ _ E1).
Qed.

Lemma with_router_table d r : table (cp_router (with_router d r)) = table r.
Proof. done. Qed.

Lemma endpoint_table d n site host :
  table (cp_router (match nt_resolve n host with
                    | Some ep => with_router d (set_endpoint (cp_router d) site ep)
                    | None => d
                    end)) = t_endpoint n (table (cp_router d)) site host.
Proof. unfold t_endpoint. destruct (nt_resolve n host) as [ep|]; [|done]. by apply update_table. Qed.

Lemma build_table ma n cfg keys wg w w' d inits :
  build_dataplane ma n cfg keys wg w = Ret (w', Ok (d, inits)) ->
  table (cp_router d) = foldl (t_site n) [] (ow_sites wg).
Proof.
  unfold build_dataplane. intros E. destruct (ip_from_str _) as [ip|]; [|unfold mret in E; by simplify_eq].
  apply mbind_ret_inv in E as (w1 & [b|e] & _ & E); [|unfold mret in E; by simplify_eq].
  apply mbind_ret_inv in E as (w2 & [[r is1] cs] & E2 & E). unfold mret in E. simplify_eq.
  by apply install_table in E2.
Qed.

(** What the control messages do to the client's routes. A message that the
    session survives changes the routing table (sites, the address of each, its
    ranges) as [table_step] does: a connect replaces it by the usable sites,
    later entries of a site over earlier ones; adding, updating and syncing put a
    site's new entry in; removing, relaying and changes of ranges touch that site
    alone; anything else leaves it as it is, and before a connect there is none.
    This is the behaviour of the code, not the documented protocol: a sync that
    leaves a site out keeps routing to it, though [proto.rs] calls the message
    the authoritative peer set. *)
Theorem client_table_refines ma n cfg keys dp m w w' dp' out :
  handle_message ma n cfg keys dp m w = Ret (w', (dp', out, GoOn)) ->
  plane_table dp' = table_step n (plane_table dp) m.
Proof.
  unfold handle_message, table_step. intros E. destruct (bytes_eqb (typ m) olm_topic.CONNECT).
  { apply mbind_ret_inv in E as (w1 & [[d inits]|e] & E1 & E); [|unfold mret in E; by simplify_eq].
    apply build_table in E1. destruct (send_udp n inits) as [o [|r]]; unfold mret in E; simplify_eq. cbn. by rewrite E1. }
  repeat match goal with |- _ = (if ?c then _ else _) => destruct c end;
    try (eapply on_plane_table; [|exact E]; clear; intros d a w w' d' out E; cbn beta in *;
         first [by eapply sync_table in E | unfold mret in E; injection E as _ <- _]).
  - apply remove_table.
  - apply endpoint_table.
  - apply endpoint_table.
  - by apply update_table.
  - by apply update_table.
  - revert E. case_match; intros E; unfold mret in E; by simplify_eq.
Qed.
End table.

(** ** Safety *)

Section safety.
Context {C : Crypto} {LC : CryptoLaws C} {B : Base64} {S : Smoltcp} {LS : SmoltcpLaws S}.
Context {H : HashOrder} {LH : HashOrderLaws H} {F : Float} {J : JsonText}.
Variables (ma : Machine) (cfg : ClientRun) (keys : Keys).

Definition backend_ok (b : Backend) : Prop :=
  match b with
  | BUserspace u => us_ok (cl_mtu cfg) u /\ length (us_forwards u) = length (cl_forwards cfg)
  | BKernel _ => True
  end.

(** A data plane in order, whose router has numbered fewer than [k] peers. *)
Record cp_ok (k : Z) (d : ClientPlane) (w : World) : Prop := {
  ck_router : router_ok (cp_router d) w;
  ck_mtu : r_mtu (cp_router d) = cl_mtu cfg;
  ck_next : r_next_index (cp_router d) <= k;
  ck_backend : backend_ok (cp_backend d)
}.

Definition dp_fine (k : Z) (dp : option ClientPlane) (w : World) : Prop := forall d, dp = Some d -> cp_ok k d w.

Lemma cp_later k k' d w w' : clock_ok (w_clock w) -> world_le w w' -> k <= k' -> cp_ok k d w -> cp_ok k' d w'.
Proof. intros Hc Hle Hk [Hr Hm Hn Hb]. constructor; try done; [by eapply router_later|lia]. Qed.

Lemma cp_more k k' d w : k <= k' -> cp_ok k d w -> cp_ok k' d w.
Proof. intros Hk [Hr Hm Hn Hb]. constructor; try done. lia. Qed.

Lemma cp_keeps k w' r b (x : Router) A (a : A) :
  r_mtu x = cl_mtu cfg -> r_next_index x <= k -> router_keeps x w' (r, a) -> backend_ok b ->
  cp_ok (k + 1) (mkClientPlane r b) w'.
Proof. intros Hm Hn (Hr & Hm' & Hn') Hb. constructor; cbn in *; [done|congruence|lia|done]. Qed.

Lemma add_routes_ok b cs : backend_ok b -> backend_ok (Backend_add_routes ma b cs).
Proof. by destruct b. Qed.

Lemma bind_forwards_len bound fs ls : bind_forwards bound fs = Ok ls -> length ls = length fs.
Proof.
  revert ls. induction fs as [|f fs IH]; intros ls E; cbn in E; [by simplify_eq|].
  repeat case_match; simplify_eq. cbn. f_equal. by apply IH.
Qed.

Lemma Backend_new_safe ip w :
  safe (Backend_new ma cfg ip) w (fun _ r => forall b, r = Ok b -> backend_ok b).
Proof.
  unfold Backend_new. destruct (cl_access cfg).
  - apply safe_ret. intros b E. case_match; simplify_eq. done.
  - destruct (cl_socks_port cfg); [by apply safe_ret|]. apply safe_bind.
    destruct (Userspace_new_ok (cl_mtu cfg) (ma_bound ma) ip (cl_forwards cfg) w) as (w' & r & E & Hr).
    exists w', r. split; [exact E|]. pose proof E as E'. unfold Userspace_new in E'.
    destruct (bind_forwards (ma_bound ma) (cl_forwards cfg)) as [fl|e] eqn:Eb.
    + unfold mbind, Instant_now, mret in E'. cbn [obind] in E'. simplify_eq. split; [split; cbn; [done|lia]|].
      apply safe_ret. intros b [= <-]. split; [by apply Hr|]. cbn. by apply bind_forwards_len in Eb.
    + unfold mret in E'. simplify_eq. split; [apply world_le_refl|]. by apply safe_ret.
Qed.

Lemma parse_cidrs_ok specs : Forall cidr_ok (parse_cidrs specs).
Proof.
  apply Forall_forall. intros c Hc. unfold parse_cidrs in Hc. apply list_elem_of_omap in Hc as (x & _ & E).
  by eapply cidr_parse_ok.
Qed.

Lemma install_safe n sites r w k :
  clock_ok (w_clock w) -> router_ok r w -> r_next_index r <= k -> k + Z.of_nat (length sites) < 2 ^ 32 ->
  safe (install_sites n r sites) w (fun w' x =>
    router_ok (fst (fst x)) w' /\ r_mtu (fst (fst x)) = r_mtu r /\
    r_next_index (fst (fst x)) <= k + Z.of_nat (length sites)).
Proof.
  revert r w k. induction sites as [|s sites IH]; intros r w k Hc Hok Hn Hk; cbn [install_sites length] in *.
  { apply safe_ret. cbn. split; [done|]. split; [done|]. lia. }
  assert (safe (install_sites n r sites) w (fun w' x => router_ok (fst (fst x)) w' /\ r_mtu (fst (fst x)) = r_mtu r /\
    r_next_index (fst (fst x)) <= k + Z.of_nat (Datatypes.S (length sites)))) as Hskip.
  { eapply safe_weaken; [apply (IH r w k); (done || lia)|]. intros w' x _ (? & ? & ?). split_and!; [done..|lia]. }
  destruct (sc_public_key s); [done|]. destruct (nt_resolve n (site_wg_endpoint s)) as [ep|]; [|done].
  apply safe_bind. eapply safe_weaken; [apply upsert_safe; [done|done|lia|apply parse_cidrs_ok]|].
  intros w1 [r1 init] Hle (Hok1 & Hm1 & Hn1). cbn [fst] in *. apply safe_bind.
  eapply safe_weaken; [apply (IH r1 w1 (k + 1)); [by eapply world_clock|done|lia|lia]|].
  intros w2 [[r2 inits] cs] _ (Hok2 & Hm2 & Hn2). cbn [fst] in *. apply safe_ret. cbn. split_and!; [done|congruence|lia].
Qed.

Lemma build_safe_plane n wg w :
  clock_ok (w_clock w) -> 1 + Z.of_nat (length (ow_sites wg)) < 2 ^ 32 ->
  safe (build_dataplane ma n cfg keys wg) w (fun w' x =>
    forall d inits, x = Ok (d, inits) -> cp_ok (1 + Z.of_nat (length (ow_sites wg))) d w').
Proof.
  intros Hc Hn. unfold build_dataplane. destruct (ip_from_str _) as [ip|]; [|by apply safe_ret].
  apply safe_bind. eapply safe_weaken; [apply Backend_new_safe|]. intros w1 [b|e] Hle Hb; [|by apply safe_ret].
  apply safe_bind. eapply safe_weaken.
  { apply (install_safe n (ow_sites wg) (Router_new (secret keys) (cl_mtu cfg)) w1 1);
      [by eapply world_clock| |cbn; lia|done]. constructor; cbn; [apply NoDup_nil_2..|done|lia]. }
  intros w2 [[r inits] cs] _ (Hok & Hm & Hk). cbn [fst] in *. apply safe_ret. intros d is1 [= <- <-].
  constructor; try done. by apply add_routes_ok, Hb.
Qed.

Lemma sync_safe n sites d w k :
  clock_ok (w_clock w) -> cp_ok k d w -> k + Z.of_nat (length sites) < 2 ^ 32 ->
  safe (sync_sites ma n d sites) w (fun w' x => cp_ok (k + Z.of_nat (length sites)) (fst (fst x)) w').
Proof.
  revert d w k. induction sites as [|s sites IH]; intros d w k Hc Hok Hk; cbn [sync_sites length] in *.
  { apply safe_ret. cbn. by rewrite Z.add_0_r. }
  apply safe_bind.
  assert (safe (upsert_site ma n d s) w (fun w' x => cp_ok (k + 1) (fst x) w')) as Hup.
  { assert (cp_ok (k + 1) d w) as Hk1 by (eapply cp_more; [|exact Hok]; lia).
    unfold upsert_site. destruct (sc_public_key s); [by apply safe_ret|].
    destruct (nt_resolve n (site_wg_endpoint s)) as [ep|]; [|by apply safe_ret]. destruct Hok as [Hr Hm Hn Hb].
    apply safe_bind. eapply safe_weaken; [apply upsert_safe; [done|done|lia|apply parse_cidrs_ok]|].
    intros w1 [r1 init] _ Hkeep. apply safe_ret. eapply cp_keeps; [exact Hm|done|exact Hkeep|by apply add_routes_ok]. }
  eapply safe_weaken; [exact Hup|]. intros w1 [d1 init] Hle Hok1. cbn [fst] in *. pose proof (world_clock _ _ Hle Hc) as Hc1.
  destruct (send_udp n (opt_list init)) as [o [|r]].
  - apply safe_bind. eapply safe_weaken; [apply (IH d1 w1 (k + 1)); [done|done|lia]|].
    intros w2 [[d2 o2] e2] _ Hok2. apply safe_ret. cbn in *. eapply cp_more; [|exact Hok2]. lia.
  - apply safe_ret. cbn. eapply cp_more; [|exact Hok1]. lia.
Qed.

(** The peers a message can make the router number. *)
Definition sites_in (m : WsMessage) : Z :=
  let is_ x := bytes_eqb (typ m) x in
  if is_ olm_topic.CONNECT then
    Z.of_nat (length (ow_sites (default OlmWgData_default (dec_OlmWgData (data m)))))
  else if is_ olm_topic.PEER_ADD || is_ olm_topic.PEER_UPDATE then 1
  else if is_ olm_topic.SYNC then Z.of_nat (length (default [] (dec_SyncData (data m))))
  else 0.

Lemma sites_in_nonneg m : 0 <= sites_in m.
Proof. unfold sites_in. repeat case_match; lia. Qed.

Lemma on_plane_safe {A} dp (payload : option A) f w k j :
  0 <= j -> dp_fine k dp w ->
  (forall d a, payload = Some a -> cp_ok k d w -> safe (f d a) w (fun w' x => cp_ok (k + j) (fst (fst x)) w')) ->
  safe (on_plane dp payload f) w (fun w' x => dp_fine (k + j) (fst (fst x)) w').
Proof.
  intros Hj Hdp Hf. unfold on_plane.
  assert (dp_fine (k + j) dp w) as Hsame by (intros d E; eapply cp_more; [|by apply Hdp]; lia).
  destruct dp as [d|], payload as [a|]; try (by apply safe_ret).
  apply safe_bind. eapply safe_weaken; [apply (Hf d a eq_refl); by apply Hdp|].
  intros w1 [[d1 out] e] _ Hok. apply safe_ret. cbn in *. by intros x [= <-].
Qed.

Lemma cp_router_update k d w r' :
  cp_ok k d w -> router_ok r' w -> r_mtu r' = r_mtu (cp_router d) -> r_next_index r' = r_next_index (cp_router d) ->
  cp_ok k (with_router d r') w.
Proof. intros [Hr Hm Hn Hb] Hr' Hm' Hn'. constructor; cbn; [done|congruence|lia|done]. Qed.

(** A change of the router alone. *)
Lemma router_change_safe k j d w r' out e :
  0 <= j -> cp_ok k d w -> router_ok r' w -> r_mtu r' = r_mtu (cp_router d) -> r_next_index r' = r_next_index (cp_router d) ->
  safe (mret (with_router d r', out, e)) w (fun w' (x : St ClientPlane) => cp_ok (k + j) (fst (fst x)) w').
Proof. intros. apply safe_ret. apply (cp_more k); [lia|]. by apply cp_router_update. Qed.

Lemma set_endpoint_safe n k j d w site host :
  0 <= j -> cp_ok k d w ->
  safe (mret (match nt_resolve n host with
              | Some ep => with_router d (set_endpoint (cp_router d) site ep)
              | None => d
              end, [], GoOn)) w (fun w' (x : St ClientPlane) => cp_ok (k + j) (fst (fst x)) w').
Proof.
  intros Hj Hok. destruct (nt_resolve n host) as [ep|].
  - apply router_change_safe; [done|done| |done|done]. by apply set_endpoint_ok, Hok.
  - apply safe_ret. by apply (cp_more k); [lia|].
Qed.

Lemma handle_message_safe n dp m w k :
  clock_ok (w_clock w) -> 1 <= k -> dp_fine k dp w -> k + sites_in m < 2 ^ 32 ->
  safe (handle_message ma n cfg keys dp m) w (fun w' x => dp_fine (k + sites_in m) (fst (fst x)) w').
Proof.
  intros Hc Hk Hdp Hlt. pose proof (sites_in_nonneg m) as Hnn. unfold handle_message, sites_in in *.
  destruct (bytes_eqb (typ m) olm_topic.CONNECT).
  { apply safe_bind. eapply safe_weaken; [apply build_safe_plane; [done|lia]|].
    intros w1 [[d inits]|e] Hle Hb; [|apply safe_ret; intros d E; eapply (cp_later k); [done|done|lia|by apply Hdp]].
    destruct (send_udp n inits) as [o [|r]]; apply safe_ret; intros x E; cbn in E.
    - simplify_eq. eapply cp_more; [|by eapply Hb]. lia.
    - eapply (cp_later k); [done|done|lia|by apply Hdp]. }
  repeat match goal with |- safe (if ?c then _ else _) _ _ => destruct c end.
  all: try (apply on_plane_safe; [done|done|]; intros d a Ea Hok).
  - apply (sync_safe n [a] d w k); [done|done|cbn; lia].
  - apply router_change_safe; [done|done| |done|done]. by apply router_remove_ok, Hok.
  - by apply set_endpoint_safe.
  - by apply set_endpoint_safe.
  - apply safe_ret. apply (cp_more k); [lia|]. destruct Hok as [Hr Hm Hn Hb].
    constructor; cbn; [apply add_cidrs_ok; [apply parse_cidrs_ok|done]|done|done|by apply add_routes_ok].
  - apply router_change_safe; [done|done| |done|done]. by apply remove_cidrs_ok, Hok.
  - rewrite Ea in *. cbn [default] in *. by apply sync_safe.
  - apply safe_ret. intros d E. apply (cp_more k); [lia|]. by apply Hdp.
  - apply safe_ret. intros d E. apply (cp_more k); [lia|]. by apply Hdp.
Qed.

(** ** The loop *)

Definition ct_ok (k : Z) (c : Client) (w : World) : Prop := dp_fine k (ct_dp c) w.

Definition ct_post (k : Z) (w' : World) (x : St Client) : Prop := ct_ok k (fst (fst x)) w'.

Lemma ct_later k k' c w w' : clock_ok (w_clock w) -> world_le w w' -> k <= k' -> ct_ok k c w -> ct_ok k' c w'.
Proof. intros Hc Hle Hk Hok d E. eapply cp_later; eauto. Qed.

Lemma andthen_safe m f k k' w :
  clock_ok (w_clock w) -> k <= k' -> safe m w (ct_post k) ->
  (forall c w' out, m w = Ret (w', (c, out, GoOn)) -> clock_ok (w_clock w') -> ct_ok k c w' ->
     safe (f c) w' (ct_post k')) ->
  safe (ct_andthen m f) w (ct_post k').
Proof.
  intros Hc Hk Hm Hf. unfold ct_andthen. apply safe_bind. eapply safe_weaken; [by apply safe_eqn|].
  intros w1 [[c out] [|r]] Hle [E Hok]; unfold ct_post in Hok; cbn [fst] in Hok.
  - apply safe_bind. eapply safe_weaken; [eapply Hf; [exact E|by eapply world_clock|done]|].
    intros w2 [[c2 out2] e2] _ Hok2. by apply safe_ret.
  - apply safe_ret. intros d Ed. eapply cp_more; [exact Hk|by apply Hok].
Qed.

Lemma control_safe n k c m w : ct_ok k c w -> safe (mret (control n c m)) w (ct_post k).
Proof. intros Hok. apply safe_ret. unfold control. by destruct (nt_ws n). Qed.

Lemma punch_all_safe hp nodes w : safe (punch_all hp nodes) w (fun _ _ => True).
Proof.
  revert w. induction nodes as [|x nodes IH]; intros w; cbn [punch_all]; [by apply safe_ret|].
  apply safe_bind. eapply safe_weaken; [apply build_safe|]. intros w1 p _ _. apply safe_bind.
  eapply safe_weaken; [apply IH|]. intros w2 rest _ _. by apply safe_ret.
Qed.

Lemma tick_safe n k c w : clock_ok (w_clock w) -> ct_ok k c w -> safe (ct_tick cfg keys n c) w (ct_post k).
Proof.
  intros Hc Hok. unfold ct_tick. apply (andthen_safe _ _ k k w Hc ltac:(lia)).
  - apply (andthen_safe _ _ k k w Hc ltac:(lia)).
    + apply (andthen_safe _ _ k k w Hc ltac:(lia)).
      * unfold tick_register. destruct (ct_dp c); [by apply safe_ret|by apply control_safe].
      * intros c1 w1 o1 _ Hc1 Hok1. unfold tick_punch. apply safe_bind. eapply safe_weaken; [apply punch_all_safe|].
        intros w2 dgs Hle _. destruct (send_udp n dgs) as [out e]. apply safe_ret. by apply (ct_later k k c1 w1 w2 Hc1 Hle).
    + intros c1 w1 o1 _ Hc1 Hok1. unfold tick_router. destruct (ct_dp c1) as [d|] eqn:Ed; [|by apply safe_ret].
      destruct (Hok1 d Ed) as [Hr Hm Hn Hb]. unfold Router_tick.
      apply safe_bind, safe_bind. eapply safe_weaken; [by apply (tick_peers_safe (r_next_index (cp_router d)) (r_mtu (cp_router d))), Hr|].
      intros w2 [ps out] _ (Hf & Hs & Hx). cbn [fst] in *. apply safe_ret. destruct (send_udp n out) as [o e].
      apply safe_ret. intros x [= <-]. constructor; cbn; try done.
      destruct Hr. constructor; cbn; rewrite ?Hs, ?Hx; done.
  - intros c1 w1 o1 _ _ Hok1. unfold tick_ping. case_match; [by apply control_safe|by apply safe_ret].
Qed.

Lemma dispatch_ok n outs b : backend_ok b -> backend_ok (fst (fst (dispatch n b outs))).
Proof.
  revert b. induction outs as [|o outs IH]; intros b Hb; [done|]. cbn [dispatch].
  assert (exists b1 out e, (match o with
    | ToHost p => let '(b, written, good) := Backend_deliver n b p in
                  (b, match written with [] => [] | _ => [ToInterface written] end,
                   if good then GoOn else Over (Err (lit "write")))
    | ToNet dg ep => let '(out, e) := send_udp n [(dg, ep)] in (b, out, e)
    end) = (b1, out, e) /\ backend_ok b1) as (b1 & out & e & -> & Hb1).
  { destruct o as [p|dg ep]; [|destruct (send_udp n [(dg, ep)]) as [out e]; by do 3 eexists].
    destruct b as [u|x]; cbn [Backend_deliver]; [|destruct (k_deliver p _) as [written good]; by do 3 eexists].
    do 3 eexists. split; [reflexivity|].
    destruct Hb as [[Hp Hbr Hport Hdev Htx] Hl]. split; [|done]. constructor; try done.
    apply no_listeners. by apply no_listeners in Hp. }
  destruct e; [|done]. specialize (IH b1 Hb1). by destruct (dispatch n b1 outs) as [[b2 o2] e2].
Qed.

Lemma route_all_safe n pkts r w :
  clock_ok (w_clock w) -> router_ok r w -> Forall (fun p => (length p <= Nat.max (r_mtu r) 1500)%nat) pkts ->
  safe (route_all n r pkts) w (fun w' x => router_ok (fst (fst x)) w' /\ r_mtu (fst (fst x)) = r_mtu r /\
    r_next_index (fst (fst x)) = r_next_index r).
Proof.
  revert r w. induction pkts as [|p pkts IH]; intros r w Hc Hok Hf; cbn [route_all]; [by apply safe_ret|].
  inversion Hf as [|? ? Hp Hf']; subst. apply safe_bind.
  eapply safe_weaken; [apply (outbound_index r p w Hc Hok Hp)|]. intros w1 [r1 dg] Hle (Hok1 & Hm1 & Hn1). cbn [fst] in *.
  destruct (send_udp n (opt_list dg)) as [o [|x]]; [|by apply safe_ret].
  apply safe_bind. eapply safe_weaken; [apply IH; [by eapply world_clock|done|by rewrite Hm1]|].
  intros w2 [[r2 o2] e2] _ (Hok2 & Hm2 & Hn2). apply safe_ret. cbn in *. split_and!; [done|congruence..].
Qed.

(** What a turn is given: a datagram that fits the tunnels it finds, listeners
    there are, packets of the interface within its MTU. *)
Definition client_fits (c : Client) (t : ClientTurn) : Prop :=
  match t with
  | CDatagram (Ok dg) => forall d, ct_dp c = Some d -> rop_fits (cp_router d) (InboundDatagram dg)
  | CDriven h =>
      (forall i, ht_accept h = Ok (Some i) -> (i < length (cl_forwards cfg))%nat) /\
      (forall b, ht_read h = Ok b -> (length b <= cl_mtu cfg)%nat)
  | _ => True
  end.

(** Every turn of a session that goes on fits what it finds. *)
Fixpoint ct_turns_fit (c : Client) (ts : list (NetTurn * ClientTurn)) (w : World) : Prop :=
  match ts with
  | [] => True
  | (n, t) :: ts' =>
      client_fits c t /\
      forall w' c' out, ct_turn ma cfg keys n c t w = Ret (w', (c', out, GoOn)) -> ct_turns_fit c' ts' w'
  end.

Lemma ct_turns_fit_always ts :
  Forall (fun t => forall c, client_fits c (snd t)) ts -> forall c w, ct_turns_fit c ts w.
Proof. induction 1 as [|[n t] ts Ht _ IH]; intros c w; cbn; auto. Qed.

(** The peers a turn can number. *)
Definition turn_sites (t : ClientTurn) : Z := match t with CReceived m => sites_in m | _ => 0 end.

Lemma turn_sites_nonneg t : 0 <= turn_sites t.
Proof. destruct t; cbn; try lia. apply sites_in_nonneg. Qed.

Lemma drive_safe c b h w :
  backend_ok b -> client_fits c (CDriven h) ->
  safe (Backend_drive b h) w (fun _ x => backend_ok (fst x) /\
    forall out, snd x = Ok out -> Forall (fun p => (length p <= cl_mtu cfg)%nat) out).
Proof.
  intros Hb [Ha Hr]. destruct b as [u|k]; cbn [Backend_drive].
  - destruct Hb as [Hu Hl]. apply safe_bind.
    eapply safe_weaken; [apply (us_op_safe (cl_mtu cfg) u (UsDrive (ht_accept h)) w Hu)|].
    { cbn. destruct (ht_accept h) as [[i|]|e]; try done. rewrite Hl. by apply Ha. }
    intros w1 [u1 r] _ (Hu1 & Hf1 & Hr1). apply safe_ret. cbn in *. split; [split; [done|congruence]|done].
  - apply safe_ret. cbn. split; [done|]. intros out E. unfold k_drive in E. destruct (ht_read h) as [b|e]; [|done].
    specialize (Hr b eq_refl). assert (length (take (kb_buf k) b) <= cl_mtu cfg)%nat as Hl by (rewrite length_take; lia).
    destruct (take (kb_buf k) b); simplify_eq; by repeat constructor.
Qed.

Lemma turn_safe_client n k c t w :
  clock_ok (w_clock w) -> 1 <= k -> ct_ok k c w -> client_fits c t -> k + turn_sites t < 2 ^ 32 ->
  safe (ct_turn ma cfg keys n c t) w (ct_post (k + turn_sites t)).
Proof.
  intros Hc Hk Hok Hf Hlt. destruct t as [m| |e| |[dg|e]|h]; cbn [ct_turn turn_sites]; rewrite ?Z.add_0_r;
    try (by apply safe_ret).
  - apply safe_bind. eapply safe_weaken; [by apply handle_message_safe|].
    intros w1 [[dp out] e] _ Hdp. by apply safe_ret.
  - by apply tick_safe.
  - unfold ct_datagram. destruct (ct_dp c) as [d|] eqn:Ed; [|by apply safe_ret]. destruct (Hok d Ed) as [Hr Hm Hn Hb].
    apply safe_bind. eapply safe_weaken; [apply inbound_index; [done|done|by apply Hf]|].
    intros w1 [r outs] _ (Hr1 & Hm1 & Hn1). cbn [fst] in *. pose proof (dispatch_ok n outs (cp_backend d) Hb) as Hb1.
    destruct (dispatch n (cp_backend d) outs) as [[b out] e]. apply safe_ret. intros x [= <-].
    constructor; cbn in *; [done|congruence|lia|done].
  - unfold ct_drive. destruct (ct_dp c) as [d|] eqn:Ed; [|by apply safe_ret]. destruct (Hok d Ed) as [Hr Hm Hn Hb].
    apply safe_bind. eapply safe_weaken; [by apply (drive_safe c)|]. intros w1 [b [pkts|e]] Hle [Hb1 Hp]; cbn [fst snd] in *.
    + apply safe_bind. eapply safe_weaken.
      { apply (route_all_safe n pkts (cp_router d) w1); [by eapply world_clock|by eapply router_later|].
        eapply Forall_impl; [by apply Hp|]. cbn. intros x Hx. rewrite Hm. lia. }
      intros w2 [[r out] e] _ (Hr2 & Hm2 & Hn2). cbn [fst] in *. apply safe_ret. intros x [= <-].
      constructor; cbn in *; [done|congruence|lia|done].
    + apply safe_ret. intros x [= <-]. constructor; cbn; [by eapply router_later|done|done|done].
Qed.

Definition sites_of (ts : list (NetTurn * ClientTurn)) : Z := foldr (fun t s => turn_sites (snd t) + s) 0 ts.

Lemma sites_of_nonneg ts : 0 <= sites_of ts.
Proof. induction ts as [|t ts IH]; cbn; [lia|]. pose proof (turn_sites_nonneg (snd t)). fold (sites_of ts). lia. Qed.

Lemma turns_safe_client ts k c w :
  clock_ok (w_clock w) -> 1 <= k -> ct_ok k c w -> ct_turns_fit c ts w ->
  k + sites_of ts < 2 ^ 32 -> safe (ct_turns ma cfg keys c ts) w (ct_post (k + sites_of ts)).
Proof.
  revert k c w. induction ts as [|[n t] ts IH]; intros k c w Hc Hk Hok Hf Hlt; cbn [ct_turns].
  { apply safe_ret. cbn. by rewrite Z.add_0_r. }
  destruct Hf as [Ht Hf']. cbn in Hlt. fold (sites_of ts) in Hlt. pose proof (sites_of_nonneg ts).
  cbn [snd] in *. pose proof (turn_sites_nonneg t). change (sites_of ((n, t) :: ts)) with (turn_sites t + sites_of ts).
  apply (andthen_safe _ _ (k + turn_sites t)); [done|lia|apply turn_safe_client; (done || lia)|].
  intros c1 w1 o1 E Hc1 Hok1. rewrite Z.add_assoc. apply IH; [done|lia|done|by eapply Hf'|lia].
Qed.

(** The same for a session that gets as far as its loop. *)
Definition olm_session_fits (ts : list (NetTurn * ClientTurn)) (w : World) : Prop :=
  (forall hp, ct_turns_fit (mkClient None hp 0) ts w) /\ 1 + sites_of ts < 2 ^ 32.

Lemma olm_session_safe cd n ts w :
  clock_ok (w_clock w) -> olm_session_fits ts w ->
  safe (olm_session ma cfg keys cd n ts) w (fun _ _ => True).
Proof.
  intros Hc [Hf Hlt]. unfold olm_session. destruct (get_token_data _ _ _ _) as [data|e]; [|by apply safe_ret].
  destruct (as_str _) as [tok|]; [|by apply safe_ret]. destruct (cd_channel cd tok) as [[]|e]; [|by apply safe_ret].
  destruct (cd_bind cd) as [[]|e]; [|by apply safe_ret]. apply safe_bind.
  eapply safe_weaken; [|intros w1 [[c out] e] _ _; by apply safe_ret].
  apply (andthen_safe _ _ 1 (1 + sites_of ts) w Hc).
  - pose proof (sites_of_nonneg ts). lia.
  - apply control_safe. by intros d.
  - intros c1 w1 o1 E Hc1 Hok1. apply turns_safe_client; [done|done|done| |done].
    unfold control in E. destruct (nt_ws n); unfold mret in E; by simplify_eq.
Qed.
End safety.

(** ** What reaches the interface *)

Section interface.
Context {C : Crypto} {B : Base64} {S : Smoltcp} {H : HashOrder} {F : Float} {J : JsonText}.

(** The packets for the host among what a datagram gave, and what was written
    to the interface. *)
Definition host_packets (outs : list Out) : list bytes :=
  omap (fun o => match o with ToHost p => Some p | ToNet _ _ => None end) outs.
Definition interface_bytes (out : list ClientOut) : list bytes :=
  omap (fun o => match o with ToInterface b => Some b | _ => None end) out.

Lemma udp_not_interface n dgs : interface_bytes (fst (send_udp n dgs)) = [].
Proof.
  induction dgs as [|[b ep] dgs IH]; [done|]. cbn [send_udp]. destruct (nt_udp n (b, ep)); [|done].
  by destruct (send_udp n dgs).
Qed.

Lemma interface_bytes_app a b : interface_bytes (a ++ b) = interface_bytes a ++ interface_bytes b.
Proof. apply omap_app. Qed.

(** One delivery to a kernel backend. *)
Lemma deliver_whole n k p :
  p <> [] -> Forall (takes_whole p) (nt_tun n p) ->
  exists good, Backend_deliver n (BKernel k) p = (BKernel k, (if (good : bool) then p else []), good).
Proof.
  intros Hne Hw. cbn [Backend_deliver]. unfold k_deliver. destruct (write_packet p (nt_tun n p)) as [out r] eqn:E.
  pose proof (packet_written_once p _ out r Hne Hw E) as Ho. destruct r as [[[]|e]|]; cbn; subst out; [by exists true|by exists false..].
Qed.

(** C34: the interface gets the packets. With a kernel backend and a device
    that takes packets whole, as a TUN device does, what a datagram brings for
    the host is written to the interface packet by packet: unchanged, in order,
    each once, all of them if the session goes on and a first part of them if a
    write fails. *)
Theorem interface_gets_packets n k outs b out e :
  Forall (fun p => p <> [] /\ Forall (takes_whole p) (nt_tun n p)) (host_packets outs) ->
  dispatch n (BKernel k) outs = (b, out, e) ->
  b = BKernel k /\ interface_bytes out `prefix_of` host_packets outs /\ (e = GoOn -> interface_bytes out = host_packets outs).
Proof.
  revert b out e. induction outs as [|o outs IH]; intros b out e Hf E; cbn [dispatch] in E; [by simplify_eq|].
  destruct o as [p|dg ep].
  - cbn in Hf. inversion Hf as [|? ? [Hne Hw] Hf']; subst.
    destruct (deliver_whole n k p Hne Hw) as [good Eg]. rewrite Eg in E. destruct good.
    + destruct p as [|c p]; [done|]. set (p0 := c :: p) in *. destruct (dispatch n (BKernel k) outs) as [[b2 o2] e2] eqn:E2. simplify_eq.
      destruct (IH _ _ _ Hf' eq_refl) as (-> & Hp & He). split; [done|]. split; [by apply prefix_cons|].
      intros ->. change (p0 :: interface_bytes o2 = p0 :: host_packets outs). by rewrite He.
    + simplify_eq. split; [done|]. split; [apply prefix_nil|done].
  - pose proof (udp_not_interface n [(dg, ep)]) as Hu. destruct (send_udp n [(dg, ep)]) as [u [|r]]; cbn [fst] in Hu.
    + destruct (dispatch n (BKernel k) outs) as [[b2 o2] e2] eqn:E2. simplify_eq.
      rewrite interface_bytes_app, Hu. by apply IH.
    + simplify_eq. rewrite Hu. split; [done|]. split; [apply prefix_nil|done].
Qed.
End interface.

Section client.
Context {C : Crypto} {LC : CryptoLaws C} {B : Base64} {S : Smoltcp} {LS : SmoltcpLaws S}.
Context {H : HashOrder} {LH : HashOrderLaws H} {F : Float} {J : JsonText}.
Variables (ma : Machine) (cfg : ClientRun).

(** Along the sessions of a role. *)
Fixpoint olm_scripts_fit (keys : Keys) (scripts : list (ClientDial * NetTurn * list (NetTurn * ClientTurn)))
    (w : World) : Prop :=
  match scripts with
  | [] => True
  | (cd, n, ts) :: scripts' =>
      olm_session_fits ma cfg keys ts w /\
      forall w' out r, olm_session ma cfg keys cd n ts w = Ret (w', (out, Over r)) -> olm_scripts_fit keys scripts' w'
  end.

Definition olm_run_fits (scripts : list (ClientDial * NetTurn * list (NetTurn * ClientTurn))) (w : World) : Prop :=
  forall w' keys, generate_keys w = Ret (w', keys) -> olm_scripts_fit keys scripts w'.

Lemma olm_scripts_fit_always keys scripts :
  Forall (fun x : ClientDial * NetTurn * list (NetTurn * ClientTurn) =>
    Forall (fun t => forall c, client_fits cfg c (snd t)) (snd x) /\ 1 + sites_of (snd x) < 2 ^ 32) scripts ->
  forall w, olm_scripts_fit keys scripts w.
Proof.
  induction 1 as [|[[cd n] ts] scripts [Hx Hn] _ IH]; intros w; cbn; [done|].
  split; [|intros; apply IH]. split; [|done]. intros hp. by apply ct_turns_fit_always.
Qed.

(** The sessions that were served: one for each script, or up to one that goes
    on. *)
Definition clients_served {A B} (scripts : list A) (outs : list (B * ClientEnd)) : Prop :=
  length outs = length scripts \/ exists o, last outs = Some (o, GoOn).

Lemma olm_sessions_safe keys scripts w :
  clock_ok (w_clock w) -> olm_scripts_fit keys scripts w ->
  safe (olm_sessions ma cfg keys scripts) w (fun _ x => clients_served scripts (fst x) /\ snd x = None).
Proof.
  revert w. induction scripts as [|[[cd n] ts] scripts IH]; intros w Hc Hf; cbn [olm_sessions].
  { apply safe_ret. split; [by left|done]. }
  destruct Hf as [Ht Hf']. apply safe_bind. eapply safe_weaken; [by apply safe_eqn, olm_session_safe|].
  intros w1 [out [|r]] Hle [E _]; [apply safe_ret; split; [right; by exists out|done]|].
  apply safe_bind. eapply safe_weaken; [apply IH; [by eapply world_clock|by eapply Hf']|].
  intros w2 [outs res] _ [Hl Hr]. apply safe_ret. split; [|exact Hr]. cbn [fst] in *.
  destruct Hl as [Hl|[o Ho]]; [left; cbn; by rewrite Hl|right]. exists o. by destruct outs.
Qed.

Lemma olm_run_safe scripts w :
  clock_ok (w_clock w) -> olm_run_fits scripts w ->
  safe (olm_run ma cfg scripts) w (fun _ x => clients_served scripts (fst x) /\ snd x = None).
Proof.
  intros Hc Hf. unfold olm_run. apply safe_bind. eapply safe_weaken; [apply safe_eqn, generate_keys_safe|].
  intros w1 keys Hle [E _]. apply olm_sessions_safe; [by eapply world_clock|by apply Hf].
Qed.

(** The client never panics and never gives up. Whatever its sessions see
    on either backend (the server's answers and messages, datagrams that fit the
    buffers, with a counter below 2^64 - 1024 if they authenticate, local
    connections, packets of the interface within its MTU) and however the
    network and the kernel answer, every turn returns, and however a session ends
    the next one follows. *)
Theorem client_never_panics scripts w :
  clock_ok (w_clock w) -> olm_run_fits scripts w ->
  exists w' outs, olm_run ma cfg scripts w = Ret (w', (outs, None)) /\ clients_served scripts outs.
Proof.
  intros Hc Hf. destruct (olm_run_safe scripts w Hc Hf) as (w' & [outs r] & E & _ & Hl & Hr). cbn in *. subst r.
  by exists w', outs.
Qed.
End client.

(** ** Witnesses *)

Import ToyJson.

Definition demo_client : ClientRun :=
  mkClientRun (lit "https://app") (lit "olm") (lit "s") [] [] 1280 false Userspace (lit "olm")
    [mkForward 8080 (lit "10.0.0.5") 80] None.
Definition demo_machine : Machine :=
  mkMachine (fun _ => true) (mkTunSys (Ok tt) (fun r => (0, r)) 2 (fun _ => 0) (Ok tt)) (fun _ => 3) 5 (fun _ => Ok (replicate 20 0)) true.
Definition demo_turn : NetTurn := mkNetTurn (fun _ => Some ep1) true (fun _ => true) (fun p => [Ok [Tun.Done (length p)]]).
Definition demo_site_json (id : Z) : json :=
  jobj [(lit "siteId", JInt id); (lit "publicKey", JStr (replicate 32 7)); (lit "endpoint", JStr (lit "1.1.1.1:51820"));
        (lit "remoteSubnets", JArr [JStr (lit "10.0.0.0/16"); JStr (lit "nonsense")])].
Definition demo_connect : WsMessage :=
  mkWsMessage olm_topic.CONNECT
    (jobj [(lit "tunnelIP", JStr (lit "100.90.0.2/24")); (lit "sites", JArr [demo_site_json 7; demo_site_json 8])]) None.
Definition demo_remove : WsMessage :=
  mkWsMessage olm_topic.PEER_REMOVE (jobj [(lit "siteId", JInt 7)]) None.
Definition demo_turns : list (NetTurn * ClientTurn) :=
  [(demo_turn, CTicked); (demo_turn, CReceived demo_connect); (demo_turn, CReceived demo_remove);
   (demo_turn, CDriven (mkHostTurn (Ok (Some 0%nat)) (Ok []))); (demo_turn, CDatagram (Ok [4; 0; 0; 0; 1; 1; 0; 0]));
   (demo_turn, CTicked)].

Definition demo_kernel : KernelBackend := mkKernel 3 3 1564.

(** Two packets and an answer, on a device that is busy once and is interrupted. *)
Definition busy_turn : NetTurn :=
  mkNetTurn (fun _ => None) true (fun _ => true) (fun p => [Ok [WouldBlock]; Ok [Interrupted; Tun.Done (length p)]]).
Definition three_outs : list Out := [ToHost ping4; ToNet [1] ep1; ToHost [69; 1]].

Lemma interface_gets_packets_witness :
  BKernel (S := ToySmoltcp) demo_kernel = BKernel demo_kernel /\
  interface_bytes [ToInterface ping4; ToPeer [1] ep1; ToInterface [69; 1]] `prefix_of` host_packets three_outs /\
  (GoOn = GoOn -> interface_bytes [ToInterface ping4; ToPeer [1] ep1; ToInterface [69; 1]] = host_packets three_outs).
Proof.
  apply (interface_gets_packets (S := ToySmoltcp) busy_turn demo_kernel three_outs).
  - repeat (apply Forall_cons_2 || apply Forall_nil_2); (split; [done|]); repeat (apply Forall_cons_2 || apply Forall_nil_2); cbn;
      repeat (apply Forall_cons_2 || apply Forall_nil_2); done.
  - vm_compute. reflexivity.
Defined.

(** A first session that the server refuses, and one that goes on. *)
Definition demo_dial : ClientDial :=
  mkClientDial (fun _ _ => Ok (lit "HTTP/1.1 200 OK" ++ CRLF2 ++
      json_print (jobj [(lit "data", jobj [(lit "token", JStr (lit "jwt"))])])))
    (fun _ => Ok tt) (Ok tt) (fun _ _ => None).
Definition refused_dial : ClientDial := mkClientDial (fun _ _ => Err (lit "refused")) (fun _ => Ok tt) (Ok tt) (fun _ _ => None).
Definition demo_scripts : list (ClientDial * NetTurn * list (NetTurn * ClientTurn)) :=
  [(refused_dial, demo_turn, []); (demo_dial, demo_turn, demo_turns)].

Lemma demo_turns_fit :
  Forall (fun t => forall c : Client (S := ToySmoltcp), client_fits demo_client c (snd t)) demo_turns.
Proof.
  repeat (apply Forall_cons_2 || apply Forall_nil_2); intros c; try exact I.
  - split; [intros i [= <-]; cbn; lia|intros b [= <-]; cbn; lia].
  - intros d _ p _. split; [by repeat constructor|]. split; [cbn [length]; lia|].
    intros q Hq. vm_compute in Hq. discriminate.
Qed.

Lemma client_never_panics_witness :
  exists w' outs, olm_run (S := ToySmoltcp) demo_machine demo_client demo_scripts (world_at 0) = Ret (w', (outs, None)) /\
    clients_served demo_scripts outs.
Proof.
  apply (client_never_panics (S := ToySmoltcp) demo_machine demo_client demo_scripts (world_at 0)).
  - apply world_at_ok.
  - intros w' keys _. apply olm_scripts_fit_always.
    repeat (apply Forall_cons_2 || apply Forall_nil_2); (split; [|vm_compute; reflexivity]);
      [apply Forall_nil_2|apply demo_turns_fit].
Defined.

Example demo_run_sends :
  match olm_run (S := ToySmoltcp) demo_machine demo_client demo_scripts (world_at 0) with
  | Ret (_, ([([], Over (Err _)); (out, GoOn)], None)) => (2 <=? length out)%nat
  | _ => false
  end = true.
Proof. vm_compute. reflexivity. Qed.

(** The table after connecting and removing a site: the other one, with the
    range that parses. *)
Definition demo_after (m : WsMessage) (dp : option ClientPlane) : option ClientPlane :=
  match handle_message (S := ToySmoltcp) demo_machine demo_turn demo_client (mkKeys secret_a []) dp m (world_at 0) with
  | Ret (_, (dp, _, _)) => dp
  | _ => None
  end.

Example demo_tables :
  plane_table (demo_after demo_remove (demo_after demo_connect None)) = Some [(8, ep1, [range16])].
Proof. vm_compute. reflexivity. Qed.

Lemma client_table_refines_witness :
  plane_table (demo_after demo_remove (demo_after demo_connect None)) =
    table_step demo_turn (plane_table (demo_after demo_connect None)) demo_remove.
Proof.
  apply (client_table_refines (S := ToySmoltcp) demo_machine demo_turn demo_client (mkKeys secret_a [])
    (demo_after demo_connect None) demo_remove (world_at 0) (world_at 0)
    (demo_after demo_remove (demo_after demo_connect None)) []).
  vm_compute. reflexivity.
Defined.
