(* ===== verification/KeyBytes.v ===== *)
(** Keys as text, [boringtun/src/serialization.rs]: 64 hexadecimal digits or
    base64. *)

From Stdlib Require Import String.
From S2P Require Import Prelude Text Ip Token Wg.

(** A slice of a string may only start and end between characters. *)
Definition char_boundary (s : list Z) (i : nat) : bool :=
  match s !! i with Some b => negb (is_cont b) | None => (i =? length s)%nat end.

(** [u8::from_str_radix(t, 16)] on two bytes: a plus sign may come first. *)
Definition hex_byte (t : bytes) : option Z :=
  match t with
  | [a; b] =>
      if a =? PLUS then to_digit 16 b
      else match to_digit 16 a, to_digit 16 b with Some x, Some y => Some (16 * x + y) | _, _ => None end
  | _ => None
  end.

(** The loop over the 32 bytes. *)
Fixpoint hex_bytes (n : nat) (i : nat) (s : str) : outcome (Result str bytes) :=
  match n with
  | O => Ret (Ok [])
  | S n' =>
      if negb (char_boundary s (i * 2) && char_boundary s (i * 2 + 2)) then Panicked
      else
        match hex_byte (slice (i * 2) (i * 2 + 2) s) with
        | None => Ret (Err (lit "Illegal character in key"))
        | Some b =>
            let! r := hex_bytes n' (i + 1) s in
            Ret (match r with Ok bs => Ok (b :: bs) | Err e => Err e end)
        end
  end.

Section keys.
Context {B : Base64}.

Definition KeyBytes_from_str (s : str) : outcome (Result str bytes) :=
  match length s with
  | 64%nat => hex_bytes 32 0 s
  | 43%nat | 44%nat =>
      match b64_decode s with
      | Ok k => if (length k =? 32)%nat then Ret (Ok k) else Ret (Err (lit "Illegal character in key"))
      | Err _ => Ret (Ok (replicate 32 0))
      end
  | _ => Ret (Err (lit "Illegal key size"))
  end.
End keys.

(** ** Hexadecimal keys *)

Definition hex_digit (n : Z) : Z := if n <? 10 then 48 + n else 87 + n.
Definition print_hex (k : bytes) : list Z := concat (map (fun b => [hex_digit (b / 16); hex_digit (b mod 16)]) k).

Lemma hex_digit_spec n : 0 <= n < 16 -> to_digit 16 (hex_digit n) = Some n /\ hex_digit n <> PLUS /\ is_cont (hex_digit n) = false.
Proof.
  intros Hn. assert (forallb (fun n => bool_decide (to_digit 16 (hex_digit n) = Some n) && negb (hex_digit n =? PLUS) &&
    negb (is_cont (hex_digit n))) (map Z.of_nat (seq 0 16)) = true) as Hall by (vm_compute; reflexivity).
  rewrite forallb_forall in Hall. specialize (Hall n). rewrite !andb_true_iff, !negb_true_iff, bool_decide_eq_true, Z.eqb_neq in Hall.
  destruct Hall as [[? ?] ?]; [|done]. apply in_map_iff. exists (Z.to_nat n). split; [lia|]. apply in_seq. lia.
Qed.

Lemma hex_lookup k i b :
  k !! i = Some b -> print_hex k !! (i * 2)%nat = Some (hex_digit (b / 16)) /\
    print_hex k !! (i * 2 + 1)%nat = Some (hex_digit (b mod 16)).
Proof.
  revert i. induction k as [|x k IH]; intros [|i] E; cbn in E; [done|done|by simplify_eq|]. exact (IH i E).
Qed.

Lemma length_print_hex k : length (print_hex k) = (length k * 2)%nat.
Proof. unfold print_hex. induction k as [|x k IH]; cbn; [done|]. by rewrite IH. Qed.

Lemma slice_two (s : list Z) i a b : s !! i = Some a -> s !! (i + 1)%nat = Some b -> slice i (i + 2) s = [a; b].
Proof.
  intros Ha Hb. unfold slice. replace (i + 2 - i)%nat with 2%nat by lia.
  rewrite (drop_S s a i Ha). rewrite (drop_S s b (S i)) by (by rewrite <- Nat.add_1_r). done.
Qed.

Lemma boundary_hex k i : bytes_ok k -> (i <= length k)%nat -> char_boundary (print_hex k) (i * 2) = true.
Proof.
  intros Hk Hi. unfold char_boundary. destruct (decide (i = length k)) as [->|Hne].
  - rewrite (lookup_ge_None_2 (print_hex k) (length k * 2)) by (rewrite length_print_hex; lia).
    rewrite length_print_hex. apply Nat.eqb_refl.
  - destruct (lookup_lt_is_Some_2 k i) as [b Hb]; [lia|]. destruct (hex_lookup k i b Hb) as [-> _].
    apply (Forall_lookup_1 _ _ _ _ Hk) in Hb. unfold byte_ok in Hb.
    by destruct (hex_digit_spec (b / 16)) as (_ & _ & ->); [dlia|].
Qed.

Lemma hex_bytes_print k n i :
  bytes_ok k -> (i + n = length k)%nat -> hex_bytes n i (print_hex k) = Ret (Ok (drop i k)).
Proof.
  intros Hk. revert i. induction n as [|n IH]; intros i Hl; cbn [hex_bytes].
  { by rewrite drop_ge by lia. }
  rewrite boundary_hex by (done || lia). replace (i * 2 + 2)%nat with ((i + 1) * 2)%nat by lia.
  rewrite boundary_hex by (done || lia). cbn [andb negb]. destruct (lookup_lt_is_Some_2 k i) as [b Hb]; [lia|].
  destruct (hex_lookup k i b Hb) as [H0 H1]. replace ((i + 1) * 2)%nat with (i * 2 + 2)%nat by lia.
  rewrite (slice_two _ _ _ _ H0 H1). pose proof (Forall_lookup_1 _ _ _ _ Hk Hb) as Hbb. unfold byte_ok in Hbb.
  destruct (hex_digit_spec (b / 16)) as (E0 & Hp & _); [dlia|]. destruct (hex_digit_spec (b mod 16)) as (E1 & _); [dlia|].
  unfold hex_byte. rewrite (proj2 (Z.eqb_neq _ _)) by done. rewrite E0, E1, IH by lia. cbn [obind].
  rewrite (drop_S k b i Hb). rewrite <- Z.div_mod by lia. by rewrite Nat.add_1_r.
Qed.

(** Hexadecimal keys are read back. The 64 digits of a 32-byte key parse to
    it. *)
Theorem key_hex_round_trip {B : Base64} k :
  bytes_ok k -> length k = 32%nat -> KeyBytes_from_str (print_hex k) = Ret (Ok k).
Proof.
  intros Hk Hl. unfold KeyBytes_from_str. rewrite length_print_hex, Hl. apply (hex_bytes_print k 32 0 Hk). lia.
Qed.

(** A text of 43 or 44 characters that is not base64 is accepted, as the key of
    all zeroes. *)
Theorem bad_base64_key_is_zero {B : Base64} s e :
  length s = 43%nat \/ length s = 44%nat -> b64_decode s = Err e ->
  KeyBytes_from_str s = Ret (Ok (replicate 32 0)).
Proof. intros Hl E. unfold KeyBytes_from_str. by destruct Hl as [-> | ->]; rewrite E. Qed.

Lemma key_hex_round_trip_witness : KeyBytes_from_str (print_hex (replicate 32 171)) = Ret (Ok (replicate 32 171)).
Proof.
  apply (key_hex_round_trip (replicate 32 171)); [|reflexivity].
  apply Forall_replicate. unfold byte_ok. lia.
Defined.
