(* ===== verification/Main.v ===== *)
(** The program, [newt/src/main.rs]: the configuration is read once, the log
    level set, and the roles it names run together until a signal stops them. *)

From Stdlib Require Import String.
From S2P Require Import Prelude Time Crypto ToyCrypto Packet RateLimiter TunnProps Text Ip Json Config Wg Holepunch Target Sm Netstack DataPlane Plane.
From S2P Require Import Connector Olm OlmFacts.

(** ** Signals *)

(** The two signals the program waits for: whether the handler of each could be
    installed, and whether it has arrived. *)
Record Signals := mkSignals {
  term_installed : bool;
  intr_installed : bool;
  terminate : bool;
  interrupt : bool
}.

(** Both handlers are installed ([expect] panics otherwise), then the wait ends
    with the first signal. *)
Definition shutdown_signal (signals : Signals) : outcome bool :=
  if negb (term_installed signals) then Panicked
  else if negb (intr_installed signals) then Panicked
  else Ret (terminate signals || interrupt signals).

(** ** The program *)

Section main.
Context {P : Platform} {C : Crypto} {B : Base64} {S : Smoltcp} {H : HashOrder} {F : Float} {J : JsonText}.
Variables (smol_ip : str -> option IpAddr) (ma : Machine).

(** What a role goes through: its sessions, and the clock and random bytes it
    sees meanwhile. *)
Definition SiteLife : Type := World * list Script.
Definition ClientLife : Type := World * list (ClientDial * NetTurn * list (NetTurn * ClientTurn)).

(** What a role has sent in each session and how the session ended; nothing for
    a role that is off. *)
Record Sent := mkSent {
  sent_site : option (list (list Output * Ending));
  sent_client : option (list (list ClientOut * ClientEnd))
}.

(** [select!] over two roles: the result of the first that has one. *)
Definition select_role (a b : option (Result str unit)) : option (Result str unit) :=
  match a with Some r => Some r | None => b end.

(** The roles that are configured, side by side, and the result once one of them
    returns. They share no state, so the order in which their turns interleave
    does not show. *)
Definition run_roles (site : option SiteRun) (client : option ClientRun) (sl : SiteLife) (cl : ClientLife)
  : outcome (Sent * option (Result str unit)) :=
  match site, client with
  | Some s, None =>
      let! (_, (a, r)) := run smol_ip s VERSION (snd sl) (fst sl) in Ret (mkSent (Some a) None, r)
  | None, Some c =>
      let! (_, (b, r)) := olm_run ma c (snd cl) (fst cl) in Ret (mkSent None (Some b), r)
  | Some s, Some c =>
      let! (_, (a, ra)) := run smol_ip s VERSION (snd sl) (fst sl) in
      let! (_, (b, rb)) := olm_run ma c (snd cl) (fst cl) in
      Ret (mkSent (Some a) (Some b), select_role ra rb)
  | None, None => Ret (mkSent None None, Some (Ok tt))
  end.

Inductive Program : Type :=
| Exit (code : Z) (message : str) (sent : Sent)
| StillRunning (level : Z) (sent : Sent).

(** The program up to some moment. [runtime] says whether the runtime could be
    built ([expect] panics otherwise). A panic aborts the program, one of either
    role and one of the signal handlers, which are installed when the roles
    start. *)
Definition main (env : str -> option str) (args : list str) (runtime : bool) (sl : SiteLife) (cl : ClientLife)
    (signals : Signals) : outcome Program :=
  match from_sources env args with
  | Err e => Ret (Exit 2 (lit "config error: " ++ e) (mkSent None None))
  | Ok cfg =>
      let level := set_level (log_level cfg) in
      if negb runtime then Panicked
      else
        let! stop := shutdown_signal signals in
        let! (sent, result) := run_roles (site cfg) (client cfg) sl cl in
        match result with
        | Some (Err e) => Ret (Exit 1 (lit "fatal: " ++ e) sent)
        | Some (Ok _) => Ret (Exit 0 [] sent)
        | None => if stop then Ret (Exit 0 (lit "shutting down") sent) else Ret (StillRunning level sent)
        end
  end.
End main.

Lemma finish_roles r cfg : finish r = Ok cfg -> site cfg <> None \/ client cfg <> None.
Proof.
  unfold finish. destruct (is_empty (r_endpoint r)); [done|].
  destruct (site_of r), (client_of r); intros; simplify_eq; cbn; naive_solver.
Qed.

(** A configuration that is accepted names a role. *)
Lemma config_names_role {P : Platform} env args cfg : from_sources env args = Ok cfg -> site cfg <> None \/ client cfg <> None.
Proof.
  unfold from_sources. destruct (read_env env VARIABLES Raw_default) as [r1|]; [|done].
  destruct (read_args args r1) as [r|]; [|done]. apply finish_roles.
Qed.

Section survives.
Context {P : Platform} {C : Crypto} {LC : CryptoLaws C} {B : Base64} {S : Smoltcp} {LS : SmoltcpLaws S}.
Context {H : HashOrder} {LH : HashOrderLaws H} {F : Float} {J : JsonText}.
Variables (smol_ip : str -> option IpAddr) (ma : Machine).

(** What the network brings fits the buffers of the role. *)
Definition site_fits (s : SiteRun) (sl : SiteLife) : Prop :=
  clock_ok (w_clock (fst sl)) /\ run_fits smol_ip s VERSION (snd sl) (fst sl).
Definition client_life_fits (c : ClientRun) (cl : ClientLife) : Prop :=
  clock_ok (w_clock (fst cl)) /\ olm_run_fits ma c (snd cl) (fst cl).

(** The roles that are configured, and no other, served their sessions one
    after another, up to one that goes on. *)
Definition served (cfg : Config) (sl : SiteLife) (cl : ClientLife) (x : Sent) : Prop :=
  match site cfg, sent_site x with
  | Some _, Some outs => all_served (snd sl) outs
  | None, None => True
  | _, _ => False
  end /\
  match client cfg, sent_client x with
  | Some _, Some outs => clients_served (snd cl) outs
  | None, None => True
  | _, _ => False
  end.

Lemma roles_survive cfg sl cl :
  (site cfg <> None \/ client cfg <> None) ->
  (forall s, site cfg = Some s -> site_fits s sl) -> (forall c, client cfg = Some c -> client_life_fits c cl) ->
  exists x, run_roles smol_ip ma (site cfg) (client cfg) sl cl = Ret (x, None) /\ served cfg sl cl x.
Proof.
  intros Hsome Hs Hcl. unfold run_roles, served.
  destruct (site cfg) as [s|].
  - destruct (Hs s eq_refl) as [Hc Hf].
    destruct (run_safe smol_ip s VERSION (snd sl) (fst sl) Hc Hf) as (w1 & [a ra] & E1 & _ & L1 & R1).
    cbn [fst snd] in *. subst ra. rewrite E1. cbn [obind].
    destruct (client cfg) as [c|]; [|eexists; by split].
    destruct (Hcl c eq_refl) as [Hc2 Hf2].
    destruct (olm_run_safe ma c (snd cl) (fst cl) Hc2 Hf2) as (w2 & [b rb] & E2 & _ & L2 & R2).
    cbn [fst snd] in *. subst rb. rewrite E2. cbn [obind]. eexists. by split.
  - destruct (client cfg) as [c|]; [|by destruct Hsome].
    destruct (Hcl c eq_refl) as [Hc2 Hf2].
    destruct (olm_run_safe ma c (snd cl) (fst cl) Hc2 Hf2) as (w2 & [b rb] & E2 & _ & L2 & R2).
    cbn [fst snd] in *. subst rb. rewrite E2. cbn [obind]. eexists. by split.
Qed.

End survives.

(** ** Witness *)

#[local] Existing Instance target64.

Import ToyJson.

(** Both roles are configured. *)
Definition both_env (k : str) : option str :=
  if bytes_eqb k (lit "PANGOLIN_ENDPOINT") then Some (lit "https://env")
  else if bytes_eqb k (lit "NEWT_ID") then Some (lit "site")
  else if bytes_eqb k (lit "NEWT_SECRET") then Some (lit "s1")
  else if bytes_eqb k (lit "OLM_ID") then Some (lit "client")
  else if bytes_eqb k (lit "OLM_SECRET") then Some (lit "s2")
  else if bytes_eqb k (lit "OLM_ACCESS_MODE") then Some (lit "userspace")
  else if bytes_eqb k (lit "OLM_FORWARDS") then Some (lit "8080:10.0.0.5:80")
  else None.

Definition both_site : SiteLife := (world_at 0, [(Connector.demo_dial, yes, demo_script)]).
Definition both_client : ClientLife := (world_at 0, demo_scripts).

Definition stopped : Signals := mkSignals true true true false.


(** Both roles come up and the program then stops. *)
Example both_roles_serve :
  match main (S := ToySmoltcp) ip_from_str demo_machine both_env [] true both_site both_client
    (mkSignals true true false true) with
  | Ret (Exit 0 _ (mkSent (Some [(a, Continue)]) (Some [([], Over (Err _)); (b, GoOn)]))) =>
      (2 <=? length a)%nat && (2 <=? length b)%nat
  | _ => false
  end = true.
Proof. vm_compute. reflexivity. Qed.

Example main_without_settings :
  main (S := ToySmoltcp) ip_from_str demo_machine (fun _ => None) [] true both_site both_client
    (mkSignals true true false false) =
    Ret (Exit 2 (lit "config error: PANGOLIN_ENDPOINT (or --endpoint) is required") (mkSent None None)).
Proof. vm_compute. reflexivity. Qed.
